(** * Stellara front end: the domain and use-case layer

    A shallow embedding of the conversation/message entities and of the
    use cases that orchestrate validation, repository calls and error
    normalisation, together with the properties the specification states
    about them.

    Conventions of the embedding:
    - a JavaScript string is the list of its UTF-16 code units;
    - a [Date] is its time value (milliseconds since the epoch) or the
      invalid date;
    - a property that the code reads with [?.] or tests for truthiness is
      an [option]: [None] stands for [undefined] / [null];
    - a function that can [throw] returns an [Outcome]; the ones that read
      the clock, draw randomness or call a repository run in the monad [M]
      over an explicit [World];
    - the JavaScript engine's own date parsing and ISO printing are taken
      through the interface [JsRuntime];
    - an array is the list of its elements; where the identity of an
      array matters (who else holds it, what a [push] on it reaches), the
      module [Aliasing] keeps arrays in a store and passes references. *)

From Stdlib Require Import ZArith List String Ascii Bool Lia QArith DecimalString.
From stdpp Require Import base option list.

Local Open Scope Z_scope.
Local Open Scope list_scope.

(** ** JavaScript strings *)

Module JsString.

(** One UTF-16 code unit. *)
Definition code_unit := N.

Definition jsstring := list code_unit.

(** A source-code literal (the literals of this code base are ASCII). *)
Definition lit (s : string) : jsstring :=
  List.map N_of_ascii (list_ascii_of_string s).

(** [s.length] *)
Definition str_length (s : jsstring) : Z := Z.of_nat (List.length s).

(** [a === b] on strings. *)
Fixpoint str_eqb (a b : jsstring) : bool :=
  match a, b with
  | [], [] => true
  | x :: a', y :: b' => N.eqb x y && str_eqb a' b'
  | _, _ => false
  end.

(** WhiteSpace and LineTerminator code points of ECMA-262: what
    [String.prototype.trim] strips and what [\s] matches. *)
Definition is_white_space (c : code_unit) : bool :=
  (N.eqb c 9 || N.eqb c 10 || N.eqb c 11 || N.eqb c 12 || N.eqb c 13
   || N.eqb c 32 || N.eqb c 160 || N.eqb c 5760
   || (N.leb 8192 c && N.leb c 8202)
   || N.eqb c 8232 || N.eqb c 8233 || N.eqb c 8239 || N.eqb c 8287
   || N.eqb c 12288 || N.eqb c 65279)%N.

Fixpoint trimStart (s : jsstring) : jsstring :=
  match s with
  | [] => []
  | c :: s' => if is_white_space c then trimStart s' else s
  end.

Definition trimEnd (s : jsstring) : jsstring := rev (trimStart (rev s)).

(** [s.trim()] *)
Definition trim (s : jsstring) : jsstring := trimEnd (trimStart s).

(** Truthiness of a string: [''] is falsy. *)
Definition nonempty (s : jsstring) : bool :=
  match s with [] => false | _ :: _ => true end.

(** Truthiness of an optional string: [undefined], [null] and [''] are
    falsy. *)
Definition truthy (o : option jsstring) : bool :=
  match o with Some s => nonempty s | None => false end.

(** [!x?.trim()]: missing, empty, or made of white space only. *)
Definition blank (o : option jsstring) : bool :=
  match o with Some s => negb (nonempty (trim s)) | None => true end.

Fixpoint startsWith (s p : jsstring) {struct p} : bool :=
  match p, s with
  | [], _ => true
  | x :: p', y :: s' => N.eqb x y && startsWith s' p'
  | _ :: _, [] => false
  end.

(** [s.includes(sub)] *)
Fixpoint includes (s sub : jsstring) : bool :=
  startsWith s sub ||
  match s with
  | [] => false
  | _ :: s' => includes s' sub
  end.

(** [list.includes(x)] on an array of strings. *)
Definition array_includes (l : list jsstring) (x : jsstring) : bool :=
  existsb (str_eqb x) l.

(** [list.join(sep)] *)
Fixpoint join (sep : jsstring) (l : list jsstring) : jsstring :=
  match l with
  | [] => []
  | [x] => x
  | x :: l' => x ++ sep ++ join sep l'
  end.

(** Decimal printing of an integral number, as a template literal
    interpolates it. *)
Definition of_Z (z : Z) : jsstring :=
  lit (NilZero.string_of_int (Z.to_int z)).

(** [s] between double quotes. *)
Definition quoted (s : jsstring) : jsstring := 34%N :: s ++ [34%N].

(** [c.repeat(n)] for a one-unit string. *)
Definition repeat_unit (c : code_unit) (n : nat) : jsstring := repeat c n.

End JsString.
Import JsString.

Arguments lit : simpl never.

(** ** Regular expressions

    The handful of [RegExp] literals the code tests strings against, as a
    small regular-expression type over predicates on code units, matched
    by derivatives. *)

Module RegExp.

Inductive regex : Type :=
| Void                                   (* matches nothing *)
| Eps                                    (* the empty string *)
| Class (p : code_unit -> bool)          (* one unit of a class *)
| Cat (r1 r2 : regex)
| Alt (r1 r2 : regex)
| Star (r : regex).

Fixpoint nullable (r : regex) : bool :=
  match r with
  | Void => false
  | Eps => true
  | Class _ => false
  | Cat r1 r2 => nullable r1 && nullable r2
  | Alt r1 r2 => nullable r1 || nullable r2
  | Star _ => true
  end.

Definition is_void (r : regex) : bool :=
  match r with Void => true | _ => false end.

Definition cat (r1 r2 : regex) : regex :=
  if is_void r1 || is_void r2 then Void else Cat r1 r2.

Definition alt (r1 r2 : regex) : regex :=
  if is_void r1 then r2 else if is_void r2 then r1 else Alt r1 r2.

Fixpoint deriv (c : code_unit) (r : regex) : regex :=
  match r with
  | Void => Void
  | Eps => Void
  | Class p => if p c then Eps else Void
  | Cat r1 r2 =>
      if nullable r1
      then alt (cat (deriv c r1) r2) (deriv c r2)
      else cat (deriv c r1) r2
  | Alt r1 r2 => alt (deriv c r1) (deriv c r2)
  | Star r' => cat (deriv c r') (Star r')
  end.

(** The whole of [s] is in the language of [r]. *)
Definition matches (r : regex) (s : jsstring) : bool :=
  nullable (fold_left (fun r c => deriv c r) s r).

(** Derived forms. *)
Definition Plus (r : regex) : regex := Cat r (Star r).
Definition Chr (a : ascii) : regex := Class (N.eqb (N_of_ascii a)).
Fixpoint Times (n : nat) (r : regex) : regex :=
  match n with O => Eps | S n' => Cat r (Times n' r) end.
Definition Any : regex := Class (fun _ => true).

(** Character classes. *)
Definition digit (c : code_unit) : bool := (N.leb 48 c && N.leb c 57)%N.
Definition upper (c : code_unit) : bool := (N.leb 65 c && N.leb c 90)%N.
Definition lower (c : code_unit) : bool := (N.leb 97 c && N.leb c 122)%N.
Definition one_of (cs : string) (c : code_unit) : bool :=
  existsb (N.eqb c) (lit cs).
Definition range (a b : ascii) (c : code_unit) : bool :=
  (N.leb (N_of_ascii a) c && N.leb c (N_of_ascii b))%N.

(** A literal: its body and whether it carries the anchors [^] and [$]
    (no literal of this code base sets the multiline flag). *)
Record RegExp := { body : regex; anchored : bool }.

(** [re.test(s)] *)
Definition test (re : RegExp) (s : jsstring) : bool :=
  if anchored re
  then matches (body re) s
  else matches (Cat (Star Any) (Cat (body re) (Star Any))) s.

End RegExp.

(** ** Dates *)

Inductive Date : Type :=
| TimeValue (ms : Z)     (* a point in time, milliseconds since the epoch *)
| InvalidDate.           (* time value NaN *)

(** [isNaN(d.getTime())] *)
Definition Date_isNaN (d : Date) : bool :=
  match d with InvalidDate => true | TimeValue _ => false end.

(** [a < b] on dates: the comparison of the time values, false as soon as
    one of them is NaN. *)
Definition Date_lt (a b : Date) : bool :=
  match a, b with
  | TimeValue x, TimeValue y => x <? y
  | _, _ => false
  end.

(** What [new Date(value)] is applied to in this code base. *)
Inductive DateInit : Type :=
| FromDate (d : Date)          (* a Date object *)
| FromString (s : jsstring)    (* a string, as [JSON.parse] leaves it *)
| FromNull                     (* [null], what an invalid date stringifies to *)
| FromUndefined.

(** The engine's date facilities that the code relies on. *)
Class JsRuntime : Type := {
  (** [new Date(s)] / [Date.parse(s)] on a string *)
  Date_parse : jsstring -> Date;
  (** [Date.prototype.toISOString] on a valid time value *)
  Date_toISOString : Z -> jsstring;
}.

(** [new Date(value)] *)
Definition new_Date `{JsRuntime} (v : DateInit) : Date :=
  match v with
  | FromDate d => d
  | FromString s => Date_parse s
  | FromNull => TimeValue 0
  | FromUndefined => InvalidDate
  end.

(** *** A reference runtime

    An executable instance of [JsRuntime] for the ISO-8601 forms of
    ECMA-262 (date-only [YYYY-MM-DD] and the full UTC form that
    [toISOString] prints, with four-digit or signed six-digit years).
    Date-only forms are UTC; any other string is an invalid date. *)

Module RefRuntime.

Definition msPerDay : Z := 86400000.

(** Day number (days since the epoch) of a proleptic Gregorian date. *)
Definition days_from_civil (y m d : Z) : Z :=
  let y' := if m <=? 2 then y - 1 else y in
  let era := y' / 400 in
  let yoe := y' - era * 400 in
  let mp := (m + 9) mod 12 in
  let doy := (153 * mp + 2) / 5 + d - 1 in
  let doe := yoe * 365 + yoe / 4 - yoe / 100 + doy in
  era * 146097 + doe - 719468.

(** The Gregorian date of a day number. *)
Definition civil_from_days (z : Z) : Z * Z * Z :=
  let z' := z + 719468 in
  let era := z' / 146097 in
  let doe := z' - era * 146097 in
  let yoe := (doe - doe / 1460 + doe / 36524 - doe / 146096) / 365 in
  let doy := doe - (365 * yoe + yoe / 4 - yoe / 100) in
  let mp := (5 * doy + 2) / 153 in
  let d := doy - (153 * mp + 2) / 5 + 1 in
  let m := if mp <? 10 then mp + 3 else mp - 9 in
  let y := yoe + era * 400 in
  (if m <=? 2 then y + 1 else y, m, d).

Definition is_leap (y : Z) : bool :=
  (y mod 4 =? 0) && (negb (y mod 100 =? 0) || (y mod 400 =? 0)).

Definition days_in_month (y m : Z) : Z :=
  if m =? 2 then (if is_leap y then 29 else 28)
  else if (m =? 4) || (m =? 6) || (m =? 9) || (m =? 11) then 30
  else 31.

(** [z], non-negative, printed on at least [n] decimal digits. *)
Definition pad (n : nat) (z : Z) : jsstring :=
  let ds := of_Z z in
  repeat 48%N (n - List.length ds) ++ ds.

Definition print_year (y : Z) : jsstring :=
  if (0 <=? y) && (y <=? 9999) then pad 4 y
  else (if y <? 0 then lit "-" else lit "+") ++ pad 6 (Z.abs y).

Definition toISOString (t : Z) : jsstring :=
  let '(y, m, d) := civil_from_days (t / msPerDay) in
  let r := t mod msPerDay in
  print_year y ++ lit "-" ++ pad 2 m ++ lit "-" ++ pad 2 d ++ lit "T"
    ++ pad 2 (r / 3600000) ++ lit ":" ++ pad 2 (r / 60000 mod 60)
    ++ lit ":" ++ pad 2 (r / 1000 mod 60) ++ lit "." ++ pad 3 (r mod 1000)
    ++ lit "Z".

Definition digit_val (c : code_unit) : option Z :=
  if RegExp.digit c then Some (Z.of_N c - 48) else None.

Fixpoint digits_val (acc : Z) (s : jsstring) : option Z :=
  match s with
  | [] => Some acc
  | c :: s' =>
      match digit_val c with
      | Some d => digits_val (10 * acc + d) s'
      | None => None
      end
  end.

(** The number written by the [len] digits of [s] from position [from]. *)
Definition field (s : jsstring) (from len : nat) : option Z :=
  let f := take len (drop from s) in
  if Nat.eqb (List.length f) len then digits_val 0 f else None.

Definition char_at (s : jsstring) (i : nat) (a : ascii) : bool :=
  match s !! i with
  | Some c => N.eqb c (N_of_ascii a)
  | None => false
  end.

(** [-MM-DD] after a year: the day number. *)
Definition parse_month_day (y : Z) (s : jsstring) : option Z :=
  if Nat.eqb (List.length s) 6 && char_at s 0 "-" && char_at s 3 "-" then
    m ← field s 1 2;
    d ← field s 4 2;
    if (1 <=? m) && (m <=? 12) && (1 <=? d) && (d <=? days_in_month y m)
    then Some (days_from_civil y m d) else None
  else None.

(** [THH:mm:ss.sssZ]: the milliseconds within the day. *)
Definition parse_time (s : jsstring) : option Z :=
  if Nat.eqb (List.length s) 14 && char_at s 0 "T" && char_at s 3 ":"
     && char_at s 6 ":" && char_at s 9 "." && char_at s 13 "Z" then
    h ← field s 1 2;
    mi ← field s 4 2;
    se ← field s 7 2;
    ms ← field s 10 3;
    if (h <=? 23) && (mi <=? 59) && (se <=? 59)
    then Some (((h * 60 + mi) * 60 + se) * 1000 + ms) else None
  else None.

(** The year and the rest of the string. *)
Definition parse_year (s : jsstring) : option (Z * jsstring) :=
  if char_at s 0 "+" then y ← field s 1 6; Some (y, drop 7 s)
  else if char_at s 0 "-" then y ← field s 1 6; Some (- y, drop 7 s)
  else y ← field s 0 4; Some (y, drop 4 s).

Definition parse (s : jsstring) : Date :=
  match parse_year s with
  | None => InvalidDate
  | Some (y, rest) =>
      match parse_month_day y (take 6 rest) with
      | None => InvalidDate
      | Some day =>
          match drop 6 rest with
          | [] => TimeValue (day * msPerDay)
          | tm =>
              match parse_time tm with
              | Some ms => TimeValue (day * msPerDay + ms)
              | None => InvalidDate
              end
          end
      end
  end.

Definition runtime : JsRuntime :=
  {| Date_parse := parse; Date_toISOString := toISOString |}.

End RefRuntime.

(** ** Numbers

    A JavaScript number, as far as [LoadConversations] looks at one: a
    finite value (every finite double is a rational), NaN or an
    infinity. *)

Inductive number : Type :=
| Finite (q : Q)
| NaN
| PosInfinity
| NegInfinity.

(** [Number.isInteger(x)] *)
Definition Number_isInteger (x : number) : bool :=
  match x with
  | Finite q => (Qnum q mod Zpos (Qden q) =? 0)
  | _ => false
  end.

(** [x < k] and [x > k] against an integer literal [k]. *)
Definition number_lt (x : number) (k : Z) : bool :=
  match x with
  | Finite q => Qnum q <? k * Zpos (Qden q)
  | NegInfinity => true
  | NaN | PosInfinity => false
  end.

Definition number_gt (x : number) (k : Z) : bool :=
  match x with
  | Finite q => k * Zpos (Qden q) <? Qnum q
  | PosInfinity => true
  | NaN | NegInfinity => false
  end.

Definition number_of_Z (z : Z) : number := Finite (inject_Z z).

(** ** Exceptions *)

(** What a [catch] clause receives: an [Error] with its message, a
    string; an [Error] whose [message] is [undefined], which a repository
    is free to throw although [new Error] never makes one; or a value that
    is not an instance of [Error]. Of the [Error]s whose message is not a
    string this is the one kept: the results of the use cases have room
    for a string or for nothing, not for another value. *)
Inductive Thrown : Type :=
| JsError (message : jsstring)
| MessagelessError
| NonError (value : jsstring).

Inductive Outcome (A : Type) : Type :=
| Normal (a : A)
| Throw (e : Thrown).
Arguments Normal {A} a.
Arguments Throw {A} e.

(** [throw new Error(msg)] *)
Definition throw_Error {A} (msg : string) : Outcome A :=
  Throw (JsError (lit msg)).

Definition is_Normal {A} (o : Outcome A) : bool :=
  match o with Normal _ => true | Throw _ => false end.

(** [{ ..., error: this.handleError(error) }]: the result that [failure]
    builds around the text of [handleError], unless [handleError] itself
    throws. *)
Definition answered {R} (failure : jsstring -> R) (text : Outcome jsstring)
    : Outcome R :=
  match text with
  | Normal e => Normal (failure e)
  | Throw t => Throw t
  end.

(** ** Entities: the records *)

Module MessageProps.
Record t : Type := {
  id : option jsstring;
  role : jsstring;
  content : option jsstring;
  timestamp : option Date;
  conversationId : option jsstring;
  spiritualThemes : option (list jsstring);
  suggestedActions : option (list jsstring);
  relatedTopics : option (list jsstring);
}.
End MessageProps.

(** [class Message { private readonly props: MessageProps }] *)
Record Message : Type := { Message_props : MessageProps.t }.

Module ConversationProps.
Record t : Type := {
  id : option jsstring;
  (** [None]: not an array *)
  messages : option (list Message);
  createdAt : option Date;
  updatedAt : option Date;
  summary : option jsstring;
  userId : option jsstring;
}.
End ConversationProps.

(** [class Conversation { private readonly props: ConversationProps }] *)
Record Conversation : Type := { Conversation_props : ConversationProps.t }.

(** The objects that [fromJSON] reads: the shape of the props, with the
    date fields still to be given to [new Date(...)]. *)
Module MessageJSON.
Record t : Type := {
  id : option jsstring;
  role : jsstring;
  content : option jsstring;
  timestamp : DateInit;
  conversationId : option jsstring;
  spiritualThemes : option (list jsstring);
  suggestedActions : option (list jsstring);
  relatedTopics : option (list jsstring);
}.
End MessageJSON.

Module ConversationJSON.
Record t : Type := {
  id : option jsstring;
  createdAt : DateInit;
  updatedAt : DateInit;
  summary : option jsstring;
  userId : option jsstring;
  messages : list MessageJSON.t;
}.
End ConversationJSON.

(** ** Repository interfaces: the records (IAiRepository.ts,
    IAuthRepository.ts) *)

Module UserProfile.
(** [userContext] of a chat request *)
Record t : Type := {
  spiritualInterests : option (list jsstring);
  experienceLevel : option jsstring;
  preferredPractices : option (list jsstring);
}.
End UserProfile.

Module ChatContext.
Record t : Type := {
  userProfile : option UserProfile.t;
  location : option jsstring;
  timeOfDay : option jsstring;
}.
End ChatContext.

Module ChatRequest.
Record t : Type := {
  message : option jsstring;
  conversationId : option jsstring;
  context : ChatContext.t;
}.
End ChatRequest.

Module ChatResponse.
Record t : Type := {
  message : jsstring;
  conversationId : jsstring;
  spiritualThemes : list jsstring;
  suggestedActions : option (list jsstring);
  relatedTopics : option (list jsstring);
  timestamp : Date;
}.
End ChatResponse.

Module GuidanceContext.
Record t : Type := {
  spiritualGoals : option (list jsstring);
  currentChallenges : option (list jsstring);
  experienceLevel : option jsstring;
  preferredPractices : option (list jsstring);
  timeAvailable : option jsstring;
  previousExperiences : option (list jsstring);
}.
End GuidanceContext.

Module SpiritualGuidanceRequest.
Record t : Type := {
  topic : option jsstring;
  userContext : option GuidanceContext.t;
}.
End SpiritualGuidanceRequest.

Module PracticeRecommendation.
Record t : Type := {
  name : jsstring;
  description : jsstring;
  duration : jsstring;
  difficulty : jsstring;
  materials : option (list jsstring);
  steps : option (list jsstring);
}.
End PracticeRecommendation.

Module SpiritualGuidanceResponse.
Record t : Type := {
  guidance : jsstring;
  practiceRecommendations : list PracticeRecommendation.t;
  crystalRecommendations : option (list jsstring);
  affirmations : option (list jsstring);
  journalPrompts : option (list jsstring);
  nextSteps : list jsstring;
  relatedTopics : option (list jsstring);
}.
End SpiritualGuidanceResponse.

Module BirthInfo.
Record t : Type := {
  dateOfBirth : option jsstring;
  timeOfBirth : option jsstring;
  placeOfBirth : option jsstring;
  timezone : option jsstring;
}.
End BirthInfo.

Module AstrologyRequest.
Record t : Type := {
  birthInfo : BirthInfo.t;
  readingType : option jsstring;
  partnerBirthInfo : option BirthInfo.t;
}.
End AstrologyRequest.

Module PlanetaryInfluence.
Record t : Type := {
  planet : jsstring;
  house : jsstring;
  sign : option jsstring;
  influence : jsstring;
  strength : jsstring;
  description : option jsstring;
}.
End PlanetaryInfluence.

Module LuckyElements.
Record t : Type := {
  colors : list jsstring;
  numbers : list number;
  gemstones : list jsstring;
  days : option (list jsstring);
}.
End LuckyElements.

Module AstrologyResponse.
Record t : Type := {
  reading : jsstring;
  planetaryInfluences : list PlanetaryInfluence.t;
  luckyElements : LuckyElements.t;
  guidance : jsstring;
  challenges : list jsstring;
  opportunities : list jsstring;
  compatibilityScore : option number;
  nextRecommendedReading : option jsstring;
}.
End AstrologyResponse.

Module LoginCredentials.
Record t : Type := { email : jsstring; password : jsstring }.
End LoginCredentials.

Module RegisterData.
Record t : Type := {
  email : jsstring;
  password : jsstring;
  firstName : jsstring;
  lastName : jsstring;
}.
End RegisterData.

Module AuthTokens.
Record t : Type := { accessToken : jsstring; refreshToken : jsstring }.
End AuthTokens.

Module UserProps.
Record t : Type := {
  id : jsstring;
  email : jsstring;
  firstName : jsstring;
  lastName : jsstring;
  subscriptionTier : jsstring;
  createdAt : Date;
}.
End UserProps.

Record User : Type := { User_props : UserProps.t }.

Module AuthResult.
Record t : Type := { user : User; tokens : AuthTokens.t }.
End AuthResult.

(** ** The world: clock, randomness and the log of repository calls *)

Inductive RepoCall : Type :=
| Call_sendChatMessage (request : ChatRequest.t)
| Call_requestSpiritualGuidance (request : SpiritualGuidanceRequest.t)
| Call_requestAstrologyReading (request : AstrologyRequest.t)
| Call_saveConversation (conversation : Conversation)
| Call_loadConversations (limit : option number)
| Call_login (credentials : LoginCredentials.t)
| Call_register (data : RegisterData.t)
| Call_storeTokens (tokens : AuthTokens.t).

Record World : Type := {
  (** the [k]-th reading of the system clock ([Date.now()], [new Date()]),
      in milliseconds; nothing makes successive readings increase *)
  clock : nat -> Z;
  clock_reads : nat;
  (** the [k]-th value of [Math.random().toString(36).substr(2, 9)] *)
  random : nat -> jsstring;
  random_reads : nat;
  (** the repository calls made so far, oldest first *)
  calls : list RepoCall;
}.

(** Computations that may throw, over the world. *)
Definition M (A : Type) : Type := World -> Outcome A * World.

Definition ret {A} (a : A) : M A := fun w => (Normal a, w).

Definition bind {A B} (m : M A) (k : A -> M B) : M B :=
  fun w =>
    match m w with
    | (Normal a, w') => k a w'
    | (Throw e, w') => (Throw e, w')
    end.

(** A pure computation that may throw, run in place. *)
Definition lift {A} (o : Outcome A) : M A := fun w => (o, w).

(** [try { body } catch (error) { handler }] *)
Definition try_catch {A} (body : M A) (handler : Thrown -> M A) : M A :=
  fun w =>
    match body w with
    | (Normal a, w') => (Normal a, w')
    | (Throw e, w') => handler e w'
    end.

#[global] Instance M_ret : MRet M := @ret.
#[global] Instance M_bind : MBind M := fun A B k m => bind m k.

(** [Date.now()] *)
Definition Date_now : M Z :=
  fun w =>
    (Normal (clock w (clock_reads w)),
     {| clock := clock w; clock_reads := S (clock_reads w);
        random := random w; random_reads := random_reads w;
        calls := calls w |}).

(** [new Date()] *)
Definition new_Date_now : M Date :=
  fun w =>
    match Date_now w with
    | (Normal t, w') => (Normal (TimeValue t), w')
    | (Throw e, w') => (Throw e, w')
    end.

(** [Math.random().toString(36).substr(2, 9)] *)
Definition Math_random_suffix : M jsstring :=
  fun w =>
    (Normal (random w (random_reads w)),
     {| clock := clock w; clock_reads := clock_reads w;
        random := random w; random_reads := S (random_reads w);
        calls := calls w |}).

(** A call through a repository interface: it is logged, and the
    repository's answer (a value or a rejection) is the outcome of the
    [await]. *)
Definition repo_call {A} (c : RepoCall) (answer : Outcome A) : M A :=
  fun w =>
    (answer,
     {| clock := clock w; clock_reads := clock_reads w;
        random := random w; random_reads := random_reads w;
        calls := calls w ++ [c] |}).

(** The engine's [TypeError], raised when a property of [undefined] is
    read or a non-iterable is spread. *)
Definition TypeError : Thrown := JsError (lit "TypeError").

(** [a === b] on optional strings. *)
Definition strict_eq (a b : option jsstring) : bool :=
  match a, b with
  | Some x, Some y => str_eqb x y
  | None, None => true
  | _, _ => false
  end.

(** ** Message (the entity Message.ts) *)

Definition Message_validateMessage (props : MessageProps.t) : Outcome unit :=
  if blank (MessageProps.id props) then
    throw_Error "Message ID is required"
  else if blank (MessageProps.content props) then
    throw_Error "Message content cannot be empty"
  else
    match MessageProps.content props with
    | None => Throw TypeError
    | Some content =>
        if 2000 <? str_length content then
          throw_Error "Message too long. Please keep messages under 2000 characters."
        else if negb (array_includes [lit "user"; lit "assistant"]
                        (MessageProps.role props)) then
          Throw (JsError (lit "Invalid message role. Must be "
                            ++ quoted (lit "user") ++ lit " or "
                            ++ quoted (lit "assistant")))
        else
          match MessageProps.timestamp props with
          | None => throw_Error "Message timestamp is required"
          | Some _ => Normal tt
          end
    end.

(** [new Message(props)] *)
Definition Message_new (props : MessageProps.t) : Outcome Message :=
  match Message_validateMessage props with
  | Throw e => Throw e
  | Normal _ => Normal {| Message_props := props |}
  end.

(** Getters. *)
Definition Message_id (this : Message) : option jsstring :=
  MessageProps.id (Message_props this).
Definition Message_role (this : Message) : jsstring :=
  MessageProps.role (Message_props this).
Definition Message_content (this : Message) : option jsstring :=
  MessageProps.content (Message_props this).
Definition Message_timestamp (this : Message) : option Date :=
  MessageProps.timestamp (Message_props this).
Definition Message_conversationId (this : Message) : option jsstring :=
  MessageProps.conversationId (Message_props this).
Definition Message_spiritualThemes (this : Message) : list jsstring :=
  default [] (MessageProps.spiritualThemes (Message_props this)).
Definition Message_suggestedActions (this : Message) : list jsstring :=
  default [] (MessageProps.suggestedActions (Message_props this)).
Definition Message_relatedTopics (this : Message) : list jsstring :=
  default [] (MessageProps.relatedTopics (Message_props this)).

Definition Message_isFromUser (this : Message) : bool :=
  str_eqb (Message_role this) (lit "user").
Definition Message_isFromAssistant (this : Message) : bool :=
  str_eqb (Message_role this) (lit "assistant").

(** [Message.createUserMessage(content, conversationId)] *)
Definition Message_createUserMessage
    (content : jsstring) (conversationId : option jsstring) : M Message :=
  now ← Date_now;
  suffix ← Math_random_suffix;
  timestamp ← new_Date_now;
  lift (Message_new
    {| MessageProps.id := Some (lit "user-" ++ of_Z now ++ lit "-" ++ suffix);
       MessageProps.role := lit "user";
       MessageProps.content := Some (trim content);
       MessageProps.timestamp := Some timestamp;
       MessageProps.conversationId := conversationId;
       MessageProps.spiritualThemes := None;
       MessageProps.suggestedActions := None;
       MessageProps.relatedTopics := None |}).

(** [Message.createAssistantMessage(content, conversationId,
    spiritualThemes, suggestedActions, relatedTopics)] *)
Definition Message_createAssistantMessage
    (content : jsstring) (conversationId : option jsstring)
    (spiritualThemes suggestedActions relatedTopics : option (list jsstring))
    : M Message :=
  now ← Date_now;
  suffix ← Math_random_suffix;
  timestamp ← new_Date_now;
  lift (Message_new
    {| MessageProps.id :=
         Some (lit "assistant-" ++ of_Z now ++ lit "-" ++ suffix);
       MessageProps.role := lit "assistant";
       MessageProps.content := Some (trim content);
       MessageProps.timestamp := Some timestamp;
       MessageProps.conversationId := conversationId;
       MessageProps.spiritualThemes := spiritualThemes;
       MessageProps.suggestedActions := suggestedActions;
       MessageProps.relatedTopics := relatedTopics |}).

(** [this.equals(other)] *)
Definition Message_equals (this other : Message) : bool :=
  strict_eq (Message_id this) (Message_id other).

(** [this.toJSON()]: a shallow copy of the props. *)
Definition Message_toJSON (this : Message) : MessageProps.t :=
  Message_props this.

(** [Message.fromJSON(json)] *)
Definition Message_fromJSON `{JsRuntime} (json : MessageJSON.t)
    : Outcome Message :=
  Message_new
    {| MessageProps.id := MessageJSON.id json;
       MessageProps.role := MessageJSON.role json;
       MessageProps.content := MessageJSON.content json;
       MessageProps.timestamp := Some (new_Date (MessageJSON.timestamp json));
       MessageProps.conversationId := MessageJSON.conversationId json;
       MessageProps.spiritualThemes := MessageJSON.spiritualThemes json;
       MessageProps.suggestedActions := MessageJSON.suggestedActions json;
       MessageProps.relatedTopics := MessageJSON.relatedTopics json |}.

(** ** Conversation (the entity Conversation.ts) *)

Definition Conversation_validateConversation (props : ConversationProps.t)
    : Outcome unit :=
  if blank (ConversationProps.id props) then
    throw_Error "Conversation ID is required"
  else
    match ConversationProps.messages props with
    | None => throw_Error "Messages must be an array"
    | Some _ =>
        match ConversationProps.createdAt props with
        | None => throw_Error "Conversation creation date is required"
        | Some createdAt =>
            match ConversationProps.updatedAt props with
            | None => throw_Error "Conversation update date is required"
            | Some updatedAt =>
                if Date_lt updatedAt createdAt then
                  throw_Error "Update date cannot be before creation date"
                else Normal tt
            end
        end
    end.

(** [new Conversation(props)]; the message array is copied. *)
Definition Conversation_new (props : ConversationProps.t)
    : Outcome Conversation :=
  match Conversation_validateConversation props with
  | Throw e => Throw e
  | Normal _ => Normal {| Conversation_props := props |}
  end.

(** The message array held by a conversation. The constructor is the
    only way to a [Conversation], and it leaves an array there
    ([Conversation_new_holds_array] below). *)
Definition Conversation_stored (this : Conversation) : list Message :=
  default [] (ConversationProps.messages (Conversation_props this)).

(** Getters. *)
Definition Conversation_id (this : Conversation) : option jsstring :=
  ConversationProps.id (Conversation_props this).
Definition Conversation_messages (this : Conversation) : list Message :=
  Conversation_stored this.
Definition Conversation_createdAt (this : Conversation) : option Date :=
  ConversationProps.createdAt (Conversation_props this).
Definition Conversation_updatedAt (this : Conversation) : option Date :=
  ConversationProps.updatedAt (Conversation_props this).
Definition Conversation_summary (this : Conversation) : option jsstring :=
  ConversationProps.summary (Conversation_props this).
Definition Conversation_userId (this : Conversation) : option jsstring :=
  ConversationProps.userId (Conversation_props this).

Definition Conversation_isEmpty (this : Conversation) : bool :=
  Z.of_nat (List.length (Conversation_stored this)) =? 0.

Definition Conversation_getMessageCount (this : Conversation) : Z :=
  Z.of_nat (List.length (Conversation_stored this)).

Definition Conversation_getLastMessage (this : Conversation)
    : option Message :=
  if Conversation_isEmpty this then None
  else last (Conversation_stored this).

Definition Conversation_getFirstMessage (this : Conversation)
    : option Message :=
  if Conversation_isEmpty this then None
  else head (Conversation_stored this).

Definition Conversation_hasUserStarted (this : Conversation) : bool :=
  match Conversation_getFirstMessage this with
  | Some firstMessage => Message_isFromUser firstMessage
  | None => false
  end.

(** [this.addMessage(message)] *)
Definition Conversation_addMessage (this : Conversation) (message : Message)
    : M Conversation :=
  if truthy (Message_conversationId message)
     && negb (strict_eq (Message_conversationId message) (Conversation_id this))
  then lift (throw_Error "Message conversation ID does not match")
  else
    let newMessages := Conversation_stored this ++ [message] in
    now ← new_Date_now;
    lift (Conversation_new
      {| ConversationProps.id := Conversation_id this;
         ConversationProps.messages := Some newMessages;
         ConversationProps.createdAt := Conversation_createdAt this;
         ConversationProps.updatedAt := Some now;
         ConversationProps.summary := Conversation_summary this;
         ConversationProps.userId := Conversation_userId this |}).

(** [this.updateSummary(summary)] *)
Definition Conversation_updateSummary (this : Conversation)
    (summary : option jsstring) : M Conversation :=
  if blank summary then lift (throw_Error "Summary cannot be empty")
  else
    now ← new_Date_now;
    lift (Conversation_new
      {| ConversationProps.id := Conversation_id this;
         ConversationProps.messages := Some (Conversation_stored this);
         ConversationProps.createdAt := Conversation_createdAt this;
         ConversationProps.updatedAt := Some now;
         ConversationProps.summary := trim <$> summary;
         ConversationProps.userId := Conversation_userId this |}).

(** [Conversation.createNew(userId)] *)
Definition Conversation_createNew (userId : option jsstring)
    : M Conversation :=
  now ← new_Date_now;
  stamp ← Date_now;
  suffix ← Math_random_suffix;
  lift (Conversation_new
    {| ConversationProps.id :=
         Some (lit "conv-" ++ of_Z stamp ++ lit "-" ++ suffix);
       ConversationProps.messages := Some [];
       ConversationProps.createdAt := Some now;
       ConversationProps.updatedAt := Some now;
       ConversationProps.summary := None;
       ConversationProps.userId := userId |}).

(** [Conversation.createWithFirstMessage(message, userId)] *)
Definition Conversation_createWithFirstMessage (message : Message)
    (userId : option jsstring) : M Conversation :=
  conversation ← Conversation_createNew userId;
  Conversation_addMessage conversation message.

Definition Conversation_equals (this other : Conversation) : bool :=
  strict_eq (Conversation_id this) (Conversation_id other).

(** A [Date] property as [new Date(...)] receives it when the object is
    handed over as it is. *)
Definition DateInit_of (d : option Date) : DateInit :=
  match d with Some x => FromDate x | None => FromUndefined end.

(** A [MessageProps] object read as the argument of [Message.fromJSON]. *)
Definition MessageJSON_of_props (p : MessageProps.t) : MessageJSON.t :=
  {| MessageJSON.id := MessageProps.id p;
     MessageJSON.role := MessageProps.role p;
     MessageJSON.content := MessageProps.content p;
     MessageJSON.timestamp := DateInit_of (MessageProps.timestamp p);
     MessageJSON.conversationId := MessageProps.conversationId p;
     MessageJSON.spiritualThemes := MessageProps.spiritualThemes p;
     MessageJSON.suggestedActions := MessageProps.suggestedActions p;
     MessageJSON.relatedTopics := MessageProps.relatedTopics p |}.

(** [this.toJSON()] *)
Definition Conversation_toJSON (this : Conversation) : ConversationJSON.t :=
  {| ConversationJSON.id := Conversation_id this;
     ConversationJSON.createdAt := DateInit_of (Conversation_createdAt this);
     ConversationJSON.updatedAt := DateInit_of (Conversation_updatedAt this);
     ConversationJSON.summary := Conversation_summary this;
     ConversationJSON.userId := Conversation_userId this;
     ConversationJSON.messages :=
       List.map (fun msg => MessageJSON_of_props (Message_toJSON msg))
         (Conversation_stored this) |}.

(** [json.messages.map(msgData => Message.fromJSON(msgData))]: the first
    element whose construction throws ends the map. *)
Fixpoint map_fromJSON `{JsRuntime} (l : list MessageJSON.t)
    : Outcome (list Message) :=
  match l with
  | [] => Normal []
  | msgData :: l' =>
      match Message_fromJSON msgData with
      | Throw e => Throw e
      | Normal m =>
          match map_fromJSON l' with
          | Throw e => Throw e
          | Normal ms => Normal (m :: ms)
          end
      end
  end.

(** [Conversation.fromJSON(json)] *)
Definition Conversation_fromJSON `{JsRuntime} (json : ConversationJSON.t)
    : Outcome Conversation :=
  match map_fromJSON (ConversationJSON.messages json) with
  | Throw e => Throw e
  | Normal messages =>
      Conversation_new
        {| ConversationProps.id := ConversationJSON.id json;
           ConversationProps.messages := Some messages;
           ConversationProps.createdAt :=
             Some (new_Date (ConversationJSON.createdAt json));
           ConversationProps.updatedAt :=
             Some (new_Date (ConversationJSON.updatedAt json));
           ConversationProps.summary := ConversationJSON.summary json;
           ConversationProps.userId := ConversationJSON.userId json |}
  end.

(** What [JSON.parse(JSON.stringify(x))] makes of a date field: a valid
    [Date] becomes its ISO string, an invalid one [null]; strings and
    arrays of strings come back as they were. *)
Definition DateInit_wire `{JsRuntime} (v : DateInit) : DateInit :=
  match v with
  | FromDate (TimeValue t) => FromString (Date_toISOString t)
  | FromDate InvalidDate => FromNull
  | other => other
  end.

Definition MessageJSON_wire `{JsRuntime} (j : MessageJSON.t) : MessageJSON.t :=
  {| MessageJSON.id := MessageJSON.id j;
     MessageJSON.role := MessageJSON.role j;
     MessageJSON.content := MessageJSON.content j;
     MessageJSON.timestamp := DateInit_wire (MessageJSON.timestamp j);
     MessageJSON.conversationId := MessageJSON.conversationId j;
     MessageJSON.spiritualThemes := MessageJSON.spiritualThemes j;
     MessageJSON.suggestedActions := MessageJSON.suggestedActions j;
     MessageJSON.relatedTopics := MessageJSON.relatedTopics j |}.

Definition ConversationJSON_wire `{JsRuntime} (j : ConversationJSON.t)
    : ConversationJSON.t :=
  {| ConversationJSON.id := ConversationJSON.id j;
     ConversationJSON.createdAt := DateInit_wire (ConversationJSON.createdAt j);
     ConversationJSON.updatedAt := DateInit_wire (ConversationJSON.updatedAt j);
     ConversationJSON.summary := ConversationJSON.summary j;
     ConversationJSON.userId := ConversationJSON.userId j;
     ConversationJSON.messages :=
       List.map MessageJSON_wire (ConversationJSON.messages j) |}.

(** ** Repository interfaces

    A repository method is asynchronous and may reject: its answer to a
    request is a value or a thrown one. Each use case calls a method at
    most once, so an arbitrary function of the request covers every
    repository. *)

Record IAiRepository : Type := {
  sendChatMessage : ChatRequest.t -> Outcome ChatResponse.t;
  requestSpiritualGuidance :
    SpiritualGuidanceRequest.t -> Outcome SpiritualGuidanceResponse.t;
  requestAstrologyReading : AstrologyRequest.t -> Outcome AstrologyResponse.t;
  saveConversation : Conversation -> Outcome unit;
  loadConversations : option number -> Outcome (list Conversation);
}.

Record IAuthRepository : Type := {
  login : LoginCredentials.t -> Outcome AuthResult.t;
  register : RegisterData.t -> Outcome AuthResult.t;
  storeTokens : AuthTokens.t -> Outcome unit;
}.

(** ** SendChatMessage (use-cases/SendChatMessage.ts) *)

Module SendChatMessageRequest.
Record t : Type := {
  message : option jsstring;
  conversation : option Conversation;
  userContext : option UserProfile.t;
  location : option jsstring;
  timeOfDay : option jsstring;
}.
End SendChatMessageRequest.

Module SendChatMessageResult.
Record t : Type := {
  success : bool;
  updatedConversation : option Conversation;
  assistantMessage : option Message;
  error : option jsstring;
}.
End SendChatMessageResult.

Definition experienceLevels : list jsstring :=
  [lit "beginner"; lit "intermediate"; lit "advanced"].

Definition SendChatMessage_validateRequest (request : SendChatMessageRequest.t)
    : option jsstring :=
  if blank (SendChatMessageRequest.message request) then
    Some (lit "Message cannot be empty")
  else if 2000 <? str_length (default [] (SendChatMessageRequest.message request))
  then
    Some (lit "Message too long. Please keep messages under 2000 characters.")
  else
    let experienceLevel :=
      SendChatMessageRequest.userContext request
        ≫= UserProfile.experienceLevel in
    if truthy experienceLevel
       && negb (array_includes experienceLevels (default [] experienceLevel))
    then
      Some (lit "Invalid experience level. Must be beginner, intermediate, or advanced.")
    else None.

(** [handleError]; calling [includes] on a message that is [undefined]
    throws a [TypeError]. *)
Definition SendChatMessage_handleError (error : Thrown) : Outcome jsstring :=
  match error with
  | JsError message =>
      Normal
        (if includes message (lit "Authentication required") then
           lit "Authentication required. Please log in."
         else if includes message (lit "Message too long") then
           lit "Message too long. Please keep messages under 2000 characters."
         else if includes message (lit "temporarily unavailable") then
           lit "AI service is temporarily unavailable. Please try again later."
         else if includes message (lit "I can only provide") then
           message
         else if includes message (lit "Invalid request data") then
           lit "Invalid request. Please check your input and try again."
         else message)
  | MessagelessError => Throw TypeError
  | NonError _ => Normal (lit "An unexpected error occurred. Please try again.")
  end.

(** The body of the [try] block of [execute]. *)
Definition SendChatMessage_body (aiRepository : IAiRepository)
    (request : SendChatMessageRequest.t) : M SendChatMessageResult.t :=
  match SendChatMessage_validateRequest request with
  | Some validationError =>
      mret {| SendChatMessageResult.success := false;
              SendChatMessageResult.updatedConversation := None;
              SendChatMessageResult.assistantMessage := None;
              SendChatMessageResult.error := Some validationError |}
  | None =>
      match SendChatMessageRequest.message request with
      | None => lift (Throw TypeError)
      | Some message =>
          userMessage ← Message_createUserMessage message
            (SendChatMessageRequest.conversation request ≫= Conversation_id);
          currentConversation ←
            match SendChatMessageRequest.conversation request with
            | Some conversation =>
                Conversation_addMessage conversation userMessage
            | None => Conversation_createWithFirstMessage userMessage None
            end;
          let chatRequest :=
            {| ChatRequest.message := SendChatMessageRequest.message request;
               ChatRequest.conversationId :=
                 Conversation_id currentConversation;
               ChatRequest.context :=
                 {| ChatContext.userProfile :=
                      SendChatMessageRequest.userContext request;
                    ChatContext.location :=
                      SendChatMessageRequest.location request;
                    ChatContext.timeOfDay :=
                      SendChatMessageRequest.timeOfDay request |} |} in
          chatResponse ← repo_call (Call_sendChatMessage chatRequest)
            (sendChatMessage aiRepository chatRequest);
          assistantMessage ← Message_createAssistantMessage
            (ChatResponse.message chatResponse)
            (Some (ChatResponse.conversationId chatResponse))
            (Some (ChatResponse.spiritualThemes chatResponse))
            (ChatResponse.suggestedActions chatResponse)
            (ChatResponse.relatedTopics chatResponse);
          finalConversation ←
            Conversation_addMessage currentConversation assistantMessage;
          _ ← repo_call (Call_saveConversation finalConversation)
            (saveConversation aiRepository finalConversation);
          mret {| SendChatMessageResult.success := true;
                  SendChatMessageResult.updatedConversation :=
                    Some finalConversation;
                  SendChatMessageResult.assistantMessage :=
                    Some assistantMessage;
                  SendChatMessageResult.error := None |}
      end
  end.

(** [execute(request)] *)
Definition SendChatMessage_execute (aiRepository : IAiRepository)
    (request : SendChatMessageRequest.t) : M SendChatMessageResult.t :=
  try_catch (SendChatMessage_body aiRepository request)
    (fun error =>
       errorText ← lift (SendChatMessage_handleError error);
       mret {| SendChatMessageResult.success := false;
               SendChatMessageResult.updatedConversation := None;
               SendChatMessageResult.assistantMessage := None;
               SendChatMessageResult.error := Some errorText |}).

(** ** LoadConversations (use-cases/LoadConversations.ts) *)

Module LoadConversationsRequest.
Record t : Type := { limit : option number }.
End LoadConversationsRequest.

Module LoadConversationsResult.
Record t : Type := {
  success : bool;
  conversations : option (list Conversation);
  error : option jsstring;
}.
End LoadConversationsResult.

Definition LoadConversations_validateRequest
    (request : LoadConversationsRequest.t) : option jsstring :=
  match LoadConversationsRequest.limit request with
  | Some limit =>
      if negb (Number_isInteger limit) || number_lt limit 1 then
        Some (lit "Limit must be a positive integer")
      else if number_gt limit 100 then
        Some (lit "Limit cannot exceed 100 conversations")
      else None
  | None => None
  end.

Definition LoadConversations_handleError (error : Thrown) : Outcome jsstring :=
  match error with
  | JsError message =>
      Normal
        (if includes message (lit "Failed to load conversations") then
           lit "Failed to load conversations. Please try again."
         else message)
  | MessagelessError => Throw TypeError
  | NonError _ =>
      Normal (lit "An unexpected error occurred while loading conversations.")
  end.

Definition LoadConversations_body (aiRepository : IAiRepository)
    (request : LoadConversationsRequest.t) : M LoadConversationsResult.t :=
  match LoadConversations_validateRequest request with
  | Some validationError =>
      mret {| LoadConversationsResult.success := false;
              LoadConversationsResult.conversations := None;
              LoadConversationsResult.error := Some validationError |}
  | None =>
      let limit := LoadConversationsRequest.limit request in
      conversations ← repo_call (Call_loadConversations limit)
        (loadConversations aiRepository limit);
      mret {| LoadConversationsResult.success := true;
              LoadConversationsResult.conversations := Some conversations;
              LoadConversationsResult.error := None |}
  end.

Definition LoadConversations_execute (aiRepository : IAiRepository)
    (request : LoadConversationsRequest.t) : M LoadConversationsResult.t :=
  try_catch (LoadConversations_body aiRepository request)
    (fun error =>
       errorText ← lift (LoadConversations_handleError error);
       mret {| LoadConversationsResult.success := false;
               LoadConversationsResult.conversations := None;
               LoadConversationsResult.error := Some errorText |}).

(** ** RequestSpiritualGuidance (use-cases/RequestSpiritualGuidance.ts) *)

Module RequestSpiritualGuidanceResult.
Record t : Type := {
  success : bool;
  guidance : option SpiritualGuidanceResponse.t;
  error : option jsstring;
}.
End RequestSpiritualGuidanceResult.

(** The local [validateStringArray] of [validateRequest]. *)
Fixpoint validateStringArray (arr : list jsstring) (name : jsstring)
    (maxLength : Z) : option jsstring :=
  match arr with
  | [] => None
  | item :: arr' =>
      if negb (nonempty (trim item)) then
        Some (lit "All " ++ name ++ lit " must be non-empty strings")
      else if maxLength <? str_length item then
        Some (name ++ lit " items must be under " ++ of_Z maxLength
                ++ lit " characters")
      else validateStringArray arr' name maxLength
  end.

(** [!Array.isArray(a) || a.length === 0] *)
Definition missing_or_empty (a : option (list jsstring)) : bool :=
  match a with Some (_ :: _) => false | _ => true end.

Definition array_length (a : option (list jsstring)) : Z :=
  Z.of_nat (List.length (default [] a)).

Definition RequestSpiritualGuidance_validateRequest
    (request : SpiritualGuidanceRequest.t) : option jsstring :=
  if blank (SpiritualGuidanceRequest.topic request) then
    Some (lit "Topic cannot be empty")
  else if 200 <? str_length (default [] (SpiritualGuidanceRequest.topic request))
  then Some (lit "Topic too long. Please keep topics under 200 characters.")
  else
    match SpiritualGuidanceRequest.userContext request with
    | None => Some (lit "User context is required")
    | Some userContext =>
        let goals := GuidanceContext.spiritualGoals userContext in
        let challenges := GuidanceContext.currentChallenges userContext in
        let practices := GuidanceContext.preferredPractices userContext in
        let experiences := GuidanceContext.previousExperiences userContext in
        if negb (truthy (GuidanceContext.experienceLevel userContext))
           || negb (array_includes experienceLevels
                      (default [] (GuidanceContext.experienceLevel userContext)))
        then
          Some (lit "Invalid experience level. Must be beginner, intermediate, or advanced.")
        else if missing_or_empty goals then
          Some (lit "At least one spiritual goal is required")
        else if missing_or_empty challenges then
          Some (lit "At least one current challenge is required")
        else if missing_or_empty practices then
          Some (lit "At least one preferred practice is required")
        else
          match experiences with
          | None => Some (lit "Previous experiences must be an array")
          | Some _ =>
              if 10 <? array_length goals then
                Some (lit "Too many spiritual goals. Please limit to 10 or fewer.")
              else if 10 <? array_length challenges then
                Some (lit "Too many challenges. Please limit to 10 or fewer.")
              else if 15 <? array_length practices then
                Some (lit "Too many preferred practices. Please limit to 15 or fewer.")
              else if 20 <? array_length experiences then
                Some (lit "Too many previous experiences. Please limit to 20 or fewer.")
              else
                match validateStringArray (default [] goals)
                        (lit "spiritual goals") 100 with
                | Some goalValidation => Some goalValidation
                | None =>
                match validateStringArray (default [] challenges)
                        (lit "challenges") 100 with
                | Some challengeValidation => Some challengeValidation
                | None =>
                match validateStringArray (default [] practices)
                        (lit "practices") 50 with
                | Some practiceValidation => Some practiceValidation
                | None =>
                match validateStringArray (default [] experiences)
                        (lit "experiences") 200 with
                | Some experienceValidation => Some experienceValidation
                | None =>
                    let timeAvailable :=
                      GuidanceContext.timeAvailable userContext in
                    if truthy timeAvailable
                       && (50 <? str_length (default [] timeAvailable))
                    then
                      Some (lit "Time available description must be under 50 characters")
                    else None
                end end end end
          end
    end.

Definition RequestSpiritualGuidance_handleError (error : Thrown) : Outcome jsstring :=
  match error with
  | JsError message =>
      Normal
        (if includes message (lit "Authentication required") then
           lit "Authentication required. Please log in."
         else if includes message (lit "Access denied") then
           lit "Access denied. Please check your permissions."
         else if includes message (lit "Too many requests") then
           lit "Too many requests. Please try again later."
         else if includes message (lit "temporarily unavailable") then
           lit "Spiritual guidance service is temporarily unavailable. Please try again later."
         else if includes message (lit "Invalid request data") then
           lit "Invalid request. Please check your input and try again."
         else if includes message (lit "Network connection failed") then
           lit "Network connection failed. Please check your internet connection."
         else message)
  | MessagelessError => Throw TypeError
  | NonError _ => Normal (lit "An unexpected error occurred. Please try again.")
  end.

Definition RequestSpiritualGuidance_body (aiRepository : IAiRepository)
    (request : SpiritualGuidanceRequest.t)
    : M RequestSpiritualGuidanceResult.t :=
  match RequestSpiritualGuidance_validateRequest request with
  | Some validationError =>
      mret {| RequestSpiritualGuidanceResult.success := false;
              RequestSpiritualGuidanceResult.guidance := None;
              RequestSpiritualGuidanceResult.error := Some validationError |}
  | None =>
      match SpiritualGuidanceRequest.topic request with
      | None => lift (Throw TypeError)
      | Some topic =>
          let guidanceRequest :=
            {| SpiritualGuidanceRequest.topic := Some (trim topic);
               SpiritualGuidanceRequest.userContext :=
                 SpiritualGuidanceRequest.userContext request |} in
          guidance ← repo_call (Call_requestSpiritualGuidance guidanceRequest)
            (requestSpiritualGuidance aiRepository guidanceRequest);
          mret {| RequestSpiritualGuidanceResult.success := true;
                  RequestSpiritualGuidanceResult.guidance := Some guidance;
                  RequestSpiritualGuidanceResult.error := None |}
      end
  end.

Definition RequestSpiritualGuidance_execute (aiRepository : IAiRepository)
    (request : SpiritualGuidanceRequest.t)
    : M RequestSpiritualGuidanceResult.t :=
  try_catch (RequestSpiritualGuidance_body aiRepository request)
    (fun error =>
       errorText ← lift (RequestSpiritualGuidance_handleError error);
       mret {| RequestSpiritualGuidanceResult.success := false;
               RequestSpiritualGuidanceResult.guidance := None;
               RequestSpiritualGuidanceResult.error := Some errorText |}).

(** ** RequestAstrologyReading (use-cases/RequestAstrologyReading.ts) *)

Module RequestAstrologyReadingResult.
Record t : Type := {
  success : bool;
  reading : option AstrologyResponse.t;
  error : option jsstring;
}.
End RequestAstrologyReadingResult.

Import RegExp.

(** [/^\d{4}-\d{2}-\d{2}$/] *)
Definition dateRegex : RegExp :=
  {| body := Cat (Times 4 (Class digit))
              (Cat (Chr "-") (Cat (Times 2 (Class digit))
                (Cat (Chr "-") (Times 2 (Class digit)))));
     anchored := true |}.

(** [/^([01]\d|2[0-3]):([0-5]\d)$/] *)
Definition timeRegex : RegExp :=
  {| body := Cat (Alt (Cat (Class (one_of "01")) (Class digit))
                      (Cat (Chr "2") (Class (range "0" "3"))))
              (Cat (Chr ":") (Cat (Class (range "0" "5")) (Class digit)));
     anchored := true |}.

(** [/^[A-Za-z_+\-0-9\/]+$/] *)
Definition timezoneRegex : RegExp :=
  {| body := Plus (Class (fun c => upper c || lower c || one_of "_+-/" c
                                   || digit c));
     anchored := true |}.

Definition allowedReadingTypes : list jsstring :=
  [lit "natal_chart"; lit "daily_horoscope"; lit "compatibility";
   lit "transit"; lit "solar_return"; lit "lunar_return";
   lit "composite_chart"; lit "synastry"].

Definition partnerReadingTypes : list jsstring :=
  [lit "compatibility"; lit "composite_chart"; lit "synastry"].

Definition RequestAstrologyReading_validateBirthInfo `{JsRuntime}
    (birthInfo : BirthInfo.t) (prefix : jsstring) : M (option jsstring) :=
  if blank (BirthInfo.dateOfBirth birthInfo) then
    mret (Some (prefix ++ lit " date of birth is required"))
  else
    let dateOfBirth := default [] (BirthInfo.dateOfBirth birthInfo) in
    if negb (test dateRegex dateOfBirth) then
      mret (Some (prefix ++ lit " date of birth must be in YYYY-MM-DD format"))
    else
      let date := new_Date (FromString dateOfBirth) in
      if Date_isNaN date then
        mret (Some (prefix ++ lit " date of birth is not a valid date"))
      else
        now ← new_Date_now;
        if Date_lt now date then
          mret (Some (prefix ++ lit " date of birth cannot be in the future"))
        else
          let minDate := new_Date (FromString (lit "1900-01-01")) in
          if Date_lt date minDate then
            mret (Some (prefix ++ lit " date of birth cannot be before 1900"))
          else if blank (BirthInfo.timeOfBirth birthInfo) then
            mret (Some (prefix ++ lit " time of birth is required"))
          else if negb (test timeRegex
                          (default [] (BirthInfo.timeOfBirth birthInfo))) then
            mret (Some (prefix
                          ++ lit " time of birth must be in HH:MM format (24-hour)"))
          else if blank (BirthInfo.placeOfBirth birthInfo) then
            mret (Some (prefix ++ lit " place of birth is required"))
          else
            let placeOfBirth := default [] (BirthInfo.placeOfBirth birthInfo) in
            if str_length placeOfBirth <? 2 then
              mret (Some (prefix
                            ++ lit " place of birth must be at least 2 characters"))
            else if 100 <? str_length placeOfBirth then
              mret (Some (prefix
                            ++ lit " place of birth must be under 100 characters"))
            else if truthy (BirthInfo.timezone birthInfo) then
              let timezone := default [] (BirthInfo.timezone birthInfo) in
              if 50 <? str_length timezone then
                mret (Some (prefix ++ lit " timezone must be under 50 characters"))
              else if negb (test timezoneRegex timezone) then
                mret (Some (prefix ++ lit " timezone format is invalid"))
              else mret None
            else mret None.

Definition RequestAstrologyReading_validateRequest `{JsRuntime}
    (request : AstrologyRequest.t) : M (option jsstring) :=
  birthValidation ← RequestAstrologyReading_validateBirthInfo
    (AstrologyRequest.birthInfo request) (lit "Your");
  match birthValidation with
  | Some e => mret (Some e)
  | None =>
      if blank (AstrologyRequest.readingType request) then
        mret (Some (lit "Reading type is required"))
      else
        let readingType := default [] (AstrologyRequest.readingType request) in
        if 100 <? str_length readingType then
          mret (Some (lit "Reading type must be under 100 characters"))
        else if negb (array_includes allowedReadingTypes (trim readingType)) then
          mret (Some (lit "Invalid reading type. Allowed types: "
                        ++ join (lit ", ") allowedReadingTypes))
        else
          match AstrologyRequest.partnerBirthInfo request with
          | Some partnerBirthInfo =>
              if negb (array_includes partnerReadingTypes (trim readingType))
              then
                mret (Some (lit "Partner birth info is not needed for "
                              ++ readingType ++ lit " reading"))
              else
                RequestAstrologyReading_validateBirthInfo partnerBirthInfo
                  (lit "Partner's")
          | None =>
              if array_includes partnerReadingTypes (trim readingType) then
                mret (Some (lit "Partner birth information is required for "
                              ++ readingType ++ lit " reading"))
              else mret None
          end
  end.

Definition RequestAstrologyReading_handleError (error : Thrown) : Outcome jsstring :=
  match error with
  | JsError message =>
      Normal
        (if includes message (lit "Authentication required") then
           lit "Authentication required. Please log in."
         else if includes message (lit "Access denied") then
           lit "Access denied. Please check your permissions."
         else if includes message (lit "Too many requests") then
           lit "Too many requests. Please try again later."
         else if includes message (lit "temporarily unavailable") then
           lit "Astrology service is temporarily unavailable. Please try again later."
         else if includes message (lit "Invalid birth data") then
           lit "Invalid birth information. Please check your date, time, and location."
         else if includes message (lit "Invalid request data") then
           lit "Invalid request. Please check your input and try again."
         else if includes message (lit "Network connection failed") then
           lit "Network connection failed. Please check your internet connection."
         else message)
  | MessagelessError => Throw TypeError
  | NonError _ => Normal (lit "An unexpected error occurred. Please try again.")
  end.

(** [x.trim()] on a property that may be missing. *)
Definition trim_prop (o : option jsstring) : Outcome jsstring :=
  match o with Some s => Normal (trim s) | None => Throw TypeError end.

Definition RequestAstrologyReading_body `{JsRuntime}
    (aiRepository : IAiRepository) (request : AstrologyRequest.t)
    : M RequestAstrologyReadingResult.t :=
  validationError ← RequestAstrologyReading_validateRequest request;
  match validationError with
  | Some e =>
      mret {| RequestAstrologyReadingResult.success := false;
              RequestAstrologyReadingResult.reading := None;
              RequestAstrologyReadingResult.error := Some e |}
  | None =>
      let birthInfo := AstrologyRequest.birthInfo request in
      place ← lift (trim_prop (BirthInfo.placeOfBirth birthInfo));
      readingType ← lift (trim_prop (AstrologyRequest.readingType request));
      partner ←
        match AstrologyRequest.partnerBirthInfo request with
        | Some partnerBirthInfo =>
            partnerPlace ←
              lift (trim_prop (BirthInfo.placeOfBirth partnerBirthInfo));
            mret (Some
              {| BirthInfo.dateOfBirth := BirthInfo.dateOfBirth partnerBirthInfo;
                 BirthInfo.timeOfBirth := BirthInfo.timeOfBirth partnerBirthInfo;
                 BirthInfo.placeOfBirth := Some partnerPlace;
                 BirthInfo.timezone := None |})
        | None => mret None
        end;
      let astrologyRequest :=
        {| AstrologyRequest.birthInfo :=
             {| BirthInfo.dateOfBirth := BirthInfo.dateOfBirth birthInfo;
                BirthInfo.timeOfBirth := BirthInfo.timeOfBirth birthInfo;
                BirthInfo.placeOfBirth := Some place;
                BirthInfo.timezone := BirthInfo.timezone birthInfo |};
           AstrologyRequest.readingType := Some readingType;
           AstrologyRequest.partnerBirthInfo := partner |} in
      reading ← repo_call (Call_requestAstrologyReading astrologyRequest)
        (requestAstrologyReading aiRepository astrologyRequest);
      mret {| RequestAstrologyReadingResult.success := true;
              RequestAstrologyReadingResult.reading := Some reading;
              RequestAstrologyReadingResult.error := None |}
  end.

Definition RequestAstrologyReading_execute `{JsRuntime}
    (aiRepository : IAiRepository) (request : AstrologyRequest.t)
    : M RequestAstrologyReadingResult.t :=
  try_catch (RequestAstrologyReading_body aiRepository request)
    (fun error =>
       errorText ← lift (RequestAstrologyReading_handleError error);
       mret {| RequestAstrologyReadingResult.success := false;
               RequestAstrologyReadingResult.reading := None;
               RequestAstrologyReadingResult.error := Some errorText |}).

(** ** LoginUser and RegisterUser (auth/domain/use-cases) *)

Module LoginResult.
Record t : Type := {
  isSuccess : bool;
  user : option User;
  tokens : option AuthTokens.t;
  error : option jsstring;
}.
End LoginResult.

Module RegisterResult.
Record t : Type := {
  isSuccess : bool;
  user : option User;
  tokens : option AuthTokens.t;
  error : option jsstring;
}.
End RegisterResult.

(** [[^\s@]] *)
Definition not_space_or_at (c : code_unit) : bool :=
  negb (is_white_space c || N.eqb c (N_of_ascii "@")).

(** [/^[^\s@]+@[^\s@]+\.[^\s@]+$/] *)
Definition emailRegex : RegExp :=
  {| body := Cat (Plus (Class not_space_or_at))
              (Cat (Chr "@") (Cat (Plus (Class not_space_or_at))
                (Cat (Chr ".") (Plus (Class not_space_or_at)))));
     anchored := true |}.

(** [/[A-Z]/] *)
Definition uppercaseRegex : RegExp :=
  {| body := Class upper; anchored := false |}.

(** The special-character class of the password policy; code unit 34 is
    the double quote. *)
Definition specialCharRegex : RegExp :=
  {| body := Class (fun c => one_of "!@#$%^&*(),.?:{}|<>~`-_+=[]\;'" c
                             || N.eqb c 34);
     anchored := false |}.

Definition login_failure (e : string) : LoginResult.t :=
  {| LoginResult.isSuccess := false; LoginResult.user := None;
     LoginResult.tokens := None; LoginResult.error := Some (lit e) |}.

(** The body of the [try] block of [LoginUser.execute]. *)
Definition LoginUser_body (authRepository : IAuthRepository)
    (credentials : LoginCredentials.t) : M LoginResult.t :=
  if negb (test emailRegex (LoginCredentials.email credentials)) then
    mret (login_failure "Invalid email format")
  else
    let password := LoginCredentials.password credentials in
    if str_length password <? 8 then
      mret (login_failure "Password must be at least 8 characters long")
    else if negb (test uppercaseRegex password) then
      mret (login_failure "Password must contain at least one uppercase letter")
    else if negb (test specialCharRegex password) then
      mret (login_failure "Password must contain at least one special character")
    else
      result ← repo_call (Call_login credentials)
        (login authRepository credentials);
      _ ← repo_call (Call_storeTokens (AuthResult.tokens result))
        (storeTokens authRepository (AuthResult.tokens result));
      mret {| LoginResult.isSuccess := true;
              LoginResult.user := Some (AuthResult.user result);
              LoginResult.tokens := Some (AuthResult.tokens result);
              LoginResult.error := None |}.

(** The [catch] clause of [LoginUser.execute]; a message that is
    [undefined] is not [===] to the literal. *)
Definition LoginUser_catch (error : Thrown) : LoginResult.t :=
  match error with
  | JsError message =>
      if str_eqb message (lit "Invalid credentials") then
        login_failure "Invalid credentials"
      else login_failure "Login failed. Please try again."
  | MessagelessError => login_failure "Login failed. Please try again."
  | NonError _ => login_failure "Login failed. Please try again."
  end.

Definition LoginUser_execute (authRepository : IAuthRepository)
    (credentials : LoginCredentials.t) : M LoginResult.t :=
  try_catch (LoginUser_body authRepository credentials)
    (fun error => mret (LoginUser_catch error)).

Definition register_failure (e : jsstring) : RegisterResult.t :=
  {| RegisterResult.isSuccess := false; RegisterResult.user := None;
     RegisterResult.tokens := None; RegisterResult.error := Some e |}.

(** The body of the [try] block of [RegisterUser.execute]. *)
Definition RegisterUser_body (authRepository : IAuthRepository)
    (data : RegisterData.t) : M RegisterResult.t :=
  if negb (test emailRegex (RegisterData.email data)) then
    mret (register_failure (lit "Invalid email format"))
  else
    let password := RegisterData.password data in
    if str_length password <? 8 then
      mret (register_failure (lit "Password must be at least 8 characters long"))
    else if negb (test uppercaseRegex password) then
      mret (register_failure
              (lit "Password must contain at least one uppercase letter"))
    else if negb (test specialCharRegex password) then
      mret (register_failure
              (lit "Password must contain at least one special character"))
    else if negb (nonempty (trim (RegisterData.firstName data))) then
      mret (register_failure (lit "First name is required"))
    else if negb (nonempty (trim (RegisterData.lastName data))) then
      mret (register_failure (lit "Last name is required"))
    else
      result ← repo_call (Call_register data) (register authRepository data);
      _ ← repo_call (Call_storeTokens (AuthResult.tokens result))
        (storeTokens authRepository (AuthResult.tokens result));
      mret {| RegisterResult.isSuccess := true;
              RegisterResult.user := Some (AuthResult.user result);
              RegisterResult.tokens := Some (AuthResult.tokens result);
              RegisterResult.error := None |}.

(** The [catch] clause of [RegisterUser.execute]; a message that is
    [undefined] goes into the result as it is. *)
Definition RegisterUser_catch (error : Thrown) : RegisterResult.t :=
  match error with
  | JsError message =>
      if str_eqb message (lit "User already exists") then
        register_failure (lit "User already exists")
      else register_failure message
  | MessagelessError =>
      {| RegisterResult.isSuccess := false; RegisterResult.user := None;
         RegisterResult.tokens := None; RegisterResult.error := None |}
  | NonError _ =>
      register_failure (lit "Registration failed. Please try again.")
  end.

Definition RegisterUser_execute (authRepository : IAuthRepository)
    (data : RegisterData.t) : M RegisterResult.t :=
  try_catch (RegisterUser_body authRepository data)
    (fun error => mret (RegisterUser_catch error)).

(** ** Specification-side predicates and sample data *)



(** The invariants of a message, as the specification lists them. *)
Definition MessageProps_valid (p : MessageProps.t) : Prop :=
  blank (MessageProps.id p) = false /\
  blank (MessageProps.content p) = false /\
  (forall c, MessageProps.content p = Some c -> str_length c <= 2000) /\
  (MessageProps.role p = lit "user" \/ MessageProps.role p = lit "assistant") /\
  MessageProps.timestamp p <> None.

Definition role_ok (p : MessageProps.t) : bool :=
  array_includes [lit "user"; lit "assistant"] (MessageProps.role p).

Definition too_long_message : string :=
  "Message too long. Please keep messages under 2000 characters.".

Definition invalid_role_message : jsstring :=
  lit "Invalid message role. Must be " ++ quoted (lit "user") ++ lit " or "
    ++ quoted (lit "assistant").

(** The props of the entity tests. *)
Definition validMessageProps : MessageProps.t :=
  {| MessageProps.id := Some (lit "test-message-1");
     MessageProps.role := lit "user";
     MessageProps.content := Some (lit "Hello, how can I find inner peace?");
     MessageProps.timestamp := Some (TimeValue 1672574400000);
     MessageProps.conversationId := Some (lit "conv-1");
     MessageProps.spiritualThemes :=
       Some [lit "inner_peace"; lit "meditation"];
     MessageProps.suggestedActions := Some [lit "Try breathing meditation"];
     MessageProps.relatedTopics :=
       Some [lit "mindfulness"; lit "stress_relief"] |}.

Definition with_content (p : MessageProps.t) (c : option jsstring)
    : MessageProps.t :=
  {| MessageProps.id := MessageProps.id p;
     MessageProps.role := MessageProps.role p;
     MessageProps.content := c;
     MessageProps.timestamp := MessageProps.timestamp p;
     MessageProps.conversationId := MessageProps.conversationId p;
     MessageProps.spiritualThemes := MessageProps.spiritualThemes p;
     MessageProps.suggestedActions := MessageProps.suggestedActions p;
     MessageProps.relatedTopics := MessageProps.relatedTopics p |}.

(** A conversation obtained from the constructor. *)
Definition Conversation_constructed (c : Conversation) : Prop :=
  exists p, Conversation_new p = Normal c.

(** A message obtained from the constructor. *)
Definition Message_constructed (m : Message) : Prop :=
  exists p, Message_new p = Normal m.

(** The world after one more reading of the clock. *)
Definition tick (w : World) : World :=
  {| clock := clock w; clock_reads := S (clock_reads w);
     random := random w; random_reads := random_reads w;
     calls := calls w |}.

(** The next reading of the clock, as a date. *)
Definition next_now (w : World) : Date := TimeValue (clock w (clock_reads w)).

(** [message.conversationId && message.conversationId !== this.id] *)
Definition conversationId_mismatch (c : Conversation) (m : Message) : bool :=
  truthy (Message_conversationId m)
  && negb (strict_eq (Message_conversationId m) (Conversation_id c)).

(** [now < this.createdAt]: the clock reading taken for [updatedAt]
    precedes the creation date. *)
Definition clock_precedes_creation (c : Conversation) (w : World) : bool :=
  match Conversation_createdAt c with
  | Some createdAt => Date_lt (next_now w) createdAt
  | None => false
  end.

(** Sample data: a conversation created at 2000 ms and a clock that reads
    1000 ms. *)
Definition sampleConversationProps (t : Z) : ConversationProps.t :=
  {| ConversationProps.id := Some (lit "conv-1");
     ConversationProps.messages := Some [];
     ConversationProps.createdAt := Some (TimeValue t);
     ConversationProps.updatedAt := Some (TimeValue t);
     ConversationProps.summary := None;
     ConversationProps.userId := None |}.

Definition sampleConversation (t : Z) : Conversation :=
  {| Conversation_props := sampleConversationProps t |}.

Definition sampleMessage (conversationId : option jsstring) : Message :=
  {| Message_props :=
       {| MessageProps.id := Some (lit "msg-1");
          MessageProps.role := lit "user";
          MessageProps.content := Some (lit "Test message");
          MessageProps.timestamp := Some (TimeValue 1000);
          MessageProps.conversationId := conversationId;
          MessageProps.spiritualThemes := None;
          MessageProps.suggestedActions := None;
          MessageProps.relatedTopics := None |} |}.

Definition sampleWorld (t : Z) : World :=
  {| clock := fun _ => t; clock_reads := 0;
     random := fun _ => lit "k3j9x0q2m"; random_reads := 0;
     calls := [] |}.

(** [message.conversationId] is a non-empty string other than [this.id]. *)
Definition conversationId_differs (c : Conversation) (m : Message) : Prop :=
  exists s, Message_conversationId m = Some s /\ s <> []
            /\ Conversation_id c <> Some s.

(** The clock reading that [addMessage] takes for [updatedAt] is earlier
    than [createdAt]. *)
Definition clock_before_creation (c : Conversation) (w : World) : Prop :=
  exists created, Conversation_createdAt c = Some created
                  /\ Date_lt (next_now w) created = true.

(** The mock repository of the use-case tests. *)
Definition mockAiRepository : IAiRepository :=
  {| sendChatMessage := fun request =>
       Normal
         {| ChatResponse.message := lit "Mocked AI response";
            ChatResponse.conversationId :=
              if truthy (ChatRequest.conversationId request)
              then default [] (ChatRequest.conversationId request)
              else lit "conv-123";
            ChatResponse.spiritualThemes := [lit "inner_peace"];
            ChatResponse.suggestedActions := Some [lit "Try meditation"];
            ChatResponse.relatedTopics := Some [lit "mindfulness"];
            ChatResponse.timestamp := TimeValue 0 |};
     requestSpiritualGuidance := fun _ =>
       Throw (JsError (lit "Not implemented in mock"));
     requestAstrologyReading := fun _ =>
       Throw (JsError (lit "Not implemented in mock"));
     saveConversation := fun _ => Normal tt;
     loadConversations := fun _ => Normal [] |}.

(** A chat request with a message and, possibly, an experience level. *)
Definition chatRequest (message : string) (experienceLevel : option jsstring)
    : SendChatMessageRequest.t :=
  {| SendChatMessageRequest.message := Some (lit message);
     SendChatMessageRequest.conversation := None;
     SendChatMessageRequest.userContext :=
       Some {| UserProfile.spiritualInterests := Some [lit "meditation"];
               UserProfile.experienceLevel := experienceLevel;
               UserProfile.preferredPractices := Some [lit "breathing"] |};
     SendChatMessageRequest.location := Some (lit "home");
     SendChatMessageRequest.timeOfDay := Some (lit "morning") |}.

Definition with_message (r : SendChatMessageRequest.t)
    (message : option jsstring) : SendChatMessageRequest.t :=
  {| SendChatMessageRequest.message := message;
     SendChatMessageRequest.conversation :=
       SendChatMessageRequest.conversation r;
     SendChatMessageRequest.userContext :=
       SendChatMessageRequest.userContext r;
     SendChatMessageRequest.location := SendChatMessageRequest.location r;
     SendChatMessageRequest.timeOfDay := SendChatMessageRequest.timeOfDay r |}.

(** The failed result of [SendChatMessage.execute]. *)
Definition chat_failure (e : jsstring) : SendChatMessageResult.t :=
  {| SendChatMessageResult.success := false;
     SendChatMessageResult.updatedConversation := None;
     SendChatMessageResult.assistantMessage := None;
     SendChatMessageResult.error := Some e |}.

(** The experience level of a chat request, when it is a non-empty
    string. *)
Definition experienceLevel_given (r : SendChatMessageRequest.t)
    (level : jsstring) : Prop :=
  exists userContext,
    SendChatMessageRequest.userContext r = Some userContext /\
    UserProfile.experienceLevel userContext = Some level /\
    level <> [].

(** The number [x] is the integer [z]. *)
Definition number_is_Z (x : number) (z : Z) : Prop :=
  match x with
  | Finite q => Qeq q (inject_Z z)
  | _ => False
  end.

(** A positive integer, as the specification words it. *)
Definition positive_integer (x : number) : Prop :=
  exists z, number_is_Z x z /\ 1 <= z.

Definition load_failure (e : jsstring) : LoadConversationsResult.t :=
  {| LoadConversationsResult.success := false;
     LoadConversationsResult.conversations := None;
     LoadConversationsResult.error := Some e |}.

Definition load_request (limit : option number) : LoadConversationsRequest.t :=
  {| LoadConversationsRequest.limit := limit |}.

(** The world after one more repository call. *)
Definition logged (c : RepoCall) (w : World) : World :=
  {| clock := clock w; clock_reads := clock_reads w;
     random := random w; random_reads := random_reads w;
     calls := calls w ++ [c] |}.

(** The input checks of [LoginUser.execute] all pass. *)
Definition login_input_valid (credentials : LoginCredentials.t) : Prop :=
  test emailRegex (LoginCredentials.email credentials) = true /\
  8 <= str_length (LoginCredentials.password credentials) /\
  test uppercaseRegex (LoginCredentials.password credentials) = true /\
  test specialCharRegex (LoginCredentials.password credentials) = true.

(** The input checks of [RegisterUser.execute] all pass. *)
Definition register_input_valid (data : RegisterData.t) : Prop :=
  test emailRegex (RegisterData.email data) = true /\
  8 <= str_length (RegisterData.password data) /\
  test uppercaseRegex (RegisterData.password data) = true /\
  test specialCharRegex (RegisterData.password data) = true /\
  nonempty (trim (RegisterData.firstName data)) = true /\
  nonempty (trim (RegisterData.lastName data)) = true.

(** The repository throws [e] during a login: from [login], or from
    [storeTokens] after [login] has answered. *)
Definition login_throws (repo : IAuthRepository)
    (credentials : LoginCredentials.t) (e : Thrown) : Prop :=
  login repo credentials = Throw e \/
  exists result, login repo credentials = Normal result
                 /\ storeTokens repo (AuthResult.tokens result) = Throw e.

Definition register_throws (repo : IAuthRepository)
    (data : RegisterData.t) (e : Thrown) : Prop :=
  register repo data = Throw e \/
  exists result, register repo data = Normal result
                 /\ storeTokens repo (AuthResult.tokens result) = Throw e.

(** The mock repository of the LoginUser tests, with a [storeTokens] that
    answers [store]. *)
Definition mockUser : User :=
  {| User_props :=
       {| UserProps.id := lit "user-123";
          UserProps.email := lit "test@example.com";
          UserProps.firstName := lit "John";
          UserProps.lastName := lit "Doe";
          UserProps.subscriptionTier := lit "free";
          UserProps.createdAt := TimeValue 0 |} |}.

Definition mockAuthResult : AuthResult.t :=
  {| AuthResult.user := mockUser;
     AuthResult.tokens :=
       {| AuthTokens.accessToken := lit "mock-access-token";
          AuthTokens.refreshToken := lit "mock-refresh-token" |} |}.

Definition mockAuthRepository (store : Outcome unit) : IAuthRepository :=
  {| login := fun credentials =>
       if str_eqb (LoginCredentials.email credentials) (lit "test@example.com")
          && str_eqb (LoginCredentials.password credentials)
               (lit "Password123!")
       then Normal mockAuthResult
       else Throw (JsError (lit "Invalid credentials"));
     register := fun data =>
       if str_eqb (RegisterData.email data) (lit "test@example.com")
       then Throw (JsError (lit "User already exists"))
       else if str_eqb (RegisterData.email data) (lit "down@example.com")
       then Throw (JsError (lit "Service unavailable: db-7 timed out"))
       else Normal mockAuthResult;
     storeTokens := fun _ => store |}.

Definition credentials (email password : string) : LoginCredentials.t :=
  {| LoginCredentials.email := lit email;
     LoginCredentials.password := lit password |}.

Definition registration (email : string) : RegisterData.t :=
  {| RegisterData.email := lit email;
     RegisterData.password := lit "Password123!";
     RegisterData.firstName := lit "John";
     RegisterData.lastName := lit "Doe" |}.

(** The world after [c] more readings of the clock and [r] more random
    draws. *)
Definition advance (c r : nat) (w : World) : World :=
  {| clock := clock w; clock_reads := c + clock_reads w;
     random := random w; random_reads := r + random_reads w;
     calls := calls w |}.

(** The props that [Message.createUserMessage] hands to the constructor,
    in the world [w]. *)
Definition userMessageProps (content : jsstring)
    (conversationId : option jsstring) (w : World) : MessageProps.t :=
  {| MessageProps.id :=
       Some (lit "user-" ++ of_Z (clock w (clock_reads w)) ++ lit "-"
               ++ random w (random_reads w));
     MessageProps.role := lit "user";
     MessageProps.content := Some (trim content);
     MessageProps.timestamp := Some (TimeValue (clock w (S (clock_reads w))));
     MessageProps.conversationId := conversationId;
     MessageProps.spiritualThemes := None;
     MessageProps.suggestedActions := None;
     MessageProps.relatedTopics := None |}.

(** The props that [Message.createAssistantMessage] hands to the
    constructor for a chat response, in the world [w]. *)
Definition assistantMessageProps (response : ChatResponse.t) (w : World)
    : MessageProps.t :=
  {| MessageProps.id :=
       Some (lit "assistant-" ++ of_Z (clock w (clock_reads w)) ++ lit "-"
               ++ random w (random_reads w));
     MessageProps.role := lit "assistant";
     MessageProps.content := Some (trim (ChatResponse.message response));
     MessageProps.timestamp := Some (TimeValue (clock w (S (clock_reads w))));
     MessageProps.conversationId := Some (ChatResponse.conversationId response);
     MessageProps.spiritualThemes := Some (ChatResponse.spiritualThemes response);
     MessageProps.suggestedActions := ChatResponse.suggestedActions response;
     MessageProps.relatedTopics := ChatResponse.relatedTopics response |}.

(** The request that [execute] sends to the repository for the current
    conversation. *)
Definition chatRequest_of (request : SendChatMessageRequest.t)
    (currentConversation : Conversation) : ChatRequest.t :=
  {| ChatRequest.message := SendChatMessageRequest.message request;
     ChatRequest.conversationId := Conversation_id currentConversation;
     ChatRequest.context :=
       {| ChatContext.userProfile := SendChatMessageRequest.userContext request;
          ChatContext.location := SendChatMessageRequest.location request;
          ChatContext.timeOfDay := SendChatMessageRequest.timeOfDay request |} |}.

(** The two phases of [SendChatMessage.execute] after validation, named
    for the proofs: the user message and the current conversation are
    built, then comes the exchange with the repository
    ([SendChatMessage_body_phases] relates them to the body). *)
Definition SendChatMessage_prepare (request : SendChatMessageRequest.t)
    (message : jsstring) : M (Message * Conversation) :=
  userMessage ← Message_createUserMessage message
    (SendChatMessageRequest.conversation request ≫= Conversation_id);
  currentConversation ←
    match SendChatMessageRequest.conversation request with
    | Some conversation => Conversation_addMessage conversation userMessage
    | None => Conversation_createWithFirstMessage userMessage None
    end;
  mret (userMessage, currentConversation).

Definition SendChatMessage_exchange (aiRepository : IAiRepository)
    (request : SendChatMessageRequest.t) (currentConversation : Conversation)
    : M SendChatMessageResult.t :=
  chatResponse ←
    repo_call (Call_sendChatMessage (chatRequest_of request currentConversation))
      (sendChatMessage aiRepository (chatRequest_of request currentConversation));
  assistantMessage ← Message_createAssistantMessage
    (ChatResponse.message chatResponse)
    (Some (ChatResponse.conversationId chatResponse))
    (Some (ChatResponse.spiritualThemes chatResponse))
    (ChatResponse.suggestedActions chatResponse)
    (ChatResponse.relatedTopics chatResponse);
  finalConversation ←
    Conversation_addMessage currentConversation assistantMessage;
  _ ← repo_call (Call_saveConversation finalConversation)
    (saveConversation aiRepository finalConversation);
  mret {| SendChatMessageResult.success := true;
          SendChatMessageResult.updatedConversation := Some finalConversation;
          SendChatMessageResult.assistantMessage := Some assistantMessage;
          SendChatMessageResult.error := None |}.

(** The request is one that validation accepts. *)
Definition chat_request_valid (request : SendChatMessageRequest.t) : Prop :=
  SendChatMessage_validateRequest request = None.

(** The clock does not run backwards from its current reading on. *)
Definition clock_monotone (w : World) : Prop :=
  forall i j, (clock_reads w <= i)%nat -> (i <= j)%nat ->
              clock w i <= clock w j.

(** The conversation of the request, if any, was built by the
    constructor and was not created after the current clock reading. *)
Definition conversation_of_the_past (request : SendChatMessageRequest.t)
    (w : World) : Prop :=
  forall c, SendChatMessageRequest.conversation request = Some c ->
    Conversation_constructed c /\
    forall t, Conversation_createdAt c = Some (TimeValue t) ->
              t <= clock w (clock_reads w).

(** The conversation that [addMessage] builds from [c], [m] and the clock
    reading [now]. *)
Definition appended (c : Conversation) (m : Message) (now : Date)
    : Conversation :=
  {| Conversation_props :=
       {| ConversationProps.id := Conversation_id c;
          ConversationProps.messages := Some (Conversation_stored c ++ [m]);
          ConversationProps.createdAt := Conversation_createdAt c;
          ConversationProps.updatedAt := Some now;
          ConversationProps.summary := Conversation_summary c;
          ConversationProps.userId := Conversation_userId c |} |}.

(** The conversation that [Conversation.createNew()] builds in [w]. *)
Definition created (userId : option jsstring) (w : World) : Conversation :=
  {| Conversation_props :=
       {| ConversationProps.id :=
            Some (lit "conv-" ++ of_Z (clock w (S (clock_reads w))) ++ lit "-"
                    ++ random w (random_reads w));
          ConversationProps.messages := Some [];
          ConversationProps.createdAt :=
            Some (TimeValue (clock w (clock_reads w)));
          ConversationProps.updatedAt :=
            Some (TimeValue (clock w (clock_reads w)));
          ConversationProps.summary := None;
          ConversationProps.userId := userId |} |}.

Definition chat_success (finalConversation : Conversation)
    (assistantMessage : Message) : SendChatMessageResult.t :=
  {| SendChatMessageResult.success := true;
     SendChatMessageResult.updatedConversation := Some finalConversation;
     SendChatMessageResult.assistantMessage := Some assistantMessage;
     SendChatMessageResult.error := None |}.

(** The messages of the conversation the request came with. *)
Definition prior_messages (request : SendChatMessageRequest.t)
    : list Message :=
  match SendChatMessageRequest.conversation request with
  | Some c => Conversation_messages c
  | None => []
  end.

(** [w'] is [w] later on: the same clock and random source, read further,
    and a longer log of calls. *)
Definition later (w w' : World) : Prop :=
  clock w' = clock w /\ random w' = random w /\
  (clock_reads w <= clock_reads w')%nat /\
  (random_reads w <= random_reads w')%nat /\
  exists made, calls w' = calls w ++ made.

(** [c] was not created after the time [bound]. *)
Definition created_by (c : Conversation) (bound : Z) : Prop :=
  forall t, Conversation_createdAt c = Some (TimeValue t) -> t <= bound.

(** The repository answers every chat request that names a conversation
    with a response that the rest of [execute] accepts: a message of 1 to
    2000 units once trimmed, and the conversation id of the request (or
    none). *)
Definition answers_well (repo : IAiRepository) : Prop :=
  forall request,
    truthy (ChatRequest.conversationId request) = true ->
    exists response,
      sendChatMessage repo request = Normal response /\
      nonempty (trim (ChatResponse.message response)) = true /\
      str_length (trim (ChatResponse.message response)) <= 2000 /\
      (ChatResponse.conversationId response = []
       \/ ChatRequest.conversationId request
          = Some (ChatResponse.conversationId response)).

(** The [catch] clause of [SendChatMessage.execute], applied to the
    outcome of the [try] block. *)
Definition chat_caught (r : Outcome SendChatMessageResult.t * World)
    : Outcome SendChatMessageResult.t * World :=
  match r with
  | (Normal res, w) => (Normal res, w)
  | (Throw e, w) => (answered chat_failure (SendChatMessage_handleError e), w)
  end.

(** The first message of the conversation of a result, and the message
    of the first chat request among the calls. *)
Definition first_stored_content (r : Outcome SendChatMessageResult.t)
    : option jsstring :=
  match r with
  | Normal res =>
      c ← SendChatMessageResult.updatedConversation res;
      m ← head (Conversation_messages c);
      Message_content m
  | Throw _ => None
  end.

Definition first_wire_message (l : list RepoCall) : option jsstring :=
  match l with
  | Call_sendChatMessage request :: _ => ChatRequest.message request
  | _ => None
  end.


Definition present {A} (o : option A) : bool :=
  match o with Some _ => true | None => false end.














Definition reading_failure (e : jsstring) : RequestAstrologyReadingResult.t :=
  {| RequestAstrologyReadingResult.success := false;
     RequestAstrologyReadingResult.reading := None;
     RequestAstrologyReadingResult.error := Some e |}.

(** The run [run], started in [w], failed with the error [e] and made no
    repository call. *)
Definition fails_with (run : Outcome RequestAstrologyReadingResult.t * World)
    (w : World) (e : jsstring) : Prop :=
  fst run = Normal (reading_failure e) /\ calls (snd run) = calls w.

(** The birth info passes [validateBirthInfo] in the world [w]. *)
Definition birthInfo_valid `{JsRuntime} (birthInfo : BirthInfo.t) (w : World)
    : Prop :=
  fst (RequestAstrologyReading_validateBirthInfo birthInfo (lit "Your") w)
  = Normal None.

Definition partner_required_error (readingType : jsstring) : jsstring :=
  lit "Partner birth information is required for " ++ readingType
    ++ lit " reading".

Definition partner_not_needed_error (readingType : jsstring) : jsstring :=
  lit "Partner birth info is not needed for " ++ readingType
    ++ lit " reading".

Definition invalid_reading_type_error : jsstring :=
  lit "Invalid reading type. Allowed types: "
    ++ join (lit ", ") allowedReadingTypes.

(** The birth info of the integration tests, and a reading request for
    it. *)
Definition sampleBirthInfo : BirthInfo.t :=
  {| BirthInfo.dateOfBirth := Some (lit "1990-01-15");
     BirthInfo.timeOfBirth := Some (lit "14:30");
     BirthInfo.placeOfBirth := Some (lit "New York, NY");
     BirthInfo.timezone := Some (lit "America/New_York") |}.

Definition readingRequest (readingType : jsstring)
    (partner : option BirthInfo.t) : AstrologyRequest.t :=
  {| AstrologyRequest.birthInfo := sampleBirthInfo;
     AstrologyRequest.readingType := Some readingType;
     AstrologyRequest.partnerBirthInfo := partner |}.

(** A clock that reads 14 November 2023. *)
Definition world2023 : World := sampleWorld 1700000000000.

(** [synastry] followed by 93 spaces: 101 units. *)
Definition paddedSynastry : jsstring := lit "synastry" ++ repeat_unit 32%N 93.

(** The error of a run, if it returned a failure. *)
Definition error_of (run : Outcome RequestAstrologyReadingResult.t * World)
    : option jsstring :=
  match fst run with
  | Normal r => RequestAstrologyReadingResult.error r
  | Throw _ => None
  end.

(** The date is a valid one that the runtime's ISO printing and parsing
    bring back. *)
Definition iso_round_trip `{JsRuntime} (d : option Date) : Prop :=
  exists t, d = Some (TimeValue t)
            /\ Date_parse (Date_toISOString t) = TimeValue t.

(** A date field holds an ISO string. *)
Definition is_iso_string `{JsRuntime} (v : DateInit) : Prop :=
  exists t, v = FromString (Date_toISOString t).

(** The conversation of the entity tests, with its two messages. *)
Definition testMessage1 : Message :=
  {| Message_props :=
       {| MessageProps.id := Some (lit "user-1672574400000-k3j9x0q2m");
          MessageProps.role := lit "user";
          MessageProps.content := Some (lit "Hello, I need spiritual guidance");
          MessageProps.timestamp := Some (TimeValue 1672574400123);
          MessageProps.conversationId := None;
          MessageProps.spiritualThemes := None;
          MessageProps.suggestedActions := None;
          MessageProps.relatedTopics := None |} |}.

Definition testMessage2 : Message :=
  {| Message_props :=
       {| MessageProps.id := Some (lit "assistant-1672574401000-p0o9i8u7y");
          MessageProps.role := lit "assistant";
          MessageProps.content :=
            Some (lit "I'm here to help you on your spiritual journey");
          MessageProps.timestamp := Some (TimeValue 1672574401000);
          MessageProps.conversationId := None;
          MessageProps.spiritualThemes := Some [lit "guidance"];
          MessageProps.suggestedActions := None;
          MessageProps.relatedTopics := Some [] |} |}.

Definition testConversation : Conversation :=
  {| Conversation_props :=
       {| ConversationProps.id := Some (lit "conv-test-1");
          ConversationProps.messages := Some [testMessage1; testMessage2];
          ConversationProps.createdAt := Some (TimeValue 1672574400000);
          ConversationProps.updatedAt := Some (TimeValue 1672576200000);
          ConversationProps.summary :=
            Some (lit "User seeking spiritual guidance");
          ConversationProps.userId := Some (lit "user-123") |} |}.

(** ** Arrays as objects

    The entities above hold their arrays as values. To follow who shares
    an array with whom, the constructors and getters that touch an array
    are given once more over a store of array objects: a props record
    holds references, [[...a]] makes a new array, and whoever holds a
    reference may change the array behind it. *)

Module Aliasing.

(** The identity of an array object: its rank of creation. *)
Definition ref := nat.

Module MessageObjProps.
Record t : Type := {
  id : option jsstring;
  role : jsstring;
  content : option jsstring;
  timestamp : option Date;
  conversationId : option jsstring;
  spiritualThemes : option ref;
  suggestedActions : option ref;
  relatedTopics : option ref;
}.
End MessageObjProps.

(** A [Message] object: [this.props] *)
Record MessageObj : Type := { MessageObj_props : MessageObjProps.t }.

(** The props given to [new Conversation(...)]. *)
Module ConversationInit.
Record t : Type := {
  id : option jsstring;
  messages : option ref;
  createdAt : option Date;
  updatedAt : option Date;
  summary : option jsstring;
  userId : option jsstring;
}.
End ConversationInit.

(** A [Conversation] object: [this.props], whose [messages] is the array
    the constructor made. *)
Module ConversationObj.
Record t : Type := {
  id : option jsstring;
  messages : ref;
  createdAt : option Date;
  updatedAt : option Date;
  summary : option jsstring;
  userId : option jsstring;
}.
End ConversationObj.

(** The array objects alive: arrays of strings and arrays of messages. *)
Record Store : Type := {
  string_arrays : list (list jsstring);
  message_arrays : list (list MessageObj);
}.

(** The elements of an array. *)
Definition strings_at (s : Store) (r : ref) : list jsstring :=
  default [] (string_arrays s !! r).

Definition messages_at (s : Store) (r : ref) : list MessageObj :=
  default [] (message_arrays s !! r).

(** A new array object with the elements [v]. *)
Definition new_string_array (v : list jsstring) (s : Store) : ref * Store :=
  (List.length (string_arrays s),
   {| string_arrays := string_arrays s ++ [v];
      message_arrays := message_arrays s |}).

Definition new_message_array (v : list MessageObj) (s : Store)
    : ref * Store :=
  (List.length (message_arrays s),
   {| string_arrays := string_arrays s;
      message_arrays := message_arrays s ++ [v] |}).

(** Any change in place of the array [r] ([push], [pop], [splice], an
    assignment to an index or to [length]): it now holds [v]. *)
Definition set_strings (r : ref) (v : list jsstring) (s : Store) : Store :=
  {| string_arrays := <[r := v]> (string_arrays s);
     message_arrays := message_arrays s |}.

Definition set_messages (r : ref) (v : list MessageObj) (s : Store) : Store :=
  {| string_arrays := string_arrays s;
     message_arrays := <[r := v]> (message_arrays s) |}.

(** [a.push(x)] *)
Definition push_string (r : ref) (x : jsstring) (s : Store) : Store :=
  set_strings r (strings_at s r ++ [x]) s.

Definition push_message (r : ref) (x : MessageObj) (s : Store) : Store :=
  set_messages r (messages_at s r ++ [x]) s.

(** The message as a value: what its props hold in the store [s]. *)
Definition Message_of (s : Store) (p : MessageObjProps.t) : MessageProps.t :=
  {| MessageProps.id := MessageObjProps.id p;
     MessageProps.role := MessageObjProps.role p;
     MessageProps.content := MessageObjProps.content p;
     MessageProps.timestamp := MessageObjProps.timestamp p;
     MessageProps.conversationId := MessageObjProps.conversationId p;
     MessageProps.spiritualThemes :=
       strings_at s <$> MessageObjProps.spiritualThemes p;
     MessageProps.suggestedActions :=
       strings_at s <$> MessageObjProps.suggestedActions p;
     MessageProps.relatedTopics :=
       strings_at s <$> MessageObjProps.relatedTopics p |}.

(** [new Message(props)]: [this.props = { ...props }], a copy of the
    props that shares their arrays. *)
Definition MessageObj_new (props : MessageObjProps.t) (s : Store)
    : Outcome MessageObj :=
  match Message_validateMessage (Message_of s props) with
  | Throw e => Throw e
  | Normal _ => Normal {| MessageObj_props := props |}
  end.

(** [get spiritualThemes() { return this.props.spiritualThemes || []; }]
    and its two siblings. *)
Definition MessageObj_spiritualThemes (this : MessageObj) (s : Store)
    : ref * Store :=
  match MessageObjProps.spiritualThemes (MessageObj_props this) with
  | Some r => (r, s)
  | None => new_string_array [] s
  end.

Definition MessageObj_suggestedActions (this : MessageObj) (s : Store)
    : ref * Store :=
  match MessageObjProps.suggestedActions (MessageObj_props this) with
  | Some r => (r, s)
  | None => new_string_array [] s
  end.

Definition MessageObj_relatedTopics (this : MessageObj) (s : Store)
    : ref * Store :=
  match MessageObjProps.relatedTopics (MessageObj_props this) with
  | Some r => (r, s)
  | None => new_string_array [] s
  end.

(** [this.toJSON()]: [{ ...this.props }] *)
Definition MessageObj_toJSON (this : MessageObj) : MessageObjProps.t :=
  MessageObj_props this.

(** What the entity holds, read through a getter: the elements of the
    array that [this.spiritualThemes] returns. *)
Definition read_spiritualThemes (this : MessageObj) (s : Store)
    : list jsstring :=
  let '(r, s') := MessageObj_spiritualThemes this s in strings_at s' r.

Definition read_suggestedActions (this : MessageObj) (s : Store)
    : list jsstring :=
  let '(r, s') := MessageObj_suggestedActions this s in strings_at s' r.

Definition read_relatedTopics (this : MessageObj) (s : Store)
    : list jsstring :=
  let '(r, s') := MessageObj_relatedTopics this s in strings_at s' r.

(** A message object as a value. *)
Definition MessageObj_value (s : Store) (m : MessageObj) : Message :=
  {| Message_props := Message_of s (MessageObj_props m) |}.

(** The props of a conversation as values, for the validation. *)
Definition Conversation_of (s : Store) (p : ConversationInit.t)
    : ConversationProps.t :=
  {| ConversationProps.id := ConversationInit.id p;
     ConversationProps.messages :=
       (fun r => List.map (MessageObj_value s) (messages_at s r))
       <$> ConversationInit.messages p;
     ConversationProps.createdAt := ConversationInit.createdAt p;
     ConversationProps.updatedAt := ConversationInit.updatedAt p;
     ConversationProps.summary := ConversationInit.summary p;
     ConversationProps.userId := ConversationInit.userId p |}.

(** [new Conversation(props)]:
    [this.props = { ...props, messages: [...props.messages] }] *)
Definition ConversationObj_new (props : ConversationInit.t) (s : Store)
    : Outcome ConversationObj.t * Store :=
  match Conversation_validateConversation (Conversation_of s props) with
  | Throw e => (Throw e, s)
  | Normal _ =>
      match ConversationInit.messages props with
      | None => (Throw TypeError, s)
      | Some given =>
          let '(copy, s') := new_message_array (messages_at s given) s in
          (Normal {| ConversationObj.id := ConversationInit.id props;
                     ConversationObj.messages := copy;
                     ConversationObj.createdAt := ConversationInit.createdAt props;
                     ConversationObj.updatedAt := ConversationInit.updatedAt props;
                     ConversationObj.summary := ConversationInit.summary props;
                     ConversationObj.userId := ConversationInit.userId props |},
           s')
      end
  end.

(** [get messages() { return [...this.props.messages]; }] *)
Definition ConversationObj_messages (this : ConversationObj.t) (s : Store)
    : ref * Store :=
  new_message_array (messages_at s (ConversationObj.messages this)) s.

(** [this.props.messages.length] *)
Definition ConversationObj_getMessageCount (this : ConversationObj.t)
    (s : Store) : Z :=
  Z.of_nat (List.length (messages_at s (ConversationObj.messages this))).

(** [this.addMessage(message)], with [now] the value of [new Date()]. *)
Definition ConversationObj_addMessage (this : ConversationObj.t)
    (message : MessageObj) (now : Date) (s : Store)
    : Outcome ConversationObj.t * Store :=
  let conversationId :=
    MessageObjProps.conversationId (MessageObj_props message) in
  if truthy conversationId
     && negb (strict_eq conversationId (ConversationObj.id this))
  then (throw_Error "Message conversation ID does not match", s)
  else
    let '(newMessages, s') :=
      new_message_array
        (messages_at s (ConversationObj.messages this) ++ [message]) s in
    ConversationObj_new
      {| ConversationInit.id := ConversationObj.id this;
         ConversationInit.messages := Some newMessages;
         ConversationInit.createdAt := ConversationObj.createdAt this;
         ConversationInit.updatedAt := Some now;
         ConversationInit.summary := ConversationObj.summary this;
         ConversationInit.userId := ConversationObj.userId this |} s'.

(** A conversation object as a value. *)
Definition ConversationObj_value (s : Store) (c : ConversationObj.t)
    : Conversation :=
  {| Conversation_props :=
       {| ConversationProps.id := ConversationObj.id c;
          ConversationProps.messages :=
            Some (List.map (MessageObj_value s)
                    (messages_at s (ConversationObj.messages c)));
          ConversationProps.createdAt := ConversationObj.createdAt c;
          ConversationProps.updatedAt := ConversationObj.updatedAt c;
          ConversationProps.summary := ConversationObj.summary c;
          ConversationProps.userId := ConversationObj.userId c |} |}.

(** The array [r] exists in the store. *)
Definition string_array_alive (s : Store) (r : ref) : Prop :=
  (r < List.length (string_arrays s))%nat.

Definition message_array_alive (s : Store) (r : ref) : Prop :=
  (r < List.length (message_arrays s))%nat.

(** Sample data: a message whose themes are the array 0 of the store. *)
Definition themedMessage : MessageObj :=
  {| MessageObj_props :=
       {| MessageObjProps.id := Some (lit "test-message-1");
          MessageObjProps.role := lit "assistant";
          MessageObjProps.content := Some (lit "About meditation");
          MessageObjProps.timestamp := Some (TimeValue 1672574400000);
          MessageObjProps.conversationId := Some (lit "conv-1");
          MessageObjProps.spiritualThemes := Some 0%nat;
          MessageObjProps.suggestedActions := None;
          MessageObjProps.relatedTopics := None |} |}.

Definition themedStore : Store :=
  {| string_arrays := [[lit "inner_peace"; lit "meditation"]];
     message_arrays := [[themedMessage]] |}.

Definition storedConversation : ConversationObj.t :=
  {| ConversationObj.id := Some (lit "conv-1");
     ConversationObj.messages := 0%nat;
     ConversationObj.createdAt := Some (TimeValue 1672574400000);
     ConversationObj.updatedAt := Some (TimeValue 1672574400000);
     ConversationObj.summary := None;
     ConversationObj.userId := None |}.

End Aliasing.

(** ** The remaining operations of the entities *)

(** [this.getUserMessageCount()] *)
Definition Conversation_getUserMessageCount (this : Conversation) : Z :=
  Z.of_nat (List.length
              (List.filter Message_isFromUser (Conversation_stored this))).

(** [this.getAssistantMessageCount()] *)
Definition Conversation_getAssistantMessageCount (this : Conversation) : Z :=
  Z.of_nat (List.length
              (List.filter Message_isFromAssistant (Conversation_stored this))).

(** [new Date(t)] on a number: a time value beyond 8.64e15 ms on either
    side of the epoch gives the invalid date. *)
Definition Date_of_number (t : Z) : Date :=
  if Z.abs t <=? 8640000000000000 then TimeValue t else InvalidDate.

(** [a > b] on a date property and a date; an absent property compares
    as NaN. *)
Definition Date_gt (a : option Date) (b : Date) : bool :=
  match a with
  | Some d => Date_lt b d
  | None => false
  end.

Definition msPerDay : Z := 24 * 60 * 60 * 1000.

(** [this.isActive()]: the clock is read only when there is a last
    message. *)
Definition Conversation_isActive (this : Conversation) : M bool :=
  match Conversation_getLastMessage this with
  | None => mret false
  | Some lastMessage =>
      now ← Date_now;
      let oneDayAgo := Date_of_number (now - msPerDay) in
      mret (Date_gt (Message_timestamp lastMessage) oneDayAgo)
  end.

(** [themes.add(theme)] on a [Set] of strings, which keeps its elements
    in the order of their first insertion. *)
Definition Set_add (themes : list jsstring) (theme : jsstring)
    : list jsstring :=
  if array_includes themes theme then themes else themes ++ [theme].

(** [this.getSpritualThemes()] *)
Definition Conversation_getSpritualThemes (this : Conversation)
    : list jsstring :=
  fold_left
    (fun themes message =>
       fold_left Set_add (Message_spiritualThemes message) themes)
    (Conversation_stored this) [].

(** [this.hasSpritualThemes()] and [this.hasSuggestedActions()] *)
Definition Message_hasSpritualThemes (this : Message) : bool :=
  0 <? Z.of_nat (List.length (Message_spiritualThemes this)).
Definition Message_hasSuggestedActions (this : Message) : bool :=
  0 <? Z.of_nat (List.length (Message_suggestedActions this)).

(** *** Predicates and sample data for the entities *)

(** The conversation that [updateSummary] returns at the clock reading
    [now]. *)
Definition summarised (c : Conversation) (summary : jsstring) (now : Date)
    : Conversation :=
  {| Conversation_props :=
       {| ConversationProps.id := Conversation_id c;
          ConversationProps.messages := Some (Conversation_stored c);
          ConversationProps.createdAt := Conversation_createdAt c;
          ConversationProps.updatedAt := Some now;
          ConversationProps.summary := Some (trim summary);
          ConversationProps.userId := Conversation_userId c |} |}.

(** The props that [createAssistantMessage] hands to the constructor. *)
Definition assistantProps (content : jsstring)
    (conversationId : option jsstring)
    (spiritualThemes suggestedActions relatedTopics : option (list jsstring))
    (w : World) : MessageProps.t :=
  {| MessageProps.id :=
       Some (lit "assistant-" ++ of_Z (clock w (clock_reads w)) ++ lit "-"
               ++ random w (random_reads w));
     MessageProps.role := lit "assistant";
     MessageProps.content := Some (trim content);
     MessageProps.timestamp :=
       Some (TimeValue (clock w (S (clock_reads w))));
     MessageProps.conversationId := conversationId;
     MessageProps.spiritualThemes := spiritualThemes;
     MessageProps.suggestedActions := suggestedActions;
     MessageProps.relatedTopics := relatedTopics |}.

(** Props of a conversation without messages, with the given dates. *)
Definition datedConversationProps (created updated : Date)
    : ConversationProps.t :=
  {| ConversationProps.id := Some (lit "conv-1");
     ConversationProps.messages := Some [];
     ConversationProps.createdAt := Some created;
     ConversationProps.updatedAt := Some updated;
     ConversationProps.summary := None;
     ConversationProps.userId := None |}.

(** What [fromJSON] needs of a record: everything the constructor checks
    but the timestamp. *)
Definition MessageJSON_acceptable (json : MessageJSON.t) : Prop :=
  blank (MessageJSON.id json) = false /\
  blank (MessageJSON.content json) = false /\
  (forall c, MessageJSON.content json = Some c -> str_length c <= 2000) /\
  (MessageJSON.role json = lit "user"
   \/ MessageJSON.role json = lit "assistant").

(** A stored message record with the given timestamp field. *)
Definition storedMessageJSON (timestamp : DateInit) : MessageJSON.t :=
  {| MessageJSON.id := Some (lit "msg-1");
     MessageJSON.role := lit "user";
     MessageJSON.content := Some (lit "Test message");
     MessageJSON.timestamp := timestamp;
     MessageJSON.conversationId := None;
     MessageJSON.spiritualThemes := None;
     MessageJSON.suggestedActions := None;
     MessageJSON.relatedTopics := None |}.

(** A stored conversation record with the given date fields. *)
Definition storedConversationJSON (createdAt updatedAt : DateInit)
    : ConversationJSON.t :=
  {| ConversationJSON.id := Some (lit "conv-1");
     ConversationJSON.createdAt := createdAt;
     ConversationJSON.updatedAt := updatedAt;
     ConversationJSON.summary := None;
     ConversationJSON.userId := None;
     ConversationJSON.messages := [storedMessageJSON FromUndefined] |}.

(** ** What the regular expressions accept

    The language of a regular expression, to say in plain terms which
    strings a [RegExp] literal of the code accepts. *)

Inductive regex_star (L : jsstring -> Prop) : jsstring -> Prop :=
| regex_star_nil : regex_star L []
| regex_star_app (a b : jsstring) :
    L a -> regex_star L b -> regex_star L (a ++ b).

Fixpoint regex_lang (r : regex) : jsstring -> Prop :=
  match r with
  | Void => fun _ => False
  | Eps => fun s => s = []
  | Class p => fun s => exists c, s = [c] /\ p c = true
  | Cat r1 r2 =>
      fun s => exists a b, s = a ++ b /\ regex_lang r1 a /\ regex_lang r2 b
  | Alt r1 r2 => fun s => regex_lang r1 s \/ regex_lang r2 s
  | Star r' => regex_star (regex_lang r')
  end.

(** Every unit of [s] is in the class [p], and there is at least one. *)
Definition run_of (p : code_unit -> bool) (s : jsstring) : Prop :=
  s <> [] /\ Forall (fun c => p c = true) s.

(** [local@domain.tld]: three runs of units that are neither white space
    nor [@], the last two separated by a dot. *)
Definition email_shape (s : jsstring) : Prop :=
  exists local domain tld,
    s = local ++ lit "@" ++ domain ++ lit "." ++ tld /\
    run_of not_space_or_at local /\ run_of not_space_or_at domain /\
    run_of not_space_or_at tld.

(** The special characters of the password policy. *)
Definition special_character (c : code_unit) : bool :=
  one_of "!@#$%^&*(),.?:{}|<>~`-_+=[]\;'" c || N.eqb c 34.

(** The password policy in plain terms. *)
Definition password_ok (password : jsstring) : Prop :=
  8 <= str_length password /\
  Exists (fun c => upper c = true) password /\
  Exists (fun c => special_character c = true) password.

(** ** The forms (LoginForm.tsx, RegisterForm.tsx) and the screens *)

Module LoginFormData.
Record t : Type := { email : jsstring; password : jsstring }.
End LoginFormData.

Module RegisterFormData.
Record t : Type := {
  email : jsstring;
  password : jsstring;
  firstName : jsstring;
  lastName : jsstring;
}.
End RegisterFormData.

(** The [fieldErrors] object: a key is there when an error was set. *)
Module FieldErrors.
Record t : Type := {
  email : option jsstring;
  password : option jsstring;
  firstName : option jsstring;
  lastName : option jsstring;
}.
End FieldErrors.

(** [Object.keys(errors).length === 0] *)
Definition FieldErrors_none (errors : FieldErrors.t) : bool :=
  negb (present (FieldErrors.email errors))
  && negb (present (FieldErrors.password errors))
  && negb (present (FieldErrors.firstName errors))
  && negb (present (FieldErrors.lastName errors)).

(** [validateForm] of LoginForm: the errors it sets. *)
Definition LoginForm_errors (formData : LoginFormData.t) : FieldErrors.t :=
  {| FieldErrors.email :=
       if negb (nonempty (trim (LoginFormData.email formData))) then
         Some (lit "Email is required")
       else if negb (test emailRegex (LoginFormData.email formData)) then
         Some (lit "Please enter a valid email address")
       else None;
     FieldErrors.password :=
       if negb (nonempty (LoginFormData.password formData)) then
         Some (lit "Password is required")
       else
         let password := LoginFormData.password formData in
         if str_length password <? 8 then
           Some (lit "Password must be at least 8 characters long")
         else if negb (test uppercaseRegex password) then
           Some (lit "Password must contain at least one uppercase letter")
         else if negb (test specialCharRegex password) then
           Some (lit "Password must contain at least one special character")
         else None;
     FieldErrors.firstName := None;
     FieldErrors.lastName := None |}.

(** [validateForm] of LoginForm: its result. *)
Definition LoginForm_validateForm (formData : LoginFormData.t) : bool :=
  FieldErrors_none (LoginForm_errors formData).

(** [validateForm] of RegisterForm: the errors it sets. *)
Definition RegisterForm_errors (formData : RegisterFormData.t)
    : FieldErrors.t :=
  {| FieldErrors.email :=
       if negb (nonempty (trim (RegisterFormData.email formData))) then
         Some (lit "Email is required")
       else if negb (test emailRegex (RegisterFormData.email formData)) then
         Some (lit "Please enter a valid email address")
       else None;
     FieldErrors.password :=
       if negb (nonempty (RegisterFormData.password formData)) then
         Some (lit "Password is required")
       else
         let password := RegisterFormData.password formData in
         if str_length password <? 8 then
           Some (lit "Password must be at least 8 characters long")
         else if negb (test uppercaseRegex password) then
           Some (lit "Password must contain at least one uppercase letter")
         else if negb (test specialCharRegex password) then
           Some (lit "Password must contain at least one special character")
         else None;
     FieldErrors.firstName :=
       if negb (nonempty (trim (RegisterFormData.firstName formData))) then
         Some (lit "First name is required")
       else None;
     FieldErrors.lastName :=
       if negb (nonempty (trim (RegisterFormData.lastName formData))) then
         Some (lit "Last name is required")
       else None |}.

Definition RegisterForm_validateForm (formData : RegisterFormData.t) : bool :=
  FieldErrors_none (RegisterForm_errors formData).

(** The argument that [handleLogin] of LoginScreen gives to
    [loginUser.execute], and [handleRegister] of RegisterScreen to
    [registerUser.execute]. *)
Definition LoginScreen_credentials (formData : LoginFormData.t)
    : LoginCredentials.t :=
  {| LoginCredentials.email := LoginFormData.email formData;
     LoginCredentials.password := LoginFormData.password formData |}.

Definition RegisterScreen_data (formData : RegisterFormData.t)
    : RegisterData.t :=
  {| RegisterData.email := RegisterFormData.email formData;
     RegisterData.password := RegisterFormData.password formData;
     RegisterData.firstName := RegisterFormData.firstName formData;
     RegisterData.lastName := RegisterFormData.lastName formData |}.

(** ** The formats of a birth info in plain terms *)

(** The decimal digit [z], for [0 <= z <= 9]. *)
Definition digit_of (z : Z) : code_unit := Z.to_N (48 + z).

Definition two_digits (z : Z) : jsstring :=
  [digit_of (z / 10); digit_of (z mod 10)].

Definition four_digits (z : Z) : jsstring :=
  [digit_of (z / 1000); digit_of (z / 100 mod 10); digit_of (z / 10 mod 10);
   digit_of (z mod 10)].

(** [HH:MM] on a 24-hour clock, both parts with two digits. *)
Definition time_shape (s : jsstring) : Prop :=
  exists h m, 0 <= h < 24 /\ 0 <= m < 60
              /\ s = two_digits h ++ lit ":" ++ two_digits m.

(** Four digits, two digits and two digits with hyphens between; the
    pattern asks nothing more of the month and the day. *)
Definition date_shape (s : jsstring) : Prop :=
  exists y m d, 0 <= y < 10000 /\ 0 <= m < 100 /\ 0 <= d < 100
                /\ s = four_digits y ++ lit "-" ++ two_digits m ++ lit "-"
                       ++ two_digits d.

(** The units a time zone may be written with. *)
Definition timezone_unit (c : code_unit) : bool :=
  upper c || lower c || one_of "_+-/" c || digit c.

(** What [validateBirthInfo] asks of a birth info at the clock reading
    [now]: a date of the right shape that the engine reads as a point in
    time not after [now] and not before its reading of 1900-01-01; a time
    of the right shape; a place that is not blank and has 2 to 100
    units, white space included; and, if a non-empty time zone is given,
    one of at most 50 units of the permitted kind. *)
Definition birthInfo_acceptable `{JsRuntime} (birthInfo : BirthInfo.t)
    (now : Z) : Prop :=
  exists date time place t,
    BirthInfo.dateOfBirth birthInfo = Some date /\
    BirthInfo.timeOfBirth birthInfo = Some time /\
    BirthInfo.placeOfBirth birthInfo = Some place /\
    date_shape date /\
    Date_parse date = TimeValue t /\ t <= now /\
    Date_lt (TimeValue t) (Date_parse (lit "1900-01-01")) = false /\
    time_shape time /\
    nonempty (trim place) = true /\ 2 <= str_length place <= 100 /\
    (forall tz, BirthInfo.timezone birthInfo = Some tz -> tz <> [] ->
                str_length tz <= 50 /\ run_of timezone_unit tz).

(** The request that [RequestAstrologyReading.execute] sends to the
    repository: place and reading type trimmed, the rest as given, and of
    the partner's birth info the date, the time and the trimmed place. *)
Definition astrologyRequest_sent (request : AstrologyRequest.t)
    (place readingType : jsstring) : AstrologyRequest.t :=
  let birthInfo := AstrologyRequest.birthInfo request in
  {| AstrologyRequest.birthInfo :=
       {| BirthInfo.dateOfBirth := BirthInfo.dateOfBirth birthInfo;
          BirthInfo.timeOfBirth := BirthInfo.timeOfBirth birthInfo;
          BirthInfo.placeOfBirth := Some (trim place);
          BirthInfo.timezone := BirthInfo.timezone birthInfo |};
     AstrologyRequest.readingType := Some (trim readingType);
     AstrologyRequest.partnerBirthInfo :=
       match AstrologyRequest.partnerBirthInfo request with
       | Some partnerBirthInfo =>
           Some {| BirthInfo.dateOfBirth :=
                     BirthInfo.dateOfBirth partnerBirthInfo;
                   BirthInfo.timeOfBirth :=
                     BirthInfo.timeOfBirth partnerBirthInfo;
                   BirthInfo.placeOfBirth :=
                     Some (trim (default []
                                   (BirthInfo.placeOfBirth partnerBirthInfo)));
                   BirthInfo.timezone := None |}
       | None => None
       end |}.

(** A repository whose back end names every conversation itself: its
    answers carry the id 'conv-123' whatever the request names. *)
Definition backendIdRepository : IAiRepository :=
  {| sendChatMessage := fun _ =>
       Normal
         {| ChatResponse.message := lit "Mocked AI response";
            ChatResponse.conversationId := lit "conv-123";
            ChatResponse.spiritualThemes := [lit "inner_peace"];
            ChatResponse.suggestedActions := Some [lit "Try meditation"];
            ChatResponse.relatedTopics := Some [lit "mindfulness"];
            ChatResponse.timestamp := TimeValue 0 |};
     requestSpiritualGuidance := requestSpiritualGuidance mockAiRepository;
     requestAstrologyReading := requestAstrologyReading mockAiRepository;
     saveConversation := saveConversation mockAiRepository;
     loadConversations := loadConversations mockAiRepository |}.

(** ** The guidance request in plain terms *)

(** An item of one of the lists of the user context: not blank, and of
    at most [maxLength] units before trimming. *)
Definition item_ok (maxLength : Z) (item : jsstring) : Prop :=
  nonempty (trim item) = true /\ str_length item <= maxLength.

(** A list of the user context with [least] to [most] acceptable
    items. *)
Definition items_ok (a : option (list jsstring)) (least most maxLength : Z)
    : Prop :=
  exists l, a = Some l /\ least <= Z.of_nat (List.length l) <= most
            /\ Forall (item_ok maxLength) l.

(** What [validateRequest] of RequestSpiritualGuidance asks for. *)
Definition guidance_acceptable (request : SpiritualGuidanceRequest.t)
    : Prop :=
  exists topic userContext level,
    SpiritualGuidanceRequest.topic request = Some topic /\
    nonempty (trim topic) = true /\ str_length topic <= 200 /\
    SpiritualGuidanceRequest.userContext request = Some userContext /\
    GuidanceContext.experienceLevel userContext = Some level /\
    In level experienceLevels /\
    items_ok (GuidanceContext.spiritualGoals userContext) 1 10 100 /\
    items_ok (GuidanceContext.currentChallenges userContext) 1 10 100 /\
    items_ok (GuidanceContext.preferredPractices userContext) 1 15 50 /\
    items_ok (GuidanceContext.previousExperiences userContext) 0 20 200 /\
    (forall t, GuidanceContext.timeAvailable userContext = Some t ->
               str_length t <= 50).

Definition guidance_failure (e : jsstring)
    : RequestSpiritualGuidanceResult.t :=
  {| RequestSpiritualGuidanceResult.success := false;
     RequestSpiritualGuidanceResult.guidance := None;
     RequestSpiritualGuidanceResult.error := Some e |}.

(** The guidance request of the integration tests. *)
Definition sampleGuidanceRequest (topic : string)
    : SpiritualGuidanceRequest.t :=
  {| SpiritualGuidanceRequest.topic := Some (lit topic);
     SpiritualGuidanceRequest.userContext :=
       Some {| GuidanceContext.spiritualGoals :=
                 Some [lit "inner peace"; lit "self-discovery"];
               GuidanceContext.currentChallenges :=
                 Some [lit "stress"; lit "anxiety"];
               GuidanceContext.experienceLevel := Some (lit "beginner");
               GuidanceContext.preferredPractices :=
                 Some [lit "meditation"; lit "breathing"];
               GuidanceContext.timeAvailable := Some (lit "30 minutes daily");
               GuidanceContext.previousExperiences := Some [] |} |}.

(** ** Helpers of the user interface *)

(** An argument of [cn]: a class string, or one of the values a
    conditional leaves behind. *)
Inductive ClassInput : Type :=
| ClassName (s : jsstring)
| ClassUndefined
| ClassNull
| ClassFalse.

(** [Boolean(x)] *)
Definition ClassInput_truthy (x : ClassInput) : bool :=
  match x with ClassName s => nonempty s | _ => false end.

(** The string that [join] makes of an element that passed the filter. *)
Definition ClassInput_text (x : ClassInput) : jsstring :=
  match x with ClassName s => s | _ => [] end.

(** [cn(...inputs)]: [inputs.filter(Boolean).join(' ')] *)
Definition cn (inputs : list ClassInput) : jsstring :=
  join (lit " ") (List.map ClassInput_text
                    (List.filter ClassInput_truthy inputs)).

(** [preview.substring(0, n)] *)
Definition substring_from_0 (n : nat) (s : jsstring) : jsstring := firstn n s.

(** [getConversationPreview(conversation)] of ConversationList; reading
    the length of a missing content throws. *)
Definition getConversationPreview (conversation : Conversation)
    : Outcome jsstring :=
  match Conversation_getFirstMessage conversation with
  | None => Normal (lit "Empty conversation")
  | Some firstMessage =>
      match Message_content firstMessage with
      | None => Throw TypeError
      | Some preview =>
          Normal (if 60 <? str_length preview
                  then substring_from_0 60 preview ++ lit "..."
                  else preview)
      end
  end.

(** [getConversationTitle(conversation)] of ConversationList. *)
Definition getConversationTitle (conversation : Conversation)
    : Outcome jsstring :=
  if truthy (Conversation_summary conversation) then
    Normal (default [] (Conversation_summary conversation))
  else
    match Conversation_getFirstMessage conversation with
    | None => Normal (lit "New Conversation")
    | Some firstMessage =>
        match Message_content firstMessage with
        | None => Throw TypeError
        | Some title =>
            Normal (if 30 <? str_length title
                    then substring_from_0 30 title ++ lit "..."
                    else title)
        end
    end.

(** The state of SpiritualGuidanceForm. *)
Module GuidanceFormData.
Record t : Type := {
  topic : jsstring;
  spiritualGoals : list jsstring;
  currentChallenges : list jsstring;
  experienceLevel : jsstring;
  preferredPractices : list jsstring;
  timeAvailable : jsstring;
  previousExperiences : list jsstring;
}.
End GuidanceFormData.

(** The initial state, to which [resetForm] returns. *)
Definition SpiritualGuidanceForm_initial : GuidanceFormData.t :=
  {| GuidanceFormData.topic := [];
     GuidanceFormData.spiritualGoals := [[]];
     GuidanceFormData.currentChallenges := [[]];
     GuidanceFormData.experienceLevel := lit "beginner";
     GuidanceFormData.preferredPractices := [[]];
     GuidanceFormData.timeAvailable := [];
     GuidanceFormData.previousExperiences := [[]] |}.

(** [arr.map((item, i) => i === index ? value : item)] *)
Fixpoint map_at (i : Z) (index : Z) (value : jsstring) (arr : list jsstring)
    : list jsstring :=
  match arr with
  | [] => []
  | item :: arr' =>
      (if i =? index then value else item) :: map_at (i + 1) index value arr'
  end.

(** [arr.filter((_, i) => i !== index)] *)
Fixpoint filter_at (i : Z) (index : Z) (arr : list jsstring)
    : list jsstring :=
  match arr with
  | [] => []
  | item :: arr' =>
      if i =? index then filter_at (i + 1) index arr'
      else item :: filter_at (i + 1) index arr'
  end.

(** What [updateArrayField], [addArrayField] and [removeArrayField] make
    of the list of the field they are given. *)
Definition updateArrayField (index : Z) (value : jsstring)
    (arr : list jsstring) : list jsstring := map_at 0 index value arr.
Definition addArrayField (arr : list jsstring) : list jsstring := arr ++ [[]].
Definition removeArrayField (index : Z) (arr : list jsstring)
    : list jsstring := filter_at 0 index arr.

(** [arr.filter(g => g.trim())] *)
Definition cleaned (arr : list jsstring) : list jsstring :=
  List.filter (fun g => nonempty (trim g)) arr.

(** The request that [handleSubmit] gives to [execute]. *)
Definition SpiritualGuidanceForm_cleanedRequest (formData : GuidanceFormData.t)
    : SpiritualGuidanceRequest.t :=
  {| SpiritualGuidanceRequest.topic := Some (GuidanceFormData.topic formData);
     SpiritualGuidanceRequest.userContext :=
       Some {| GuidanceContext.spiritualGoals :=
                 Some (cleaned (GuidanceFormData.spiritualGoals formData));
               GuidanceContext.currentChallenges :=
                 Some (cleaned (GuidanceFormData.currentChallenges formData));
               GuidanceContext.experienceLevel :=
                 Some (GuidanceFormData.experienceLevel formData);
               GuidanceContext.preferredPractices :=
                 Some (cleaned (GuidanceFormData.preferredPractices formData));
               GuidanceContext.timeAvailable :=
                 Some (GuidanceFormData.timeAvailable formData);
               GuidanceContext.previousExperiences :=
                 Some (cleaned
                         (GuidanceFormData.previousExperiences formData)) |} |}.

(** The form state after the user has typed a topic. *)
Definition with_topic (formData : GuidanceFormData.t) (topic : jsstring)
    : GuidanceFormData.t :=
  {| GuidanceFormData.topic := topic;
     GuidanceFormData.spiritualGoals :=
       GuidanceFormData.spiritualGoals formData;
     GuidanceFormData.currentChallenges :=
       GuidanceFormData.currentChallenges formData;
     GuidanceFormData.experienceLevel :=
       GuidanceFormData.experienceLevel formData;
     GuidanceFormData.preferredPractices :=
       GuidanceFormData.preferredPractices formData;
     GuidanceFormData.timeAvailable := GuidanceFormData.timeAvailable formData;
     GuidanceFormData.previousExperiences :=
       GuidanceFormData.previousExperiences formData |}.

(** ** User (the entity User.ts) *)

Definition validTiers : list jsstring :=
  [lit "free"; lit "premium"; lit "elite"].

Definition User_validateProps (props : UserProps.t) : Outcome unit :=
  if negb (test emailRegex (UserProps.email props)) then
    throw_Error "Invalid email format"
  else if negb (nonempty (trim (UserProps.firstName props))) then
    throw_Error "First name is required"
  else if negb (array_includes validTiers (UserProps.subscriptionTier props))
  then throw_Error "Invalid subscription tier"
  else Normal tt.

(** [new User(props)] *)
Definition User_new (props : UserProps.t) : Outcome User :=
  match User_validateProps props with
  | Throw e => Throw e
  | Normal _ => Normal {| User_props := props |}
  end.

Definition User_email (this : User) : jsstring :=
  UserProps.email (User_props this).
Definition User_firstName (this : User) : jsstring :=
  UserProps.firstName (User_props this).
Definition User_lastName (this : User) : jsstring :=
  UserProps.lastName (User_props this).
Definition User_subscriptionTier (this : User) : jsstring :=
  UserProps.subscriptionTier (User_props this).

(** [get fullName()] *)
Definition User_fullName (this : User) : jsstring :=
  trim (User_firstName this ++ lit " " ++ User_lastName this).

(** [s.charAt(0)] *)
Definition charAt_0 (s : jsstring) : jsstring :=
  match s with [] => [] | c :: _ => [c] end.

(** [get initials()], over the engine's [toUpperCase]. *)
Definition User_initials (toUpperCase : jsstring -> jsstring) (this : User)
    : jsstring :=
  let firstInitial := toUpperCase (charAt_0 (User_firstName this)) in
  let lastInitial := toUpperCase (charAt_0 (User_lastName this)) in
  if nonempty lastInitial then firstInitial ++ lastInitial else firstInitial.

(** [isPremium()] *)
Definition User_isPremium (this : User) : bool :=
  str_eqb (User_subscriptionTier this) (lit "premium")
  || str_eqb (User_subscriptionTier this) (lit "elite").

(** A user obtained from the constructor. *)
Definition User_constructed (u : User) : Prop :=
  exists props, User_new props = Normal u.

(** [toUpperCase] on the letters a-z, as every engine has it there. *)
Definition asciiUpperCase (s : jsstring) : jsstring :=
  List.map (fun c => if lower c then (c - 32)%N else c) s.

(** ** AuthRepository (infrastructure/repositories/AuthRepository.ts) *)

(** What a call of axios rejects with: an axios error, with the status of
    its response when it has one, or anything else. *)
Inductive Rejection : Type :=
| AxiosError (status : option Z)
| OtherRejection (e : Thrown).

(** [axios.isAxiosError(error) && error.response?.status === status] *)
Definition axios_status_is (error : Rejection) (status : Z) : bool :=
  match error with
  | AxiosError (Some s) => s =? status
  | _ => false
  end.

(** The [user] of a [LoginResponse]; [profile], which no function here
    reads, is left out as it is in [UserProps]. *)
Module UserDto.
Record t : Type := {
  id : jsstring;
  email : jsstring;
  firstName : jsstring;
  lastName : jsstring;
  subscriptionTier : jsstring;
  createdAt : jsstring;
}.
End UserDto.

Module LoginResponse.
Record t : Type := { user : UserDto.t; tokens : AuthTokens.t }.
End LoginResponse.

(** What the repository talks to: [axios.post] with the body of a login
    and of a registration, [SecureStore.setItemAsync], and
    [JSON.stringify] on tokens. *)
Record Platform : Type := {
  post_login : jsstring -> LoginCredentials.t -> LoginResponse.t + Rejection;
  post_register : jsstring -> RegisterData.t -> LoginResponse.t + Rejection;
  setItemAsync : jsstring -> jsstring -> Outcome unit;
  JSON_stringify : AuthTokens.t -> jsstring;
}.

Definition TOKEN_KEY : jsstring := lit "stellara_tokens".

(** [new User({ ..., createdAt: new Date(userDto.createdAt) })] *)
Definition AuthRepository_user `{JsRuntime} (userDto : UserDto.t)
    : Outcome User :=
  User_new {| UserProps.id := UserDto.id userDto;
              UserProps.email := UserDto.email userDto;
              UserProps.firstName := UserDto.firstName userDto;
              UserProps.lastName := UserDto.lastName userDto;
              UserProps.subscriptionTier := UserDto.subscriptionTier userDto;
              UserProps.createdAt :=
                new_Date (FromString (UserDto.createdAt userDto)) |}.

(** The [try] block of [login] and of [register] after the response has
    come. *)
Definition AuthRepository_result `{JsRuntime} (response : LoginResponse.t)
    : Outcome AuthResult.t :=
  match AuthRepository_user (LoginResponse.user response) with
  | Throw e => Throw e
  | Normal user =>
      Normal {| AuthResult.user := user;
                AuthResult.tokens := LoginResponse.tokens response |}
  end.

Definition AuthRepository_login `{JsRuntime} (p : Platform)
    (baseURL : jsstring) (credentials : LoginCredentials.t)
    : Outcome AuthResult.t :=
  let attempt :=
    match post_login p (baseURL ++ lit "/auth/login") credentials with
    | inl response =>
        match AuthRepository_result response with
        | Normal result => inl result
        | Throw e => inr (OtherRejection e)
        end
    | inr error => inr error
    end in
  match attempt with
  | inl result => Normal result
  | inr error =>
      if axios_status_is error 401 then throw_Error "Invalid credentials"
      else throw_Error "Network error"
  end.

Definition AuthRepository_register `{JsRuntime} (p : Platform)
    (baseURL : jsstring) (data : RegisterData.t) : Outcome AuthResult.t :=
  let attempt :=
    match post_register p (baseURL ++ lit "/auth/register") data with
    | inl response =>
        match AuthRepository_result response with
        | Normal result => inl result
        | Throw e => inr (OtherRejection e)
        end
    | inr error => inr error
    end in
  match attempt with
  | inl result => Normal result
  | inr error =>
      if axios_status_is error 409 then throw_Error "User already exists"
      else if axios_status_is error 429 then
        throw_Error "Too many requests. Please try again later."
      else throw_Error "Registration failed"
  end.

Definition AuthRepository_storeTokens (p : Platform) (tokens : AuthTokens.t)
    : Outcome unit :=
  match setItemAsync p TOKEN_KEY (JSON_stringify p tokens) with
  | Normal _ => Normal tt
  | Throw _ => throw_Error "Failed to store tokens"
  end.

Definition AuthRepository `{JsRuntime} (p : Platform) (baseURL : jsstring)
    : IAuthRepository :=
  {| login := AuthRepository_login p baseURL;
     register := AuthRepository_register p baseURL;
     storeTokens := AuthRepository_storeTokens p |}.

(** A server that turns every login down with status 401 and every
    registration with status 409, and a store that takes everything; the
    text handed to the store, which it does not look at, is a stand-in. *)
Definition refusingPlatform : Platform :=
  {| post_login := fun _ _ => inr (AxiosError (Some 401));
     post_register := fun _ _ => inr (AxiosError (Some 409));
     setItemAsync := fun _ _ => Normal tt;
     JSON_stringify := fun tokens => AuthTokens.accessToken tokens |}.

(** ** AiRepository (infrastructure/repositories/AiRepository.ts): the
       requests to the backend *)

(** What [getAuthToken], [fetch] and [response.json()] reject with: a
    [TypeError] with its message, or something that is not a
    [TypeError]. *)
Inductive Failure : Type :=
| TypeError_with (message : jsstring)
| Failure_of (e : Thrown).

(** A property of the body of an error response. The body is whatever
    JSON value the server sent, so a property is: missing or falsy
    ([undefined], [null], [false], [0], ['']); a string; or another
    truthy value (a number, [true], an array, an object). Such a value
    has no [toLowerCase], and [new Error] takes for its message the
    string [text] that the conversion to a string gives, if it gives
    one: the conversion of an object (or of an array holding one) whose
    [toString] and [valueOf] are not functions throws a [TypeError]. *)
Inductive BodyValue : Type :=
| Body_falsy
| Body_string (s : jsstring)
| Body_other (text : option jsstring).

(** The body of an error response, as far as [handleErrorResponse] reads
    it: its [message] and its [error]. *)
Module ErrorData.
Record t : Type := { message : BodyValue; error : BodyValue }.
End ErrorData.

(** The value of [errorMessage]: a string, or one of the other truthy
    values of a body. *)
Inductive MessageValue : Type :=
| Message_string (s : jsstring)
| Message_other (text : option jsstring).

(** A [Response]. Its body is read once, by [handleErrorResponse] when
    the response is not [ok] and as the answer when it is: [errorData] is
    what the former gets from [response.json()], nothing when that
    rejects or gives [null]; [data] is what the latter gets. *)
Module HttpResponse.
Record t (A : Type) : Type := {
  ok : bool;
  status : Z;
  statusText : jsstring;
  errorData : option ErrorData.t;
  data : A + Failure;
}.
Arguments ok {A}.
Arguments status {A}.
Arguments statusText {A}.
Arguments errorData {A}.
Arguments data {A}.
End HttpResponse.

(** The answer to a chat request as it comes over the wire, taken to
    have the shape that [ChatResponse] declares, but for the time stamp. *)
Module ChatData.
Record t : Type := {
  message : jsstring;
  conversationId : jsstring;
  spiritualThemes : list jsstring;
  suggestedActions : option (list jsstring);
  relatedTopics : option (list jsstring);
  timestamp : DateInit;
}.
End ChatData.

(** What the repository talks to: the engine's [toLowerCase] and the
    messages of the [TypeError]s it raises when what is called is not a
    function and when a value has no conversion to a string; the
    [getAuthToken] the repository was built with; and [fetch] with the
    URL, the bearer token and the request that goes into the body. *)
Record AiPlatform : Type := {
  toLowerCase : jsstring -> jsstring;
  not_a_function : jsstring;
  not_convertible : jsstring;
  getAuthToken : option jsstring + Failure;
  fetch_chat :
    jsstring -> jsstring -> ChatRequest.t
    -> HttpResponse.t ChatData.t + Failure;
  fetch_guidance :
    jsstring -> jsstring -> SpiritualGuidanceRequest.t
    -> HttpResponse.t SpiritualGuidanceResponse.t + Failure;
  fetch_astrology :
    jsstring -> jsstring -> AstrologyRequest.t
    -> HttpResponse.t AstrologyResponse.t + Failure;
}.

(** [a || b] on strings *)
Definition or_string (a : option jsstring) (b : jsstring) : jsstring :=
  match a with
  | Some (c :: s) => c :: s
  | _ => b
  end.

(** [a || b] on a property of the body *)
Definition or_value (a : BodyValue) (b : MessageValue) : MessageValue :=
  match a with
  | Body_falsy => b
  | Body_string [] => b
  | Body_string (c :: s) => Message_string (c :: s)
  | Body_other text => Message_other text
  end.

(** [errorMessage] of [handleErrorResponse] after its [try] block. *)
Definition AiRepository_errorMessage {A} (response : HttpResponse.t A)
    : MessageValue :=
  match HttpResponse.errorData response with
  | Some errorData =>
      or_value (ErrorData.message errorData)
        (or_value (ErrorData.error errorData)
           (Message_string (lit "Request failed")))
  | None =>
      Message_string
        (or_string (Some (HttpResponse.statusText response))
           (lit "HTTP " ++ of_Z (HttpResponse.status response)))
  end.

(** [throw new Error(errorMessage)] *)
Definition throw_Error_of (p : AiPlatform) (errorMessage : MessageValue)
    : Failure :=
  match errorMessage with
  | Message_string s => Failure_of (JsError s)
  | Message_other (Some text) => Failure_of (JsError text)
  | Message_other None => TypeError_with (not_convertible p)
  end.

(** [handleErrorResponse]: what it throws, the [Error] of the [switch] or
    the [TypeError] of calling [toLowerCase] on a message that is not a
    string. *)
Definition AiRepository_handleErrorResponse {A} (p : AiPlatform)
    (response : HttpResponse.t A) : Failure :=
  let errorMessage := AiRepository_errorMessage response in
  let status := HttpResponse.status response in
  if status =? 401 then Failure_of (JsError (lit "Authentication required"))
  else if status =? 403 then Failure_of (JsError (lit "Access denied"))
  else if status =? 429 then
    Failure_of (JsError (lit "Too many requests. Please try again later."))
  else if status =? 500 then
    Failure_of
      (JsError (lit "AI service is temporarily unavailable. Please try again later."))
  else if status =? 400 then
    match errorMessage with
    | Message_other _ => TypeError_with (not_a_function p)
    | Message_string s =>
        if includes (toLowerCase p s) (lit "message too long") then
          Failure_of (JsError (lit "Message too long"))
        else if includes (toLowerCase p s) (lit "invalid request") then
          Failure_of (JsError (lit "Invalid request data"))
        else throw_Error_of p errorMessage
    end
  else throw_Error_of p errorMessage.

(** [handleNetworkError]: the [Error] it throws. An [Error] it throws
    again is the one it was given: for a [TypeError], an [Error] with
    the same message. *)
Definition AiRepository_handleNetworkError (error : Failure) : Thrown :=
  match error with
  | TypeError_with message =>
      if includes message (lit "fetch") then
        JsError (lit "Network connection failed. Please check your internet connection.")
      else JsError message
  | Failure_of (JsError message) => JsError message
  | Failure_of MessagelessError => MessagelessError
  | Failure_of (NonError _) =>
      JsError (lit "An unexpected error occurred. Please try again.")
  end.

(** The three request methods have one body, up to the path, the request
    and what is made of the answer: the token, the call of [fetch], the
    check of [response.ok] and the reading of the body in a [try] block
    whose [catch] is [handleNetworkError]. *)
Definition AiRepository_request {Request Data Answer : Type} (p : AiPlatform)
    (fetch : jsstring -> Request -> HttpResponse.t Data + Failure)
    (request : Request) (answer : Data -> Answer) : Outcome Answer :=
  let attempt : Answer + Failure :=
    match getAuthToken p with
    | inr error => inr error
    | inl token =>
        if negb (truthy token) then
          inr (Failure_of (JsError (lit "Authentication required")))
        else
          match fetch (default [] token) request with
          | inr error => inr error
          | inl response =>
              if negb (HttpResponse.ok response) then
                inr (AiRepository_handleErrorResponse p response)
              else
                match HttpResponse.data response with
                | inr error => inr error
                | inl data => inl (answer data)
                end
          end
    end in
  match attempt with
  | inl a => Normal a
  | inr error => Throw (AiRepository_handleNetworkError error)
  end.

Definition AiRepository_sendChatMessage `{JsRuntime} (p : AiPlatform)
    (baseUrl : jsstring) (request : ChatRequest.t) : Outcome ChatResponse.t :=
  AiRepository_request p (fetch_chat p (baseUrl ++ lit "/ai/chat")) request
    (fun data =>
       {| ChatResponse.message := ChatData.message data;
          ChatResponse.conversationId := ChatData.conversationId data;
          ChatResponse.spiritualThemes := ChatData.spiritualThemes data;
          ChatResponse.suggestedActions := ChatData.suggestedActions data;
          ChatResponse.relatedTopics := ChatData.relatedTopics data;
          ChatResponse.timestamp := new_Date (ChatData.timestamp data) |}).

Definition AiRepository_requestSpiritualGuidance (p : AiPlatform)
    (baseUrl : jsstring) (request : SpiritualGuidanceRequest.t)
    : Outcome SpiritualGuidanceResponse.t :=
  AiRepository_request p
    (fetch_guidance p (baseUrl ++ lit "/ai/spiritual-guidance")) request
    (fun data => data).

Definition AiRepository_requestAstrologyReading (p : AiPlatform)
    (baseUrl : jsstring) (request : AstrologyRequest.t)
    : Outcome AstrologyResponse.t :=
  AiRepository_request p (fetch_astrology p (baseUrl ++ lit "/ai/astrology"))
    request (fun data => data).

(** What [handleError] of the three use cases makes of an error of the
    repository. *)
Definition shown (e : Thrown)
    : Outcome jsstring * Outcome jsstring * Outcome jsstring :=
  (SendChatMessage_handleError e, RequestSpiritualGuidance_handleError e,
   RequestAstrologyReading_handleError e).

(** The three use cases show the same text. *)
Definition all_show (text : string)
    : Outcome jsstring * Outcome jsstring * Outcome jsstring :=
  (Normal (lit text), Normal (lit text), Normal (lit text)).

(** The body of the response holds strings where it holds anything. *)
Definition BodyValue_plain (v : BodyValue) : Prop :=
  match v with
  | Body_other _ => False
  | Body_falsy | Body_string _ => True
  end.

Definition body_plain {A} (response : HttpResponse.t A) : Prop :=
  match HttpResponse.errorData response with
  | Some errorData =>
      BodyValue_plain (ErrorData.message errorData)
      /\ BodyValue_plain (ErrorData.error errorData)
  | None => True
  end.

(** A backend that answers every request with the given status and an
    empty error body, on an engine whose [toLowerCase] is not consulted. *)
Definition failingResponse {A} (status : Z) : HttpResponse.t A :=
  {| HttpResponse.ok := false;
     HttpResponse.status := status;
     HttpResponse.statusText := [];
     HttpResponse.errorData :=
       Some {| ErrorData.message := Body_falsy;
               ErrorData.error := Body_falsy |};
     HttpResponse.data := inr (Failure_of (NonError [])) |}.

(** The response with status [status] whose body is [{"message": []}]:
    the string of an empty array is empty. *)
Definition arrayMessageResponse {A} (status : Z) : HttpResponse.t A :=
  {| HttpResponse.ok := false;
     HttpResponse.status := status;
     HttpResponse.statusText := [];
     HttpResponse.errorData :=
       Some {| ErrorData.message := Body_other (Some []);
               ErrorData.error := Body_falsy |};
     HttpResponse.data := inr (Failure_of (NonError [])) |}.

Definition failingPlatform (status : Z) : AiPlatform :=
  {| toLowerCase := fun s => s;
     not_a_function := lit "errorMessage.toLowerCase is not a function";
     not_convertible := lit "Cannot convert object to primitive value";
     getAuthToken := inl (Some (lit "token"));
     fetch_chat := fun _ _ _ => inl (failingResponse status);
     fetch_guidance := fun _ _ _ => inl (failingResponse status);
     fetch_astrology := fun _ _ _ => inl (failingResponse status) |}.

(** ** AiRepository: the conversations kept in local storage *)

(** A text of the store, by what [JSON.parse] makes of it. The store
    holds what this repository has written, the [JSON.stringify] of a
    list of ids or of a conversation, read back as [JSON.parse] gives it;
    a text from another hand is taken to be empty or one that
    [JSON.parse] rejects, throwing [e]. *)
Inductive StoredText : Type :=
| Text_ids (ids : list jsstring)
| Text_conversation (json : ConversationJSON.t)
| Text_empty
| Text_broken (e : Thrown).

(** [localStorage], taken to have room for what is written; the items
    are kept most recently written first. *)
Definition LocalStorage : Type := list (jsstring * StoredText).

Fixpoint getItem (s : LocalStorage) (key : jsstring) : option StoredText :=
  match s with
  | [] => None
  | (k, v) :: s' => if str_eqb k key then Some v else getItem s' key
  end.

Definition removeItem (s : LocalStorage) (key : jsstring) : LocalStorage :=
  List.filter (fun item => negb (str_eqb (fst item) key)) s.

Definition setItem (s : LocalStorage) (key : jsstring) (value : StoredText)
    : LocalStorage :=
  (key, value) :: removeItem s key.

(** The storage methods of the repository; [ls] is [localStorage],
    [None] where there is none. *)
Definition AiRepository_getStorageItem (ls : option LocalStorage)
    (key : jsstring)
    : option StoredText :=
  match ls with
  | Some s => getItem s key
  | None => None
  end.

Definition AiRepository_setStorageItem (ls : option LocalStorage) (key : jsstring)
    (value : StoredText) : Outcome unit * option LocalStorage :=
  match ls with
  | Some s => (Normal tt, Some (setItem s key value))
  | None => (throw_Error "Storage not available", None)
  end.


Definition ids_key : jsstring := lit "stellara_conversation_ids".

Definition conversation_key (id : jsstring) : jsstring :=
  lit "stellara_conversation_" ++ id.

(** What [getConversationIds] returns: an array of ids, or the object
    that [JSON.parse] gave for the text of a conversation. *)
Inductive IdsRead : Type :=
| Ids_array (ids : list jsstring)
| Ids_object (json : ConversationJSON.t).

Definition AiRepository_getConversationIds (ls : option LocalStorage) : IdsRead :=
  match AiRepository_getStorageItem ls ids_key with
  | None => Ids_array []
  | Some Text_empty => Ids_array []
  | Some (Text_ids ids) => Ids_array ids
  | Some (Text_conversation json) => Ids_object json
  | Some (Text_broken _) => Ids_array []
  end.

(** [conversation.id] as a string; a conversation has one. *)
Definition Conversation_id_string (conversation : Conversation) : jsstring :=
  default (lit "undefined") (Conversation_id conversation).

(** [saveConversation]; [describe] is the engine's conversion of what was
    thrown to a string, as the template literal of the [catch] clause
    asks for. Calling [includes] on an object throws a [TypeError]. *)
Definition AiRepository_saveConversation `{JsRuntime}
    (describe : Thrown -> jsstring) (conversation : Conversation)
    (ls : option LocalStorage) : Outcome unit * option LocalStorage :=
  let fail (e : Thrown) (ls' : option LocalStorage) : Outcome unit * option LocalStorage :=
    (Throw (JsError (lit "Failed to save conversation: " ++ describe e)),
     ls') in
  let id := Conversation_id_string conversation in
  let key := conversation_key id in
  let data :=
    Text_conversation (ConversationJSON_wire (Conversation_toJSON conversation))
  in
  match AiRepository_setStorageItem ls key data with
  | (Throw e, ls1) => fail e ls1
  | (Normal _, ls1) =>
      match AiRepository_getConversationIds ls1 with
      | Ids_object _ => fail TypeError ls1
      | Ids_array conversationIds =>
          if negb (array_includes conversationIds id) then
            match AiRepository_setStorageItem ls1 ids_key
                    (Text_ids (conversationIds ++ [id])) with
            | (Throw e, ls2) => fail e ls2
            | (Normal _, ls2) => (Normal tt, ls2)
            end
          else (Normal tt, ls1)
      end
  end.

(** [loadConversation]: reading [messages] off an array of ids gives
    [undefined], and calling [map] on that throws a [TypeError]. *)
Definition AiRepository_loadConversation `{JsRuntime}
    (describe : Thrown -> jsstring) (conversationId : jsstring)
    (ls : option LocalStorage) : Outcome (option Conversation) :=
  let fail (e : Thrown) : Outcome (option Conversation) :=
    Throw (JsError (lit "Failed to load conversation: " ++ describe e)) in
  match AiRepository_getStorageItem ls (conversation_key conversationId) with
  | None => Normal None
  | Some Text_empty => Normal None
  | Some (Text_broken e) => fail e
  | Some (Text_ids _) => fail TypeError
  | Some (Text_conversation parsed) =>
      match Conversation_fromJSON parsed with
      | Normal conversation => Normal (Some conversation)
      | Throw e => fail e
      end
  end.


(** The index of a store is in order: there is none, or it is a list of
    ids, or a text that reads as no ids. *)
Definition index_in_order (s : LocalStorage) : Prop :=
  forall json, getItem s ids_key <> Some (Text_conversation json).


(** Truthiness of a number: zero and [NaN] are falsy. *)
Definition number_truthy (x : number) : bool :=
  match x with
  | Finite q => negb (Qnum q =? 0)
  | NaN => false
  | PosInfinity | NegInfinity => true
  end.

(** [l.slice(0, limit)]: [limit] is truncated to an integer, and a
    negative one counts from the end. *)
Definition slice_0 {A} (limit : number) (l : list A) : list A :=
  match limit with
  | Finite q =>
      let k := Z.quot (Qnum q) (Zpos (Qden q)) in
      if k <? 0 then firstn (Z.to_nat (Z.of_nat (List.length l) + k)) l
      else firstn (Z.to_nat k) l
  | NaN => []
  | PosInfinity => l
  | NegInfinity => []
  end.

(** The loop of [loadConversations]: a conversation that cannot be loaded
    is passed over, and so is an id with nothing stored. *)
Fixpoint AiRepository_loadEach `{JsRuntime} (describe : Thrown -> jsstring)
    (idsToLoad : list jsstring) (ls : option LocalStorage) : list Conversation :=
  match idsToLoad with
  | [] => []
  | id :: rest =>
      match AiRepository_loadConversation describe id ls with
      | Normal (Some conversation) =>
          conversation :: AiRepository_loadEach describe rest ls
      | Normal None => AiRepository_loadEach describe rest ls
      | Throw _ => AiRepository_loadEach describe rest ls
      end
  end.

(** [loadConversations]; [sort] is the engine's [Array.prototype.sort]
    with the comparator of the source, which orders by [updatedAt], the
    latest first. Calling [reverse] on an object throws a [TypeError]. *)
Definition AiRepository_loadConversations `{JsRuntime}
    (sort : list Conversation -> list Conversation)
    (describe : Thrown -> jsstring) (limit : option number)
    (ls : option LocalStorage) : Outcome (list Conversation) :=
  match AiRepository_getConversationIds ls with
  | Ids_object _ =>
      Throw (JsError (lit "Failed to load conversations: "
                        ++ describe TypeError))
  | Ids_array conversationIds =>
      let sortedIds := rev conversationIds in
      let idsToLoad :=
        match limit with
        | Some n => if number_truthy n then slice_0 n sortedIds else sortedIds
        | None => sortedIds
        end in
      Normal (sort (AiRepository_loadEach describe idsToLoad ls))
  end.

(** An insertion sort by [updatedAt], the latest first, an invalid date
    counting as equal to every other. It is stable: a conversation is put
    in front of the first one it does not come after, and the head of the
    list is put in last, so that conversations that compare equal keep
    their order. *)
Definition updated_time (c : Conversation) : option Z :=
  match Conversation_updatedAt c with
  | Some (TimeValue t) => Some t
  | _ => None
  end.

Definition comes_before (a b : Conversation) : bool :=
  match updated_time a, updated_time b with
  | Some ta, Some tb => tb <? ta
  | _, _ => false
  end.

Fixpoint insert_sorted (c : Conversation) (l : list Conversation)
    : list Conversation :=
  match l with
  | [] => [c]
  | x :: l' =>
      if comes_before x c then x :: insert_sorted c l' else c :: x :: l'
  end.

Definition insertion_sort (l : list Conversation) : list Conversation :=
  List.fold_right insert_sorted [] l.

(** * Properties *)

(** ** Strings *)

Section StringFacts.

Lemma str_eqb_eq (a b : jsstring) : str_eqb a b = true <-> a = b.
Proof.
  revert b; induction a as [|x a IH]; intros [|y b]; simpl;
    try (split; [discriminate | discriminate]); [tauto|].
  rewrite andb_true_iff, N.eqb_eq, IH. split.
  - intros [-> ->]; reflexivity.
  - intros [= -> ->]; auto.
Qed.

Lemma str_eqb_refl (a : jsstring) : str_eqb a a = true.
Proof. apply str_eqb_eq; reflexivity. Qed.


Lemma strict_eq_eq (a b : option jsstring) : strict_eq a b = true <-> a = b.
Proof.
  destruct a, b; simpl; try (split; congruence).
  rewrite str_eqb_eq. split; congruence.
Qed.

Lemma array_includes_In (l : list jsstring) (x : jsstring) :
  array_includes l x = true <-> In x l.
Proof.
  unfold array_includes. rewrite existsb_exists. split.
  - intros (y & Hy & E). apply str_eqb_eq in E. subst; assumption.
  - intros H. exists x. split; [assumption | apply str_eqb_refl].
Qed.

Lemma str_length_nonneg (s : jsstring) : 0 <= str_length s.
Proof. unfold str_length; lia. Qed.

Lemma str_length_app (a b : jsstring) :
  str_length (a ++ b) = str_length a + str_length b.
Proof. unfold str_length. rewrite length_app. lia. Qed.

(** *** [trim] *)

Lemma trimStart_length (s : jsstring) :
  (List.length (trimStart s) <= List.length s)%nat.
Proof.
  induction s as [|c s IH]; simpl; [lia|].
  destruct (is_white_space c); simpl; lia.
Qed.

Lemma trimEnd_length (s : jsstring) :
  (List.length (trimEnd s) <= List.length s)%nat.
Proof.
  unfold trimEnd. rewrite length_rev.
  etransitivity; [apply trimStart_length|]. rewrite length_rev. lia.
Qed.

Lemma trim_length (s : jsstring) : str_length (trim s) <= str_length s.
Proof.
  unfold trim, str_length.
  pose proof (trimEnd_length (trimStart s)).
  pose proof (trimStart_length s). lia.
Qed.

Lemma trimStart_head (s : jsstring) c t :
  trimStart s = c :: t -> is_white_space c = false.
Proof.
  induction s as [|x s IH]; simpl; [discriminate|].
  destruct (is_white_space x) eqn:E; [exact IH|].
  intros [= <- <-]; exact E.
Qed.

Lemma trimStart_fixed c (t : jsstring) :
  is_white_space c = false -> trimStart (c :: t) = c :: t.
Proof. intros E; simpl; rewrite E; reflexivity. Qed.

Lemma trimStart_snoc (l : jsstring) c :
  is_white_space c = false -> trimStart (l ++ [c]) = trimStart l ++ [c].
Proof.
  intros E. induction l as [|x l IH]; simpl.
  - rewrite E; reflexivity.
  - destruct (is_white_space x); [exact IH | reflexivity].
Qed.

Lemma trimEnd_cons c (t : jsstring) :
  is_white_space c = false -> trimEnd (c :: t) = c :: trimEnd t.
Proof.
  intros E. unfold trimEnd. simpl rev.
  rewrite (trimStart_snoc _ _ E), rev_app_distr. reflexivity.
Qed.

Lemma trimStart_idem (s : jsstring) : trimStart (trimStart s) = trimStart s.
Proof.
  destruct (trimStart s) as [|c t] eqn:E; [reflexivity|].
  apply trimStart_fixed, (trimStart_head s c t E).
Qed.

Lemma trimEnd_idem (s : jsstring) : trimEnd (trimEnd s) = trimEnd s.
Proof.
  unfold trimEnd. rewrite rev_involutive, trimStart_idem. reflexivity.
Qed.

(** A trimmed string is empty or starts with a unit that is not white
    space. *)
Lemma trim_shape (s : jsstring) :
  trim s = [] \/
  exists c t, trimStart s = c :: t /\ is_white_space c = false
              /\ trim s = c :: trimEnd t.
Proof.
  unfold trim. destruct (trimStart s) as [|c t] eqn:E.
  - left; reflexivity.
  - right. exists c, t. pose proof (trimStart_head s c t E) as Hc.
    rewrite (trimEnd_cons _ _ Hc). auto.
Qed.

Lemma trim_idem (s : jsstring) : trim (trim s) = trim s.
Proof.
  destruct (trim_shape s) as [E | (c & t & _ & Hc & E)]; rewrite E.
  - reflexivity.
  - unfold trim. rewrite (trimStart_fixed _ _ Hc), (trimEnd_cons _ _ Hc).
    rewrite trimEnd_idem. reflexivity.
Qed.

(** A string that starts with a unit that is not white space does not
    trim to the empty string. *)
Lemma trim_cons_nonempty c (t : jsstring) :
  is_white_space c = false -> nonempty (trim (c :: t)) = true.
Proof.
  intros Hc. unfold trim.
  rewrite (trimStart_fixed _ _ Hc), (trimEnd_cons _ _ Hc). reflexivity.
Qed.

Lemma blank_trim (s : jsstring) : blank (Some (trim s)) = blank (Some s).
Proof. simpl. rewrite trim_idem. reflexivity. Qed.

Lemma blank_Some_false (o : option jsstring) :
  blank o = false -> exists s, o = Some s /\ nonempty (trim s) = true.
Proof.
  destruct o as [s|]; simpl; [|discriminate].
  intros H. exists s. split; [reflexivity|].
  destruct (nonempty (trim s)); [reflexivity | discriminate].
Qed.

Lemma truthy_Some (o : option jsstring) :
  truthy o = true -> exists s, o = Some s /\ s <> [].
Proof.
  destruct o as [[|c s]|]; simpl; try discriminate.
  intros _. exists (c :: s). split; [reflexivity | discriminate].
Qed.

(** *** [includes] *)

Lemma startsWith_app (p s : jsstring) : startsWith (p ++ s) p = true.
Proof.
  induction p as [|x p IH]; simpl; [reflexivity|].
  rewrite N.eqb_refl. exact IH.
Qed.

Lemma includes_unfold (s sub : jsstring) :
  includes s sub =
  startsWith s sub
  || match s with [] => false | _ :: s' => includes s' sub end.
Proof. destruct s; reflexivity. Qed.

Lemma includes_prefix (p s : jsstring) : includes (p ++ s) p = true.
Proof. rewrite includes_unfold, startsWith_app. reflexivity. Qed.

End StringFacts.

(** ** The monad *)

Section MonadFacts.






End MonadFacts.

(** ** The Message constructor *)

Lemma role_ok_iff (p : MessageProps.t) :
  role_ok p = true <->
  (MessageProps.role p = lit "user" \/ MessageProps.role p = lit "assistant").
Proof.
  unfold role_ok. rewrite array_includes_In. simpl. intuition congruence.
Qed.

Lemma Message_validate_valid (p : MessageProps.t) :
  MessageProps_valid p <-> Message_validateMessage p = Normal tt.
Proof.
  unfold MessageProps_valid, Message_validateMessage.
  rewrite <- role_ok_iff. unfold role_ok.
  destruct (blank (MessageProps.id p));
    [split; [intuition discriminate | discriminate]|].
  destruct (blank (MessageProps.content p)) eqn:Hc;
    [split; [intuition discriminate | discriminate]|].
  destruct (MessageProps.content p) as [c|]; [|discriminate Hc].
  destruct (2000 <? str_length c) eqn:Hl.
  - apply Z.ltb_lt in Hl. split; [|discriminate].
    intros (_ & _ & H & _). specialize (H c eq_refl). lia.
  - apply Z.ltb_ge in Hl.
    destruct (array_includes _ (MessageProps.role p)); simpl;
      [|split; [intuition discriminate | discriminate]].
    destruct (MessageProps.timestamp p);
      [|split; [intuition congruence | discriminate]].
    split; [reflexivity|]. intros _.
    split; [reflexivity|]. split; [reflexivity|].
    split; [intros c' [= <-]; exact Hl|]. split; [reflexivity | discriminate].
Qed.

Lemma Message_new_Normal (p : MessageProps.t) (m : Message) :
  Message_new p = Normal m <->
  Message_validateMessage p = Normal tt /\ m = {| Message_props := p |}.
Proof.
  unfold Message_new. destruct (Message_validateMessage p) as [[]|e].
  - split; [intros [= <-]; auto | intros [_ ->]; reflexivity].
  - split; [discriminate | intros [H _]; discriminate].
Qed.

(** C4. For valid props [new Message(props)] succeeds and every getter
    returns the stored value (the empty sequence for an omitted
    spiritualThemes, suggestedActions or relatedTopics); for invalid props
    it throws, with the message of the first violated invariant in the
    order id, empty content, content length, role, timestamp; a content of
    exactly 2000 units is accepted and one of 2001 rejected. *)
Theorem Message_constructor_contract (p : MessageProps.t) :
  (MessageProps_valid p ->
   exists m,
     Message_new p = Normal m /\
     Message_id m = MessageProps.id p /\
     Message_role m = MessageProps.role p /\
     Message_content m = MessageProps.content p /\
     Message_timestamp m = MessageProps.timestamp p /\
     Message_conversationId m = MessageProps.conversationId p /\
     Message_spiritualThemes m = default [] (MessageProps.spiritualThemes p) /\
     Message_suggestedActions m = default [] (MessageProps.suggestedActions p) /\
     Message_relatedTopics m = default [] (MessageProps.relatedTopics p)) /\
  (~ MessageProps_valid p -> exists e, Message_new p = Throw e) /\
  (blank (MessageProps.id p) = true ->
   Message_new p = throw_Error "Message ID is required") /\
  (blank (MessageProps.id p) = false ->
   blank (MessageProps.content p) = true ->
   Message_new p = throw_Error "Message content cannot be empty") /\
  (forall c,
     blank (MessageProps.id p) = false ->
     MessageProps.content p = Some c -> nonempty (trim c) = true ->
     (2000 < str_length c -> Message_new p = throw_Error too_long_message) /\
     (str_length c <= 2000 ->
      ~ (MessageProps.role p = lit "user"
         \/ MessageProps.role p = lit "assistant") ->
      Message_new p = Throw (JsError invalid_role_message)) /\
     (str_length c <= 2000 ->
      MessageProps.role p = lit "user"
      \/ MessageProps.role p = lit "assistant" ->
      MessageProps.timestamp p = None ->
      Message_new p = throw_Error "Message timestamp is required") /\
     (str_length c = 2000 ->
      MessageProps.role p = lit "user"
      \/ MessageProps.role p = lit "assistant" ->
      MessageProps.timestamp p <> None ->
      Message_new p = Normal {| Message_props := p |}) /\
     (str_length c = 2001 -> Message_new p = throw_Error too_long_message)).
Proof.
  split; [|split; [|split; [|split]]].
  - intros Hv. exists {| Message_props := p |}.
    split; [|repeat split].
    apply Message_new_Normal. split; [|reflexivity].
    apply Message_validate_valid; exact Hv.
  - intros Hn. unfold Message_new.
    destruct (Message_validateMessage p) as [[]|e] eqn:E.
    + exfalso. apply Hn, Message_validate_valid, E.
    + exists e; reflexivity.
  - intros H. unfold Message_new, Message_validateMessage. rewrite H.
    reflexivity.
  - intros H1 H2. unfold Message_new, Message_validateMessage.
    rewrite H1, H2. reflexivity.
  - intros c Hid Hc Hne.
    assert (Hb : blank (MessageProps.content p) = false)
      by (rewrite Hc; simpl; rewrite Hne; reflexivity).
    assert (Hlong : 2000 < str_length c ->
                    Message_new p = throw_Error too_long_message).
    { intros Hl. unfold Message_new, Message_validateMessage.
      rewrite Hid, Hb, Hc. apply Z.ltb_lt in Hl. rewrite Hl. reflexivity. }
    assert (Hshort : str_length c <= 2000 ->
      Message_validateMessage p =
      if negb (role_ok p) then Throw (JsError invalid_role_message)
      else match MessageProps.timestamp p with
           | None => throw_Error "Message timestamp is required"
           | Some _ => Normal tt
           end).
    { intros Hl. unfold Message_validateMessage.
      rewrite Hid, Hb, Hc. apply Z.ltb_ge in Hl. rewrite Hl. reflexivity. }
    split; [exact Hlong|]. split; [|split; [|split]].
    + intros Hl Hr. unfold Message_new. rewrite (Hshort Hl).
      rewrite <- role_ok_iff in Hr. destruct (role_ok p); [tauto|].
      reflexivity.
    + intros Hl Hr Ht. unfold Message_new. rewrite (Hshort Hl).
      apply role_ok_iff in Hr. rewrite Hr, Ht. reflexivity.
    + intros Hl Hr Ht. unfold Message_new.
      rewrite Hshort by lia. apply role_ok_iff in Hr. rewrite Hr.
      destruct (MessageProps.timestamp p); [reflexivity | congruence].
    + intros Hl. apply Hlong. lia.
Qed.

Lemma validMessageProps_valid : MessageProps_valid validMessageProps.
Proof.
  apply Message_validate_valid. vm_compute. reflexivity.
Qed.

Lemma Message_constructor_contract_witness :
  (exists m,
     Message_new validMessageProps = Normal m /\
     Message_id m = Some (lit "test-message-1") /\
     Message_role m = lit "user" /\
     Message_content m = Some (lit "Hello, how can I find inner peace?") /\
     Message_timestamp m = Some (TimeValue 1672574400000) /\
     Message_conversationId m = Some (lit "conv-1") /\
     Message_spiritualThemes m = [lit "inner_peace"; lit "meditation"] /\
     Message_suggestedActions m = [lit "Try breathing meditation"] /\
     Message_relatedTopics m = [lit "mindfulness"; lit "stress_relief"]) /\
  Message_new (with_content validMessageProps (Some (repeat_unit 97%N 2000)))
  = Normal {| Message_props :=
       with_content validMessageProps (Some (repeat_unit 97%N 2000)) |} /\
  Message_new (with_content validMessageProps (Some (repeat_unit 97%N 2001)))
  = throw_Error too_long_message /\
  Message_new (with_content validMessageProps (Some (lit "   ")))
  = throw_Error "Message content cannot be empty".
Proof.
  split; [|split; [|split]].
  - apply (proj1 (Message_constructor_contract validMessageProps)).
    apply Message_validate_valid. vm_compute. reflexivity.
  - refine (proj1 (proj2 (proj2 (proj2 (proj2 (proj2 (proj2 (proj2
      (Message_constructor_contract
         (with_content validMessageProps (Some (repeat_unit 97%N 2000)))))))
      (repeat_unit 97%N 2000) _ _ _)))) _ _ _);
      solve [ vm_compute; reflexivity | left; reflexivity | discriminate ].
  - refine (proj2 (proj2 (proj2 (proj2 (proj2 (proj2 (proj2 (proj2
      (Message_constructor_contract
         (with_content validMessageProps (Some (repeat_unit 97%N 2001)))))))
      (repeat_unit 97%N 2001) _ _ _)))) _);
      vm_compute; reflexivity.
  - refine (proj1 (proj2 (proj2 (proj2
      (Message_constructor_contract
         (with_content validMessageProps (Some (lit "   "))))))) _ _);
      vm_compute; reflexivity.
Defined.

(** ** The Conversation constructor and [addMessage] *)

Lemma Conversation_new_Normal (p : ConversationProps.t) (c : Conversation) :
  Conversation_new p = Normal c <->
  Conversation_validateConversation p = Normal tt
  /\ c = {| Conversation_props := p |}.
Proof.
  unfold Conversation_new.
  destruct (Conversation_validateConversation p) as [[]|e].
  - split; [intros [= <-]; auto | intros [_ ->]; reflexivity].
  - split; [discriminate | intros [H _]; discriminate].
Qed.

Lemma Conversation_validate_Normal (p : ConversationProps.t) :
  Conversation_validateConversation p = Normal tt <->
  blank (ConversationProps.id p) = false /\
  exists l created updated,
    ConversationProps.messages p = Some l /\
    ConversationProps.createdAt p = Some created /\
    ConversationProps.updatedAt p = Some updated /\
    Date_lt updated created = false.
Proof.
  unfold Conversation_validateConversation.
  destruct (blank (ConversationProps.id p));
    [split; [discriminate | intros [? _]; discriminate]|].
  destruct (ConversationProps.messages p) as [l|];
    [|split; [discriminate | intros (_ & ? & ? & ? & ? & _); discriminate]].
  destruct (ConversationProps.createdAt p) as [cr|];
    [|split; [discriminate | intros (_ & ? & ? & ? & _ & ? & _); discriminate]].
  destruct (ConversationProps.updatedAt p) as [up|];
    [|split; [discriminate
             | intros (_ & ? & ? & ? & _ & _ & ? & _); discriminate]].
  destruct (Date_lt up cr) eqn:E.
  - split; [discriminate|].
    intros (_ & ? & ? & ? & _ & [= <-] & [= <-] & H). congruence.
  - split; [|reflexivity]. intros _. split; [reflexivity|].
    exists l, cr, up. auto.
Qed.

Lemma Conversation_constructed_iff (c : Conversation) :
  Conversation_constructed c <->
  Conversation_validateConversation (Conversation_props c) = Normal tt.
Proof.
  split.
  - intros (p & H). apply Conversation_new_Normal in H as [H ->]. exact H.
  - intros H. exists (Conversation_props c). apply Conversation_new_Normal.
    split; [exact H | destruct c; reflexivity].
Qed.

(** The constructor leaves an array of messages in the props. *)
Lemma Conversation_new_holds_array (c : Conversation) :
  Conversation_constructed c ->
  ConversationProps.messages (Conversation_props c)
  = Some (Conversation_stored c).
Proof.
  intros H. apply Conversation_constructed_iff in H.
  apply Conversation_validate_Normal in H as (_ & l & _ & _ & E & _).
  unfold Conversation_stored. rewrite E. reflexivity.
Qed.

Lemma Date_lt_irrefl (d : Date) : Date_lt d d = false.
Proof. destruct d; simpl; [apply Z.ltb_irrefl | reflexivity]. Qed.

(** Unfolding of the monadic operations. *)
Ltac run_m :=
  unfold mbind, M_bind, bind, mret, M_ret, ret, lift, new_Date_now, Date_now,
    Math_random_suffix, repo_call, try_catch in *.

(** What [addMessage] does, case by case. *)
Lemma Conversation_addMessage_cases (c : Conversation) (m : Message)
    (w : World) :
  Conversation_constructed c ->
  (conversationId_mismatch c m = true ->
   Conversation_addMessage c m w
   = (throw_Error "Message conversation ID does not match", w)) /\
  (conversationId_mismatch c m = false ->
   clock_precedes_creation c w = true ->
   Conversation_addMessage c m w
   = (throw_Error "Update date cannot be before creation date", tick w)) /\
  (conversationId_mismatch c m = false ->
   clock_precedes_creation c w = false ->
   Conversation_addMessage c m w
   = (Normal {| Conversation_props :=
        {| ConversationProps.id := Conversation_id c;
           ConversationProps.messages := Some (Conversation_stored c ++ [m]);
           ConversationProps.createdAt := Conversation_createdAt c;
           ConversationProps.updatedAt := Some (next_now w);
           ConversationProps.summary := Conversation_summary c;
           ConversationProps.userId := Conversation_userId c |} |},
      tick w)).
Proof.
  intros Hc. apply Conversation_constructed_iff in Hc.
  apply Conversation_validate_Normal in Hc
    as (Hid & l & cr & up & Hl & Hcr & Hup & Hlt).
  unfold Conversation_addMessage, conversationId_mismatch,
    clock_precedes_creation.
  split; [|split].
  - intros ->. reflexivity.
  - intros -> Hp. run_m.
    unfold Conversation_new, Conversation_validateConversation,
      Conversation_id, Conversation_createdAt in *.
    cbn [ConversationProps.id ConversationProps.messages
         ConversationProps.createdAt ConversationProps.updatedAt].
    rewrite Hid, Hcr in *. unfold next_now in Hp. rewrite Hp. reflexivity.
  - intros -> Hp. run_m.
    unfold Conversation_new, Conversation_validateConversation,
      Conversation_id, Conversation_createdAt in *.
    cbn [ConversationProps.id ConversationProps.messages
         ConversationProps.createdAt ConversationProps.updatedAt].
    rewrite Hid, Hcr in *. unfold next_now in *. rewrite Hp. reflexivity.
Qed.

(** The conversation that [addMessage] returns is again one the
    constructor accepts. *)
Lemma Conversation_addMessage_constructed (c c' : Conversation) (m : Message)
    (w w' : World) :
  Conversation_constructed c ->
  Conversation_addMessage c m w = (Normal c', w') ->
  Conversation_constructed c'.
Proof.
  intros Hc H. unfold Conversation_addMessage in H.
  destruct (_ && _); [discriminate|]. run_m.
  destruct (Conversation_new _) as [c1|] eqn:E; [|discriminate].
  injection H as <- _. eexists; exact E.
Qed.

Lemma conversationId_mismatch_iff (c : Conversation) (m : Message) :
  conversationId_mismatch c m = true <-> conversationId_differs c m.
Proof.
  unfold conversationId_mismatch, conversationId_differs.
  rewrite andb_true_iff, negb_true_iff. split.
  - intros [Ht Hn]. apply truthy_Some in Ht as (s & E & Hs).
    exists s. repeat split; [exact E | exact Hs |].
    intros E'. rewrite E, E' in Hn.
    assert (strict_eq (Some s) (Some s) = true) by (apply strict_eq_eq; reflexivity).
    congruence.
  - intros (s & E & Hs & Hd). rewrite E. split.
    + destruct s; [congruence | reflexivity].
    + destruct (strict_eq (Some s) (Conversation_id c)) eqn:Q; [|reflexivity].
      apply strict_eq_eq in Q. congruence.
Qed.

Lemma clock_precedes_creation_iff (c : Conversation) (w : World) :
  clock_precedes_creation c w = true <-> clock_before_creation c w.
Proof.
  unfold clock_precedes_creation, clock_before_creation.
  destruct (Conversation_createdAt c) as [d|].
  - split; [intros H; exists d; auto | intros (d' & [= <-] & H); exact H].
  - split; [discriminate | intros (d' & [=] & _)].
Qed.

(** C1, as stated, fails on the code: with the conversation created at
    2000 ms and the clock reading 1000 ms, [addMessage] throws on a
    message whose [conversationId] is not set; and a message whose
    [conversationId] is the empty string (set, and different from the
    id) is accepted. *)
Lemma Conversation_addMessage_counterexample :
  (Conversation_constructed (sampleConversation 2000) /\
   Message_constructed (sampleMessage None) /\
   Message_conversationId (sampleMessage None) = None /\
   fst (Conversation_addMessage (sampleConversation 2000) (sampleMessage None)
          (sampleWorld 1000))
   = throw_Error "Update date cannot be before creation date") /\
  (Conversation_constructed (sampleConversation 1000) /\
   Message_constructed (sampleMessage (Some [])) /\
   Message_conversationId (sampleMessage (Some [])) = Some [] /\
   Conversation_id (sampleConversation 1000) <> Some [] /\
   is_Normal (fst (Conversation_addMessage (sampleConversation 1000)
                     (sampleMessage (Some [])) (sampleWorld 2000))) = true).
Proof.
  split.
  - split; [exists (sampleConversationProps 2000); reflexivity|].
    split; [exists (Message_props (sampleMessage None)); reflexivity|].
    split; reflexivity.
  - split; [exists (sampleConversationProps 1000); reflexivity|].
    split; [exists (Message_props (sampleMessage (Some []))); reflexivity|].
    split; [reflexivity|]. split; [discriminate | reflexivity].
Qed.

(** ** SendChatMessage: validation *)

Lemma SendChatMessage_execute_invalid (repo : IAiRepository)
    (req : SendChatMessageRequest.t) (w : World) (e : jsstring) :
  SendChatMessage_validateRequest req = Some e ->
  SendChatMessage_execute repo req w = (Normal (chat_failure e), w).
Proof.
  intros H. unfold SendChatMessage_execute, SendChatMessage_body, try_catch.
  rewrite H. reflexivity.
Qed.

(** C2 (as amended). [execute] validates in order, the first failure
    wins, and no repository call is made (the world is left as it was): a
    message that is empty after trimming gives 'Message cannot be empty';
    a longer-than-2000 message gives the length error; an experience
    level that is a non-empty string other than beginner, intermediate
    and advanced gives the experience-level error. *)
Theorem SendChatMessage_validation (repo : IAiRepository)
    (req : SendChatMessageRequest.t) (w : World) :
  (blank (SendChatMessageRequest.message req) = true ->
   SendChatMessage_execute repo req w
   = (Normal (chat_failure (lit "Message cannot be empty")), w)) /\
  (forall msg,
     SendChatMessageRequest.message req = Some msg ->
     nonempty (trim msg) = true ->
     (2000 < str_length msg ->
      SendChatMessage_execute repo req w
      = (Normal (chat_failure (lit too_long_message)), w)) /\
     (forall level,
        str_length msg <= 2000 ->
        experienceLevel_given req level ->
        ~ In level experienceLevels ->
        SendChatMessage_execute repo req w
        = (Normal (chat_failure
             (lit "Invalid experience level. Must be beginner, intermediate, or advanced.")),
           w))).
Proof.
  split.
  - intros Hb. apply SendChatMessage_execute_invalid.
    unfold SendChatMessage_validateRequest. rewrite Hb. reflexivity.
  - intros msg Hm Hne.
    assert (Hb : blank (SendChatMessageRequest.message req) = false)
      by (rewrite Hm; simpl; rewrite Hne; reflexivity).
    split.
    + intros Hl. apply SendChatMessage_execute_invalid.
      unfold SendChatMessage_validateRequest. rewrite Hb, Hm.
      cbn [default from_option id]. unfold id. apply Z.ltb_lt in Hl. rewrite Hl. reflexivity.
    + intros level Hl (uc & Hu & He & Hn) Hin.
      apply SendChatMessage_execute_invalid.
      unfold SendChatMessage_validateRequest. rewrite Hb, Hm, Hu.
      cbn [default from_option id mbind option_bind]. unfold id.
      apply Z.ltb_ge in Hl. rewrite Hl, He.
      destruct level as [|x level]; [congruence|].
      cbn [truthy nonempty andb default from_option id]. unfold id.
      destruct (array_includes experienceLevels (x :: level)) eqn:Q.
      * apply array_includes_In in Q. tauto.
      * reflexivity.
Qed.

Lemma SendChatMessage_validation_witness :
  SendChatMessage_execute mockAiRepository
    (with_message (chatRequest "" None) (Some (lit ""))) (sampleWorld 0)
  = (Normal (chat_failure (lit "Message cannot be empty")), sampleWorld 0) /\
  SendChatMessage_execute mockAiRepository
    (with_message (chatRequest "" None) (Some (repeat_unit 97%N 2001)))
    (sampleWorld 0)
  = (Normal (chat_failure (lit too_long_message)), sampleWorld 0) /\
  SendChatMessage_execute mockAiRepository
    (chatRequest "How can I find inner peace?" (Some (lit "expert")))
    (sampleWorld 0)
  = (Normal (chat_failure
       (lit "Invalid experience level. Must be beginner, intermediate, or advanced.")),
     sampleWorld 0).
Proof.
  split; [|split].
  - apply (proj1 (SendChatMessage_validation mockAiRepository
      (with_message (chatRequest "" None) (Some (lit ""))) (sampleWorld 0))).
    vm_compute. reflexivity.
  - refine (proj1 (proj2 (SendChatMessage_validation mockAiRepository
      (with_message (chatRequest "" None) (Some (repeat_unit 97%N 2001)))
      (sampleWorld 0)) (repeat_unit 97%N 2001) _ _) _);
      vm_compute; reflexivity.
  - refine (proj2 (proj2 (SendChatMessage_validation mockAiRepository
      (chatRequest "How can I find inner peace?" (Some (lit "expert")))
      (sampleWorld 0)) (lit "How can I find inner peace?") _ _)
      (lit "expert") _ _ _).
    + vm_compute; reflexivity.
    + vm_compute; reflexivity.
    + vm_compute; discriminate.
    + eexists. split; [reflexivity|]. split; [reflexivity | discriminate].
    + intros H. apply array_includes_In in H. vm_compute in H. discriminate H.
Defined.

(** C2, as stated, fails on the code: an experience level that is
    present and is the empty string is none of the three allowed ones,
    yet validation accepts the request and the repository is called. *)
Lemma SendChatMessage_validation_counterexample :
  let req := chatRequest "How can I find inner peace?" (Some []) in
  (exists uc, SendChatMessageRequest.userContext req = Some uc
              /\ UserProfile.experienceLevel uc = Some []) /\
  ~ In [] experienceLevels /\
  SendChatMessage_validateRequest req = None /\
  (let '(r, w') := SendChatMessage_execute mockAiRepository req (sampleWorld 0)
   in exists res request c,
        r = Normal res /\ SendChatMessageResult.success res = true /\
        calls w' = [Call_sendChatMessage request; Call_saveConversation c]).
Proof.
  split; [eexists; split; reflexivity|].
  split; [intros H; apply array_includes_In in H; discriminate H|].
  split; [reflexivity|].
  vm_compute. eexists _, _, _. split; [reflexivity|]. split; reflexivity.
Qed.

(** ** LoadConversations *)

Lemma Number_isInteger_iff (x : number) :
  Number_isInteger x = true <-> exists z, number_is_Z x z.
Proof.
  destruct x as [[n d]| | |]; simpl;
    try (split; [discriminate | intros [? []]]).
  unfold Qeq; simpl. rewrite Z.eqb_eq. split.
  - intros H. exists (n / Z.pos d).
    pose proof (Z.div_mod n (Z.pos d) ltac:(lia)). lia.
  - intros [z Hz]. replace n with (z * Z.pos d) by lia.
    apply Z.mod_mul. lia.
Qed.

Lemma number_is_Z_lt (x : number) (z k : Z) :
  number_is_Z x z -> number_lt x k = (z <? k).
Proof.
  destruct x as [[n d]| | |]; simpl; try tauto.
  unfold Qeq; simpl. intros H.
  destruct (z <? k) eqn:E.
  - apply Z.ltb_lt in E. apply Z.ltb_lt. nia.
  - apply Z.ltb_ge in E. apply Z.ltb_ge. nia.
Qed.

Lemma number_is_Z_gt (x : number) (z k : Z) :
  number_is_Z x z -> number_gt x k = (k <? z).
Proof.
  destruct x as [[n d]| | |]; simpl; try tauto.
  unfold Qeq; simpl. intros H.
  destruct (k <? z) eqn:E.
  - apply Z.ltb_lt in E. apply Z.ltb_lt. nia.
  - apply Z.ltb_ge in E. apply Z.ltb_ge. nia.
Qed.

Lemma LoadConversations_execute_invalid (repo : IAiRepository)
    (req : LoadConversationsRequest.t) (w : World) (e : jsstring) :
  LoadConversations_validateRequest req = Some e ->
  LoadConversations_execute repo req w = (Normal (load_failure e), w).
Proof.
  intros H. unfold LoadConversations_execute, LoadConversations_body, try_catch.
  rewrite H. reflexivity.
Qed.

Lemma LoadConversations_execute_valid (repo : IAiRepository)
    (req : LoadConversationsRequest.t) (w : World) :
  LoadConversations_validateRequest req = None ->
  let limit := LoadConversationsRequest.limit req in
  LoadConversations_execute repo req w
  = (match loadConversations repo limit with
     | Normal l =>
         Normal {| LoadConversationsResult.success := true;
                   LoadConversationsResult.conversations := Some l;
                   LoadConversationsResult.error := None |}
     | Throw e => answered load_failure (LoadConversations_handleError e)
     end,
     logged (Call_loadConversations limit) w).
Proof.
  intros H. unfold LoadConversations_execute, LoadConversations_body.
  rewrite H. run_m.
  destruct (loadConversations repo _) as [l|e]; [reflexivity|].
  destruct (LoadConversations_handleError e); reflexivity.
Qed.

(** C9. A provided limit that is not a positive integer gives 'Limit must
    be a positive integer'; an integer limit above 100 gives 'Limit
    cannot exceed 100 conversations'; in both cases the repository is
    not called. An omitted limit or an integer from 1 to 100 is handed to
    the repository's [loadConversations], and a successful result always
    carries the array it returned. *)
Theorem LoadConversations_contract (repo : IAiRepository)
    (req : LoadConversationsRequest.t) (w : World) :
  (forall limit,
     LoadConversationsRequest.limit req = Some limit ->
     ~ positive_integer limit ->
     LoadConversations_execute repo req w
     = (Normal (load_failure (lit "Limit must be a positive integer")), w)) /\
  (forall limit z,
     LoadConversationsRequest.limit req = Some limit ->
     number_is_Z limit z -> 100 < z ->
     LoadConversations_execute repo req w
     = (Normal (load_failure (lit "Limit cannot exceed 100 conversations")),
        w)) /\
  (LoadConversationsRequest.limit req = None
   \/ (exists limit z, LoadConversationsRequest.limit req = Some limit
                       /\ number_is_Z limit z /\ 1 <= z <= 100) ->
   let limit := LoadConversationsRequest.limit req in
   LoadConversations_execute repo req w
   = (match loadConversations repo limit with
      | Normal l =>
          Normal {| LoadConversationsResult.success := true;
                    LoadConversationsResult.conversations := Some l;
                    LoadConversationsResult.error := None |}
      | Throw e => answered load_failure (LoadConversations_handleError e)
      end,
      logged (Call_loadConversations limit) w)) /\
  (forall r w',
     LoadConversations_execute repo req w = (Normal r, w') ->
     LoadConversationsResult.success r = true ->
     exists l, LoadConversationsResult.conversations r = Some l
               /\ loadConversations repo (LoadConversationsRequest.limit req)
                  = Normal l).
Proof.
  assert (Hbad : forall limit,
    LoadConversationsRequest.limit req = Some limit ->
    ~ positive_integer limit ->
    LoadConversations_validateRequest req
    = Some (lit "Limit must be a positive integer")).
  { intros limit Hl Hn. unfold LoadConversations_validateRequest. rewrite Hl.
    destruct (Number_isInteger limit) eqn:Ei; [|reflexivity].
    apply Number_isInteger_iff in Ei as [z Hz].
    rewrite (number_is_Z_lt _ _ 1 Hz).
    destruct (z <? 1) eqn:E; [reflexivity|].
    apply Z.ltb_ge in E. exfalso. apply Hn. exists z. auto. }
  assert (Hbig : forall limit z,
    LoadConversationsRequest.limit req = Some limit ->
    number_is_Z limit z -> 100 < z ->
    LoadConversations_validateRequest req
    = Some (lit "Limit cannot exceed 100 conversations")).
  { intros limit z Hl Hz Hgt. unfold LoadConversations_validateRequest.
    rewrite Hl.
    assert (Ei : Number_isInteger limit = true)
      by (apply Number_isInteger_iff; eauto).
    rewrite Ei, (number_is_Z_lt _ _ 1 Hz), (number_is_Z_gt _ _ 100 Hz).
    assert (E1 : (z <? 1) = false) by (apply Z.ltb_ge; lia).
    assert (E2 : (100 <? z) = true) by (apply Z.ltb_lt; lia).
    rewrite E1, E2. reflexivity. }
  assert (Hok : LoadConversationsRequest.limit req = None
   \/ (exists limit z, LoadConversationsRequest.limit req = Some limit
                       /\ number_is_Z limit z /\ 1 <= z <= 100) ->
   LoadConversations_validateRequest req = None).
  { intros [Hl | (limit & z & Hl & Hz & Hr)];
      unfold LoadConversations_validateRequest; rewrite Hl; [reflexivity|].
    assert (Ei : Number_isInteger limit = true)
      by (apply Number_isInteger_iff; eauto).
    rewrite Ei, (number_is_Z_lt _ _ 1 Hz), (number_is_Z_gt _ _ 100 Hz).
    assert (E1 : (z <? 1) = false) by (apply Z.ltb_ge; lia).
    assert (E2 : (100 <? z) = false) by (apply Z.ltb_ge; lia).
    rewrite E1, E2. reflexivity. }
  split; [|split; [|split]].
  - intros limit Hl Hn. apply LoadConversations_execute_invalid; eauto.
  - intros limit z Hl Hz Hgt. apply LoadConversations_execute_invalid; eauto.
  - intros H. apply LoadConversations_execute_valid, Hok, H.
  - intros r w' E Hs.
    destruct (LoadConversations_validateRequest req) as [e|] eqn:V.
    + rewrite (LoadConversations_execute_invalid _ _ _ _ V) in E.
      injection E as <- _. discriminate Hs.
    + rewrite (LoadConversations_execute_valid _ _ _ V) in E.
      destruct (loadConversations repo _) as [l|e].
      * injection E as <- _. exists l. auto.
      * destruct (LoadConversations_handleError e); [|discriminate E].
        injection E as <- _. discriminate Hs.
Qed.

Lemma LoadConversations_contract_witness :
  LoadConversations_execute mockAiRepository
    (load_request (Some (number_of_Z 0))) (sampleWorld 0)
  = (Normal (load_failure (lit "Limit must be a positive integer")),
     sampleWorld 0) /\
  LoadConversations_execute mockAiRepository
    (load_request (Some (Finite (5 # 2)))) (sampleWorld 0)
  = (Normal (load_failure (lit "Limit must be a positive integer")),
     sampleWorld 0) /\
  LoadConversations_execute mockAiRepository
    (load_request (Some (number_of_Z 101))) (sampleWorld 0)
  = (Normal (load_failure (lit "Limit cannot exceed 100 conversations")),
     sampleWorld 0) /\
  LoadConversations_execute mockAiRepository
    (load_request (Some (number_of_Z 10))) (sampleWorld 0)
  = (Normal {| LoadConversationsResult.success := true;
               LoadConversationsResult.conversations := Some [];
               LoadConversationsResult.error := None |},
     logged (Call_loadConversations (Some (number_of_Z 10))) (sampleWorld 0)).
Proof.
  split; [|split; [|split]].
  - apply (proj1 (LoadConversations_contract mockAiRepository
      (load_request (Some (number_of_Z 0))) (sampleWorld 0))
      (number_of_Z 0) eq_refl).
    intros (z & Hz & H1). unfold number_is_Z, number_of_Z, Qeq in Hz.
    simpl in Hz. lia.
  - apply (proj1 (LoadConversations_contract mockAiRepository
      (load_request (Some (Finite (5 # 2)))) (sampleWorld 0))
      (Finite (5 # 2)) eq_refl).
    intros (z & Hz & H1). unfold number_is_Z, Qeq in Hz. simpl in Hz. lia.
  - apply (proj1 (proj2 (LoadConversations_contract mockAiRepository
      (load_request (Some (number_of_Z 101))) (sampleWorld 0)))
      (number_of_Z 101) 101 eq_refl); [reflexivity | lia].
  - apply (proj1 (proj2 (proj2 (LoadConversations_contract mockAiRepository
      (load_request (Some (number_of_Z 10))) (sampleWorld 0))))).
    right. exists (number_of_Z 10), 10.
    split; [reflexivity|]. split; [reflexivity | lia].
Defined.

(** ** LoginUser and RegisterUser: what the [catch] clauses return *)

Lemma LoginUser_body_valid (repo : IAuthRepository)
    (creds : LoginCredentials.t) (w : World) :
  login_input_valid creds ->
  LoginUser_body repo creds w
  = match login repo creds with
    | Throw e => (Throw e, logged (Call_login creds) w)
    | Normal result =>
        let w1 := logged (Call_storeTokens (AuthResult.tokens result))
                    (logged (Call_login creds) w) in
        match storeTokens repo (AuthResult.tokens result) with
        | Throw e => (Throw e, w1)
        | Normal _ =>
            (Normal {| LoginResult.isSuccess := true;
                       LoginResult.user := Some (AuthResult.user result);
                       LoginResult.tokens := Some (AuthResult.tokens result);
                       LoginResult.error := None |}, w1)
        end
    end.
Proof.
  intros (He & Hl & Hu & Hs). unfold LoginUser_body.
  rewrite He, Hu, Hs. apply Z.ltb_ge in Hl. rewrite Hl.
  cbn [negb]. run_m. unfold logged.
  destruct (login repo creds) as [result|e]; [|reflexivity].
  cbn [calls clock clock_reads random random_reads].
  destruct (storeTokens repo _); reflexivity.
Qed.

Lemma RegisterUser_body_valid (repo : IAuthRepository)
    (data : RegisterData.t) (w : World) :
  register_input_valid data ->
  RegisterUser_body repo data w
  = match register repo data with
    | Throw e => (Throw e, logged (Call_register data) w)
    | Normal result =>
        let w1 := logged (Call_storeTokens (AuthResult.tokens result))
                    (logged (Call_register data) w) in
        match storeTokens repo (AuthResult.tokens result) with
        | Throw e => (Throw e, w1)
        | Normal _ =>
            (Normal {| RegisterResult.isSuccess := true;
                       RegisterResult.user := Some (AuthResult.user result);
                       RegisterResult.tokens := Some (AuthResult.tokens result);
                       RegisterResult.error := None |}, w1)
        end
    end.
Proof.
  intros (He & Hl & Hu & Hs & Hf & Hn). unfold RegisterUser_body.
  rewrite He, Hu, Hs, Hf, Hn. apply Z.ltb_ge in Hl. rewrite Hl.
  cbn [negb]. run_m. unfold logged.
  destruct (register repo data) as [result|e]; [|reflexivity].
  cbn [calls clock clock_reads random random_reads].
  destruct (storeTokens repo _); reflexivity.
Qed.

Lemma LoginUser_execute_throws (repo : IAuthRepository)
    (creds : LoginCredentials.t) (w : World) (e : Thrown) :
  login_input_valid creds -> login_throws repo creds e ->
  fst (LoginUser_execute repo creds w) = Normal (LoginUser_catch e).
Proof.
  intros Hv Ht. unfold LoginUser_execute, try_catch.
  rewrite (LoginUser_body_valid _ _ _ Hv).
  destruct Ht as [-> | (result & -> & Hs)]; [reflexivity|].
  cbv zeta. rewrite Hs. reflexivity.
Qed.

Lemma RegisterUser_execute_throws (repo : IAuthRepository)
    (data : RegisterData.t) (w : World) (e : Thrown) :
  register_input_valid data -> register_throws repo data e ->
  fst (RegisterUser_execute repo data w) = Normal (RegisterUser_catch e).
Proof.
  intros Hv Ht. unfold RegisterUser_execute, try_catch.
  rewrite (RegisterUser_body_valid _ _ _ Hv).
  destruct Ht as [-> | (result & -> & Hs)]; [reflexivity|].
  cbv zeta. rewrite Hs. reflexivity.
Qed.

(** C8. When the repository throws during a login ([login] itself, or
    [storeTokens] after it), [LoginUser.execute] answers 'Invalid
    credentials' if what was thrown is an [Error] with exactly that
    message, and 'Login failed. Please try again.' for anything else, the
    raw message never showing. [RegisterUser.execute] passes 'User already
    exists' through and otherwise answers the raw message of the thrown
    [Error]. *)
Theorem auth_error_mapping (repo : IAuthRepository) (w : World) (e : Thrown) :
  (forall creds,
     login_input_valid creds -> login_throws repo creds e ->
     (e = JsError (lit "Invalid credentials") ->
      fst (LoginUser_execute repo creds w)
      = Normal (login_failure "Invalid credentials")) /\
     (e <> JsError (lit "Invalid credentials") ->
      fst (LoginUser_execute repo creds w)
      = Normal (login_failure "Login failed. Please try again."))) /\
  (forall data,
     register_input_valid data -> register_throws repo data e ->
     (e = JsError (lit "User already exists") ->
      fst (RegisterUser_execute repo data w)
      = Normal (register_failure (lit "User already exists"))) /\
     (forall message,
        e = JsError message ->
        fst (RegisterUser_execute repo data w)
        = Normal (register_failure message))).
Proof.
  split.
  - intros creds Hv Ht. rewrite (LoginUser_execute_throws _ _ _ _ Hv Ht).
    split.
    + intros ->. reflexivity.
    + intros Hne. destruct e as [message| |v]; [|reflexivity|reflexivity].
      unfold LoginUser_catch.
      destruct (str_eqb message (lit "Invalid credentials")) eqn:Q;
        [|reflexivity].
      apply str_eqb_eq in Q. congruence.
  - intros data Hv Ht. rewrite (RegisterUser_execute_throws _ _ _ _ Hv Ht).
    split.
    + intros ->. reflexivity.
    + intros message ->. unfold RegisterUser_catch.
      destruct (str_eqb message (lit "User already exists")) eqn:Q;
        [|reflexivity].
      apply str_eqb_eq in Q. rewrite Q. reflexivity.
Qed.

Lemma auth_error_mapping_witness :
  (* a wrong password *)
  fst (LoginUser_execute (mockAuthRepository (Normal tt))
         (credentials "wrong@example.com" "WrongPass123!") (sampleWorld 0))
  = Normal (login_failure "Invalid credentials") /\
  (* the token store fails after a successful login *)
  fst (LoginUser_execute
         (mockAuthRepository (Throw (JsError (lit "Keychain is locked"))))
         (credentials "test@example.com" "Password123!") (sampleWorld 0))
  = Normal (login_failure "Login failed. Please try again.") /\
  (* a duplicate registration, and a backend failure *)
  fst (RegisterUser_execute (mockAuthRepository (Normal tt))
         (registration "test@example.com") (sampleWorld 0))
  = Normal (register_failure (lit "User already exists")) /\
  fst (RegisterUser_execute (mockAuthRepository (Normal tt))
         (registration "down@example.com") (sampleWorld 0))
  = Normal (register_failure (lit "Service unavailable: db-7 timed out")).
Proof.
  split; [|split; [|split]].
  - refine (proj1 (proj1 (auth_error_mapping (mockAuthRepository (Normal tt))
      (sampleWorld 0) (JsError (lit "Invalid credentials")))
      (credentials "wrong@example.com" "WrongPass123!") _ _) eq_refl).
    + repeat split; vm_compute; congruence.
    + left. vm_compute. reflexivity.
  - refine (proj2 (proj1 (auth_error_mapping
      (mockAuthRepository (Throw (JsError (lit "Keychain is locked"))))
      (sampleWorld 0) (JsError (lit "Keychain is locked")))
      (credentials "test@example.com" "Password123!") _ _) _).
    + repeat split; vm_compute; congruence.
    + right. exists mockAuthResult. split; vm_compute; reflexivity.
    + intros H. vm_compute in H. discriminate H.
  - refine (proj1 (proj2 (auth_error_mapping (mockAuthRepository (Normal tt))
      (sampleWorld 0) (JsError (lit "User already exists")))
      (registration "test@example.com") _ _) eq_refl).
    + repeat split; vm_compute; congruence.
    + left. vm_compute. reflexivity.
  - refine (proj2 (proj2 (auth_error_mapping (mockAuthRepository (Normal tt))
      (sampleWorld 0) (JsError (lit "Service unavailable: db-7 timed out")))
      (registration "down@example.com") _ _)
      (lit "Service unavailable: db-7 timed out") eq_refl).
    + repeat split; vm_compute; congruence.
    + left. vm_compute. reflexivity.
Defined.

(** ** SendChatMessage: the run of [execute] *)

Lemma blank_lit_app (a : ascii) (s : string) (x : jsstring) :
  is_white_space (N_of_ascii a) = false ->
  blank (Some (lit (String a s) ++ x)) = false.
Proof.
  intros H. unfold lit. cbn [list_ascii_of_string List.map app blank].
  rewrite (trim_cons_nonempty _ _ H). reflexivity.
Qed.

Lemma Message_createUserMessage_run (content : jsstring)
    (cid : option jsstring) (w : World) :
  Message_createUserMessage content cid w
  = (Message_new (userMessageProps content cid w), advance 2 1 w).
Proof. reflexivity. Qed.

Lemma Message_createAssistantMessage_run (response : ChatResponse.t)
    (w : World) :
  Message_createAssistantMessage
    (ChatResponse.message response)
    (Some (ChatResponse.conversationId response))
    (Some (ChatResponse.spiritualThemes response))
    (ChatResponse.suggestedActions response)
    (ChatResponse.relatedTopics response) w
  = (Message_new (assistantMessageProps response w), advance 2 1 w).
Proof. reflexivity. Qed.

(** The user message of a validated request is accepted by the
    constructor. *)
Lemma userMessageProps_valid (content : jsstring) (cid : option jsstring)
    (w : World) :
  nonempty (trim content) = true -> str_length content <= 2000 ->
  Message_new (userMessageProps content cid w)
  = Normal {| Message_props := userMessageProps content cid w |}.
Proof.
  intros Hne Hl. apply Message_new_Normal. split; [|reflexivity].
  apply Message_validate_valid. unfold MessageProps_valid, userMessageProps.
  cbn [MessageProps.id MessageProps.content MessageProps.role
       MessageProps.timestamp].
  split; [apply blank_lit_app; reflexivity|].
  split; [rewrite blank_trim; simpl; rewrite Hne; reflexivity|].
  split; [intros c [= <-]; pose proof (trim_length content); lia|].
  split; [left; reflexivity | discriminate].
Qed.

Lemma Conversation_createNew_run (userId : option jsstring) (w : World) :
  Conversation_createNew userId w
  = (Normal {| Conversation_props :=
       {| ConversationProps.id :=
            Some (lit "conv-" ++ of_Z (clock w (S (clock_reads w))) ++ lit "-"
                    ++ random w (random_reads w));
          ConversationProps.messages := Some [];
          ConversationProps.createdAt :=
            Some (TimeValue (clock w (clock_reads w)));
          ConversationProps.updatedAt :=
            Some (TimeValue (clock w (clock_reads w)));
          ConversationProps.summary := None;
          ConversationProps.userId := userId |} |},
     advance 2 1 w).
Proof.
  unfold Conversation_createNew. run_m.
  cbn [clock clock_reads random random_reads calls].
  unfold Conversation_new, Conversation_validateConversation.
  cbn [ConversationProps.id ConversationProps.messages
       ConversationProps.createdAt ConversationProps.updatedAt].
  rewrite blank_lit_app by reflexivity.
  rewrite Date_lt_irrefl. reflexivity.
Qed.

Lemma Conversation_addMessage_run (c : Conversation) (m : Message)
    (w : World) :
  Conversation_constructed c ->
  Conversation_addMessage c m w
  = if conversationId_mismatch c m then
      (throw_Error "Message conversation ID does not match", w)
    else if clock_precedes_creation c w then
      (throw_Error "Update date cannot be before creation date", advance 1 0 w)
    else (Normal (appended c m (next_now w)), advance 1 0 w).
Proof.
  intros Hc.
  destruct (Conversation_addMessage_cases c m w Hc) as (H1 & H2 & H3).
  destruct (conversationId_mismatch c m); [apply H1; reflexivity|].
  destruct (clock_precedes_creation c w);
    [apply H2; reflexivity | apply H3; reflexivity].
Qed.

Lemma created_constructed (userId : option jsstring) (w : World) :
  Conversation_constructed (created userId w).
Proof.
  apply Conversation_constructed_iff.
  unfold created, Conversation_validateConversation.
  cbn [Conversation_props ConversationProps.id ConversationProps.messages
       ConversationProps.createdAt ConversationProps.updatedAt].
  rewrite blank_lit_app by reflexivity.
  rewrite Date_lt_irrefl. reflexivity.
Qed.

Lemma appended_constructed (c : Conversation) (m : Message) (w : World) :
  Conversation_constructed c ->
  clock_precedes_creation c w = false ->
  Conversation_constructed (appended c m (next_now w)).
Proof.
  intros Hc Hp. apply Conversation_constructed_iff in Hc.
  apply Conversation_validate_Normal in Hc
    as (Hid & l & cr & up & Hl & Hcr & Hup & Hlt).
  apply Conversation_constructed_iff, Conversation_validate_Normal.
  unfold appended, Conversation_id, Conversation_createdAt,
    clock_precedes_creation in *.
  cbn [Conversation_props ConversationProps.id ConversationProps.messages
       ConversationProps.createdAt ConversationProps.updatedAt].
  unfold Conversation_createdAt in Hp. rewrite Hcr in Hp.
  split; [exact Hid|]. eexists _, cr, _.
  split; [reflexivity|]. split; [exact Hcr|]. split; [reflexivity | exact Hp].
Qed.

Lemma Conversation_createNew_created (userId : option jsstring) (w : World) :
  Conversation_createNew userId w = (Normal (created userId w), advance 2 1 w).
Proof. apply Conversation_createNew_run. Qed.

Lemma self_mismatch_false (c : Conversation) (m : Message) :
  Message_conversationId m = Conversation_id c ->
  conversationId_mismatch c m = false.
Proof.
  intros E. unfold conversationId_mismatch. rewrite E.
  assert (H : strict_eq (Conversation_id c) (Conversation_id c) = true)
    by (apply strict_eq_eq; reflexivity).
  rewrite H. apply andb_false_r.
Qed.

Lemma unset_mismatch_false (c : Conversation) (m : Message) :
  Message_conversationId m = None -> conversationId_mismatch c m = false.
Proof. intros E. unfold conversationId_mismatch. rewrite E. reflexivity. Qed.

Lemma SendChatMessage_validate_None (req : SendChatMessageRequest.t) :
  chat_request_valid req ->
  exists message,
    SendChatMessageRequest.message req = Some message /\
    nonempty (trim message) = true /\ str_length message <= 2000.
Proof.
  unfold chat_request_valid, SendChatMessage_validateRequest.
  destruct (blank (SendChatMessageRequest.message req)) eqn:Hb; [discriminate|].
  apply blank_Some_false in Hb as (message & -> & Hne).
  cbn [default from_option id]. unfold id.
  destruct (2000 <? str_length message) eqn:Hl; [discriminate|].
  intros _. exists message. apply Z.ltb_ge in Hl. auto.
Qed.

Lemma SendChatMessage_body_phases (repo : IAiRepository)
    (req : SendChatMessageRequest.t) (message : jsstring) (w : World) :
  chat_request_valid req ->
  SendChatMessageRequest.message req = Some message ->
  SendChatMessage_body repo req w
  = match SendChatMessage_prepare req message w with
    | (Normal (_, currentConversation), w1) =>
        SendChatMessage_exchange repo req currentConversation w1
    | (Throw e, w1) => (Throw e, w1)
    end.
Proof.
  intros Hv Hm. unfold SendChatMessage_body, SendChatMessage_prepare,
    SendChatMessage_exchange, chatRequest_of.
  rewrite Hv, Hm.
  unfold mbind, M_bind, bind, mret, M_ret, ret.
  destruct (Message_createUserMessage message _ w) as [[um|e] w1];
    [|reflexivity].
  destruct (match SendChatMessageRequest.conversation req with
            | Some c => Conversation_addMessage c um
            | None => Conversation_createWithFirstMessage um None
            end w1) as [[cc|e] w2]; reflexivity.
Qed.

(** The first phase, in full. *)
Lemma SendChatMessage_prepare_run (req : SendChatMessageRequest.t)
    (message : jsstring) (w : World) :
  nonempty (trim message) = true -> str_length message <= 2000 ->
  (forall c, SendChatMessageRequest.conversation req = Some c ->
             Conversation_constructed c) ->
  let um := {| Message_props :=
                 userMessageProps message
                   (SendChatMessageRequest.conversation req ≫= Conversation_id)
                   w |} in
  SendChatMessage_prepare req message w
  = match SendChatMessageRequest.conversation req with
    | Some c =>
        if clock_precedes_creation c (advance 2 1 w) then
          (throw_Error "Update date cannot be before creation date",
           advance 3 1 w)
        else (Normal (um, appended c um (next_now (advance 2 1 w))),
              advance 3 1 w)
    | None =>
        if clock_precedes_creation (created None (advance 2 1 w))
             (advance 4 2 w) then
          (throw_Error "Update date cannot be before creation date",
           advance 5 2 w)
        else (Normal (um, appended (created None (advance 2 1 w)) um
                            (next_now (advance 4 2 w))),
              advance 5 2 w)
    end.
Proof.
  intros Hne Hl Hc um. unfold SendChatMessage_prepare.
  unfold mbind at 1 2. unfold M_bind, bind, mret, M_ret, ret.
  rewrite Message_createUserMessage_run, (userMessageProps_valid _ _ _ Hne Hl).
  fold um.
  destruct (SendChatMessageRequest.conversation req) as [c|] eqn:Ec.
  - rewrite (Conversation_addMessage_run _ _ _ (Hc c eq_refl)).
    rewrite self_mismatch_false by reflexivity.
    destruct (clock_precedes_creation c (advance 2 1 w)); reflexivity.
  - unfold Conversation_createWithFirstMessage.
    unfold mbind, M_bind, bind.
    rewrite Conversation_createNew_created.
    rewrite (Conversation_addMessage_run _ _ _ (created_constructed _ _)).
    rewrite unset_mismatch_false by reflexivity.
    change (advance 2 1 (advance 2 1 w)) with (advance 4 2 w).
    destruct (clock_precedes_creation _ (advance 4 2 w)); reflexivity.
Qed.

(** The second phase, in full. *)
Lemma SendChatMessage_exchange_run (repo : IAiRepository)
    (req : SendChatMessageRequest.t) (cc : Conversation) (w : World) :
  Conversation_constructed cc ->
  SendChatMessage_exchange repo req cc w
  = let w1 := logged (Call_sendChatMessage (chatRequest_of req cc)) w in
    match sendChatMessage repo (chatRequest_of req cc) with
    | Throw e => (Throw e, w1)
    | Normal response =>
        let w2 := advance 2 1 w1 in
        match Message_new (assistantMessageProps response w1) with
        | Throw e => (Throw e, w2)
        | Normal am =>
            if conversationId_mismatch cc am then
              (throw_Error "Message conversation ID does not match", w2)
            else if clock_precedes_creation cc w2 then
              (throw_Error "Update date cannot be before creation date",
               advance 1 0 w2)
            else
              let final := appended cc am (next_now w2) in
              let w3 := logged (Call_saveConversation final) (advance 1 0 w2) in
              match saveConversation repo final with
              | Throw e => (Throw e, w3)
              | Normal _ => (Normal (chat_success final am), w3)
              end
        end
    end.
Proof.
  intros Hc. unfold SendChatMessage_exchange.
  unfold mbind at 1. unfold M_bind, bind, repo_call at 1.
  fold (logged (Call_sendChatMessage (chatRequest_of req cc)) w).
  destruct (sendChatMessage repo _) as [response|e]; [|reflexivity].
  cbv zeta.
  unfold mbind at 1. unfold M_bind, bind.
  rewrite Message_createAssistantMessage_run.
  destruct (Message_new _) as [am|e]; [|reflexivity].
  unfold mbind at 1. unfold M_bind, bind.
  rewrite (Conversation_addMessage_run _ _ _ Hc).
  destruct (conversationId_mismatch cc am); [reflexivity|].
  destruct (clock_precedes_creation cc _); [reflexivity|].
  unfold mbind, M_bind, bind, repo_call, mret, M_ret, ret, logged.
  destruct (saveConversation repo _); reflexivity.
Qed.

Lemma later_refl (w : World) : later w w.
Proof.
  unfold later. repeat split; try lia. exists []. symmetry; apply app_nil_r.
Qed.

Lemma later_trans (a b c : World) : later a b -> later b c -> later a c.
Proof.
  intros (H1 & H2 & H3 & H4 & m1 & H5) (G1 & G2 & G3 & G4 & m2 & G5).
  unfold later. repeat split; try congruence; try lia.
  exists (m1 ++ m2). rewrite G5, H5, app_assoc. reflexivity.
Qed.

Lemma later_advance (c r : nat) (w : World) : later w (advance c r w).
Proof.
  unfold later, advance; simpl. repeat split; try lia.
  exists []. symmetry; apply app_nil_r.
Qed.

Lemma later_logged (k : RepoCall) (w : World) : later w (logged k w).
Proof.
  unfold later, logged; simpl. repeat split; try lia. exists [k]. reflexivity.
Qed.

(** With a clock that does not run backwards, a conversation created by
    the current reading is never found ahead of a later reading. *)
Lemma steady_clock_never_precedes (c : Conversation) (w w' : World) :
  clock_monotone w -> later w w' ->
  created_by c (clock w' (clock_reads w')) ->
  clock_precedes_creation c w' = false.
Proof.
  intros Hm Hl Hc. unfold clock_precedes_creation, next_now.
  destruct (Conversation_createdAt c) as [[t|]|] eqn:E; try reflexivity.
  simpl. apply Z.ltb_ge. apply Hc. exact E.
Qed.

Lemma created_by_later (c : Conversation) (w w' : World) :
  clock_monotone w -> later w w' ->
  created_by c (clock w (clock_reads w)) ->
  created_by c (clock w' (clock_reads w')).
Proof.
  intros Hm (Hc & _ & Hr & _) Hb t Ht. specialize (Hb t Ht).
  rewrite Hc. specialize (Hm (clock_reads w) (clock_reads w')). lia.
Qed.

Lemma clock_monotone_later (w w' : World) :
  clock_monotone w -> later w w' -> clock_monotone w'.
Proof.
  intros Hm (Hc & _ & Hr & _) i j Hi Hj. rewrite Hc. apply Hm; lia.
Qed.

Lemma created_by_appended (c : Conversation) (m : Message) (now : Date)
    (bound : Z) :
  created_by c bound -> created_by (appended c m now) bound.
Proof. intros H t Ht. apply H. exact Ht. Qed.

(** The first phase under a steady clock: it succeeds, makes no call, and
    the current conversation is the prior one with the user message
    appended, whose content is the trimmed message. *)
Lemma SendChatMessage_prepare_steady (req : SendChatMessageRequest.t)
    (message : jsstring) (w : World) :
  nonempty (trim message) = true -> str_length message <= 2000 ->
  clock_monotone w -> conversation_of_the_past req w ->
  exists um cc w1,
    SendChatMessage_prepare req message w = (Normal (um, cc), w1) /\
    Message_content um = Some (trim message) /\
    Message_role um = lit "user" /\
    Message_constructed um /\
    Conversation_constructed cc /\
    Conversation_messages cc = prior_messages req ++ [um] /\
    (forall c, SendChatMessageRequest.conversation req = Some c ->
               Conversation_id cc = Conversation_id c) /\
    later w w1 /\ calls w1 = calls w /\
    created_by cc (clock w1 (clock_reads w1)).
Proof.
  intros Hne Hl Hm Hp.
  assert (Hcons : forall c, SendChatMessageRequest.conversation req = Some c ->
                            Conversation_constructed c)
    by (intros c Hc; apply (Hp c Hc)).
  pose proof (SendChatMessage_prepare_run req message w Hne Hl Hcons) as Hrun.
  cbv zeta in Hrun.
  set (um := {| Message_props := userMessageProps message
                 (SendChatMessageRequest.conversation req ≫= Conversation_id)
                 w |}) in *.
  assert (Hum : Message_constructed um).
  { eexists. apply (userMessageProps_valid _ _ _ Hne Hl). }
  unfold prior_messages.
  destruct (SendChatMessageRequest.conversation req) as [c|] eqn:Ec.
  - destruct (Hp c Ec) as [Hc Hpast].
    assert (Hb : created_by c (clock w (clock_reads w)))
      by (intros t Ht; apply Hpast, Ht).
    assert (Hnp : clock_precedes_creation c (advance 2 1 w) = false).
    { apply (steady_clock_never_precedes c w); [exact Hm | apply later_advance|].
      apply (created_by_later c w); [exact Hm | apply later_advance | exact Hb]. }
    rewrite Hnp in Hrun.
    exists um, (appended c um (next_now (advance 2 1 w))), (advance 3 1 w).
    split; [exact Hrun|]. split; [reflexivity|]. split; [reflexivity|].
    split; [exact Hum|].
    split; [apply appended_constructed; assumption|].
    split; [reflexivity|]. split; [intros c' [= <-]; reflexivity|].
    split; [apply later_advance|]. split; [reflexivity|].
    apply created_by_appended.
    apply (created_by_later c w); [exact Hm | apply later_advance | exact Hb].
  - set (c0 := created None (advance 2 1 w)) in *.
    assert (Hb : created_by c0 (clock w (2 + clock_reads w)))
      by (intros t [= <-]; simpl; lia).
    assert (Hb4 : created_by c0 (clock w (4 + clock_reads w))).
    { intros t Ht. specialize (Hb t Ht).
      specialize (Hm (2 + clock_reads w)%nat (4 + clock_reads w)%nat). lia. }
    assert (Hnp : clock_precedes_creation c0 (advance 4 2 w) = false).
    { apply (steady_clock_never_precedes c0 w);
        [exact Hm | apply later_advance | exact Hb4]. }
    rewrite Hnp in Hrun.
    exists um, (appended c0 um (next_now (advance 4 2 w))), (advance 5 2 w).
    split; [exact Hrun|]. split; [reflexivity|]. split; [reflexivity|].
    split; [exact Hum|].
    split; [apply appended_constructed;
            [apply created_constructed | exact Hnp]|].
    split; [reflexivity|]. split; [discriminate|].
    split; [apply later_advance|]. split; [reflexivity|].
    apply created_by_appended. intros t Ht. specialize (Hb t Ht).
    specialize (Hm (2 + clock_reads w)%nat (5 + clock_reads w)%nat).
    simpl in *. lia.
Qed.

Lemma SendChatMessage_execute_caught (repo : IAiRepository)
    (req : SendChatMessageRequest.t) (w : World) :
  SendChatMessage_execute repo req w
  = chat_caught (SendChatMessage_body repo req w).
Proof.
  unfold SendChatMessage_execute, try_catch, chat_caught.
  destruct (SendChatMessage_body repo req w) as [[r|e] w']; [reflexivity|].
  run_m. destruct (SendChatMessage_handleError e); reflexivity.
Qed.

Lemma constructed_id_truthy (c : Conversation) :
  Conversation_constructed c -> truthy (Conversation_id c) = true.
Proof.
  intros Hc. apply Conversation_constructed_iff in Hc.
  apply Conversation_validate_Normal in Hc as (Hid & _).
  apply blank_Some_false in Hid as (s & E & Hne).
  unfold Conversation_id. rewrite E. destruct s; [discriminate Hne|].
  reflexivity.
Qed.

Lemma assistantMessageProps_valid (response : ChatResponse.t) (w : World) :
  nonempty (trim (ChatResponse.message response)) = true ->
  str_length (trim (ChatResponse.message response)) <= 2000 ->
  Message_new (assistantMessageProps response w)
  = Normal {| Message_props := assistantMessageProps response w |}.
Proof.
  intros Hne Hl. apply Message_new_Normal. split; [|reflexivity].
  apply Message_validate_valid. unfold MessageProps_valid, assistantMessageProps.
  cbn [MessageProps.id MessageProps.content MessageProps.role
       MessageProps.timestamp].
  split; [apply blank_lit_app; reflexivity|].
  split; [rewrite blank_trim; simpl; rewrite Hne; reflexivity|].
  split; [intros c [= <-]; exact Hl|].
  split; [right; reflexivity | discriminate].
Qed.

(** The second phase when the repository answers well and the clock is
    steady: both calls are made, in order, and only the outcome of
    [saveConversation] decides between success and failure. *)
Lemma SendChatMessage_exchange_steady (repo : IAiRepository)
    (req : SendChatMessageRequest.t) (cc : Conversation) (w : World) :
  Conversation_constructed cc -> clock_monotone w ->
  created_by cc (clock w (clock_reads w)) ->
  answers_well repo ->
  exists am final w3,
    SendChatMessage_exchange repo req cc w
    = match saveConversation repo final with
      | Throw e => (Throw e, w3)
      | Normal _ => (Normal (chat_success final am), w3)
      end /\
    calls w3 = calls w ++ [Call_sendChatMessage (chatRequest_of req cc);
                           Call_saveConversation final] /\
    Message_role am = lit "assistant" /\
    Conversation_messages final = Conversation_messages cc ++ [am] /\
    Conversation_id final = Conversation_id cc.
Proof.
  intros Hc Hm Hb Hw.
  destruct (Hw (chatRequest_of req cc) (constructed_id_truthy cc Hc))
    as (response & Hs & Hne & Hl & Hid).
  rewrite (SendChatMessage_exchange_run repo req cc w Hc). cbv zeta.
  rewrite Hs, (assistantMessageProps_valid _ _ Hne Hl).
  set (w1 := logged (Call_sendChatMessage (chatRequest_of req cc)) w).
  set (am := {| Message_props := assistantMessageProps response w1 |}).
  assert (Hmm : conversationId_mismatch cc am = false).
  { destruct Hid as [E | E].
    - unfold conversationId_mismatch, am, Message_conversationId,
        assistantMessageProps.
      cbn [Message_props MessageProps.conversationId]. rewrite E. reflexivity.
    - apply self_mismatch_false. symmetry. exact E. }
  rewrite Hmm.
  assert (Hl2 : later w (advance 2 1 w1)).
  { apply (later_trans _ w1); [apply later_logged | apply later_advance]. }
  assert (Hnp : clock_precedes_creation cc (advance 2 1 w1) = false).
  { apply (steady_clock_never_precedes cc w); [exact Hm | exact Hl2|].
    apply (created_by_later cc w); assumption. }
  rewrite Hnp.
  eexists am, _, _. split; [reflexivity|].
  split; [|split; [reflexivity | split; reflexivity]].
  unfold logged, advance, w1, logged.
  cbn [calls]. rewrite <- app_assoc. reflexivity.
Qed.

(** [execute] on a valid request, with a steady clock and a repository
    that answers well. *)
Lemma SendChatMessage_execute_steady (repo : IAiRepository)
    (req : SendChatMessageRequest.t) (w : World) :
  chat_request_valid req -> clock_monotone w ->
  conversation_of_the_past req w -> answers_well repo ->
  exists message um cc am final w',
    SendChatMessageRequest.message req = Some message /\
    Message_content um = Some (trim message) /\
    Message_role um = lit "user" /\
    Message_role am = lit "assistant" /\
    Conversation_messages cc = prior_messages req ++ [um] /\
    Conversation_messages final = prior_messages req ++ [um; am] /\
    calls w' = calls w ++ [Call_sendChatMessage (chatRequest_of req cc);
                           Call_saveConversation final] /\
    SendChatMessage_execute repo req w
    = (match saveConversation repo final with
       | Throw e => answered chat_failure (SendChatMessage_handleError e)
       | Normal _ => Normal (chat_success final am)
       end, w').
Proof.
  intros Hv Hm Hp Hw.
  destruct (SendChatMessage_validate_None req Hv) as (message & Hmsg & Hne & Hl).
  destruct (SendChatMessage_prepare_steady req message w Hne Hl Hm Hp)
    as (um & cc & w1 & Hprep & Hcontent & Hrole & _ & Hcc & Hmsgs & _ & Hlater
        & Hcalls & Hb).
  destruct (SendChatMessage_exchange_steady repo req cc w1 Hcc
              (clock_monotone_later _ _ Hm Hlater) Hb Hw)
    as (am & final & w3 & Hex & Hcalls3 & Hrole' & Hfinal & _).
  exists message, um, cc, am, final, w3.
  split; [exact Hmsg|]. split; [exact Hcontent|]. split; [exact Hrole|].
  split; [exact Hrole'|]. split; [exact Hmsgs|].
  split; [rewrite Hfinal, Hmsgs, <- app_assoc; reflexivity|].
  split; [rewrite Hcalls3, Hcalls; reflexivity|].
  rewrite SendChatMessage_execute_caught,
    (SendChatMessage_body_phases repo req message w Hv Hmsg), Hprep, Hex.
  destruct (saveConversation repo final); reflexivity.
Qed.

(** *** What [trim] removes *)

Lemma trimStart_decompose (s : jsstring) :
  exists a, s = a ++ trimStart s /\ forallb is_white_space a = true.
Proof.
  induction s as [|c s (a & E & Ha)]; simpl.
  - exists []. auto.
  - destruct (is_white_space c) eqn:Hc.
    + exists (c :: a). simpl. rewrite Hc, Ha. split; [congruence | reflexivity].
    + exists []. auto.
Qed.

Lemma forallb_rev {A} (f : A -> bool) (l : list A) :
  forallb f (rev l) = forallb f l.
Proof.
  induction l as [|x l IH]; simpl; [reflexivity|].
  rewrite forallb_app, IH. simpl. rewrite andb_true_r. apply andb_comm.
Qed.

Lemma trimEnd_decompose (s : jsstring) :
  exists b, s = trimEnd s ++ b /\ forallb is_white_space b = true.
Proof.
  destruct (trimStart_decompose (rev s)) as (a & E & Ha).
  exists (rev a). split.
  - unfold trimEnd. rewrite <- rev_app_distr, <- E, rev_involutive.
    reflexivity.
  - rewrite forallb_rev. exact Ha.
Qed.

(** A string is its trimmed form between two runs of white space. *)
Lemma trim_decompose (s : jsstring) :
  exists before after,
    s = before ++ trim s ++ after /\
    forallb is_white_space before = true /\
    forallb is_white_space after = true.
Proof.
  destruct (trimStart_decompose s) as (a & Ea & Ha).
  destruct (trimEnd_decompose (trimStart s)) as (b & Eb & Hb).
  exists a, b. split; [|auto]. unfold trim. rewrite <- Eb. exact Ea.
Qed.

(** The calls of the second phase, whatever the repository does: the chat
    request goes out first; a result means that the conversation was
    saved after it. *)
Lemma SendChatMessage_exchange_calls (repo : IAiRepository)
    (req : SendChatMessageRequest.t) (cc : Conversation) (w : World) :
  Conversation_constructed cc ->
  exists rest,
    calls (snd (SendChatMessage_exchange repo req cc w))
    = calls w ++ Call_sendChatMessage (chatRequest_of req cc) :: rest /\
    forall r, fst (SendChatMessage_exchange repo req cc w) = Normal r ->
      exists am final,
        r = chat_success final am /\
        Conversation_messages final = Conversation_messages cc ++ [am] /\
        rest = [Call_saveConversation final] /\
        saveConversation repo final = Normal tt.
Proof.
  intros Hc. rewrite (SendChatMessage_exchange_run repo req cc w Hc).
  cbv zeta.
  destruct (sendChatMessage repo _) as [response|e];
    [|exists []; split; [reflexivity | discriminate]].
  destruct (Message_new _) as [am|e];
    [|exists []; split; [reflexivity | discriminate]].
  destruct (conversationId_mismatch cc am);
    [exists []; split; [reflexivity | discriminate]|].
  destruct (clock_precedes_creation cc _);
    [exists []; split; [reflexivity | discriminate]|].
  eexists [Call_saveConversation _].
  destruct (saveConversation repo _) as [[]|e] eqn:Es.
  - split; [unfold logged; cbn [snd calls advance];
            rewrite <- app_assoc; reflexivity|].
    intros r [= <-]. eexists am, _. split; [reflexivity|].
    split; [reflexivity|]. split; [reflexivity | exact Es].
  - split; [unfold logged; cbn [snd calls advance];
            rewrite <- app_assoc; reflexivity | discriminate].
Qed.

Lemma chat_caught_calls (r : Outcome SendChatMessageResult.t * World) :
  calls (snd (chat_caught r)) = calls (snd r).
Proof. destruct r as [[res|e] w]; reflexivity. Qed.

Lemma chat_caught_success (r : Outcome SendChatMessageResult.t * World)
    (res : SendChatMessageResult.t) :
  fst (chat_caught r) = Normal res ->
  SendChatMessageResult.success res = true ->
  fst r = Normal res.
Proof.
  destruct r as [[res'|e] w]; simpl; [auto|].
  destruct (SendChatMessage_handleError e); simpl; [|discriminate].
  intros [= <-]. discriminate.
Qed.

Lemma SendChatMessage_exchange_rest (repo : IAiRepository)
    (req : SendChatMessageRequest.t) (cc : Conversation) (w : World) :
  Conversation_constructed cc ->
  exists rest,
    calls (snd (SendChatMessage_exchange repo req cc w))
    = calls w ++ Call_sendChatMessage (chatRequest_of req cc) :: rest /\
    (rest = [] \/ exists final, rest = [Call_saveConversation final]).
Proof.
  intros Hc. rewrite (SendChatMessage_exchange_run repo req cc w Hc).
  cbv zeta.
  destruct (sendChatMessage repo _) as [response|e];
    [|exists []; split; [reflexivity | left; reflexivity]].
  destruct (Message_new _) as [am|e];
    [|exists []; split; [reflexivity | left; reflexivity]].
  destruct (conversationId_mismatch cc am);
    [exists []; split; [reflexivity | left; reflexivity]|].
  destruct (clock_precedes_creation cc _);
    [exists []; split; [reflexivity | left; reflexivity]|].
  eexists [Call_saveConversation _].
  split; [|right; eexists; reflexivity].
  destruct (saveConversation repo _) as [[]|e];
    unfold logged; cbn [snd calls advance]; rewrite <- app_assoc; reflexivity.
Qed.

(** The first phase, whatever the clock: it makes no call, and either
    throws or yields the current conversation, which is the prior one
    with the user message appended. *)
Lemma SendChatMessage_prepare_cases (req : SendChatMessageRequest.t)
    (message : jsstring) (w : World) :
  nonempty (trim message) = true -> str_length message <= 2000 ->
  (forall c, SendChatMessageRequest.conversation req = Some c ->
             Conversation_constructed c) ->
  (exists e w1, SendChatMessage_prepare req message w = (Throw e, w1)
                /\ calls w1 = calls w) \/
  (exists um cc w1,
     SendChatMessage_prepare req message w = (Normal (um, cc), w1) /\
     calls w1 = calls w /\
     Message_content um = Some (trim message) /\
     Message_role um = lit "user" /\
     Conversation_constructed cc /\
     Conversation_messages cc = prior_messages req ++ [um]).
Proof.
  intros Hne Hl Hc.
  pose proof (SendChatMessage_prepare_run req message w Hne Hl Hc) as Hrun.
  cbv zeta in Hrun. unfold prior_messages.
  destruct (SendChatMessageRequest.conversation req) as [c|] eqn:Ec.
  - destruct (clock_precedes_creation c (advance 2 1 w)) eqn:Ep.
    + left. eexists _, _. split; [exact Hrun | reflexivity].
    + right. eexists _, _, _. split; [exact Hrun|].
      split; [reflexivity|]. split; [reflexivity|]. split; [reflexivity|].
      split; [apply appended_constructed; [apply Hc; reflexivity | exact Ep]|].
      reflexivity.
  - destruct (clock_precedes_creation _ (advance 4 2 w)) eqn:Ep.
    + left. eexists _, _. split; [exact Hrun | reflexivity].
    + right. eexists _, _, _. split; [exact Hrun|].
      split; [reflexivity|]. split; [reflexivity|]. split; [reflexivity|].
      split; [apply appended_constructed;
              [apply created_constructed | exact Ep]|].
      reflexivity.
Qed.

(** C10. On a valid request, whatever the repository and the clock, every
    [ChatRequest] that [execute] hands to the repository's
    [sendChatMessage] carries the message of the request as it came,
    untrimmed, while the user message appended to the conversation of a
    successful result (the one that was saved) has the trimmed content:
    the two differ exactly by the white space around the message. With a
    clock that does not run backwards the request does reach the
    repository, and with a repository that answers well and saves,
    [execute] succeeds. *)
Theorem wire_message_untrimmed_stored_trimmed (repo : IAiRepository)
    (req : SendChatMessageRequest.t) (w : World) :
  chat_request_valid req ->
  (forall c, SendChatMessageRequest.conversation req = Some c ->
             Conversation_constructed c) ->
  let run := SendChatMessage_execute repo req w in
  exists message made,
    SendChatMessageRequest.message req = Some message /\
    calls (snd run) = calls w ++ made /\
    (exists before after,
       message = before ++ trim message ++ after /\
       forallb is_white_space before = true /\
       forallb is_white_space after = true) /\
    (forall request,
       In (Call_sendChatMessage request) made ->
       ChatRequest.message request = Some message) /\
    (forall res,
       fst run = Normal res -> SendChatMessageResult.success res = true ->
       exists um am final request,
         res = chat_success final am /\
         Conversation_messages final = prior_messages req ++ [um; am] /\
         Message_role um = lit "user" /\
         Message_content um = Some (trim message) /\
         made = [Call_sendChatMessage request; Call_saveConversation final]) /\
    (clock_monotone w -> conversation_of_the_past req w ->
     (exists request rest, made = Call_sendChatMessage request :: rest) /\
     (answers_well repo -> (forall c, saveConversation repo c = Normal tt) ->
      exists res, fst run = Normal res
                  /\ SendChatMessageResult.success res = true)).
Proof.
  intros Hv Hcons run.
  destruct (SendChatMessage_validate_None req Hv) as (message & Hmsg & Hne & Hl).
  assert (Hsteady : forall made,
    calls (snd run) = calls w ++ made ->
    clock_monotone w -> conversation_of_the_past req w ->
    (exists request rest, made = Call_sendChatMessage request :: rest) /\
    (answers_well repo -> (forall c, saveConversation repo c = Normal tt) ->
     exists res, fst run = Normal res
                 /\ SendChatMessageResult.success res = true)).
  { intros made Hmade Hm Hp. split.
    - destruct (SendChatMessage_prepare_steady req message w Hne Hl Hm Hp)
        as (um & cc & w1 & Hprep & _ & _ & _ & Hcc & _ & _ & _ & Hcalls & _).
      destruct (SendChatMessage_exchange_rest repo req cc w1 Hcc)
        as (rest & Hrest & _).
      exists (chatRequest_of req cc), rest.
      apply (app_inv_head (calls w)). rewrite <- Hmade. unfold run.
      rewrite SendChatMessage_execute_caught,
        (SendChatMessage_body_phases repo req message w Hv Hmsg), Hprep,
        chat_caught_calls, Hrest, Hcalls. reflexivity.
    - intros Hw Hsave.
      destruct (SendChatMessage_execute_steady repo req w Hv Hm Hp Hw)
        as (_ & _ & _ & am & final & w' & _ & _ & _ & _ & _ & _ & _ & E).
      unfold run. rewrite E, Hsave. eexists. split; reflexivity. }
  assert (Hexec : run = chat_caught
    match SendChatMessage_prepare req message w with
    | (Normal (_, cc), w1) => SendChatMessage_exchange repo req cc w1
    | (Throw e, w1) => (Throw e, w1)
    end).
  { unfold run. rewrite SendChatMessage_execute_caught,
      (SendChatMessage_body_phases repo req message w Hv Hmsg). reflexivity. }
  destruct (SendChatMessage_prepare_cases req message w Hne Hl Hcons)
    as [(e & w1 & Hprep & Hcalls)
       | (um & cc & w1 & Hprep & Hcalls & Hcontent & Hrole & Hcc & Hmsgs)];
    rewrite Hprep in Hexec.
  - assert (Hmade : calls (snd run) = calls w ++ [])
      by (rewrite Hexec, app_nil_r; exact Hcalls).
    exists message, []. split; [exact Hmsg|]. split; [exact Hmade|].
    split; [apply trim_decompose|]. split; [intros request []|].
    split; [|apply Hsteady, Hmade].
    intros res Hres Hs. rewrite Hexec in Hres.
    apply chat_caught_success in Hres; [|exact Hs]. discriminate Hres.
  - destruct (SendChatMessage_exchange_rest repo req cc w1 Hcc)
      as (rest & Hrest & Hshape).
    destruct (SendChatMessage_exchange_calls repo req cc w1 Hcc)
      as (rest' & Hrest' & Hres').
    assert (rest' = rest).
    { rewrite Hrest in Hrest'. apply app_inv_head in Hrest'. congruence. }
    subst rest'.
    assert (Hmade : calls (snd run)
                    = calls w ++ Call_sendChatMessage (chatRequest_of req cc)
                                   :: rest)
      by (rewrite Hexec, chat_caught_calls, Hrest, Hcalls; reflexivity).
    exists message, (Call_sendChatMessage (chatRequest_of req cc) :: rest).
    split; [exact Hmsg|]. split; [exact Hmade|].
    split; [apply trim_decompose|]. split; [|split; [|apply Hsteady, Hmade]].
    + intros request [[= <-] | Hin]; [exact Hmsg|].
      destruct Hshape as [-> | (final & ->)]; [destruct Hin|].
      destruct Hin as [Hin | []]. discriminate Hin.
    + intros res Hres Hs. rewrite Hexec in Hres.
      apply chat_caught_success in Hres; [|exact Hs].
      destruct (Hres' res Hres) as (am & final & -> & Hf & -> & _).
      exists um, am, final, (chatRequest_of req cc).
      split; [reflexivity|].
      split; [rewrite Hf, Hmsgs, <- app_assoc; reflexivity|].
      split; [exact Hrole|]. split; [exact Hcontent | reflexivity].
Qed.

Lemma sampleWorld_monotone (t : Z) : clock_monotone (sampleWorld t).
Proof. intros i j _ _. simpl. lia. Qed.

Lemma chatRequest_of_the_past (message : string) (level : option jsstring)
    (w : World) :
  conversation_of_the_past (chatRequest message level) w.
Proof. intros c H. discriminate H. Qed.

Lemma wire_message_untrimmed_stored_trimmed_witness :
  let req := chatRequest "  How can I meditate?  " (Some (lit "beginner")) in
  let run := SendChatMessage_execute mockAiRepository req (sampleWorld 0) in
  (exists res, fst run = Normal res
               /\ SendChatMessageResult.success res = true) /\
  first_wire_message (calls (snd run)) = Some (lit "  How can I meditate?  ") /\
  first_stored_content (fst run) = Some (lit "How can I meditate?").
Proof.
  intros req run.
  destruct (wire_message_untrimmed_stored_trimmed mockAiRepository req
              (sampleWorld 0))
    as (message & made & Hmsg & _ & _ & _ & _ & Hok).
  - vm_compute. reflexivity.
  - intros c Hc. discriminate Hc.
  - split; [|split; vm_compute; reflexivity].
    apply Hok.
    + apply sampleWorld_monotone.
    + apply chatRequest_of_the_past.
    + intros request Ht. eexists. split; [reflexivity|].
      split; [vm_compute; reflexivity|].
      split; [vm_compute; discriminate|].
      cbn [ChatResponse.conversationId]. rewrite Ht.
      apply truthy_Some in Ht as (s & -> & _). right. reflexivity.
    + reflexivity.
Defined.

(** ** No exception leaves [execute], unless [handleError] throws *)














































(** ** RequestAstrologyReading: the rules on the reading type *)

Section Astrology.
Context `{JsRuntime}.

(** [validateBirthInfo] never throws and calls no repository. *)
Lemma validateBirthInfo_quiet (birthInfo : BirthInfo.t) (prefix : jsstring)
    (w : World) :
  exists r w',
    RequestAstrologyReading_validateBirthInfo birthInfo prefix w
    = (Normal r, w') /\ calls w' = calls w.
Proof.
  unfold RequestAstrologyReading_validateBirthInfo. run_m.
  repeat match goal with
         | |- context [if ?b then _ else _] => destruct b
         end;
    eexists _, _; split; reflexivity.
Qed.

Lemma partner_types_allowed (t : jsstring) :
  In t partnerReadingTypes -> In t allowedReadingTypes.
Proof. unfold partnerReadingTypes, allowedReadingTypes. simpl. tauto. Qed.

(** The outcome of [execute] once [validateRequest] has found an error. *)
Lemma RequestAstrologyReading_execute_invalid (repo : IAiRepository)
    (req : AstrologyRequest.t) (w w' : World) (e : jsstring) :
  RequestAstrologyReading_validateRequest req w = (Normal (Some e), w') ->
  RequestAstrologyReading_execute repo req w
  = (Normal (reading_failure e), w').
Proof.
  intros Hv. unfold RequestAstrologyReading_execute,
    RequestAstrologyReading_body, try_catch.
  unfold mbind at 1. unfold M_bind, bind. rewrite Hv. reflexivity.
Qed.

(** [validateRequest] after a valid birth info: only the reading type and
    the partner's birth info are left to check. *)
Lemma validateRequest_after_birthInfo (req : AstrologyRequest.t) (w : World) :
  birthInfo_valid (AstrologyRequest.birthInfo req) w ->
  exists w1, calls w1 = calls w /\
  RequestAstrologyReading_validateRequest req w
  = (if blank (AstrologyRequest.readingType req) then
       mret (Some (lit "Reading type is required"))
     else
       let readingType := default [] (AstrologyRequest.readingType req) in
       if 100 <? str_length readingType then
         mret (Some (lit "Reading type must be under 100 characters"))
       else if negb (array_includes allowedReadingTypes (trim readingType))
       then mret (Some invalid_reading_type_error)
       else
         match AstrologyRequest.partnerBirthInfo req with
         | Some partnerBirthInfo =>
             if negb (array_includes partnerReadingTypes (trim readingType))
             then mret (Some (partner_not_needed_error readingType))
             else RequestAstrologyReading_validateBirthInfo partnerBirthInfo
                    (lit "Partner's")
         | None =>
             if array_includes partnerReadingTypes (trim readingType)
             then mret (Some (partner_required_error readingType))
             else mret None
         end) w1.
Proof.
  intros Hb. unfold birthInfo_valid in Hb.
  destruct (validateBirthInfo_quiet (AstrologyRequest.birthInfo req)
              (lit "Your") w) as (r & w1 & E & Hc).
  rewrite E in Hb. simpl in Hb. injection Hb as ->.
  exists w1. split; [exact Hc|].
  unfold RequestAstrologyReading_validateRequest.
  unfold mbind at 1. unfold M_bind, bind. rewrite E. reflexivity.
Qed.

Lemma partner_required_error_contains (readingType : jsstring) :
  includes (partner_required_error readingType)
    (lit "Partner birth information is required") = true.
Proof.
  unfold partner_required_error.
  change (lit "Partner birth information is required for ")
    with (lit "Partner birth information is required" ++ lit " for ").
  rewrite <- app_assoc. apply includes_prefix.
Qed.

(** C7 (as amended). With a valid birth info: a blank reading type is
    reported as required and one longer than 100 units as too long; for a
    reading type of at most 100 units, a trimmed value outside the
    allowed set gives the invalid-reading-type error, one of
    compatibility, composite_chart and synastry without a partner's birth
    info gives an error containing 'Partner birth information is
    required', and any other allowed one with a partner's birth info
    gives the partner-info-not-needed error. No repository call is made
    in any of these cases. *)
Theorem reading_type_rules (repo : IAiRepository) (req : AstrologyRequest.t)
    (w : World) :
  birthInfo_valid (AstrologyRequest.birthInfo req) w ->
  let run := RequestAstrologyReading_execute repo req w in
  (blank (AstrologyRequest.readingType req) = true ->
   fails_with run w (lit "Reading type is required")) /\
  (forall readingType,
     AstrologyRequest.readingType req = Some readingType ->
     nonempty (trim readingType) = true ->
     (100 < str_length readingType ->
      fails_with run w (lit "Reading type must be under 100 characters")) /\
     (str_length readingType <= 100 ->
      ~ In (trim readingType) allowedReadingTypes ->
      fails_with run w invalid_reading_type_error) /\
     (str_length readingType <= 100 ->
      In (trim readingType) partnerReadingTypes ->
      AstrologyRequest.partnerBirthInfo req = None ->
      fails_with run w (partner_required_error readingType) /\
      includes (partner_required_error readingType)
        (lit "Partner birth information is required") = true) /\
     (str_length readingType <= 100 ->
      In (trim readingType) allowedReadingTypes ->
      ~ In (trim readingType) partnerReadingTypes ->
      AstrologyRequest.partnerBirthInfo req <> None ->
      fails_with run w (partner_not_needed_error readingType))).
Proof.
  intros Hb run.
  destruct (validateRequest_after_birthInfo req w Hb) as (w1 & Hc & Hv).
  assert (Hfail : forall e,
    RequestAstrologyReading_validateRequest req w = (Normal (Some e), w1) ->
    fails_with run w e).
  { intros e He. unfold fails_with, run.
    rewrite (RequestAstrologyReading_execute_invalid repo req w w1 e He).
    split; [reflexivity | exact Hc]. }
  split.
  - intros Hblank. apply Hfail. rewrite Hv, Hblank. reflexivity.
  - intros readingType Hrt Hne.
    assert (Hblank : blank (AstrologyRequest.readingType req) = false)
      by (rewrite Hrt; simpl; rewrite Hne; reflexivity).
    rewrite Hblank, Hrt in Hv. cbn [default from_option id] in Hv.
    unfold id in Hv. cbv zeta in Hv.
    split; [|split; [|split]].
    + intros Hl. apply Hfail. rewrite Hv.
      apply Z.ltb_lt in Hl. rewrite Hl. reflexivity.
    + intros Hl Hn. apply Hfail. rewrite Hv.
      apply Z.ltb_ge in Hl. rewrite Hl.
      destruct (array_includes allowedReadingTypes (trim readingType)) eqn:Q;
        [apply array_includes_In in Q; tauto | reflexivity].
    + intros Hl Hp Hnone. split; [|apply partner_required_error_contains].
      apply Hfail. rewrite Hv.
      apply Z.ltb_ge in Hl. rewrite Hl, Hnone.
      pose proof (partner_types_allowed _ Hp) as Ha.
      apply array_includes_In in Ha, Hp. rewrite Ha, Hp. reflexivity.
    + intros Hl Ha Hnp Hsome. apply Hfail. rewrite Hv.
      apply Z.ltb_ge in Hl. rewrite Hl.
      apply array_includes_In in Ha. rewrite Ha.
      destruct (AstrologyRequest.partnerBirthInfo req); [|congruence].
      destruct (array_includes partnerReadingTypes (trim readingType)) eqn:Q;
        [apply array_includes_In in Q; tauto | reflexivity].
Qed.

End Astrology.

Example invalid_reading_type_error_text :
  invalid_reading_type_error
  = lit "Invalid reading type. Allowed types: natal_chart, daily_horoscope, compatibility, transit, solar_return, lunar_return, composite_chart, synastry".
Proof. vm_compute. reflexivity. Qed.

Lemma sampleBirthInfo_valid :
  @birthInfo_valid RefRuntime.runtime sampleBirthInfo world2023.
Proof. vm_compute. reflexivity. Qed.

Lemma reading_type_rules_witness :
  let run readingType partner :=
    @RequestAstrologyReading_execute RefRuntime.runtime mockAiRepository
      (readingRequest readingType partner) world2023 in
  fails_with (run (lit "compatibility") None) world2023
    (lit "Partner birth information is required for compatibility reading") /\
  fails_with (run (lit "natal_chart") (Some sampleBirthInfo)) world2023
    (lit "Partner birth info is not needed for natal_chart reading") /\
  fails_with (run (lit "invalid_reading_type") None) world2023
    invalid_reading_type_error.
Proof.
  intros run.
  pose proof (fun rt p => proj2 (@reading_type_rules RefRuntime.runtime
    mockAiRepository (readingRequest rt p) world2023
    sampleBirthInfo_valid) rt eq_refl) as R.
  split; [|split].
  - refine (proj1 (proj1 (proj2 (proj2 (R (lit "compatibility") None _))) _ _ _)).
    + vm_compute; reflexivity.
    + vm_compute; discriminate.
    + apply array_includes_In. vm_compute; reflexivity.
    + reflexivity.
  - refine (proj2 (proj2 (proj2 (R (lit "natal_chart") (Some sampleBirthInfo) _)))
              _ _ _ _).
    + vm_compute; reflexivity.
    + vm_compute; discriminate.
    + apply array_includes_In. vm_compute; reflexivity.
    + intros Hin. apply array_includes_In in Hin. vm_compute in Hin.
      discriminate Hin.
    + discriminate.
  - refine (proj1 (proj2 (R (lit "invalid_reading_type") None _)) _ _).
    + vm_compute; reflexivity.
    + vm_compute; discriminate.
    + intros Hin. apply array_includes_In in Hin. vm_compute in Hin.
      discriminate Hin.
Defined.

(** C7, as stated, fails on the code: [synastry] followed by 93 spaces
    trims to a type that requires a partner, none is given, and the error
    is the one about the length, which does not contain 'Partner birth
    information is required'; and a reading type made of spaces, which is
    outside the allowed set, is reported as required, not as invalid. *)
Lemma reading_type_rules_counterexample :
  let run readingType :=
    @RequestAstrologyReading_execute RefRuntime.runtime mockAiRepository
      (readingRequest readingType None) world2023 in
  @birthInfo_valid RefRuntime.runtime sampleBirthInfo world2023 /\
  (trim paddedSynastry = lit "synastry" /\
   In (trim paddedSynastry) partnerReadingTypes /\
   error_of (run paddedSynastry)
   = Some (lit "Reading type must be under 100 characters") /\
   includes (lit "Reading type must be under 100 characters")
     (lit "Partner birth information is required") = false) /\
  (~ In (trim (lit "   ")) allowedReadingTypes /\
   error_of (run (lit "   ")) = Some (lit "Reading type is required") /\
   lit "Reading type is required" <> invalid_reading_type_error).
Proof.
  intros run. split; [exact sampleBirthInfo_valid|]. split.
  - split; [vm_compute; reflexivity|].
    split; [apply array_includes_In; vm_compute; reflexivity|].
    split; vm_compute; reflexivity.
  - split.
    + intros Hin. apply array_includes_In in Hin. vm_compute in Hin.
      discriminate Hin.
    + split; [vm_compute; reflexivity | vm_compute; discriminate].
Qed.

(** ** Serialization *)

Section RoundTrip.
Context `{JsRuntime}.

Lemma Message_constructed_iff (m : Message) :
  Message_constructed m <->
  Message_validateMessage (Message_props m) = Normal tt.
Proof.
  split.
  - intros (p & Hp). apply Message_new_Normal in Hp as [Hv ->]. exact Hv.
  - intros Hv. exists (Message_props m). apply Message_new_Normal.
    split; [exact Hv | destruct m; reflexivity].
Qed.

Lemma Message_constructed_timestamp (m : Message) :
  Message_constructed m -> exists d, Message_timestamp m = Some d.
Proof.
  intros Hm. apply Message_constructed_iff, Message_validate_valid in Hm.
  destruct Hm as (_ & _ & _ & _ & Ht). unfold Message_timestamp.
  destruct (MessageProps.timestamp (Message_props m)) as [d|];
    [exists d; reflexivity | congruence].
Qed.

(** [fromJSON] on an object whose date field [new Date] reads back as the
    stored timestamp. *)
Lemma Message_fromJSON_same (m : Message) (j : MessageJSON.t) :
  Message_constructed m ->
  MessageJSON.id j = Message_id m ->
  MessageJSON.role j = Message_role m ->
  MessageJSON.content j = Message_content m ->
  Some (new_Date (MessageJSON.timestamp j)) = Message_timestamp m ->
  MessageJSON.conversationId j = Message_conversationId m ->
  MessageJSON.spiritualThemes j
  = MessageProps.spiritualThemes (Message_props m) ->
  MessageJSON.suggestedActions j
  = MessageProps.suggestedActions (Message_props m) ->
  MessageJSON.relatedTopics j = MessageProps.relatedTopics (Message_props m) ->
  Message_fromJSON j = Normal m.
Proof.
  intros Hm H1 H2 H3 H4 H5 H6 H7 H8. unfold Message_fromJSON.
  rewrite H1, H2, H3, H4, H5, H6, H7, H8.
  apply Message_new_Normal. destruct m as [p]. destruct p.
  split; [apply Message_constructed_iff in Hm; exact Hm | reflexivity].
Qed.

Lemma Message_round_trip (m : Message) :
  Message_constructed m ->
  Message_fromJSON (MessageJSON_of_props (Message_toJSON m)) = Normal m.
Proof.
  intros Hm. destruct (Message_constructed_timestamp m Hm) as (d & Hd).
  apply Message_fromJSON_same; try reflexivity; [exact Hm|].
  unfold MessageJSON_of_props, Message_toJSON. unfold Message_timestamp in *.
  cbn [MessageJSON.timestamp]. rewrite Hd. reflexivity.
Qed.

Lemma Message_wire_round_trip (m : Message) :
  Message_constructed m -> iso_round_trip (Message_timestamp m) ->
  Message_fromJSON (MessageJSON_wire (MessageJSON_of_props (Message_toJSON m)))
  = Normal m.
Proof.
  intros Hm (t & Ht & Hrt).
  apply Message_fromJSON_same; try reflexivity; [exact Hm|].
  unfold MessageJSON_wire, MessageJSON_of_props, Message_toJSON.
  unfold Message_timestamp in *.
  cbn [MessageJSON.timestamp]. rewrite Ht. simpl. rewrite Hrt. reflexivity.
Qed.

Lemma map_fromJSON_round_trip (l : list Message) :
  Forall Message_constructed l ->
  map_fromJSON
    (List.map (fun msg => MessageJSON_of_props (Message_toJSON msg)) l)
  = Normal l.
Proof.
  induction 1 as [|m l Hm _ IH]; simpl; [reflexivity|].
  rewrite (Message_round_trip m Hm), IH. reflexivity.
Qed.

Lemma map_fromJSON_wire_round_trip (l : list Message) :
  Forall Message_constructed l ->
  Forall (fun m => iso_round_trip (Message_timestamp m)) l ->
  map_fromJSON
    (List.map MessageJSON_wire
       (List.map (fun msg => MessageJSON_of_props (Message_toJSON msg)) l))
  = Normal l.
Proof.
  induction 1 as [|m l Hm _ IH]; intros Hd; simpl; [reflexivity|].
  apply Forall_cons_1 in Hd as [Hd1 Hd2].
  rewrite (Message_wire_round_trip m Hm Hd1), (IH Hd2). reflexivity.
Qed.

Lemma Conversation_constructed_dates (c : Conversation) :
  Conversation_constructed c ->
  exists created updated,
    Conversation_createdAt c = Some created /\
    Conversation_updatedAt c = Some updated.
Proof.
  intros Hc. apply Conversation_constructed_iff in Hc.
  apply Conversation_validate_Normal in Hc
    as (_ & l & cr & up & _ & Hcr & Hup & _).
  exists cr, up. auto.
Qed.

Lemma Conversation_rebuilt (c : Conversation) (created updated : Date) :
  Conversation_constructed c ->
  Conversation_createdAt c = Some created ->
  Conversation_updatedAt c = Some updated ->
  Conversation_new
    {| ConversationProps.id := Conversation_id c;
       ConversationProps.messages := Some (Conversation_stored c);
       ConversationProps.createdAt := Some created;
       ConversationProps.updatedAt := Some updated;
       ConversationProps.summary := Conversation_summary c;
       ConversationProps.userId := Conversation_userId c |}
  = Normal c.
Proof.
  intros Hc Hcr Hup.
  pose proof (Conversation_new_holds_array c Hc) as Hl.
  apply Conversation_constructed_iff in Hc.
  apply Conversation_new_Normal.
  unfold Conversation_id, Conversation_createdAt, Conversation_updatedAt,
    Conversation_summary, Conversation_userId in *.
  rewrite <- Hl, <- Hcr, <- Hup. destruct c as [p]. destruct p.
  split; [exact Hc | reflexivity].
Qed.

Lemma Conversation_round_trip (c : Conversation) :
  Conversation_constructed c ->
  Forall Message_constructed (Conversation_messages c) ->
  Conversation_fromJSON (Conversation_toJSON c) = Normal c.
Proof.
  intros Hc Hms. unfold Conversation_messages in Hms.
  destruct (Conversation_constructed_dates c Hc) as (cr & up & Hcr & Hup).
  unfold Conversation_fromJSON, Conversation_toJSON.
  cbn [ConversationJSON.messages ConversationJSON.id
       ConversationJSON.createdAt ConversationJSON.updatedAt
       ConversationJSON.summary ConversationJSON.userId].
  rewrite (map_fromJSON_round_trip _ Hms), Hcr, Hup. simpl.
  apply Conversation_rebuilt; assumption.
Qed.

Lemma Conversation_wire_round_trip (c : Conversation) :
  Conversation_constructed c ->
  Forall Message_constructed (Conversation_messages c) ->
  iso_round_trip (Conversation_createdAt c) ->
  iso_round_trip (Conversation_updatedAt c) ->
  Forall (fun m => iso_round_trip (Message_timestamp m))
    (Conversation_messages c) ->
  Conversation_fromJSON (ConversationJSON_wire (Conversation_toJSON c))
  = Normal c.
Proof.
  intros Hc Hms (tc & Hcr & Hrc) (tu & Hup & Hru) Hds.
  unfold Conversation_messages in Hms, Hds.
  unfold Conversation_fromJSON, ConversationJSON_wire, Conversation_toJSON.
  cbn [ConversationJSON.messages ConversationJSON.id
       ConversationJSON.createdAt ConversationJSON.updatedAt
       ConversationJSON.summary ConversationJSON.userId].
  rewrite (map_fromJSON_wire_round_trip _ Hms Hds), Hcr, Hup. simpl.
  rewrite Hrc, Hru.
  apply Conversation_rebuilt; assumption.
Qed.

(** C3. For every message [m] and conversation [c] that the constructors
    accept, [Message.fromJSON(m.toJSON())] is a message with the fields of
    [m] (the timestamp with the same time value), and
    [Conversation.fromJSON(c.toJSON())] a conversation with the fields of
    [c], messages included. Through [JSON.stringify] and [JSON.parse] the
    valid date fields travel as ISO strings, and the conversation read
    back is again [c] whenever the runtime parses each of its ISO strings
    back to the date it printed. *)
Theorem serialization_round_trip :
  (forall m,
     Message_constructed m ->
     Message_fromJSON (MessageJSON_of_props (Message_toJSON m)) = Normal m) /\
  (forall c,
     Conversation_constructed c ->
     Forall Message_constructed (Conversation_messages c) ->
     Conversation_fromJSON (Conversation_toJSON c) = Normal c) /\
  (forall c,
     Conversation_constructed c ->
     Forall Message_constructed (Conversation_messages c) ->
     iso_round_trip (Conversation_createdAt c) ->
     iso_round_trip (Conversation_updatedAt c) ->
     Forall (fun m => iso_round_trip (Message_timestamp m))
       (Conversation_messages c) ->
     let wire := ConversationJSON_wire (Conversation_toJSON c) in
     is_iso_string (ConversationJSON.createdAt wire) /\
     is_iso_string (ConversationJSON.updatedAt wire) /\
     Forall (fun j => is_iso_string (MessageJSON.timestamp j))
       (ConversationJSON.messages wire) /\
     Conversation_fromJSON wire = Normal c).
Proof.
  split; [exact Message_round_trip|]. split; [exact Conversation_round_trip|].
  intros c Hc Hms Hcr Hup Hds wire.
  split; [|split; [|split]].
  - destruct Hcr as (t & E & _). exists t. unfold wire.
    unfold ConversationJSON_wire, Conversation_toJSON.
    cbn [ConversationJSON.createdAt]. rewrite E. reflexivity.
  - destruct Hup as (t & E & _). exists t. unfold wire.
    unfold ConversationJSON_wire, Conversation_toJSON.
    cbn [ConversationJSON.updatedAt]. rewrite E. reflexivity.
  - unfold wire, ConversationJSON_wire, Conversation_toJSON.
    cbn [ConversationJSON.messages].
    unfold Conversation_messages in Hds.
    induction Hds as [|m l (t & E & _) _ IH]; simpl; constructor; [|exact IH].
    exists t. unfold MessageJSON_of_props, Message_toJSON.
    unfold Message_timestamp in E. cbn [MessageJSON.timestamp]. rewrite E.
    reflexivity.
  - apply Conversation_wire_round_trip; assumption.
Qed.

End RoundTrip.

Lemma testConversation_constructed :
  Conversation_constructed testConversation /\
  Forall Message_constructed (Conversation_messages testConversation).
Proof.
  split; [exists (Conversation_props testConversation); reflexivity|].
  repeat constructor;
    [exists (Message_props testMessage1) | exists (Message_props testMessage2)];
    reflexivity.
Qed.

Lemma serialization_round_trip_witness :
  let wire :=
    @ConversationJSON_wire RefRuntime.runtime
      (Conversation_toJSON testConversation) in
  @Message_fromJSON RefRuntime.runtime
    (MessageJSON_of_props (Message_toJSON testMessage1))
  = Normal testMessage1 /\
  @Conversation_fromJSON RefRuntime.runtime
    (Conversation_toJSON testConversation)
  = Normal testConversation /\
  ConversationJSON.createdAt wire
  = FromString (lit "2023-01-01T12:00:00.000Z") /\
  ConversationJSON.updatedAt wire
  = FromString (lit "2023-01-01T12:30:00.000Z") /\
  List.map MessageJSON.timestamp (ConversationJSON.messages wire)
  = [FromString (lit "2023-01-01T12:00:00.123Z");
     FromString (lit "2023-01-01T12:00:01.000Z")] /\
  @Conversation_fromJSON RefRuntime.runtime wire = Normal testConversation.
Proof.
  intros wire.
  destruct (@serialization_round_trip RefRuntime.runtime) as (Hm & Hc & Hw).
  destruct testConversation_constructed as (Hcons & Hmsgs).
  split; [apply Hm; exists (Message_props testMessage1); reflexivity|].
  split; [apply Hc; assumption|].
  split; [vm_compute; reflexivity|].
  split; [vm_compute; reflexivity|].
  split; [vm_compute; reflexivity|].
  apply (Hw testConversation Hcons Hmsgs).
  - eexists. split; [reflexivity | vm_compute; reflexivity].
  - eexists. split; [reflexivity | vm_compute; reflexivity].
  - repeat constructor; eexists; (split; [reflexivity | vm_compute; reflexivity]).
Defined.

(** ** Arrays: copies and shared references *)

Module AliasingFacts.
Import Aliasing.

Lemma messages_at_new_old (v : list MessageObj) (s : Store) (r : ref) :
  message_array_alive s r ->
  messages_at (snd (new_message_array v s)) r = messages_at s r.
Proof.
  intros Hr. unfold messages_at, new_message_array. cbn [snd message_arrays].
  rewrite lookup_app_l by exact Hr. reflexivity.
Qed.

Lemma messages_at_new (v : list MessageObj) (s : Store) :
  messages_at (snd (new_message_array v s)) (fst (new_message_array v s)) = v.
Proof.
  unfold messages_at, new_message_array. cbn [fst snd message_arrays].
  rewrite lookup_app_r by lia. rewrite Nat.sub_diag. reflexivity.
Qed.

Lemma new_message_array_fresh (v : list MessageObj) (s : Store) :
  ~ message_array_alive s (fst (new_message_array v s)).
Proof. unfold message_array_alive, new_message_array. simpl. lia. Qed.

Lemma new_message_array_alive (v : list MessageObj) (s : Store) (r : ref) :
  message_array_alive s r ->
  message_array_alive (snd (new_message_array v s)) r.
Proof.
  unfold message_array_alive, new_message_array. cbn [snd message_arrays].
  rewrite length_app. simpl. lia.
Qed.

Lemma messages_at_set_other (r r' : ref) (v : list MessageObj) (s : Store) :
  r <> r' -> messages_at (set_messages r v s) r' = messages_at s r'.
Proof.
  intros Hne. unfold messages_at, set_messages. cbn [message_arrays].
  rewrite list_lookup_insert_ne by exact Hne. reflexivity.
Qed.

Lemma strings_at_set_same (r : ref) (v : list jsstring) (s : Store) :
  string_array_alive s r -> strings_at (set_strings r v s) r = v.
Proof.
  intros Hr. unfold strings_at, set_strings. cbn [string_arrays].
  rewrite list_lookup_insert_eq by exact Hr. reflexivity.
Qed.

(** The [messages] getter of a conversation hands out a new array with
    the same elements: nothing done to it reaches the conversation. *)
Lemma ConversationObj_messages_copy (this : ConversationObj.t) (s : Store) :
  message_array_alive s (ConversationObj.messages this) ->
  let r := fst (ConversationObj_messages this s) in
  let s1 := snd (ConversationObj_messages this s) in
  r <> ConversationObj.messages this /\
  ~ message_array_alive s r /\
  messages_at s1 r = messages_at s (ConversationObj.messages this) /\
  forall v,
    messages_at (set_messages r v s1) (ConversationObj.messages this)
    = messages_at s (ConversationObj.messages this) /\
    ConversationObj_getMessageCount this (set_messages r v s1)
    = ConversationObj_getMessageCount this s.
Proof.
  intros Ha r s1. unfold ConversationObj_messages in r, s1.
  assert (Hf : ~ message_array_alive s r) by apply new_message_array_fresh.
  assert (Hne : r <> ConversationObj.messages this)
    by (intros E; apply Hf; rewrite E; exact Ha).
  assert (Hsame : forall v,
    messages_at (set_messages r v s1) (ConversationObj.messages this)
    = messages_at s (ConversationObj.messages this)).
  { intros v. rewrite messages_at_set_other by exact Hne.
    apply messages_at_new_old, Ha. }
  split; [exact Hne|]. split; [exact Hf|].
  split; [apply messages_at_new|].
  intros v. split; [apply Hsame|].
  unfold ConversationObj_getMessageCount. rewrite Hsame. reflexivity.
Qed.

(** The constructor of a conversation keeps a copy of the array it is
    given: what is done to that array afterwards does not reach the
    conversation. *)
Lemma ConversationObj_new_copy (props : ConversationInit.t) (s s1 : Store)
    (c : ConversationObj.t) (given : ref) :
  ConversationObj_new props s = (Normal c, s1) ->
  ConversationInit.messages props = Some given ->
  message_array_alive s given ->
  ConversationObj.messages c <> given /\
  messages_at s1 (ConversationObj.messages c) = messages_at s given /\
  forall v,
    messages_at (set_messages given v s1) (ConversationObj.messages c)
    = messages_at s given.
Proof.
  unfold ConversationObj_new. intros Hn Hg Ha.
  destruct (Conversation_validateConversation _); [|discriminate].
  rewrite Hg in Hn.
  destruct (new_message_array (messages_at s given) s) as [copy s'] eqn:E.
  injection Hn as <- <-. cbn [ConversationObj.messages].
  pose proof (new_message_array_fresh (messages_at s given) s) as Hf.
  pose proof (messages_at_new (messages_at s given) s) as Hv.
  rewrite E in Hf, Hv. cbn [fst snd] in Hf, Hv.
  assert (Hne : copy <> given) by (intros ->; apply Hf, Ha).
  split; [exact Hne|]. split; [exact Hv|].
  intros v. rewrite messages_at_set_other by congruence. exact Hv.
Qed.

(** [addMessage] builds its arrays anew: the array of the receiver is
    left as it was, and the conversation returned holds its elements
    followed by the message. *)
Lemma ConversationObj_addMessage_frame (this : ConversationObj.t)
    (message : MessageObj) (now : Date) (s : Store) :
  message_array_alive s (ConversationObj.messages this) ->
  let o := fst (ConversationObj_addMessage this message now s) in
  let s' := snd (ConversationObj_addMessage this message now s) in
  messages_at s' (ConversationObj.messages this)
  = messages_at s (ConversationObj.messages this) /\
  ConversationObj_getMessageCount this s'
  = ConversationObj_getMessageCount this s /\
  forall c', o = Normal c' ->
    ConversationObj.messages c' <> ConversationObj.messages this /\
    messages_at s' (ConversationObj.messages c')
    = messages_at s (ConversationObj.messages this) ++ [message] /\
    ConversationObj_getMessageCount c' s'
    = ConversationObj_getMessageCount this s + 1.
Proof.
  intros Ha o s'.
  assert (Hmain :
    messages_at s' (ConversationObj.messages this)
    = messages_at s (ConversationObj.messages this) /\
    forall c', o = Normal c' ->
      ConversationObj.messages c' <> ConversationObj.messages this /\
      messages_at s' (ConversationObj.messages c')
      = messages_at s (ConversationObj.messages this) ++ [message]).
  { subst o s'. unfold ConversationObj_addMessage.
    destruct (_ && _); [split; [reflexivity | discriminate]|].
    set (v := messages_at s (ConversationObj.messages this) ++ [message]).
    pose proof (messages_at_new_old v s _ Ha) as Hold.
    pose proof (messages_at_new v s) as Hnew.
    pose proof (new_message_array_alive v s _ Ha) as Ha1.
    pose proof (new_message_array_fresh v s) as Hfresh.
    destruct (new_message_array v s) as [newMessages s1] eqn:E.
    cbn [fst snd] in Hold, Hnew, Ha1, Hfresh.
    unfold ConversationObj_new.
    destruct (Conversation_validateConversation _);
      [|split; [exact Hold | discriminate]].
    cbn [ConversationInit.messages].
    pose proof (messages_at_new_old (messages_at s1 newMessages) s1 _ Ha1)
      as Hold2.
    pose proof (messages_at_new (messages_at s1 newMessages) s1) as Hnew2.
    pose proof (new_message_array_fresh (messages_at s1 newMessages) s1)
      as Hfresh2.
    destruct (new_message_array (messages_at s1 newMessages) s1)
      as [copy s2] eqn:E2.
    cbn [fst snd] in *.
    split; [rewrite Hold2; exact Hold|].
    intros c' [= <-]. cbn [ConversationObj.messages].
    split; [intros ->; apply Hfresh2, Ha1|].
    rewrite Hnew2. exact Hnew. }
  destruct Hmain as (H1 & H2).
  split; [exact H1|].
  split; [unfold ConversationObj_getMessageCount; rewrite H1; reflexivity|].
  intros c' Hc'. destruct (H2 c' Hc') as (Hne & Hm).
  split; [exact Hne|]. split; [exact Hm|].
  unfold ConversationObj_getMessageCount. rewrite Hm, length_app. simpl. lia.
Qed.

(** A getter of [Message] returns the very array that the props hold: a
    [push] on what it returned shows in what it returns next. *)
Lemma MessageObj_getter_shares
    (field : MessageObjProps.t -> option ref)
    (getter : MessageObj -> Store -> ref * Store) :
  (forall this s, getter this s
     = match field (MessageObj_props this) with
       | Some r => (r, s)
       | None => new_string_array [] s
       end) ->
  forall this s r x,
    field (MessageObj_props this) = Some r ->
    string_array_alive s r ->
    getter this s = (r, s) /\
    (let '(a, s') := getter this (push_string r x s) in strings_at s' a)
    = (let '(a, s') := getter this s in strings_at s' a) ++ [x].
Proof.
  intros Hg this s r x Hf Ha. rewrite !Hg, Hf. split; [reflexivity|].
  unfold push_string. apply strings_at_set_same, Ha.
Qed.

End AliasingFacts.

Import Aliasing.


(** C5. Of the getters of sequence-typed fields, [Conversation.messages]
    returns a new array with the elements of the stored one, so that
    nothing done to it reaches the conversation. The three getters of
    [Message] ([spiritualThemes], [suggestedActions], [relatedTopics])
    return the stored array itself when there is one: a [push] on the
    array returned adds to what the message holds, so the caller and the
    message share one array. *)
Theorem sequence_getters_aliasing :
  (forall (this : ConversationObj.t) (s : Store),
     message_array_alive s (ConversationObj.messages this) ->
     let r := fst (ConversationObj_messages this s) in
     let s1 := snd (ConversationObj_messages this s) in
     r <> ConversationObj.messages this /\
     messages_at s1 r = messages_at s (ConversationObj.messages this) /\
     forall v,
       messages_at (set_messages r v s1) (ConversationObj.messages this)
       = messages_at s (ConversationObj.messages this)) /\
  (forall (this : MessageObj) (s : Store) (r : ref) (x : jsstring),
     string_array_alive s r ->
     (MessageObjProps.spiritualThemes (MessageObj_props this) = Some r ->
      MessageObj_spiritualThemes this s = (r, s) /\
      read_spiritualThemes this (push_string r x s)
      = read_spiritualThemes this s ++ [x]) /\
     (MessageObjProps.suggestedActions (MessageObj_props this) = Some r ->
      MessageObj_suggestedActions this s = (r, s) /\
      read_suggestedActions this (push_string r x s)
      = read_suggestedActions this s ++ [x]) /\
     (MessageObjProps.relatedTopics (MessageObj_props this) = Some r ->
      MessageObj_relatedTopics this s = (r, s) /\
      read_relatedTopics this (push_string r x s)
      = read_relatedTopics this s ++ [x])).
Proof.
  split.
  - intros this s Ha r s1.
    destruct (AliasingFacts.ConversationObj_messages_copy this s Ha)
      as (H1 & _ & H2 & H3).
    split; [exact H1|]. split; [exact H2|]. intros v. apply H3.
  - intros this s r x Ha. split; [|split]; intros Hf.
    + apply (AliasingFacts.MessageObj_getter_shares
               MessageObjProps.spiritualThemes MessageObj_spiritualThemes);
        [reflexivity | exact Hf | exact Ha].
    + apply (AliasingFacts.MessageObj_getter_shares
               MessageObjProps.suggestedActions MessageObj_suggestedActions);
        [reflexivity | exact Hf | exact Ha].
    + apply (AliasingFacts.MessageObj_getter_shares
               MessageObjProps.relatedTopics MessageObj_relatedTopics);
        [reflexivity | exact Hf | exact Ha].
Qed.

Lemma sequence_getters_aliasing_witness :
  MessageObj_new (MessageObj_props themedMessage) themedStore
  = Normal themedMessage /\
  read_spiritualThemes themedMessage themedStore
  = [lit "inner_peace"; lit "meditation"] /\
  (let '(themes, s) := MessageObj_spiritualThemes themedMessage themedStore in
   read_spiritualThemes themedMessage (push_string themes (lit "x") s))
  = [lit "inner_peace"; lit "meditation"; lit "x"] /\
  (let '(messages, s) := ConversationObj_messages storedConversation themedStore
   in ConversationObj_getMessageCount storedConversation
        (push_message messages themedMessage s)) = 1.
Proof.
  split; [reflexivity|]. split; [reflexivity|].
  destruct (proj1 (proj2 sequence_getters_aliasing themedMessage themedStore
                     0%nat (lit "x") ltac:(vm_compute; lia)) eq_refl)
    as (Hg & Hp).
  split.
  - rewrite Hg. rewrite Hp. reflexivity.
  - pose proof (proj1 sequence_getters_aliasing storedConversation themedStore
                  ltac:(vm_compute; lia)) as (_ & _ & Hc).
    unfold ConversationObj_getMessageCount, push_message.
    destruct (ConversationObj_messages storedConversation themedStore)
      as [messages s] eqn:E.
    cbn [fst snd] in Hc. rewrite Hc. reflexivity.
Defined.


Lemma MessageObj_value_frame (s s' : Store) (m : MessageObj) :
  string_arrays s' = string_arrays s ->
  MessageObj_value s' m = MessageObj_value s m.
Proof.
  intros E. unfold MessageObj_value, Message_of, strings_at. rewrite E.
  reflexivity.
Qed.

Lemma new_message_array_strings (v : list MessageObj) (s : Store) :
  string_arrays (snd (new_message_array v s)) = string_arrays s.
Proof. reflexivity. Qed.

(** The pure outcome of [addMessage], for the clock reading [now]. *)
Lemma Conversation_addMessage_outcome (c : Conversation) (m : Message)
    (w : World) :
  Conversation_constructed c ->
  fst (Conversation_addMessage c m w)
  = if conversationId_mismatch c m then
      throw_Error "Message conversation ID does not match"
    else if clock_precedes_creation c w then
      throw_Error "Update date cannot be before creation date"
    else Normal (appended c m (next_now w)).
Proof.
  intros Hc. rewrite (Conversation_addMessage_run c m w Hc).
  destruct (conversationId_mismatch c m); [reflexivity|].
  destruct (clock_precedes_creation c w); reflexivity.
Qed.

(** [addMessage] over the store does what [addMessage] on values does. *)
Lemma ConversationObj_addMessage_refines (this : ConversationObj.t)
    (message : MessageObj) (s : Store) (w : World) :
  Conversation_constructed (ConversationObj_value s this) ->
  let run := ConversationObj_addMessage this message (next_now w) s in
  match fst run with
  | Normal c' =>
      fst (Conversation_addMessage (ConversationObj_value s this)
             (MessageObj_value s message) w)
      = Normal (ConversationObj_value (snd run) c')
  | Throw e =>
      fst (Conversation_addMessage (ConversationObj_value s this)
             (MessageObj_value s message) w) = Throw e
  end.
Proof.
  intros Hc run. rewrite (Conversation_addMessage_outcome _ _ _ Hc).
  apply Conversation_constructed_iff, Conversation_validate_Normal in Hc.
  destruct Hc as (Hid & l & cr & up & _ & Hcr & _ & _).
  cbn [ConversationObj_value Conversation_props ConversationProps.id
       ConversationProps.createdAt] in Hid, Hcr.
  subst run. unfold ConversationObj_addMessage, conversationId_mismatch.
  change (Message_conversationId (MessageObj_value s message))
    with (MessageObjProps.conversationId (MessageObj_props message)).
  change (Conversation_id (ConversationObj_value s this))
    with (ConversationObj.id this).
  destruct (_ && _); [reflexivity|].
  unfold clock_precedes_creation.
  change (Conversation_createdAt (ConversationObj_value s this))
    with (ConversationObj.createdAt this).
  rewrite Hcr.
  set (v := messages_at s (ConversationObj.messages this) ++ [message]).
  pose proof (AliasingFacts.messages_at_new v s) as Hnew.
  destruct (new_message_array v s) as [newMessages s1] eqn:E.
  assert (Es1 : string_arrays s1 = string_arrays s)
    by (pose proof (new_message_array_strings v s) as Q; rewrite E in Q;
        exact Q).
  cbn [fst snd] in Hnew.
  unfold ConversationObj_new, Conversation_validateConversation,
    Conversation_of.
  cbn [ConversationInit.id ConversationInit.messages
       ConversationInit.createdAt ConversationInit.updatedAt
       ConversationProps.id ConversationProps.messages
       ConversationProps.createdAt ConversationProps.updatedAt fmap
       option_fmap option_map].
  rewrite Hid.
  destruct (Date_lt (next_now w) cr); [reflexivity|].
  pose proof (AliasingFacts.messages_at_new (messages_at s1 newMessages) s1)
    as Hnew2.
  destruct (new_message_array (messages_at s1 newMessages) s1)
    as [copy s2] eqn:E2.
  assert (Es2 : string_arrays s2 = string_arrays s).
  { pose proof (new_message_array_strings (messages_at s1 newMessages) s1)
      as Q. rewrite E2 in Q. cbn [snd] in Q. congruence. }
  cbn [fst snd] in *.
  unfold appended, ConversationObj_value, Conversation_stored.
  cbn [ConversationObj.id ConversationObj.messages ConversationObj.createdAt
       ConversationObj.updatedAt ConversationObj.summary
       ConversationObj.userId Conversation_props ConversationProps.messages
       default from_option id Conversation_id Conversation_createdAt
       Conversation_summary Conversation_userId ConversationProps.id
       ConversationProps.createdAt ConversationProps.summary
       ConversationProps.userId ConversationInit.summary
       ConversationInit.userId].
  unfold id. rewrite Hnew2, Hnew, ?Hcr. unfold v.
  rewrite List.map_app. cbn [List.map].
  rewrite (MessageObj_value_frame s s2 message Es2).
  rewrite (List.map_ext _ _ (fun m => MessageObj_value_frame s s2 m Es2)).
  reflexivity.
Qed.

(** [addMessage] on values: when it throws, and what it returns. *)
Lemma Conversation_addMessage_values (c : Conversation) (m : Message)
    (w : World) :
  Conversation_constructed c ->
  let r := fst (Conversation_addMessage c m w) in
  (is_Normal r = false <->
   conversationId_differs c m \/ clock_before_creation c w) /\
  (conversationId_differs c m ->
   r = throw_Error "Message conversation ID does not match") /\
  (~ conversationId_differs c m -> clock_before_creation c w ->
   r = throw_Error "Update date cannot be before creation date") /\
  (~ conversationId_differs c m -> ~ clock_before_creation c w ->
   exists c',
     r = Normal c' /\
     Conversation_messages c' = Conversation_messages c ++ [m] /\
     Conversation_getMessageCount c'
     = Conversation_getMessageCount c + 1 /\
     Conversation_getLastMessage c' = Some m /\
     Conversation_id c' = Conversation_id c /\
     Conversation_createdAt c' = Conversation_createdAt c /\
     Conversation_updatedAt c' = Some (next_now w) /\
     Conversation_summary c' = Conversation_summary c /\
     Conversation_userId c' = Conversation_userId c /\
     Conversation_constructed c').
Proof.
  intros Hc r.
  destruct (Conversation_addMessage_cases c m w Hc) as (H1 & H2 & H3).
  rewrite <- conversationId_mismatch_iff, <- clock_precedes_creation_iff.
  subst r.
  destruct (conversationId_mismatch c m) eqn:Em.
  - rewrite (H1 eq_refl). simpl. intuition congruence.
  - destruct (clock_precedes_creation c w) eqn:Ep.
    + rewrite (H2 eq_refl eq_refl). simpl. intuition congruence.
    + pose proof (H3 eq_refl eq_refl) as E. rewrite E. simpl.
      split; [intuition congruence|].
      split; [discriminate|]. split; [intuition congruence|].
      intros _ _. eexists. split; [reflexivity|].
      unfold Conversation_messages, Conversation_getMessageCount,
        Conversation_getLastMessage, Conversation_isEmpty, Conversation_stored.
      cbn [Conversation_props ConversationProps.messages default from_option id].
      rewrite length_app, last_snoc. simpl List.length.
      repeat split; try lia.
      * destruct (Z.of_nat _ =? 0) eqn:Q; [apply Z.eqb_eq in Q; lia | reflexivity].
      * apply (Conversation_addMessage_constructed c _ m w (tick w) Hc E).
Qed.


Lemma ConversationObj_addMessage_strings (this : ConversationObj.t)
    (message : MessageObj) (now : Date) (s : Store) :
  string_arrays (snd (ConversationObj_addMessage this message now s))
  = string_arrays s.
Proof.
  unfold ConversationObj_addMessage. destruct (_ && _); [reflexivity|].
  destruct (new_message_array _ s) as [newMessages s1] eqn:E.
  assert (Es1 : string_arrays s1 = string_arrays s)
    by (pose proof (new_message_array_strings
                      (messages_at s (ConversationObj.messages this)
                       ++ [message]) s) as Q;
        rewrite E in Q; exact Q).
  unfold ConversationObj_new.
  destruct (Conversation_validateConversation _); [|exact Es1].
  cbn [ConversationInit.messages].
  destruct (new_message_array (messages_at s1 newMessages) s1)
    as [copy s2] eqn:E2.
  pose proof (new_message_array_strings (messages_at s1 newMessages) s1) as Q.
  rewrite E2 in Q. cbn [snd] in *. congruence.
Qed.

(** C1 (as amended). For a conversation [c] built by the constructor and
    any message [m]: [c.addMessage(m)] throws exactly when
    [m.conversationId] is a non-empty string other than [c.id], or the
    clock reading taken for [updatedAt] is earlier than [c.createdAt];
    otherwise it returns a new conversation whose message list is that of
    [c] with [m] appended at the end and whose count is that of [c] plus
    one. [c] itself is unchanged: over any store of array objects in
    which [this] and [message] stand for [c] and [m], the run has the same
    outcome, the conversation returned holds a new array, and [this] is
    afterwards still [c], with the count it had. *)
Theorem Conversation_addMessage_contract (c : Conversation) (m : Message)
    (w : World) :
  Conversation_constructed c ->
  let r := fst (Conversation_addMessage c m w) in
  (is_Normal r = false <->
   conversationId_differs c m \/ clock_before_creation c w) /\
  (conversationId_differs c m ->
   r = throw_Error "Message conversation ID does not match") /\
  (~ conversationId_differs c m -> clock_before_creation c w ->
   r = throw_Error "Update date cannot be before creation date") /\
  (~ conversationId_differs c m -> ~ clock_before_creation c w ->
   exists c',
     r = Normal c' /\
     Conversation_messages c' = Conversation_messages c ++ [m] /\
     Conversation_getMessageCount c'
     = Conversation_getMessageCount c + 1 /\
     Conversation_getLastMessage c' = Some m /\
     Conversation_id c' = Conversation_id c /\
     Conversation_createdAt c' = Conversation_createdAt c /\
     Conversation_updatedAt c' = Some (next_now w) /\
     Conversation_summary c' = Conversation_summary c /\
     Conversation_userId c' = Conversation_userId c /\
     Conversation_constructed c') /\
  (forall (s : Store) (this : ConversationObj.t) (message : MessageObj),
     ConversationObj_value s this = c ->
     MessageObj_value s message = m ->
     message_array_alive s (ConversationObj.messages this) ->
     let run := ConversationObj_addMessage this message (next_now w) s in
     ConversationObj_value (snd run) this = c /\
     ConversationObj_getMessageCount this (snd run)
     = Conversation_getMessageCount c /\
     match fst run with
     | Normal this' =>
         r = Normal (ConversationObj_value (snd run) this') /\
         ConversationObj.messages this' <> ConversationObj.messages this
     | Throw e => r = Throw e
     end).
Proof.
  intros Hc r.
  destruct (Conversation_addMessage_values c m w Hc) as (H1 & H2 & H3 & H4).
  split; [exact H1|]. split; [exact H2|]. split; [exact H3|].
  split; [exact H4|].
  intros s this message Hthis Hmsg Ha run.
  destruct (AliasingFacts.ConversationObj_addMessage_frame this message
              (next_now w) s Ha) as (Hf1 & Hf2 & Hf3).
  fold run in Hf1, Hf2, Hf3.
  pose proof (ConversationObj_addMessage_strings this message (next_now w) s)
    as Hs. fold run in Hs.
  assert (Hval : ConversationObj_value (snd run) this = c).
  { rewrite <- Hthis. unfold ConversationObj_value. rewrite Hf1.
    rewrite (List.map_ext _ _ (fun x => MessageObj_value_frame s (snd run) x Hs)).
    reflexivity. }
  split; [exact Hval|]. split.
  - rewrite Hf2, <- Hthis.
    unfold ConversationObj_getMessageCount, Conversation_getMessageCount,
      Conversation_stored, ConversationObj_value.
    cbn [Conversation_props ConversationProps.messages default from_option id].
    unfold id. rewrite length_map. reflexivity.
  - rewrite <- Hthis in Hc.
    pose proof (ConversationObj_addMessage_refines this message s w Hc) as R.
    cbv zeta in R. fold run in R. rewrite Hthis, Hmsg in R. fold r in R.
    destruct (fst run) as [this'|e] eqn:E; [|exact R].
    split; [exact R | apply (Hf3 this' eq_refl)].
Qed.

Lemma Conversation_addMessage_contract_witness :
  (exists c',
     fst (Conversation_addMessage (sampleConversation 1000)
            (sampleMessage None) (sampleWorld 2000)) = Normal c' /\
     Conversation_messages c' = [sampleMessage None] /\
     Conversation_getMessageCount c' = 1 /\
     Conversation_getMessageCount (sampleConversation 1000) = 0) /\
  (let run := ConversationObj_addMessage storedConversation themedMessage
                (TimeValue 1672574400000) themedStore in
   ConversationObj_getMessageCount storedConversation themedStore = 1 /\
   ConversationObj_getMessageCount storedConversation (snd run) = 1 /\
   exists this',
     fst run = Normal this' /\
     ConversationObj_getMessageCount this' (snd run) = 2).
Proof.
  split.
  - destruct (proj1 (proj2 (proj2 (proj2
      (Conversation_addMessage_contract (sampleConversation 1000)
         (sampleMessage None) (sampleWorld 2000)
         (ex_intro _ (sampleConversationProps 1000) eq_refl))))))
      as (c' & E & Hm & Hn & _).
    + intros (s & E & _). discriminate E.
    + intros (d & [= <-] & E). vm_compute in E. discriminate E.
    + exists c'. split; [exact E|]. split; [exact Hm|]. split; [exact Hn|].
      reflexivity.
  - intros run.
    destruct (proj2 (proj2 (proj2 (proj2
      (Conversation_addMessage_contract
         (ConversationObj_value themedStore storedConversation)
         (MessageObj_value themedStore themedMessage)
         (sampleWorld 1672574400000)
         (ex_intro _ (Conversation_props
                        (ConversationObj_value themedStore storedConversation))
            eq_refl)))))
      themedStore storedConversation themedMessage eq_refl eq_refl
      ltac:(vm_compute; lia)) as (_ & Hcount & _).
    split; [reflexivity|]. split; [exact Hcount|].
    eexists. split; reflexivity.
Defined.

(** ** The Conversation constructor, [updateSummary] and the factories *)

(** The constructor of [Conversation] checks, in this order, the id, that
    [messages] is an array, the presence of [createdAt] and of
    [updatedAt], and that [updatedAt] is not before [createdAt]; it throws
    on the first check that fails. Otherwise the getters give the props
    back. An invalid date is never before another date, so props with an
    invalid [createdAt] or [updatedAt] are accepted. *)
Theorem Conversation_constructor_contract (p : ConversationProps.t) :
  (blank (ConversationProps.id p) = true ->
   Conversation_new p = throw_Error "Conversation ID is required") /\
  (blank (ConversationProps.id p) = false ->
   ConversationProps.messages p = None ->
   Conversation_new p = throw_Error "Messages must be an array") /\
  (forall l,
     blank (ConversationProps.id p) = false ->
     ConversationProps.messages p = Some l ->
     (ConversationProps.createdAt p = None ->
      Conversation_new p
      = throw_Error "Conversation creation date is required") /\
     (forall created,
        ConversationProps.createdAt p = Some created ->
        (ConversationProps.updatedAt p = None ->
         Conversation_new p
         = throw_Error "Conversation update date is required") /\
        (forall updated,
           ConversationProps.updatedAt p = Some updated ->
           (Date_lt updated created = true ->
            Conversation_new p
            = throw_Error "Update date cannot be before creation date") /\
           (Date_isNaN created = true \/ Date_isNaN updated = true
            \/ Date_lt updated created = false ->
            exists c,
              Conversation_new p = Normal c /\
              Conversation_id c = ConversationProps.id p /\
              Conversation_messages c = l /\
              Conversation_getMessageCount c = Z.of_nat (List.length l) /\
              Conversation_createdAt c = Some created /\
              Conversation_updatedAt c = Some updated /\
              Conversation_summary c = ConversationProps.summary p /\
              Conversation_userId c = ConversationProps.userId p)))).
Proof.
  unfold Conversation_new, Conversation_validateConversation.
  split; [intros ->; reflexivity|].
  split; [intros -> ->; reflexivity|].
  intros l -> Hl. rewrite Hl.
  split; [intros ->; reflexivity|].
  intros created Hc. rewrite Hc.
  split; [intros ->; reflexivity|].
  intros updated Hu. rewrite Hu.
  split; [intros ->; reflexivity|].
  intros Hd.
  assert (E : Date_lt updated created = false).
  { destruct Hd as [Hd | [Hd | Hd]]; [| |exact Hd].
    - destruct created; [discriminate|]. destruct updated; reflexivity.
    - destruct updated; [discriminate|]. reflexivity. }
  rewrite E. eexists. split; [reflexivity|].
  unfold Conversation_id, Conversation_messages, Conversation_stored,
    Conversation_getMessageCount, Conversation_stored, Conversation_createdAt,
    Conversation_updatedAt, Conversation_summary, Conversation_userId.
  cbn [Conversation_props]. rewrite Hl, Hc, Hu. repeat split.
Qed.
Lemma Conversation_constructor_contract_witness :
  Conversation_new (datedConversationProps (TimeValue 2000) (TimeValue 1000))
  = throw_Error "Update date cannot be before creation date" /\
  exists c,
    Conversation_new (datedConversationProps (TimeValue 2000) InvalidDate)
    = Normal c /\
    Conversation_id c = Some (lit "conv-1") /\
    Conversation_messages c = [] /\
    Conversation_getMessageCount c = 0 /\
    Conversation_createdAt c = Some (TimeValue 2000) /\
    Conversation_updatedAt c = Some InvalidDate /\
    Conversation_summary c = None /\
    Conversation_userId c = None.
Proof.
  split.
  - destruct (Conversation_constructor_contract
                (datedConversationProps (TimeValue 2000) (TimeValue 1000)))
      as (_ & _ & H).
    destruct (H [] eq_refl eq_refl) as (_ & H1).
    destruct (H1 (TimeValue 2000) eq_refl) as (_ & H2).
    destruct (H2 (TimeValue 1000) eq_refl) as (H3 & _).
    apply H3. reflexivity.
  - destruct (Conversation_constructor_contract
                (datedConversationProps (TimeValue 2000) InvalidDate))
      as (_ & _ & H).
    destruct (H [] eq_refl eq_refl) as (_ & H1).
    destruct (H1 (TimeValue 2000) eq_refl) as (_ & H2).
    destruct (H2 InvalidDate eq_refl) as (_ & H3).
    apply H3. right; left; reflexivity.
Defined.

(** [updateSummary] throws 'Summary cannot be empty' on a summary that is
    missing or blank, without reading the clock. Otherwise it reads the
    clock once for the new [updatedAt], and the constructor it calls
    throws when that reading is before [createdAt]; if not, the result is
    the same conversation (id, messages, creation date, user) with the
    trimmed summary, which is never blank. *)
Theorem Conversation_updateSummary_contract (c : Conversation)
    (summary : option jsstring) (w : World) :
  Conversation_constructed c ->
  (blank summary = true ->
   Conversation_updateSummary c summary w
   = (throw_Error "Summary cannot be empty", w)) /\
  (forall s,
     summary = Some s -> nonempty (trim s) = true ->
     (clock_precedes_creation c w = true ->
      Conversation_updateSummary c summary w
      = (throw_Error "Update date cannot be before creation date",
         advance 1 0 w)) /\
     (clock_precedes_creation c w = false ->
      exists c',
        Conversation_updateSummary c summary w = (Normal c', advance 1 0 w) /\
        Conversation_constructed c' /\
        Conversation_summary c' = Some (trim s) /\
        blank (Conversation_summary c') = false /\
        Conversation_updatedAt c' = Some (next_now w) /\
        Conversation_id c' = Conversation_id c /\
        Conversation_messages c' = Conversation_messages c /\
        Conversation_createdAt c' = Conversation_createdAt c /\
        Conversation_userId c' = Conversation_userId c)).
Proof.
  intros Hc.
  apply Conversation_constructed_iff in Hc.
  apply Conversation_validate_Normal in Hc
    as (Hid & l & cr & up & Hl & Hcr & Hup & Hlt).
  unfold Conversation_updateSummary. split; [intros ->; reflexivity|].
  intros s -> Hs.
  assert (Hb : blank (Some s) = false) by (simpl; rewrite Hs; reflexivity).
  rewrite Hb. run_m.
  unfold clock_precedes_creation, next_now, Conversation_new,
    Conversation_validateConversation, Conversation_id,
    Conversation_createdAt.
  cbn [ConversationProps.id ConversationProps.messages
       ConversationProps.createdAt ConversationProps.updatedAt].
  rewrite Hid, Hcr. split; intros Hp; rewrite Hp; [reflexivity|].
  eexists. split; [reflexivity|].
  split.
  { apply Conversation_constructed_iff, Conversation_validate_Normal.
    cbn [Conversation_props ConversationProps.id ConversationProps.messages
         ConversationProps.createdAt ConversationProps.updatedAt].
    split; [exact Hid|]. eexists _, cr, _.
    split; [reflexivity|]. split; [reflexivity|].
    split; [reflexivity | exact Hp]. }
  unfold Conversation_summary, Conversation_updatedAt, Conversation_id,
    Conversation_messages, Conversation_stored, Conversation_createdAt,
    Conversation_userId.
  cbn [Conversation_props ConversationProps.id ConversationProps.messages
       ConversationProps.createdAt ConversationProps.updatedAt
       ConversationProps.summary ConversationProps.userId fmap option_fmap
       option_map].
  rewrite ?Hl, ?Hcr. cbn [default from_option id].
  repeat split. rewrite blank_trim. exact Hb.
Qed.

Lemma Conversation_updateSummary_contract_witness :
  Conversation_updateSummary (sampleConversation 1000)
    (Some (lit "   ")) (sampleWorld 2000)
  = (throw_Error "Summary cannot be empty", sampleWorld 2000) /\
  Conversation_updateSummary (sampleConversation 3000)
    (Some (lit " Inner peace ")) (sampleWorld 2000)
  = (throw_Error "Update date cannot be before creation date",
     advance 1 0 (sampleWorld 2000)) /\
  exists c',
    Conversation_updateSummary (sampleConversation 1000)
      (Some (lit " Inner peace ")) (sampleWorld 2000)
    = (Normal c', advance 1 0 (sampleWorld 2000)) /\
    Conversation_summary c' = Some (lit "Inner peace") /\
    Conversation_updatedAt c' = Some (TimeValue 2000).
Proof.
  assert (Hc : forall t, Conversation_constructed (sampleConversation t)).
  { intros t. exists (sampleConversationProps t).
    unfold Conversation_new, Conversation_validateConversation.
    cbn [sampleConversationProps ConversationProps.id
         ConversationProps.messages ConversationProps.createdAt
         ConversationProps.updatedAt].
    rewrite Date_lt_irrefl. reflexivity. }
  split; [|split].
  - apply (Conversation_updateSummary_contract (sampleConversation 1000)
             (Some (lit "   ")) (sampleWorld 2000) (Hc 1000)).
    reflexivity.
  - apply (proj2 (Conversation_updateSummary_contract (sampleConversation 3000)
             (Some (lit " Inner peace ")) (sampleWorld 2000) (Hc 3000))
             (lit " Inner peace ") eq_refl eq_refl).
    reflexivity.
  - destruct (proj2 (proj2 (Conversation_updateSummary_contract
             (sampleConversation 1000)
             (Some (lit " Inner peace ")) (sampleWorld 2000) (Hc 1000))
             (lit " Inner peace ") eq_refl eq_refl) eq_refl)
      as (c' & H1 & _ & H2 & _ & H3 & _).
    exists c'. split; [exact H1|]. split; [exact H2 | exact H3].
Defined.

(** [Conversation.createNew] never throws, whatever the clock and the
    random source give: it reads the clock twice (for the dates, then for
    the id) and draws once, and returns an empty conversation whose
    creation and update dates are the same reading and whose id begins
    with 'conv-'. *)
Theorem Conversation_createNew_contract (userId : option jsstring)
    (w : World) :
  exists c,
    Conversation_createNew userId w = (Normal c, advance 2 1 w) /\
    Conversation_constructed c /\
    Conversation_id c
    = Some (lit "conv-" ++ of_Z (clock w (S (clock_reads w))) ++ lit "-"
              ++ random w (random_reads w)) /\
    Conversation_createdAt c = Some (next_now w) /\
    Conversation_updatedAt c = Some (next_now w) /\
    Conversation_userId c = userId /\
    Conversation_summary c = None /\
    Conversation_isEmpty c = true /\
    Conversation_getMessageCount c = 0 /\
    Conversation_getFirstMessage c = None /\
    Conversation_getLastMessage c = None /\
    Conversation_hasUserStarted c = false.
Proof.
  exists (created userId w).
  split; [apply Conversation_createNew_created|].
  split; [apply created_constructed|].
  repeat split.
Qed.

(** [Conversation.createWithFirstMessage] goes through [createNew] and
    [addMessage]. A message that names a conversation (a non-empty
    [conversationId]) other than the one just created makes it throw;
    so does a clock that, at its third reading, is behind its first.
    Otherwise the result holds exactly the message given, which is its
    first and its last message. *)
Theorem Conversation_createWithFirstMessage_contract (message : Message)
    (userId : option jsstring) (w : World) :
  let fresh := created userId w in
  (conversationId_differs fresh message ->
   Conversation_createWithFirstMessage message userId w
   = (throw_Error "Message conversation ID does not match", advance 2 1 w)) /\
  (~ conversationId_differs fresh message ->
   (clock w (2 + clock_reads w) < clock w (clock_reads w) ->
    Conversation_createWithFirstMessage message userId w
    = (throw_Error "Update date cannot be before creation date",
       advance 3 1 w)) /\
   (clock w (clock_reads w) <= clock w (2 + clock_reads w) ->
    exists c,
      Conversation_createWithFirstMessage message userId w
      = (Normal c, advance 3 1 w) /\
      Conversation_constructed c /\
      Conversation_id c = Conversation_id fresh /\
      Conversation_userId c = userId /\
      Conversation_messages c = [message] /\
      Conversation_getMessageCount c = 1 /\
      Conversation_getFirstMessage c = Some message /\
      Conversation_getLastMessage c = Some message /\
      Conversation_hasUserStarted c = Message_isFromUser message /\
      Conversation_createdAt c = Some (next_now w) /\
      Conversation_updatedAt c
      = Some (TimeValue (clock w (2 + clock_reads w))))).
Proof.
  intros fresh. unfold Conversation_createWithFirstMessage.
  unfold mbind, M_bind, bind. rewrite Conversation_createNew_created.
  fold fresh.
  rewrite (Conversation_addMessage_run fresh message (advance 2 1 w)
             (created_constructed userId w)).
  assert (Hp : clock_precedes_creation fresh (advance 2 1 w)
               = (clock w (2 + clock_reads w) <? clock w (clock_reads w))).
  { reflexivity. }
  split.
  - intros Hd. apply conversationId_mismatch_iff in Hd. rewrite Hd.
    reflexivity.
  - intros Hd.
    destruct (conversationId_mismatch fresh message) eqn:E;
      [exfalso; apply Hd, conversationId_mismatch_iff, E|].
    rewrite Hp. split; intros Hlt.
    + apply Z.ltb_lt in Hlt. rewrite Hlt. reflexivity.
    + apply Z.ltb_ge in Hlt. rewrite Hlt.
      eexists. split; [reflexivity|].
      split.
      { apply (appended_constructed fresh message (advance 2 1 w)
                 (created_constructed userId w)).
        rewrite Hp. exact Hlt. }
      repeat split.
Qed.

Lemma Conversation_createWithFirstMessage_contract_witness :
  Conversation_createWithFirstMessage (sampleMessage (Some (lit "conv-1")))
    None (sampleWorld 1000)
  = (throw_Error "Message conversation ID does not match",
     advance 2 1 (sampleWorld 1000)) /\
  exists c,
    Conversation_createWithFirstMessage (sampleMessage None) None
      (sampleWorld 1000)
    = (Normal c, advance 3 1 (sampleWorld 1000)) /\
    Conversation_messages c = [sampleMessage None] /\
    Conversation_getMessageCount c = 1 /\
    Conversation_hasUserStarted c = true.
Proof.
  split.
  - apply (Conversation_createWithFirstMessage_contract
             (sampleMessage (Some (lit "conv-1"))) None (sampleWorld 1000)).
    exists (lit "conv-1"). split; [reflexivity|].
    split; [discriminate|]. vm_compute. discriminate.
  - destruct (Conversation_createWithFirstMessage_contract
                (sampleMessage None) None (sampleWorld 1000)) as (_ & H).
    destruct H as (_ & H).
    { intros (s & Hs & _). discriminate Hs. }
    destruct H as (c & H1 & _ & _ & _ & H2 & H3 & _ & _ & H4 & _).
    { simpl. lia. }
    exists c. split; [exact H1|]. split; [exact H2|].
    split; [exact H3 | exact H4].
Defined.

(** ** Counting and the first and last message *)

Lemma Message_constructed_role (m : Message) :
  Message_constructed m ->
  Message_isFromUser m = negb (Message_isFromAssistant m).
Proof.
  intros Hm. apply Message_constructed_iff, Message_validate_valid in Hm.
  destruct Hm as (_ & _ & _ & Hr & _).
  unfold Message_isFromUser, Message_isFromAssistant, Message_role.
  destruct Hr as [-> | ->]; reflexivity.
Qed.

Lemma role_counts_disjoint (l : list Message) :
  (List.length (List.filter Message_isFromUser l)
   + List.length (List.filter Message_isFromAssistant l)
   <= List.length l)%nat.
Proof.
  induction l as [|m l IH]; [reflexivity|].
  cbn [List.filter].
  assert (Hx : Message_isFromUser m && Message_isFromAssistant m = false).
  { unfold Message_isFromUser, Message_isFromAssistant.
    destruct (str_eqb (Message_role m) (lit "user")) eqn:E; [|reflexivity].
    apply str_eqb_eq in E. rewrite E. reflexivity. }
  destruct (Message_isFromUser m), (Message_isFromAssistant m);
    try discriminate; cbn [List.length]; lia.
Qed.

Lemma role_counts_total (l : list Message) :
  Forall Message_constructed l ->
  (List.length (List.filter Message_isFromUser l)
   + List.length (List.filter Message_isFromAssistant l)
   = List.length l)%nat.
Proof.
  induction 1 as [|m l Hm _ IH]; [reflexivity|].
  cbn [List.filter]. rewrite (Message_constructed_role m Hm).
  destruct (Message_isFromAssistant m); cbn [negb List.length]; lia.
Qed.

(** No message is counted both as a user message and as an assistant
    message; when the messages of a conversation all come from the
    constructor of [Message], each is counted as one or the other, so
    [getUserMessageCount() + getAssistantMessageCount()] is
    [getMessageCount()]. *)
Theorem Conversation_message_counts (c : Conversation) :
  0 <= Conversation_getUserMessageCount c /\
  0 <= Conversation_getAssistantMessageCount c /\
  Conversation_getUserMessageCount c + Conversation_getAssistantMessageCount c
  <= Conversation_getMessageCount c /\
  (Forall Message_constructed (Conversation_messages c) ->
   Conversation_getUserMessageCount c
   + Conversation_getAssistantMessageCount c
   = Conversation_getMessageCount c).
Proof.
  unfold Conversation_getUserMessageCount,
    Conversation_getAssistantMessageCount, Conversation_getMessageCount,
    Conversation_messages.
  pose proof (role_counts_disjoint (Conversation_stored c)).
  split; [lia|]. split; [lia|]. split; [lia|].
  intros Hf. pose proof (role_counts_total _ Hf). lia.
Qed.

Lemma Conversation_message_counts_witness :
  Conversation_getUserMessageCount testConversation
  + Conversation_getAssistantMessageCount testConversation
  = Conversation_getMessageCount testConversation.
Proof.
  apply (Conversation_message_counts testConversation).
  repeat constructor; apply Message_constructed_iff; vm_compute; reflexivity.
Defined.


(** What the observers say after a successful [addMessage]: the message
    added is the last one; the first message is the one there was, or the
    message added when the conversation was empty (and so it is for who
    started the conversation); the count by role grows by one for the role
    of the message. *)
Theorem Conversation_addMessage_observers (c c' : Conversation)
    (m : Message) (w w' : World) :
  Conversation_constructed c ->
  Conversation_addMessage c m w = (Normal c', w') ->
  Conversation_isEmpty c' = false /\
  Conversation_getLastMessage c' = Some m /\
  Conversation_getFirstMessage c'
  = (if Conversation_isEmpty c then Some m
     else Conversation_getFirstMessage c) /\
  Conversation_hasUserStarted c'
  = (if Conversation_isEmpty c then Message_isFromUser m
     else Conversation_hasUserStarted c) /\
  Conversation_getUserMessageCount c'
  = Conversation_getUserMessageCount c
    + (if Message_isFromUser m then 1 else 0) /\
  Conversation_getAssistantMessageCount c'
  = Conversation_getAssistantMessageCount c
    + (if Message_isFromAssistant m then 1 else 0).
Proof.
  intros Hc Hrun. rewrite (Conversation_addMessage_run c m w Hc) in Hrun.
  destruct (conversationId_mismatch c m); [discriminate|].
  destruct (clock_precedes_creation c w); [discriminate|].
  injection Hrun as <- _.
  assert (Hs : Conversation_stored (appended c m (next_now w))
               = Conversation_stored c ++ [m]) by reflexivity.
  unfold Conversation_hasUserStarted, Conversation_getFirstMessage,
    Conversation_getLastMessage, Conversation_getUserMessageCount,
    Conversation_getAssistantMessageCount, Conversation_isEmpty.
  rewrite Hs. clear Hs.
  destruct (Conversation_stored c) as [|x l] eqn:E.
  - cbn [app List.length List.filter head last].
    change (Z.of_nat 1 =? 0) with false. change (Z.of_nat 0 =? 0) with true.
    cbv iota.
    destruct (Message_isFromUser m), (Message_isFromAssistant m);
      repeat split.
  - assert (He : (Z.of_nat (List.length ((x :: l) ++ [m])) =? 0) = false).
    { apply Z.eqb_neq. rewrite List.length_app. cbn [List.length]. lia. }
    rewrite He.
    assert (He' : (Z.of_nat (List.length (x :: l)) =? 0) = false).
    { apply Z.eqb_neq. cbn [List.length]. lia. }
    rewrite He'. rewrite last_snoc.
    rewrite !List.filter_app, !List.length_app. cbn [List.filter app head].
    destruct (Message_isFromUser m), (Message_isFromAssistant m);
      cbn [List.length]; repeat split; lia.
Qed.

Lemma Conversation_addMessage_observers_witness :
  exists c',
    Conversation_addMessage (sampleConversation 1000) (sampleMessage None)
      (sampleWorld 2000)
    = (Normal c', advance 1 0 (sampleWorld 2000)) /\
    Conversation_getLastMessage c' = Some (sampleMessage None) /\
    Conversation_getFirstMessage c' = Some (sampleMessage None) /\
    Conversation_hasUserStarted c' = true /\
    Conversation_getUserMessageCount c' = 1 /\
    Conversation_getAssistantMessageCount c' = 0.
Proof.
  assert (Hc : Conversation_constructed (sampleConversation 1000))
    by (exists (sampleConversationProps 1000); reflexivity).
  assert (Hrun : Conversation_addMessage (sampleConversation 1000)
                   (sampleMessage None) (sampleWorld 2000)
                 = (Normal (appended (sampleConversation 1000)
                              (sampleMessage None) (TimeValue 2000)),
                    advance 1 0 (sampleWorld 2000)))
    by (vm_compute; reflexivity).
  eexists. split; [exact Hrun|].
  destruct (Conversation_addMessage_observers (sampleConversation 1000) _
              (sampleMessage None) (sampleWorld 2000) _ Hc Hrun)
    as (_ & H1 & H2 & H3 & H4 & H5).
  split; [exact H1|]. split; [exact H2|]. split; [exact H3|].
  split; [exact H4 | exact H5].
Defined.

(** ** [isActive] and [getSpritualThemes] *)

(** An empty conversation is not active, and the clock is not read for
    it. Otherwise the clock is read once, and (for a clock within the
    range of [Date]) the conversation is active exactly when its last
    message carries a valid timestamp less than 24 hours before that
    reading: a last message of exactly 24 hours ago does not count, one
    with an invalid timestamp never does, and no other message or date of
    the conversation matters. *)
Theorem Conversation_isActive_contract (c : Conversation) (w : World) :
  let now := clock w (clock_reads w) in
  (Conversation_isEmpty c = true ->
   Conversation_isActive c w = (Normal false, w)) /\
  (forall m,
     Conversation_getLastMessage c = Some m ->
     exists b,
       Conversation_isActive c w = (Normal b, advance 1 0 w) /\
       (Z.abs (now - msPerDay) <= 8640000000000000 ->
        (b = true <->
         exists t, Message_timestamp m = Some (TimeValue t)
                   /\ now - t < msPerDay)) /\
       (Message_timestamp m = Some InvalidDate -> b = false)).
Proof.
  intros now. unfold Conversation_isActive. split.
  - intros He. unfold Conversation_getLastMessage. rewrite He. reflexivity.
  - intros m ->. eexists. split; [reflexivity|].
    cbn [clock clock_reads]. fold now. split.
    + intros Hr. unfold Date_of_number.
      apply Z.leb_le in Hr. rewrite Hr. unfold Date_gt, Date_lt.
      destruct (Message_timestamp m) as [[t|]|].
      * rewrite Z.ltb_lt. split.
        -- intros Hlt. exists t. split; [reflexivity | lia].
        -- intros (t' & [= <-] & Hlt). lia.
      * split; [discriminate | intros (t & [=] & _)].
      * split; [discriminate | intros (t & [=] & _)].
    + intros ->. unfold Date_gt, Date_lt.
      destruct (Date_of_number (now - msPerDay)); reflexivity.
Qed.

Lemma Conversation_isActive_contract_witness :
  Conversation_isActive (sampleConversation 1000) (sampleWorld 2000)
  = (Normal false, sampleWorld 2000) /\
  Conversation_isActive testConversation
    (sampleWorld (1672574401000 + msPerDay))
  = (Normal false, advance 1 0 (sampleWorld (1672574401000 + msPerDay))) /\
  Conversation_isActive testConversation
    (sampleWorld (1672574401000 + msPerDay - 1))
  = (Normal true, advance 1 0 (sampleWorld (1672574401000 + msPerDay - 1))).
Proof.
  split; [|split].
  - apply (Conversation_isActive_contract (sampleConversation 1000)
             (sampleWorld 2000)).
    reflexivity.
  - destruct (proj2 (Conversation_isActive_contract testConversation
                       (sampleWorld (1672574401000 + msPerDay)))
                testMessage2 eq_refl) as (b & Hrun & Hb & _).
    rewrite Hrun. destruct b; [|reflexivity].
    exfalso. destruct (proj1 (Hb ltac:(vm_compute; discriminate)) eq_refl)
      as (t & [= <-] & Hlt).
    vm_compute in Hlt. discriminate.
  - destruct (proj2 (Conversation_isActive_contract testConversation
                       (sampleWorld (1672574401000 + msPerDay - 1)))
                testMessage2 eq_refl) as (b & Hrun & Hb & _).
    rewrite Hrun. destruct b; [reflexivity|].
    exfalso.
    assert (false = true); [|discriminate].
    apply (Hb ltac:(vm_compute; discriminate)).
    exists 1672574401000. split; [reflexivity|]. vm_compute. reflexivity.
Defined.

Lemma Set_add_fold (xs acc : list jsstring) :
  NoDup acc ->
  NoDup (fold_left Set_add xs acc) /\
  (forall x, In x (fold_left Set_add xs acc) <-> In x acc \/ In x xs) /\
  exists added, fold_left Set_add xs acc = acc ++ added /\ sublist added xs.
Proof.
  revert acc. induction xs as [|x xs IH]; intros acc Hnd.
  - cbn [fold_left]. split; [exact Hnd|]. split; [intros x; simpl; tauto|].
    exists []. split; [symmetry; apply app_nil_r | constructor].
  - cbn [fold_left].
    assert (Ha : Set_add acc x
                 = if array_includes acc x then acc else acc ++ [x])
      by reflexivity.
    rewrite Ha. clear Ha.
    destruct (array_includes acc x) eqn:E.
    + apply array_includes_In in E.
      destruct (IH acc Hnd) as (H1 & H2 & added & H3 & H4).
      split; [exact H1|]. split.
      * intros y. rewrite H2. simpl. intuition (subst; auto).
      * exists added. split; [exact H3 | apply sublist_cons; exact H4].
    + assert (Hx : ~ In x acc).
      { intros Hin. apply array_includes_In in Hin. congruence. }
      assert (Hnd' : NoDup (acc ++ [x])).
      { apply NoDup_app. split; [exact Hnd|]. split.
        - intros y Hy Hy'. apply list_elem_of_singleton in Hy'. subst y.
          apply Hx, list_elem_of_In, Hy.
        - apply NoDup_singleton. }
      destruct (IH (acc ++ [x]) Hnd') as (H1 & H2 & added & H3 & H4).
      split; [exact H1|]. split.
      * intros y. rewrite H2, in_app_iff. simpl. tauto.
      * exists (x :: added). split.
        -- rewrite H3, <- app_assoc. reflexivity.
        -- apply sublist_skip. exact H4.
Qed.

Lemma themes_fold (ms : list Message) (acc : list jsstring) :
  NoDup acc ->
  let r := fold_left
             (fun themes message =>
                fold_left Set_add (Message_spiritualThemes message) themes)
             ms acc in
  NoDup r /\
  (forall x, In x r <->
             In x acc \/ exists m, In m ms /\ In x (Message_spiritualThemes m)) /\
  exists added,
    r = acc ++ added
    /\ sublist added (concat (List.map Message_spiritualThemes ms)).
Proof.
  revert acc. induction ms as [|m ms IH]; intros acc Hnd; cbn [fold_left].
  - split; [exact Hnd|]. split.
    + intros x. split; [auto | intros [H | (m & [] & _)]; exact H].
    + exists []. split; [symmetry; apply app_nil_r | constructor].
  - destruct (Set_add_fold (Message_spiritualThemes m) acc Hnd)
      as (H1 & H2 & added1 & H3 & H4).
    destruct (IH _ H1) as (G1 & G2 & added2 & G3 & G4).
    split; [exact G1|]. split.
    + intros x. rewrite G2, H2. split.
      * intros [[H | H] | (m' & Hm' & Hx)]; [left; exact H | |].
        -- right. exists m. split; [left; reflexivity | exact H].
        -- right. exists m'. split; [right; exact Hm' | exact Hx].
      * intros [H | (m' & [<- | Hm'] & Hx)];
          [left; left; exact H | left; right; exact Hx |].
        right. exists m'. split; assumption.
    + exists (added1 ++ added2). split.
      * rewrite G3, H3, <- app_assoc. reflexivity.
      * cbn [List.map concat]. apply sublist_app; assumption.
Qed.

(** [getSpritualThemes] returns every theme of every message exactly
    once: nothing else, no duplicates, and in an order in which the
    themes occur in the messages (a theme stands where it was first
    met). An empty conversation has no themes. *)
Theorem Conversation_getSpritualThemes_contract (c : Conversation) :
  NoDup (Conversation_getSpritualThemes c) /\
  (forall theme,
     In theme (Conversation_getSpritualThemes c) <->
     exists m, In m (Conversation_messages c)
               /\ In theme (Message_spiritualThemes m)) /\
  sublist (Conversation_getSpritualThemes c)
    (concat (List.map Message_spiritualThemes (Conversation_messages c))) /\
  (Conversation_isEmpty c = true -> Conversation_getSpritualThemes c = []).
Proof.
  unfold Conversation_getSpritualThemes, Conversation_messages.
  destruct (themes_fold (Conversation_stored c) [] NoDup_nil_2)
    as (H1 & H2 & added & H3 & H4).
  split; [exact H1|]. split; [|split].
  - intros theme. rewrite H2. simpl. tauto.
  - rewrite H3. exact H4.
  - unfold Conversation_isEmpty. intros He.
    destruct (Conversation_stored c); [reflexivity|].
    apply Z.eqb_eq in He. cbn [List.length] in He. lia.
Qed.

Lemma Conversation_getSpritualThemes_contract_witness :
  Conversation_getSpritualThemes (sampleConversation 1000) = [].
Proof.
  apply (Conversation_getSpritualThemes_contract (sampleConversation 1000)).
  reflexivity.
Defined.

(** ** The factories of [Message] and [fromJSON] *)

Lemma factory_outcome (p : MessageProps.t) (content : jsstring)
    (a : ascii) (s : string) (rest : jsstring) :
  MessageProps.id p = Some (lit (String a s) ++ rest) ->
  is_white_space (N_of_ascii a) = false ->
  MessageProps.content p = Some (trim content) ->
  (MessageProps.role p = lit "user" \/ MessageProps.role p = lit "assistant") ->
  MessageProps.timestamp p <> None ->
  Message_new p
  = if negb (nonempty (trim content)) then
      throw_Error "Message content cannot be empty"
    else if 2000 <? str_length (trim content) then
      throw_Error too_long_message
    else Normal {| Message_props := p |}.
Proof.
  intros Hid Ha Hc Hr Ht. unfold Message_new, Message_validateMessage.
  rewrite Hid, (blank_lit_app a s rest Ha), Hc.
  assert (Hb : blank (Some (trim content)) = negb (nonempty (trim content))).
  { rewrite blank_trim. reflexivity. }
  rewrite Hb. destruct (nonempty (trim content)); [|reflexivity].
  cbn [negb]. destruct (2000 <? str_length (trim content)); [reflexivity|].
  apply role_ok_iff in Hr. unfold role_ok in Hr. rewrite Hr. cbn [negb].
  destruct (MessageProps.timestamp p); [reflexivity | congruence].
Qed.

(** [Message.createUserMessage] and [Message.createAssistantMessage] trim
    the content before the constructor sees it: a blank content throws
    'Message content cannot be empty', and the limit of 2000 units applies
    to the trimmed content, so that a longer content made of a short text
    and surrounding white space is accepted. No other check of the
    constructor can fail. Either way the clock has been read twice and one
    random suffix drawn. *)
Theorem Message_factories_contract (content : jsstring)
    (conversationId : option jsstring)
    (spiritualThemes suggestedActions relatedTopics : option (list jsstring))
    (w : World) :
  let user := Message_createUserMessage content conversationId w in
  let assistant :=
    Message_createAssistantMessage content conversationId spiritualThemes
      suggestedActions relatedTopics w in
  (nonempty (trim content) = false ->
   user = (throw_Error "Message content cannot be empty", advance 2 1 w) /\
   assistant
   = (throw_Error "Message content cannot be empty", advance 2 1 w)) /\
  (2000 < str_length (trim content) ->
   user = (throw_Error too_long_message, advance 2 1 w) /\
   assistant = (throw_Error too_long_message, advance 2 1 w)) /\
  (nonempty (trim content) = true -> str_length (trim content) <= 2000 ->
   exists u a,
     user = (Normal u, advance 2 1 w) /\
     assistant = (Normal a, advance 2 1 w) /\
     Message_constructed u /\ Message_constructed a /\
     Message_isFromUser u = true /\ Message_isFromAssistant a = true /\
     Message_content u = Some (trim content) /\
     Message_content a = Some (trim content) /\
     Message_conversationId u = conversationId /\
     Message_conversationId a = conversationId /\
     Message_timestamp u = Some (TimeValue (clock w (S (clock_reads w)))) /\
     Message_timestamp a = Some (TimeValue (clock w (S (clock_reads w)))) /\
     Message_spiritualThemes u = [] /\
     Message_spiritualThemes a = default [] spiritualThemes /\
     Message_suggestedActions a = default [] suggestedActions /\
     Message_relatedTopics a = default [] relatedTopics).
Proof.
  intros user assistant.
  assert (Hu : user
    = (Message_new (userMessageProps content conversationId w),
       advance 2 1 w)) by reflexivity.
  assert (Ha : assistant
    = (Message_new (assistantProps content conversationId spiritualThemes
                      suggestedActions relatedTopics w),
       advance 2 1 w)) by reflexivity.
  rewrite Hu, Ha. clear Hu Ha user assistant.
  rewrite (factory_outcome (userMessageProps content conversationId w)
             content "u" "ser-" _ eq_refl eq_refl eq_refl
             (or_introl eq_refl) ltac:(discriminate)).
  rewrite (factory_outcome
             (assistantProps content conversationId spiritualThemes
                suggestedActions relatedTopics w)
             content "a" "ssistant-" _ eq_refl eq_refl eq_refl
             (or_intror eq_refl) ltac:(discriminate)).
  split; [|split].
  - intros ->. split; reflexivity.
  - intros Hl. destruct (nonempty (trim content)) eqn:E.
    + apply Z.ltb_lt in Hl. rewrite Hl. split; reflexivity.
    + exfalso. destruct (trim content); [vm_compute in Hl; discriminate | discriminate].
  - intros Hne Hl. apply Z.ltb_ge in Hl. rewrite Hne, Hl. cbn [negb].
    eexists _, _. split; [reflexivity|]. split; [reflexivity|].
    split.
    { exists (userMessageProps content conversationId w).
      rewrite (factory_outcome (userMessageProps content conversationId w)
                 content "u" "ser-" _ eq_refl eq_refl eq_refl
                 (or_introl eq_refl) ltac:(discriminate)).
      rewrite Hne, Hl. reflexivity. }
    split.
    { exists (assistantProps content conversationId spiritualThemes
                suggestedActions relatedTopics w).
      rewrite (factory_outcome
                 (assistantProps content conversationId spiritualThemes
                    suggestedActions relatedTopics w)
                 content "a" "ssistant-" _ eq_refl eq_refl eq_refl
                 (or_intror eq_refl) ltac:(discriminate)).
      rewrite Hne, Hl. reflexivity. }
    repeat split.
Qed.

Lemma Message_factories_contract_witness :
  Message_createUserMessage (lit "   ") None (sampleWorld 1000)
  = (throw_Error "Message content cannot be empty",
     advance 2 1 (sampleWorld 1000)) /\
  Message_createAssistantMessage (repeat_unit 97%N 2001) None None None None
    (sampleWorld 1000)
  = (throw_Error too_long_message, advance 2 1 (sampleWorld 1000)) /\
  exists u,
    Message_createUserMessage
      (lit "  " ++ repeat_unit 97%N 2000 ++ lit "  ") (Some (lit "conv-1"))
      (sampleWorld 1000)
    = (Normal u, advance 2 1 (sampleWorld 1000)) /\
    Message_content u = Some (repeat_unit 97%N 2000) /\
    Message_conversationId u = Some (lit "conv-1").
Proof.
  split; [|split].
  - apply (proj1 (Message_factories_contract (lit "   ") None None None None
                    (sampleWorld 1000))).
    reflexivity.
  - apply (proj1 (proj2 (Message_factories_contract (repeat_unit 97%N 2001)
                           None None None None (sampleWorld 1000)))).
    vm_compute. reflexivity.
  - destruct (proj2 (proj2 (Message_factories_contract
                (lit "  " ++ repeat_unit 97%N 2000 ++ lit "  ")
                (Some (lit "conv-1")) None None None (sampleWorld 1000))))
      as (u & a & Hu & _ & _ & _ & _ & _ & Hc & _ & Hi & _).
    + vm_compute. reflexivity.
    + vm_compute. discriminate.
    + exists u. split; [exact Hu|]. split; [|exact Hi].
      rewrite Hc. vm_compute. reflexivity.
Defined.

Section FromJSONDates.
Context `{JsRuntime}.

Lemma map_fromJSON_acceptable (l : list MessageJSON.t) :
  Forall MessageJSON_acceptable l ->
  exists ms, map_fromJSON l = Normal ms /\ List.length ms = List.length l.
Proof.
  induction 1 as [|j l Hj _ (ms & IH & Hlen)].
  - exists []. split; reflexivity.
  - destruct Hj as (H1 & H2 & H3 & H4).
    cbn [map_fromJSON]. unfold Message_fromJSON.
    erewrite (proj2 (Message_new_Normal _ _)).
    + rewrite IH. eexists. split; [reflexivity|].
      cbn [List.length]. rewrite Hlen. reflexivity.
    + split; [|reflexivity]. apply Message_validate_valid.
      repeat split; try assumption. discriminate.
Qed.

(** [fromJSON] gives the constructor [new Date(...)] of the date fields,
    which is a date object whatever the record holds. So
    [Message.fromJSON] never fails for the timestamp: a record is accepted
    exactly when its id, content and role are, and the message gets the
    invalid date when the field is missing, the epoch when it is [null],
    and what the engine reads when it is a string. Likewise
    [Conversation.fromJSON] accepts a record with acceptable messages and
    id unless both dates are valid and the update date is the earlier
    one; with a missing or unreadable date it succeeds. *)
Theorem fromJSON_dates (mj : MessageJSON.t) (cj : ConversationJSON.t) :
  ((exists m, Message_fromJSON mj = Normal m) <-> MessageJSON_acceptable mj) /\
  (forall m,
     Message_fromJSON mj = Normal m ->
     Message_timestamp m = Some (new_Date (MessageJSON.timestamp mj)) /\
     (MessageJSON.timestamp mj = FromUndefined ->
      Message_timestamp m = Some InvalidDate) /\
     (MessageJSON.timestamp mj = FromNull ->
      Message_timestamp m = Some (TimeValue 0))) /\
  (Forall MessageJSON_acceptable (ConversationJSON.messages cj) ->
   blank (ConversationJSON.id cj) = false ->
   (Date_lt (new_Date (ConversationJSON.updatedAt cj))
      (new_Date (ConversationJSON.createdAt cj)) = true ->
    Conversation_fromJSON cj
    = throw_Error "Update date cannot be before creation date") /\
   (Date_isNaN (new_Date (ConversationJSON.createdAt cj)) = true
    \/ Date_isNaN (new_Date (ConversationJSON.updatedAt cj)) = true
    \/ Date_lt (new_Date (ConversationJSON.updatedAt cj))
         (new_Date (ConversationJSON.createdAt cj)) = false ->
    exists c,
      Conversation_fromJSON cj = Normal c /\
      Conversation_createdAt c
      = Some (new_Date (ConversationJSON.createdAt cj)) /\
      Conversation_updatedAt c
      = Some (new_Date (ConversationJSON.updatedAt cj)) /\
      Conversation_getMessageCount c
      = Z.of_nat (List.length (ConversationJSON.messages cj)))).
Proof.
  split; [|split].
  - unfold Message_fromJSON, MessageJSON_acceptable. split.
    + intros (m & Hm). apply Message_new_Normal in Hm as [Hv _].
      apply Message_validate_valid in Hv as (H1 & H2 & H3 & H4 & _).
      auto.
    + intros (H1 & H2 & H3 & H4). eexists. apply Message_new_Normal.
      split; [|reflexivity]. apply Message_validate_valid.
      repeat split; try assumption. discriminate.
  - intros m Hm. unfold Message_fromJSON in Hm.
    apply Message_new_Normal in Hm as [_ ->].
    split; [reflexivity|]. split; intros E; unfold Message_timestamp;
      cbn [Message_props MessageProps.timestamp]; rewrite E; reflexivity.
  - intros Hms Hid.
    destruct (map_fromJSON_acceptable _ Hms) as (ms & Hmap & Hlen).
    unfold Conversation_fromJSON. rewrite Hmap.
    unfold Conversation_new, Conversation_validateConversation.
    cbn [ConversationProps.id ConversationProps.messages
         ConversationProps.createdAt ConversationProps.updatedAt].
    rewrite Hid. split.
    + intros ->. reflexivity.
    + intros Hd.
      assert (E : Date_lt (new_Date (ConversationJSON.updatedAt cj))
                    (new_Date (ConversationJSON.createdAt cj)) = false).
      { destruct Hd as [Hd | [Hd | Hd]]; [| |exact Hd].
        - destruct (new_Date (ConversationJSON.createdAt cj));
            [discriminate|].
          destruct (new_Date (ConversationJSON.updatedAt cj)); reflexivity.
        - destruct (new_Date (ConversationJSON.updatedAt cj));
            [discriminate | reflexivity]. }
      rewrite E. eexists. split; [reflexivity|].
      split; [reflexivity|]. split; [reflexivity|].
      unfold Conversation_getMessageCount, Conversation_stored.
      cbn [Conversation_props ConversationProps.messages default
           from_option id]. unfold id. rewrite Hlen. reflexivity.
Qed.

End FromJSONDates.

Lemma fromJSON_dates_witness :
  (exists m,
     @Message_fromJSON RefRuntime.runtime (storedMessageJSON FromUndefined)
     = Normal m
     /\ Message_timestamp m = Some InvalidDate) /\
  exists c,
    @Conversation_fromJSON RefRuntime.runtime
      (storedConversationJSON (FromString (lit "yesterday")) FromNull)
    = Normal c
    /\ Conversation_createdAt c = Some InvalidDate
    /\ Conversation_updatedAt c = Some (TimeValue 0)
    /\ Conversation_getMessageCount c = 1.
Proof.
  pose proof (@fromJSON_dates RefRuntime.runtime
                (storedMessageJSON FromUndefined)
                (storedConversationJSON (FromString (lit "yesterday"))
                   FromNull)) as (H1 & H2 & H3).
  assert (Ha : MessageJSON_acceptable (storedMessageJSON FromUndefined)).
  { split; [reflexivity|]. split; [reflexivity|].
    split; [intros c [= <-]; vm_compute; discriminate | left; reflexivity]. }
  split.
  - destruct (proj2 H1 Ha) as (m & Hm). exists m. split; [exact Hm|].
    apply (H2 m Hm). reflexivity.
  - assert (Hf : Forall MessageJSON_acceptable
                   [storedMessageJSON FromUndefined])
      by (constructor; [exact Ha | constructor]).
    destruct (H3 Hf eq_refl) as (_ & H4).
    destruct (H4 (or_introl eq_refl)) as (c & Hc & Hcr & Hup & Hn).
    exists c. split; [exact Hc|]. split; [exact Hcr|].
    split; [exact Hup | exact Hn].
Defined.

(** ** Regular expressions: the matcher and the language *)

Section RegexFacts.

Lemma nullable_lang (r : regex) : nullable r = true <-> regex_lang r [].
Proof.
  induction r as [| |p|r1 IH1 r2 IH2|r1 IH1 r2 IH2|r IH]; cbn.
  - split; [discriminate | tauto].
  - split; reflexivity.
  - split; [discriminate | intros (c & [=] & _)].
  - rewrite andb_true_iff, IH1, IH2. split.
    + intros [H1 H2]. exists [], []. auto.
    + intros (a & b & E & H1 & H2). symmetry in E.
      apply app_eq_nil in E as [-> ->]. auto.
  - rewrite orb_true_iff, IH1, IH2. reflexivity.
  - split; [intros _; constructor | reflexivity].
Qed.

Lemma lang_cat (r1 r2 : regex) (s : jsstring) :
  regex_lang (cat r1 r2) s <-> regex_lang (Cat r1 r2) s.
Proof.
  unfold cat. destruct r1; cbn [is_void orb]; try reflexivity;
    try (destruct r2; cbn [is_void]; try reflexivity; cbn;
         split; [tauto | intros (a & b & _ & _ & [])]).
  cbn. split; [tauto | intros (a & b & _ & [] & _)].
Qed.

Lemma lang_alt (r1 r2 : regex) (s : jsstring) :
  regex_lang (alt r1 r2) s <-> regex_lang (Alt r1 r2) s.
Proof.
  unfold alt. destruct r1; cbn [is_void]; try (cbn; tauto);
    destruct r2; cbn [is_void]; try reflexivity; cbn; tauto.
Qed.

Lemma star_cons (L : jsstring -> Prop) (c : code_unit) (s : jsstring) :
  regex_star L (c :: s) <->
  exists a b, s = a ++ b /\ L (c :: a) /\ regex_star L b.
Proof.
  split.
  - intros H. remember (c :: s) as t eqn:E. revert c s E.
    induction H as [|a b Ha Hb IH]; intros c s E; [discriminate|].
    destruct a as [|x a].
    + apply IH. exact E.
    + injection E as -> <-. exists a, b. auto.
  - intros (a & b & -> & Ha & Hb).
    change (c :: a ++ b) with ((c :: a) ++ b). constructor; assumption.
Qed.

Lemma deriv_lang (r : regex) (c : code_unit) (s : jsstring) :
  regex_lang (deriv c r) s <-> regex_lang r (c :: s).
Proof.
  revert s. induction r as [| |p|r1 IH1 r2 IH2|r1 IH1 r2 IH2|r IH];
    intros s; cbn [deriv].
  - reflexivity.
  - cbn. split; [tauto | discriminate].
  - destruct (p c) eqn:E; cbn.
    + split; [intros ->; exists c; auto | intros (x & [= <- <-] & _); auto].
    + split; [tauto | intros (x & [= <- _] & H); congruence].
  - assert (Hcat : regex_lang (cat (deriv c r1) r2) s <->
                   exists a b, s = a ++ b /\ regex_lang r1 (c :: a)
                               /\ regex_lang r2 b).
    { rewrite lang_cat. cbn. split; intros (a & b & E & H1 & H2);
        exists a, b; (split; [exact E|]); (split; [apply IH1; exact H1 | exact H2]). }
    destruct (nullable r1) eqn:En.
    + rewrite lang_alt. cbn [regex_lang]. rewrite Hcat, IH2. split.
      * intros [(a & b & -> & H1 & H2) | H2].
        -- exists (c :: a), b. auto.
        -- exists [], (c :: s). split; [reflexivity|].
           split; [apply nullable_lang, En | exact H2].
      * intros (a & b & E & H1 & H2). destruct a as [|x a].
        -- right. cbn in E. subst b. exact H2.
        -- injection E as <- ->. left. exists a, b. auto.
    + rewrite Hcat. cbn [regex_lang]. split.
      * intros (a & b & -> & H1 & H2). exists (c :: a), b. auto.
      * intros (a & b & E & H1 & H2). destruct a as [|x a].
        -- apply nullable_lang in H1. congruence.
        -- injection E as <- ->. exists a, b. auto.
  - rewrite lang_alt. cbn [regex_lang]. rewrite IH1, IH2. reflexivity.
  - rewrite lang_cat. cbn [regex_lang]. rewrite star_cons. split;
      intros (a & b & E & H1 & H2); exists a, b;
      (split; [exact E|]); (split; [apply IH; exact H1 | exact H2]).
Qed.

(** The matcher decides the language. *)
Lemma matches_lang (r : regex) (s : jsstring) :
  matches r s = true <-> regex_lang r s.
Proof.
  unfold matches. revert r. induction s as [|c s IH]; intros r.
  - apply nullable_lang.
  - cbn [fold_left]. rewrite IH. apply deriv_lang.
Qed.

Lemma star_class (p : code_unit -> bool) (s : jsstring) :
  regex_star (regex_lang (Class p)) s <-> Forall (fun c => p c = true) s.
Proof.
  split.
  - induction 1 as [|a b (c & -> & Hc) _ IH]; [constructor|].
    constructor; assumption.
  - induction 1 as [|c s Hc _ IH]; [constructor|].
    change (c :: s) with ([c] ++ s). constructor; [exists c; auto | exact IH].
Qed.

Lemma plus_class (p : code_unit -> bool) (s : jsstring) :
  regex_lang (Plus (Class p)) s <-> run_of p s.
Proof.
  unfold Plus, run_of. cbn [regex_lang]. split.
  - intros (a & b & -> & (c & -> & Hc) & Hs). apply star_class in Hs.
    split; [discriminate | constructor; assumption].
  - intros [Hne Hf]. destruct s as [|c s]; [congruence|].
    inversion Hf as [|? ? Hc Hs]; subst.
    exists [c], s. split; [reflexivity|].
    split; [exists c; auto | apply star_class; exact Hs].
Qed.

Lemma chr_lang (a : ascii) (s : jsstring) :
  regex_lang (Chr a) s <-> s = [N_of_ascii a].
Proof.
  unfold Chr. cbn. split.
  - intros (c & -> & E). apply N.eqb_eq in E. subst. reflexivity.
  - intros ->. eexists. split; [reflexivity | apply N.eqb_refl].
Qed.

(** A search for one unit of a class anywhere in the string. *)
Lemma test_class (p : code_unit -> bool) (s : jsstring) :
  test {| body := Class p; anchored := false |} s = true
  <-> Exists (fun c => p c = true) s.
Proof.
  unfold test. cbn [anchored body]. rewrite matches_lang.
  cbn [regex_lang]. split.
  - intros (a & b & -> & _ & m & b' & -> & (c & -> & Hc) & _).
    apply Exists_app. right. constructor. exact Hc.
  - intros H. apply Exists_exists in H as (c & Hin & Hc).
    apply list_elem_of_In, in_split in Hin as (a & b & ->).
    exists a, (c :: b). split; [reflexivity|].
    split; [apply star_class, Forall_forall; reflexivity|].
    exists [c], b. split; [reflexivity|].
    split; [exists c; auto | apply star_class, Forall_forall; reflexivity].
Qed.

End RegexFacts.

(** ** The input checks of LoginUser and RegisterUser in plain terms *)

Lemma email_test (s : jsstring) : test emailRegex s = true <-> email_shape s.
Proof.
  unfold test, emailRegex. cbn [anchored body]. rewrite matches_lang.
  cbn [regex_lang]. fold (Plus (Class not_space_or_at)).
  unfold email_shape. split.
  - intros (l & r1 & -> & Hl & at_ & r2 & -> & Hat & d & r3 & -> & Hd
            & dot & t & -> & Hdot & Ht).
    apply plus_class in Hl, Hd, Ht. apply chr_lang in Hat, Hdot. subst.
    exists l, d, t. auto.
  - intros (l & d & t & -> & Hl & Hd & Ht).
    exists l, (lit "@" ++ d ++ lit "." ++ t). split; [reflexivity|].
    split; [apply plus_class, Hl|].
    exists (lit "@"), (d ++ lit "." ++ t). split; [reflexivity|].
    split; [apply chr_lang; reflexivity|].
    exists d, (lit "." ++ t). split; [reflexivity|].
    split; [apply plus_class, Hd|].
    exists (lit "."), t. split; [reflexivity|].
    split; [apply chr_lang; reflexivity | apply plus_class, Ht].
Qed.

(** The e-mail pattern [/^[^\s@]+@[^\s@]+\.[^\s@]+$/] accepts exactly the
    strings of the form local@domain.tld whose three parts are non-empty
    and free of white space and of [@]. An accepted address therefore has
    no white space at all and is not changed by [trim]. *)
Theorem emailRegex_accepts (s : jsstring) :
  (test emailRegex s = true <-> email_shape s) /\
  (test emailRegex s = true ->
   Forall (fun c => is_white_space c = false) s /\ trim s = s /\ s <> []).
Proof.
  pose proof (email_test s) as Hiff.
  split; [exact Hiff|].
  intros H. apply Hiff in H as (l & d & t & -> & [Hl Fl] & [Hd Fd] & [Ht Ft]).
  assert (Hw : forall p, Forall (fun c => not_space_or_at c = true) p ->
                         Forall (fun c => is_white_space c = false) p).
  { intros p Hp. eapply Forall_impl; [exact Hp|].
    intros c Hc. unfold not_space_or_at in Hc.
    apply negb_true_iff, orb_false_iff in Hc. tauto. }
  assert (Hall : Forall (fun c => is_white_space c = false)
                   (l ++ lit "@" ++ d ++ lit "." ++ t)).
  { repeat (apply Forall_app; split); auto;
      repeat constructor. }
  split; [exact Hall|].
  split; [|destruct l; [congruence | discriminate]].
  clear - Hall. set (s := l ++ lit "@" ++ d ++ lit "." ++ t) in *.
  assert (Hs : forall u, Forall (fun c => is_white_space c = false) u ->
                         trimStart u = u).
  { intros u Hu. destruct Hu as [|c u Hc _]; [reflexivity|].
    cbn [trimStart]. rewrite Hc. reflexivity. }
  unfold trim, trimEnd. rewrite (Hs s Hall).
  rewrite (Hs (rev s)); [apply rev_involutive|].
  apply Forall_rev. exact Hall.
Qed.

Lemma emailRegex_accepts_witness :
  email_shape (lit "test@example.com") /\ trim (lit "test@example.com")
                                          = lit "test@example.com".
Proof.
  split.
  - apply (proj1 (emailRegex_accepts (lit "test@example.com"))).
    vm_compute. reflexivity.
  - apply (proj2 (emailRegex_accepts (lit "test@example.com"))).
    vm_compute. reflexivity.
Defined.

Lemma uppercase_test (password : jsstring) :
  test uppercaseRegex password = true
  <-> Exists (fun c => upper c = true) password.
Proof. apply test_class. Qed.

Lemma special_test (password : jsstring) :
  test specialCharRegex password = true
  <-> Exists (fun c => special_character c = true) password.
Proof. apply (test_class special_character). Qed.

Lemma test_false_iff (re : RegExp) (s : jsstring) (P : Prop) :
  (test re s = true <-> P) -> (test re s = false <-> ~ P).
Proof.
  intros H. destruct (test re s).
  - split; [discriminate | intros Hn; exfalso; apply Hn, H; reflexivity].
  - split; [intros _ HP; apply H in HP; discriminate | reflexivity].
Qed.

(** [LoginUser.execute] checks its input before any repository call, in
    this order: the e-mail must have the form local@domain.tld, the
    password at least 8 units, an upper-case letter A-Z, and one of the
    special characters of the policy. The first check that fails gives
    the error, and the repository is not called. Nothing else is asked of
    the input. *)
Theorem LoginUser_input_validation (repo : IAuthRepository)
    (creds : LoginCredentials.t) (w : World) :
  let email := LoginCredentials.email creds in
  let password := LoginCredentials.password creds in
  (~ email_shape email ->
   LoginUser_execute repo creds w
   = (Normal (login_failure "Invalid email format"), w)) /\
  (email_shape email -> str_length password < 8 ->
   LoginUser_execute repo creds w
   = (Normal (login_failure "Password must be at least 8 characters long"),
      w)) /\
  (email_shape email -> 8 <= str_length password ->
   ~ Exists (fun c => upper c = true) password ->
   LoginUser_execute repo creds w
   = (Normal (login_failure
                "Password must contain at least one uppercase letter"), w)) /\
  (email_shape email -> 8 <= str_length password ->
   Exists (fun c => upper c = true) password ->
   ~ Exists (fun c => special_character c = true) password ->
   LoginUser_execute repo creds w
   = (Normal (login_failure
                "Password must contain at least one special character"), w)) /\
  (login_input_valid creds <-> email_shape email /\ password_ok password).
Proof.
  intros email password.
  unfold LoginUser_execute, try_catch, LoginUser_body.
  fold email. fold password.
  split; [|split; [|split; [|split]]].
  - intros He. apply (test_false_iff _ _ _ (email_test email)) in He.
    rewrite He. reflexivity.
  - intros He Hl. apply email_test in He. apply Z.ltb_lt in Hl.
    rewrite He, Hl. reflexivity.
  - intros He Hl Hu. apply email_test in He. apply Z.ltb_ge in Hl.
    apply (test_false_iff _ _ _ (uppercase_test password)) in Hu.
    rewrite He, Hl, Hu. reflexivity.
  - intros He Hl Hu Hs. apply email_test in He. apply Z.ltb_ge in Hl.
    apply uppercase_test in Hu.
    apply (test_false_iff _ _ _ (special_test password)) in Hs.
    rewrite He, Hl, Hu, Hs. reflexivity.
  - unfold login_input_valid, password_ok. fold email. fold password.
    rewrite email_test, uppercase_test, special_test. tauto.
Qed.

Lemma LoginUser_input_validation_witness :
  LoginUser_execute (mockAuthRepository (Normal tt))
    (credentials "test@example" "Password123!") (sampleWorld 0)
  = (Normal (login_failure "Invalid email format"), sampleWorld 0) /\
  LoginUser_execute (mockAuthRepository (Normal tt))
    (credentials "test@example.com" "Pass1!") (sampleWorld 0)
  = (Normal (login_failure "Password must be at least 8 characters long"),
     sampleWorld 0) /\
  LoginUser_execute (mockAuthRepository (Normal tt))
    (credentials "test@example.com" "password123!") (sampleWorld 0)
  = (Normal (login_failure
               "Password must contain at least one uppercase letter"),
     sampleWorld 0) /\
  LoginUser_execute (mockAuthRepository (Normal tt))
    (credentials "test@example.com" "Password1234") (sampleWorld 0)
  = (Normal (login_failure
               "Password must contain at least one special character"),
     sampleWorld 0) /\
  login_input_valid (credentials "test@example.com" "Password123!").
Proof.
  assert (He : email_shape (lit "test@example.com"))
    by (apply email_test; vm_compute; reflexivity).
  assert (Hn : forall (p : code_unit -> bool) s,
             existsb p s = false -> ~ Exists (fun c => p c = true) s).
  { intros p s E Hx. apply Exists_exists in Hx as (c & Hc & Hp).
    apply list_elem_of_In in Hc.
    assert (existsb p s = true) by (apply existsb_exists; eauto).
    congruence. }
  assert (Hy : forall (p : code_unit -> bool) s,
             existsb p s = true -> Exists (fun c => p c = true) s).
  { intros p s E. apply existsb_exists in E as (c & Hc & Hp).
    apply Exists_exists. exists c. split; [apply list_elem_of_In, Hc | exact Hp]. }
  split; [|split; [|split; [|split]]].
  - apply (LoginUser_input_validation (mockAuthRepository (Normal tt))
             (credentials "test@example" "Password123!") (sampleWorld 0)).
    intros H. apply email_test in H. vm_compute in H. discriminate.
  - apply (LoginUser_input_validation (mockAuthRepository (Normal tt))
             (credentials "test@example.com" "Pass1!") (sampleWorld 0));
      [exact He | vm_compute; reflexivity].
  - apply (LoginUser_input_validation (mockAuthRepository (Normal tt))
             (credentials "test@example.com" "password123!") (sampleWorld 0));
      [exact He | vm_compute; discriminate | apply Hn; vm_compute; reflexivity].
  - apply (LoginUser_input_validation (mockAuthRepository (Normal tt))
             (credentials "test@example.com" "Password1234") (sampleWorld 0));
      [exact He | vm_compute; discriminate | apply Hy; vm_compute; reflexivity
      | apply Hn; vm_compute; reflexivity].
  - apply (LoginUser_input_validation (mockAuthRepository (Normal tt))
             (credentials "test@example.com" "Password123!") (sampleWorld 0)).
    split; [exact He|]. split; [vm_compute; discriminate|].
    split; apply Hy; vm_compute; reflexivity.
Defined.

(** [RegisterUser.execute] makes the same four checks as the login, in
    the same order, and then asks for a first name and a last name that
    are not blank. The first check that fails gives the error, and the
    repository is not called. Nothing else is asked of the input. *)
Theorem RegisterUser_input_validation (repo : IAuthRepository)
    (data : RegisterData.t) (w : World) :
  let email := RegisterData.email data in
  let password := RegisterData.password data in
  let fails (e : string) :=
    RegisterUser_execute repo data w
    = (Normal (register_failure (lit e)), w) in
  (~ email_shape email -> fails "Invalid email format"%string) /\
  (email_shape email -> str_length password < 8 ->
   fails "Password must be at least 8 characters long"%string) /\
  (email_shape email -> 8 <= str_length password ->
   ~ Exists (fun c => upper c = true) password ->
   fails "Password must contain at least one uppercase letter"%string) /\
  (email_shape email -> 8 <= str_length password ->
   Exists (fun c => upper c = true) password ->
   ~ Exists (fun c => special_character c = true) password ->
   fails "Password must contain at least one special character"%string) /\
  (email_shape email -> password_ok password ->
   nonempty (trim (RegisterData.firstName data)) = false ->
   fails "First name is required"%string) /\
  (email_shape email -> password_ok password ->
   nonempty (trim (RegisterData.firstName data)) = true ->
   nonempty (trim (RegisterData.lastName data)) = false ->
   fails "Last name is required"%string) /\
  (register_input_valid data <->
   email_shape email /\ password_ok password /\
   nonempty (trim (RegisterData.firstName data)) = true /\
   nonempty (trim (RegisterData.lastName data)) = true).
Proof.
  intros email password fails. unfold fails.
  unfold RegisterUser_execute, try_catch, RegisterUser_body.
  fold email. fold password.
  split; [|split; [|split; [|split; [|split; [|split]]]]].
  - intros He. apply (test_false_iff _ _ _ (email_test email)) in He.
    rewrite He. reflexivity.
  - intros He Hl. apply email_test in He. apply Z.ltb_lt in Hl.
    rewrite He, Hl. reflexivity.
  - intros He Hl Hu. apply email_test in He. apply Z.ltb_ge in Hl.
    apply (test_false_iff _ _ _ (uppercase_test password)) in Hu.
    rewrite He, Hl, Hu. reflexivity.
  - intros He Hl Hu Hs. apply email_test in He. apply Z.ltb_ge in Hl.
    apply uppercase_test in Hu.
    apply (test_false_iff _ _ _ (special_test password)) in Hs.
    rewrite He, Hl, Hu, Hs. reflexivity.
  - intros He (Hl & Hu & Hs) Hf. apply email_test in He.
    apply Z.ltb_ge in Hl. apply uppercase_test in Hu.
    apply special_test in Hs. rewrite He, Hl, Hu, Hs, Hf. reflexivity.
  - intros He (Hl & Hu & Hs) Hf Hn. apply email_test in He.
    apply Z.ltb_ge in Hl. apply uppercase_test in Hu.
    apply special_test in Hs. rewrite He, Hl, Hu, Hs, Hf, Hn. reflexivity.
  - unfold register_input_valid, password_ok. fold email. fold password.
    rewrite email_test, uppercase_test, special_test. tauto.
Qed.

Lemma RegisterUser_input_validation_witness :
  RegisterUser_execute (mockAuthRepository (Normal tt))
    {| RegisterData.email := lit "new@example.com";
       RegisterData.password := lit "Password123!";
       RegisterData.firstName := lit "John";
       RegisterData.lastName := lit "  " |} (sampleWorld 0)
  = (Normal (register_failure (lit "Last name is required")), sampleWorld 0)
  /\ register_input_valid (registration "new@example.com").
Proof.
  assert (He : email_shape (lit "new@example.com"))
    by (apply email_test; vm_compute; reflexivity).
  assert (Hy : forall (p : code_unit -> bool) s,
             existsb p s = true -> Exists (fun c => p c = true) s).
  { intros p s E. apply existsb_exists in E as (c & Hc & Hp).
    apply Exists_exists. exists c.
    split; [apply list_elem_of_In, Hc | exact Hp]. }
  assert (Hp : password_ok (lit "Password123!")).
  { split; [vm_compute; discriminate|].
    split; apply Hy; vm_compute; reflexivity. }
  split.
  - apply (RegisterUser_input_validation (mockAuthRepository (Normal tt))
             {| RegisterData.email := lit "new@example.com";
                RegisterData.password := lit "Password123!";
                RegisterData.firstName := lit "John";
                RegisterData.lastName := lit "  " |} (sampleWorld 0));
      [exact He | exact Hp | reflexivity | reflexivity].
  - apply (RegisterUser_input_validation (mockAuthRepository (Normal tt))
             (registration "new@example.com") (sampleWorld 0)).
    split; [exact He|]. split; [exact Hp|]. split; reflexivity.
Defined.

(** ** LoginUser and RegisterUser: the calls made *)

(** With an input that passes the checks, [LoginUser.execute] calls
    [login] with the credentials as given, and then [storeTokens] with the
    tokens that [login] returned, only if [login] answered. It reports
    success exactly when both calls answered, with the user and tokens
    from [login]; a failure of [storeTokens] makes the login fail although
    the repository accepted the credentials. [RegisterUser.execute] does
    the same with [register]. *)
Theorem auth_calls (repo : IAuthRepository) (w : World) :
  (forall creds,
     login_input_valid creds ->
     (forall e,
        login repo creds = Throw e ->
        LoginUser_execute repo creds w
        = (Normal (LoginUser_catch e), logged (Call_login creds) w)) /\
     (forall result,
        login repo creds = Normal result ->
        let w2 := logged (Call_storeTokens (AuthResult.tokens result))
                    (logged (Call_login creds) w) in
        (forall e,
           storeTokens repo (AuthResult.tokens result) = Throw e ->
           LoginUser_execute repo creds w = (Normal (LoginUser_catch e), w2)) /\
        (storeTokens repo (AuthResult.tokens result) = Normal tt ->
         LoginUser_execute repo creds w
         = (Normal {| LoginResult.isSuccess := true;
                      LoginResult.user := Some (AuthResult.user result);
                      LoginResult.tokens := Some (AuthResult.tokens result);
                      LoginResult.error := None |}, w2))) /\
     (forall res w',
        LoginUser_execute repo creds w = (Normal res, w') ->
        LoginResult.isSuccess res = true ->
        exists result,
          login repo creds = Normal result /\
          storeTokens repo (AuthResult.tokens result) = Normal tt /\
          calls w' = calls w ++ [Call_login creds;
                                 Call_storeTokens (AuthResult.tokens result)])) /\
  (forall data,
     register_input_valid data ->
     (forall e,
        register repo data = Throw e ->
        RegisterUser_execute repo data w
        = (Normal (RegisterUser_catch e), logged (Call_register data) w)) /\
     (forall result,
        register repo data = Normal result ->
        let w2 := logged (Call_storeTokens (AuthResult.tokens result))
                    (logged (Call_register data) w) in
        (forall e,
           storeTokens repo (AuthResult.tokens result) = Throw e ->
           RegisterUser_execute repo data w
           = (Normal (RegisterUser_catch e), w2)) /\
        (storeTokens repo (AuthResult.tokens result) = Normal tt ->
         RegisterUser_execute repo data w
         = (Normal {| RegisterResult.isSuccess := true;
                      RegisterResult.user := Some (AuthResult.user result);
                      RegisterResult.tokens := Some (AuthResult.tokens result);
                      RegisterResult.error := None |}, w2))) /\
     (forall res w',
        RegisterUser_execute repo data w = (Normal res, w') ->
        RegisterResult.isSuccess res = true ->
        exists result,
          register repo data = Normal result /\
          storeTokens repo (AuthResult.tokens result) = Normal tt /\
          calls w' = calls w ++ [Call_register data;
                                 Call_storeTokens (AuthResult.tokens result)])).
Proof.
  assert (Hcatch : forall e, LoginResult.isSuccess (LoginUser_catch e) = false).
  { intros [m| |v]; cbn; [destruct (str_eqb _ _)| |]; reflexivity. }
  assert (Hcatch' : forall e,
            RegisterResult.isSuccess (RegisterUser_catch e) = false).
  { intros [m| |v]; cbn; [destruct (str_eqb _ _)| |]; reflexivity. }
  split.
  - intros creds Hv. unfold LoginUser_execute, try_catch.
    rewrite (LoginUser_body_valid repo creds w Hv).
    split; [intros e ->; reflexivity|]. split.
    + intros result ->. cbv zeta. split.
      * intros e ->. reflexivity.
      * intros Hs. rewrite Hs. reflexivity.
    + intros res w'. destruct (login repo creds) as [result|e].
      * cbv zeta.
        destruct (storeTokens repo (AuthResult.tokens result)) as [[]|e]
          eqn:Es.
        -- intros [= <- <-] _. exists result.
           split; [reflexivity|]. split; [exact Es|].
           unfold logged. cbn [calls]. rewrite <- app_assoc. reflexivity.
        -- intros [= <- <-] Hs. rewrite Hcatch in Hs. discriminate.
      * intros [= <- <-] Hs. rewrite Hcatch in Hs. discriminate.
  - intros data Hv. unfold RegisterUser_execute, try_catch.
    rewrite (RegisterUser_body_valid repo data w Hv).
    split; [intros e ->; reflexivity|]. split.
    + intros result ->. cbv zeta. split.
      * intros e ->. reflexivity.
      * intros Hs. rewrite Hs. reflexivity.
    + intros res w'. destruct (register repo data) as [result|e].
      * cbv zeta.
        destruct (storeTokens repo (AuthResult.tokens result)) as [[]|e]
          eqn:Es.
        -- intros [= <- <-] _. exists result.
           split; [reflexivity|]. split; [exact Es|].
           unfold logged. cbn [calls]. rewrite <- app_assoc. reflexivity.
        -- intros [= <- <-] Hs. rewrite Hcatch' in Hs. discriminate.
      * intros [= <- <-] Hs. rewrite Hcatch' in Hs. discriminate.
Qed.

Lemma auth_calls_witness :
  LoginUser_execute (mockAuthRepository (Normal tt))
    (credentials "test@example.com" "Password123!") (sampleWorld 0)
  = (Normal {| LoginResult.isSuccess := true;
               LoginResult.user := Some mockUser;
               LoginResult.tokens := Some (AuthResult.tokens mockAuthResult);
               LoginResult.error := None |},
     logged (Call_storeTokens (AuthResult.tokens mockAuthResult))
       (logged (Call_login (credentials "test@example.com" "Password123!"))
          (sampleWorld 0))) /\
  RegisterUser_execute (mockAuthRepository (Normal tt))
    (registration "test@example.com") (sampleWorld 0)
  = (Normal (register_failure (lit "User already exists")),
     logged (Call_register (registration "test@example.com")) (sampleWorld 0)).
Proof.
  destruct (auth_calls (mockAuthRepository (Normal tt)) (sampleWorld 0))
    as (HL & HR).
  split.
  - destruct (HL (credentials "test@example.com" "Password123!"))
      as (_ & H & _).
    { repeat split; vm_compute; congruence. }
    apply (H mockAuthResult); reflexivity.
  - destruct (HR (registration "test@example.com")) as (H & _).
    { repeat split; vm_compute; congruence. }
    apply (H (JsError (lit "User already exists"))). reflexivity.
Defined.

(** ** The forms and the use cases *)

Lemma email_accepted_not_blank (s : jsstring) :
  test emailRegex s = true -> nonempty (trim s) = true.
Proof.
  intros H. apply email_test in H as (l & d & t & -> & [Hl Fl] & _).
  destruct l as [|c l]; [congruence|].
  inversion Fl as [|? ? Hc _]; subst.
  cbn [app]. apply trim_cons_nonempty.
  unfold not_space_or_at in Hc. apply negb_true_iff, orb_false_iff in Hc.
  tauto.
Qed.

Lemma long_not_empty (s : jsstring) : 8 <= str_length s -> nonempty s = true.
Proof.
  destruct s; [unfold str_length; cbn [List.length]; lia | reflexivity].
Qed.

(** The forms check what the use cases check: [validateForm] of LoginForm
    accepts the form data exactly when the input checks of
    [LoginUser.execute] pass on what LoginScreen hands over, and
    [validateForm] of RegisterForm exactly when those of
    [RegisterUser.execute] pass. So a form that is submitted is never
    turned down by the use case for its input, and a form that is held
    back would have been turned down. *)
Theorem forms_agree_with_use_cases :
  (forall formData,
     LoginForm_validateForm formData = true
     <-> login_input_valid (LoginScreen_credentials formData)) /\
  (forall formData,
     RegisterForm_validateForm formData = true
     <-> register_input_valid (RegisterScreen_data formData)).
Proof.
  split.
  - intros [email password].
    unfold LoginForm_validateForm, FieldErrors_none, LoginForm_errors,
      login_input_valid, LoginScreen_credentials.
    cbn [LoginFormData.email LoginFormData.password FieldErrors.email
         FieldErrors.password FieldErrors.firstName FieldErrors.lastName
         LoginCredentials.email LoginCredentials.password present negb].
    rewrite !andb_true_r.
    destruct (test emailRegex email) eqn:He.
    + rewrite (email_accepted_not_blank email He). cbn [negb present andb].
      destruct (str_length password <? 8) eqn:Hl.
      * apply Z.ltb_lt in Hl. destruct (nonempty password); cbn;
          (split; [discriminate | intros (_ & ? & _); lia]).
      * apply Z.ltb_ge in Hl. rewrite (long_not_empty password Hl).
        cbn [negb].
        destruct (test uppercaseRegex password);
          destruct (test specialCharRegex password); cbn;
          (split; [try discriminate; auto | intros (_ & _ & ? & ?); congruence]).
    + destruct (nonempty (trim email)); cbn;
        (split; [discriminate | intros (? & _); discriminate]).
  - intros [email password firstName lastName].
    unfold RegisterForm_validateForm, FieldErrors_none, RegisterForm_errors,
      register_input_valid, RegisterScreen_data.
    cbn [RegisterFormData.email RegisterFormData.password
         RegisterFormData.firstName RegisterFormData.lastName
         FieldErrors.email FieldErrors.password FieldErrors.firstName
         FieldErrors.lastName RegisterData.email RegisterData.password
         RegisterData.firstName RegisterData.lastName].
    destruct (test emailRegex email) eqn:He.
    + rewrite (email_accepted_not_blank email He). cbn [negb present andb].
      destruct (str_length password <? 8) eqn:Hl.
      * apply Z.ltb_lt in Hl. destruct (nonempty password); cbn;
          (split; [discriminate | intros (_ & ? & _); lia]).
      * apply Z.ltb_ge in Hl. rewrite (long_not_empty password Hl).
        cbn [negb].
        destruct (test uppercaseRegex password);
          destruct (test specialCharRegex password);
          destruct (nonempty (trim firstName));
          destruct (nonempty (trim lastName)); cbn;
          (split; [try discriminate; intros _; repeat split;
                   solve [assumption | reflexivity]
                  | intros (_ & _ & ? & ? & ? & ?); congruence]).
    + destruct (nonempty (trim email)); cbn;
        (split; [discriminate | intros (? & _); discriminate]).
Qed.

Lemma forms_agree_with_use_cases_witness :
  login_input_valid (credentials "test@example.com" "Password123!") /\
  RegisterForm_validateForm
    {| RegisterFormData.email := lit "new@example.com";
       RegisterFormData.password := lit "Password123!";
       RegisterFormData.firstName := lit "John";
       RegisterFormData.lastName := lit "Doe" |} = true.
Proof.
  split.
  - apply (proj1 forms_agree_with_use_cases
             {| LoginFormData.email := lit "test@example.com";
                LoginFormData.password := lit "Password123!" |}).
    vm_compute. reflexivity.
  - apply (proj2 forms_agree_with_use_cases
             {| RegisterFormData.email := lit "new@example.com";
                RegisterFormData.password := lit "Password123!";
                RegisterFormData.firstName := lit "John";
                RegisterFormData.lastName := lit "Doe" |}).
    repeat split; vm_compute; congruence.
Defined.

(** ** The formats of a birth info *)

Lemma digit_iff (c : code_unit) :
  digit c = true <-> exists z, 0 <= z <= 9 /\ c = digit_of z.
Proof.
  unfold digit, digit_of. rewrite andb_true_iff, !N.leb_le. split.
  - intros [H1 H2]. exists (Z.of_N c - 48). split; [lia|].
    replace (48 + (Z.of_N c - 48)) with (Z.of_N c) by lia.
    symmetry. apply N2Z.id.
  - intros (z & Hz & ->). split; lia.
Qed.

Lemma range_iff (a b : ascii) (c : code_unit) :
  range a b c = true
  <-> exists z, Z.of_N (N_of_ascii a) - 48 <= z <= Z.of_N (N_of_ascii b) - 48
                /\ c = Z.to_N (48 + z).
Proof.
  unfold range. rewrite andb_true_iff, !N.leb_le. split.
  - intros [H1 H2]. exists (Z.of_N c - 48). split; [lia|].
    replace (48 + (Z.of_N c - 48)) with (Z.of_N c) by lia.
    symmetry. apply N2Z.id.
  - intros (z & Hz & ->).
    assert (0 <= Z.of_N (N_of_ascii a)) by lia. split; lia.
Qed.

Lemma class_lang (p : code_unit -> bool) (s : jsstring) :
  regex_lang (Class p) s <-> exists c, s = [c] /\ p c = true.
Proof. reflexivity. Qed.

Lemma two_digits_of (a b : Z) :
  0 <= a -> 0 <= b <= 9 -> two_digits (10 * a + b) = [digit_of a; digit_of b].
Proof.
  intros Ha Hb. unfold two_digits.
  replace ((10 * a + b) / 10) with a by (apply (Z.div_unique (10 * a + b) 10 a b); [left; lia | lia]).
  replace ((10 * a + b) mod 10) with b by (apply (Z.mod_unique (10 * a + b) 10 a b); [left; lia | lia]).
  reflexivity.
Qed.

Lemma time_test (s : jsstring) : test timeRegex s = true <-> time_shape s.
Proof.
  unfold test, timeRegex. cbn [anchored body]. rewrite matches_lang.
  cbn [regex_lang]. unfold time_shape. split.
  - intros (hh & r1 & -> & Hh & colon & r2 & -> & Hc & m1 & m2 & ->
            & (c3 & -> & H3) & (c4 & -> & H4)).
    apply chr_lang in Hc. subst colon.
    apply range_iff in H3 as (z3 & Hz3 & ->).
    apply digit_iff in H4 as (z4 & Hz4 & ->).
    change (Z.of_N (N_of_ascii "0") - 48) with 0 in Hz3.
    change (Z.of_N (N_of_ascii "5") - 48) with 5 in Hz3.
    destruct Hh as [(a & b & -> & (c1 & -> & H1) & (c2 & -> & H2))
                   | (a & b & -> & Ha & (c2 & -> & H2))].
    + apply digit_iff in H2 as (z2 & Hz2 & ->).
      assert (Hz1 : exists z1, 0 <= z1 <= 1 /\ c1 = digit_of z1).
      { unfold one_of in H1. change (lit "01") with [48%N; 49%N] in H1.
        cbn [existsb] in H1. rewrite orb_false_r in H1.
        apply orb_true_iff in H1 as [E | E]; apply N.eqb_eq in E; subst.
        - exists 0. split; [lia | reflexivity].
        - exists 1. split; [lia | reflexivity]. }
      destruct Hz1 as (z1 & Hz1 & ->).
      exists (10 * z1 + z2), (10 * z3 + z4).
      split; [lia|]. split; [lia|].
      rewrite !two_digits_of by lia. reflexivity.
    + apply chr_lang in Ha. subst a.
      apply range_iff in H2 as (z2 & Hz2 & ->).
      change (Z.of_N (N_of_ascii "0") - 48) with 0 in Hz2.
      change (Z.of_N (N_of_ascii "3") - 48) with 3 in Hz2.
      exists (10 * 2 + z2), (10 * z3 + z4).
      split; [lia|]. split; [lia|].
      rewrite !two_digits_of by lia. reflexivity.
  - intros (h & m & Hh & Hm & ->).
    assert (Hd : forall z, 0 <= z <= 9 -> digit (digit_of z) = true)
      by (intros z Hz; apply digit_iff; eauto).
    exists (two_digits h), (lit ":" ++ two_digits m).
    split; [reflexivity|]. split.
    + unfold two_digits.
      assert (Hq : 0 <= h / 10 <= 2) by (Z.div_mod_to_equations; lia).
      assert (Hr : 0 <= h mod 10 <= 9) by (Z.div_mod_to_equations; lia).
      destruct (Z.eq_dec (h / 10) 2) as [E | E].
      * right. exists [digit_of (h / 10)], [digit_of (h mod 10)].
        split; [reflexivity|]. split.
        -- apply chr_lang. rewrite E. reflexivity.
        -- apply class_lang. eexists. split; [reflexivity|].
           apply range_iff. exists (h mod 10). split; [|reflexivity].
           change (Z.of_N (N_of_ascii "0") - 48) with 0.
           change (Z.of_N (N_of_ascii "3") - 48) with 3.
           Z.div_mod_to_equations; lia.
      * left. exists [digit_of (h / 10)], [digit_of (h mod 10)].
        split; [reflexivity|]. split.
        -- apply class_lang. eexists. split; [reflexivity|].
           assert (Hc : h / 10 = 0 \/ h / 10 = 1) by lia.
           destruct Hc as [-> | ->]; reflexivity.
        -- apply class_lang. eexists. split; [reflexivity | apply Hd, Hr].
    + exists (lit ":"), (two_digits m). split; [reflexivity|].
      split; [apply chr_lang; reflexivity|].
      unfold two_digits.
      assert (Hq : 0 <= m / 10 <= 5) by (Z.div_mod_to_equations; lia).
      assert (Hr : 0 <= m mod 10 <= 9) by (Z.div_mod_to_equations; lia).
      exists [digit_of (m / 10)], [digit_of (m mod 10)].
      split; [reflexivity|]. split.
      * apply class_lang. eexists. split; [reflexivity|].
        apply range_iff. exists (m / 10). split; [|reflexivity].
        change (Z.of_N (N_of_ascii "0") - 48) with 0.
        change (Z.of_N (N_of_ascii "5") - 48) with 5. exact Hq.
      * apply class_lang. eexists. split; [reflexivity | apply Hd, Hr].
Qed.

Lemma two_digits_lang (s : jsstring) :
  regex_lang (Times 2 (Class digit)) s
  <-> exists z, 0 <= z < 100 /\ s = two_digits z.
Proof.
  cbn [Times regex_lang]. split.
  - intros (a & r1 & -> & (c1 & -> & H1) & b & r2 & -> & (c2 & -> & H2) & ->).
    apply digit_iff in H1 as (z1 & Hz1 & ->).
    apply digit_iff in H2 as (z2 & Hz2 & ->).
    exists (10 * z1 + z2). split; [lia|].
    rewrite two_digits_of by lia. reflexivity.
  - intros (z & Hz & ->). unfold two_digits.
    exists [digit_of (z / 10)], [digit_of (z mod 10)].
    split; [reflexivity|].
    split; [eexists; split; [reflexivity|]; apply digit_iff;
            exists (z / 10); split; [Z.div_mod_to_equations; lia | reflexivity]|].
    exists [digit_of (z mod 10)], []. split; [reflexivity|].
    split; [|reflexivity].
    eexists; split; [reflexivity|]. apply digit_iff.
    exists (z mod 10). split; [Z.div_mod_to_equations; lia | reflexivity].
Qed.

Lemma four_digits_lang (s : jsstring) :
  regex_lang (Times 4 (Class digit)) s
  <-> exists z, 0 <= z < 10000 /\ s = four_digits z.
Proof.
  cbn [Times regex_lang]. split.
  - intros (a1 & r1 & -> & (c1 & -> & H1) & a2 & r2 & -> & (c2 & -> & H2)
            & a3 & r3 & -> & (c3 & -> & H3) & a4 & r4 & -> & (c4 & -> & H4)
            & ->).
    apply digit_iff in H1 as (z1 & Hz1 & ->).
    apply digit_iff in H2 as (z2 & Hz2 & ->).
    apply digit_iff in H3 as (z3 & Hz3 & ->).
    apply digit_iff in H4 as (z4 & Hz4 & ->).
    exists (1000 * z1 + 100 * z2 + 10 * z3 + z4). split; [lia|].
    unfold four_digits. cbn [app].
    repeat f_equal; Z.div_mod_to_equations; lia.
  - intros (z & Hz & ->). unfold four_digits.
    assert (Hd : forall x, 0 <= x <= 9 ->
                 regex_lang (Class digit) [digit_of x]).
    { intros x Hx. eexists. split; [reflexivity|]. apply digit_iff. eauto. }
    exists [digit_of (z / 1000)], [digit_of (z / 100 mod 10);
              digit_of (z / 10 mod 10); digit_of (z mod 10)].
    split; [reflexivity|].
    split; [apply Hd; Z.div_mod_to_equations; lia|].
    exists [digit_of (z / 100 mod 10)],
           [digit_of (z / 10 mod 10); digit_of (z mod 10)].
    split; [reflexivity|].
    split; [apply Hd; Z.div_mod_to_equations; lia|].
    exists [digit_of (z / 10 mod 10)], [digit_of (z mod 10)].
    split; [reflexivity|].
    split; [apply Hd; Z.div_mod_to_equations; lia|].
    exists [digit_of (z mod 10)], []. split; [reflexivity|].
    split; [apply Hd; Z.div_mod_to_equations; lia | reflexivity].
Qed.

Lemma date_test (s : jsstring) : test dateRegex s = true <-> date_shape s.
Proof.
  unfold test, dateRegex. cbn [anchored body]. rewrite matches_lang.
  cbn -[Times]. unfold date_shape. split.
  - intros (y & r1 & -> & Hy & h1 & r2 & -> & Hh1 & m & r3 & -> & Hm
            & h2 & d & -> & Hh2 & Hd).
    apply four_digits_lang in Hy as (zy & Hzy & ->).
    apply two_digits_lang in Hm as (zm & Hzm & ->).
    apply two_digits_lang in Hd as (zd & Hzd & ->).
    apply (chr_lang "-") in Hh1, Hh2. subst.
    exists zy, zm, zd. auto.
  - intros (y & m & d & Hy & Hm & Hd & ->).
    exists (four_digits y), (lit "-" ++ two_digits m ++ lit "-" ++ two_digits d).
    split; [reflexivity|]. split; [apply four_digits_lang; eauto|].
    exists (lit "-"), (two_digits m ++ lit "-" ++ two_digits d).
    split; [reflexivity|]. split; [apply (chr_lang "-"); reflexivity|].
    exists (two_digits m), (lit "-" ++ two_digits d).
    split; [reflexivity|]. split; [apply two_digits_lang; eauto|].
    exists (lit "-"), (two_digits d).
    split; [reflexivity|]. split; [apply (chr_lang "-"); reflexivity|].
    apply two_digits_lang; eauto.
Qed.

Lemma timezone_test (s : jsstring) :
  test timezoneRegex s = true <-> run_of timezone_unit s.
Proof.
  unfold test, timezoneRegex. cbn [anchored body]. rewrite matches_lang.
  apply (plus_class timezone_unit).
Qed.

(** What the three patterns of a birth info accept: a time is HH:MM with
    two digits each, from 00:00 to 23:59 (so 9:30 and 24:00 are turned
    down); a date is four digits, two digits and two digits with hyphens,
    whatever the month and day say; a time zone is a non-empty run of
    letters A-Z and a-z, digits and the signs [_ + - /]. *)
Theorem birth_formats (s : jsstring) :
  (test timeRegex s = true <-> time_shape s) /\
  (test dateRegex s = true <-> date_shape s) /\
  (test timezoneRegex s = true <-> run_of timezone_unit s) /\
  (time_shape s -> str_length s = 5) /\
  (date_shape s -> str_length s = 10).
Proof.
  split; [apply time_test|]. split; [apply date_test|].
  split; [apply timezone_test|]. split.
  - intros (h & m & _ & _ & ->). reflexivity.
  - intros (y & m & d & _ & _ & _ & ->). reflexivity.
Qed.

Lemma birth_formats_witness :
  time_shape (lit "14:30") /\ ~ time_shape (lit "24:00")
  /\ ~ time_shape (lit "9:30") /\ date_shape (lit "1990-13-45")
  /\ run_of timezone_unit (lit "America/New_York").
Proof.
  split; [|split; [|split; [|split]]].
  - apply (proj1 (proj1 (birth_formats (lit "14:30")))).
    vm_compute. reflexivity.
  - intros H. apply (proj2 (proj1 (birth_formats (lit "24:00")))) in H.
    vm_compute in H. discriminate.
  - intros H. apply (proj1 (proj2 (proj2 (proj2 (birth_formats (lit "9:30"))))))
      in H. vm_compute in H. discriminate.
  - apply (proj1 (proj1 (proj2 (birth_formats (lit "1990-13-45"))))).
    vm_compute. reflexivity.
  - apply (proj1 (proj1 (proj2 (proj2 (birth_formats
             (lit "America/New_York")))))).
    vm_compute. reflexivity.
Defined.

Lemma digit_of_not_space (z : Z) :
  0 <= z <= 9 -> is_white_space (digit_of z) = false.
Proof.
  intros Hz.
  assert (H : z = 0 \/ z = 1 \/ z = 2 \/ z = 3 \/ z = 4 \/ z = 5 \/ z = 6
              \/ z = 7 \/ z = 8 \/ z = 9) by lia.
  repeat (destruct H as [-> | H]; [reflexivity|]). subst. reflexivity.
Qed.

Lemma date_shape_not_blank (s : jsstring) :
  date_shape s -> blank (Some s) = false.
Proof.
  intros (y & m & d & Hy & _ & _ & ->). unfold four_digits. cbn [app blank].
  rewrite trim_cons_nonempty; [reflexivity|].
  apply digit_of_not_space. Z.div_mod_to_equations; lia.
Qed.

Lemma time_shape_not_blank (s : jsstring) :
  time_shape s -> blank (Some s) = false.
Proof.
  intros (h & m & Hh & _ & ->). unfold two_digits. cbn [app blank].
  rewrite trim_cons_nonempty; [reflexivity|].
  apply digit_of_not_space. Z.div_mod_to_equations; lia.
Qed.

Section BirthInfo.
Context `{JsRuntime}.

(** [validateBirthInfo] never throws and calls no repository; it reads
    the clock only after the date has been read as a valid one. It
    accepts a birth info exactly when the info is acceptable in the sense
    above, and every error it gives begins with the prefix it was given
    ('Your', "Partner's"). The limits on the place are on its length
    before trimming. *)
Theorem birthInfo_rules (birthInfo : BirthInfo.t) (prefix : jsstring)
    (w : World) :
  exists r w',
    RequestAstrologyReading_validateBirthInfo birthInfo prefix w
    = (Normal r, w') /\
    calls w' = calls w /\
    (w' = w \/ w' = advance 1 0 w) /\
    (r = None <-> birthInfo_acceptable birthInfo (clock w (clock_reads w))) /\
    (forall e, r = Some e -> exists rest, e = prefix ++ rest).
Proof.
  unfold RequestAstrologyReading_validateBirthInfo, birthInfo_acceptable.
  set (now := clock w (clock_reads w)).
  (* the shape of every failing branch *)
  assert (Fail : forall (msg : string) (w1 : World) (P : Prop),
             calls w1 = calls w -> (w1 = w \/ w1 = advance 1 0 w) -> ~ P ->
             exists r w',
               (Normal (Some (prefix ++ lit msg)), w1) = (Normal r, w') /\
               calls w' = calls w /\ (w' = w \/ w' = advance 1 0 w) /\
               (r = None <-> P) /\
               (forall e, r = Some e -> exists rest, e = prefix ++ rest)).
  { intros msg w1 P Hc Hw HP. eexists _, _. split; [reflexivity|].
    split; [exact Hc|]. split; [exact Hw|].
    split; [split; [discriminate | intros HP'; exfalso; exact (HP HP')]|].
    intros e [= <-]. eexists; reflexivity. }
  destruct (blank (BirthInfo.dateOfBirth birthInfo)) eqn:Bd.
  { apply Fail; [reflexivity | left; reflexivity|].
    intros (date & time & place & t & Ed & _ & _ & Hs & _).
    rewrite Ed, (date_shape_not_blank _ Hs) in Bd. discriminate. }
  destruct (BirthInfo.dateOfBirth birthInfo) as [date|] eqn:Ed;
    [|discriminate Bd].
  cbn [default from_option id]. unfold id.
  destruct (test dateRegex date) eqn:Td; cbn [negb].
  2:{ apply Fail; [reflexivity | left; reflexivity|].
      intros (date' & time & place & t & [= <-] & _ & _ & Hs & _).
      apply date_test in Hs. congruence. }
  apply date_test in Td.
  cbn [new_Date].
  destruct (Date_parse date) as [t|] eqn:Pd; cbn [Date_isNaN].
  2:{ apply Fail; [reflexivity | left; reflexivity|].
      intros (date' & time & place & t & [= <-] & _ & _ & _ & Hp & _).
      congruence. }
  unfold mbind, M_bind, bind, new_Date_now, Date_now.
  fold now. set (w1 := {| clock := clock w; clock_reads := S (clock_reads w);
                          random := random w; random_reads := random_reads w;
                          calls := calls w |}).
  assert (Hw1 : w1 = advance 1 0 w) by reflexivity.
  assert (Hc1 : calls w1 = calls w) by reflexivity.
  change (Date_lt (TimeValue now) (TimeValue t)) with (now <? t).
  destruct (now <? t) eqn:Lt.
  { apply Fail; [exact Hc1 | right; exact Hw1|].
    intros (date' & time & place & t' & [= <-] & _ & _ & _ & Hp & Hle & _).
    rewrite Pd in Hp. injection Hp as <-. apply Z.ltb_lt in Lt. lia. }
  apply Z.ltb_ge in Lt.
  destruct (Date_lt (TimeValue t) (Date_parse (lit "1900-01-01"))) eqn:Lm.
  { apply Fail; [exact Hc1 | right; exact Hw1|].
    intros (date' & time & place & t' & [= <-] & _ & _ & _ & Hp & _
            & Hm & _).
    rewrite Pd in Hp. injection Hp as <-. congruence. }
  destruct (blank (BirthInfo.timeOfBirth birthInfo)) eqn:Bt.
  { apply Fail; [exact Hc1 | right; exact Hw1|].
    intros (date' & time & place & t' & _ & Et & _ & _ & _ & _ & _ & Hs & _).
    rewrite Et, (time_shape_not_blank _ Hs) in Bt. discriminate. }
  destruct (BirthInfo.timeOfBirth birthInfo) as [time|] eqn:Et;
    [|discriminate Bt].
  cbn [default from_option id]. unfold id.
  destruct (test timeRegex time) eqn:Tt; cbn [negb].
  2:{ apply Fail; [exact Hc1 | right; exact Hw1|].
      intros (date' & time' & place & t' & _ & [= <-] & _ & _ & _ & _ & _
              & Hs & _).
      apply time_test in Hs. congruence. }
  apply time_test in Tt.
  destruct (blank (BirthInfo.placeOfBirth birthInfo)) eqn:Bp.
  { apply Fail; [exact Hc1 | right; exact Hw1|].
    intros (date' & time' & place & t' & _ & _ & Ep & _ & _ & _ & _ & _
            & Hn & _).
    rewrite Ep in Bp. cbn [blank] in Bp. rewrite Hn in Bp. discriminate. }
  destruct (BirthInfo.placeOfBirth birthInfo) as [place|] eqn:Ep;
    [|discriminate Bp].
  cbn [default from_option id]. unfold id.
  cbn [blank] in Bp. apply negb_false_iff in Bp.
  destruct (str_length place <? 2) eqn:L2.
  { apply Fail; [exact Hc1 | right; exact Hw1|].
    intros (date' & time' & place' & t' & _ & _ & [= <-] & _ & _ & _ & _ & _
            & _ & Hl & _).
    apply Z.ltb_lt in L2. lia. }
  apply Z.ltb_ge in L2.
  destruct (100 <? str_length place) eqn:L100.
  { apply Fail; [exact Hc1 | right; exact Hw1|].
    intros (date' & time' & place' & t' & _ & _ & [= <-] & _ & _ & _ & _ & _
            & _ & Hl & _).
    apply Z.ltb_lt in L100. lia. }
  apply Z.ltb_ge in L100.
  assert (Ok : (forall tz, BirthInfo.timezone birthInfo = Some tz -> tz <> []
                -> str_length tz <= 50 /\ run_of timezone_unit tz) ->
               exists r w',
                 (Normal (@None jsstring), w1) = (Normal r, w') /\
                 calls w' = calls w /\ (w' = w \/ w' = advance 1 0 w) /\
                 (r = None <->
                  exists date0 time0 place0 t0,
                    Some date = Some date0 /\ Some time = Some time0 /\
                    Some place = Some place0 /\ date_shape date0 /\
                    Date_parse date0 = TimeValue t0 /\ t0 <= now /\
                    Date_lt (TimeValue t0) (Date_parse (lit "1900-01-01"))
                    = false /\
                    time_shape time0 /\ nonempty (trim place0) = true /\
                    2 <= str_length place0 <= 100 /\
                    (forall tz, BirthInfo.timezone birthInfo = Some tz ->
                       tz <> [] ->
                       str_length tz <= 50 /\ run_of timezone_unit tz)) /\
                 (forall e : jsstring, r = Some e ->
                    exists rest, e = prefix ++ rest)).
  { intros Htz. eexists _, _. split; [reflexivity|].
    split; [exact Hc1|]. split; [right; exact Hw1|].
    split; [|discriminate]. split; [|reflexivity]. intros _.
    exists date, time, place, t. do 3 (split; [reflexivity|]).
    split; [exact Td|]. split; [exact Pd|]. split; [exact Lt|].
    split; [exact Lm|]. split; [exact Tt|]. split; [exact Bp|].
    split; [lia | exact Htz]. }
  destruct (truthy (BirthInfo.timezone birthInfo)) eqn:Tz.
  - apply truthy_Some in Tz as (tz & Etz & Hne).
    rewrite Etz. cbn [default from_option id]. unfold id.
    destruct (50 <? str_length tz) eqn:L50.
    { apply Fail; [exact Hc1 | right; exact Hw1|].
      intros (date' & time' & place' & t' & _ & _ & _ & _ & _ & _ & _ & _
              & _ & _ & Hz).
      destruct (Hz tz eq_refl Hne) as [Hl _]. apply Z.ltb_lt in L50. lia. }
    apply Z.ltb_ge in L50.
    destruct (test timezoneRegex tz) eqn:Rz; cbn [negb].
    + rewrite Etz in Ok. apply Ok. intros tz' [= <-] _.
      split; [exact L50 | apply timezone_test, Rz].
    + apply Fail; [exact Hc1 | right; exact Hw1|].
      intros (date' & time' & place' & t' & _ & _ & _ & _ & _ & _ & _ & _
              & _ & _ & Hz).
      destruct (Hz tz eq_refl Hne) as [_ Hr]. apply timezone_test in Hr.
      congruence.
  - apply Ok. intros tz Etz Hne. exfalso.
    rewrite Etz in Tz. destruct tz; [congruence | discriminate].
Qed.

End BirthInfo.

Lemma birthInfo_rules_witness :
  @birthInfo_acceptable RefRuntime.runtime sampleBirthInfo 1700000000000.
Proof.
  destruct (@birthInfo_rules RefRuntime.runtime sampleBirthInfo (lit "Your")
              world2023) as (r & w' & Hrun & _ & _ & Hiff & _).
  apply Hiff.
  assert (E : @RequestAstrologyReading_validateBirthInfo RefRuntime.runtime
                sampleBirthInfo (lit "Your") world2023
              = (Normal None, advance 1 0 world2023))
    by (vm_compute; reflexivity).
  rewrite E in Hrun. injection Hrun as <- _. reflexivity.
Defined.

Section AstrologySent.
Context `{JsRuntime}.

Lemma validateBirthInfo_None_place (birthInfo : BirthInfo.t)
    (prefix : jsstring) (w w' : World) :
  RequestAstrologyReading_validateBirthInfo birthInfo prefix w
  = (Normal None, w') ->
  exists place, BirthInfo.placeOfBirth birthInfo = Some place.
Proof.
  unfold RequestAstrologyReading_validateBirthInfo. run_m.
  destruct (BirthInfo.placeOfBirth birthInfo) as [place|] eqn:Ep;
    [intros _; exists place; reflexivity|].
  cbn [blank].
  repeat match goal with
         | |- context [if ?b then _ else _] => destruct b
         end; discriminate.
Qed.

(** Once [validateRequest] has accepted a request, [execute] calls the
    repository exactly once, with the place of birth and the reading type
    trimmed, the date, time and time zone as given, and of the partner's
    birth info only the date, the time and the trimmed place. It returns
    the repository's reading, or the failure that [handleError] makes of
    what the repository threw (or throws what [handleError] throws). The
    reading type sent is one of the allowed ones. *)
Theorem astrology_request_sent (repo : IAiRepository)
    (request : AstrologyRequest.t) (w w1 : World) :
  RequestAstrologyReading_validateRequest request w = (Normal None, w1) ->
  exists place readingType,
    BirthInfo.placeOfBirth (AstrologyRequest.birthInfo request) = Some place /\
    AstrologyRequest.readingType request = Some readingType /\
    In (trim readingType) allowedReadingTypes /\
    let sent := astrologyRequest_sent request place readingType in
    RequestAstrologyReading_execute repo request w
    = (match requestAstrologyReading repo sent with
       | Normal reading =>
           Normal {| RequestAstrologyReadingResult.success := true;
                     RequestAstrologyReadingResult.reading := Some reading;
                     RequestAstrologyReadingResult.error := None |}
       | Throw e =>
           answered reading_failure (RequestAstrologyReading_handleError e)
       end,
       logged (Call_requestAstrologyReading sent) w1).
Proof.
  intros Hv.
  assert (Hv' := Hv). unfold RequestAstrologyReading_validateRequest in Hv'.
  unfold mbind at 1 in Hv'. unfold M_bind, bind in Hv'.
  destruct (validateBirthInfo_quiet (AstrologyRequest.birthInfo request)
              (lit "Your") w) as (r & w0 & E & _).
  rewrite E in Hv'. destruct r as [e|]; [discriminate Hv'|].
  destruct (validateBirthInfo_None_place _ _ _ _ E) as (place & Ep).
  destruct (blank (AstrologyRequest.readingType request)) eqn:Br;
    [discriminate Hv'|].
  destruct (AstrologyRequest.readingType request) as [readingType|] eqn:Er;
    [|discriminate Br].
  cbn [default from_option id] in Hv'. unfold id in Hv'.
  destruct (100 <? str_length readingType); [discriminate Hv'|].
  destruct (array_includes allowedReadingTypes (trim readingType)) eqn:Ea;
    [|discriminate Hv'].
  exists place, readingType. split; [exact Ep|]. split; [reflexivity|].
  split; [apply array_includes_In, Ea|].
  cbn [negb] in Hv'. cbv zeta.
  unfold RequestAstrologyReading_execute, try_catch,
    RequestAstrologyReading_body.
  unfold mbind at 1. unfold M_bind at 1. unfold bind at 1. rewrite Hv.
  rewrite Ep, Er. unfold astrologyRequest_sent.
  destruct (AstrologyRequest.partnerBirthInfo request) as [partner|] eqn:Epp.
  - destruct (array_includes partnerReadingTypes (trim readingType));
      [|discriminate Hv'].
    cbn [negb] in Hv'.
    destruct (validateBirthInfo_None_place _ _ _ _ Hv') as (pplace & Epl).
    rewrite Epl. run_m. cbn [trim_prop default from_option id]. unfold logged.
    destruct (requestAstrologyReading repo _) as [reading|e]; [reflexivity|].
    destruct (RequestAstrologyReading_handleError e); reflexivity.
  - run_m. cbn [trim_prop]. unfold logged.
    destruct (requestAstrologyReading repo _) as [reading|e]; [reflexivity|].
    destruct (RequestAstrologyReading_handleError e); reflexivity.
Qed.

End AstrologySent.

Lemma astrology_request_sent_witness :
  exists answer,
    @RequestAstrologyReading_execute RefRuntime.runtime mockAiRepository
      {| AstrologyRequest.birthInfo :=
           {| BirthInfo.dateOfBirth := Some (lit "1990-01-15");
              BirthInfo.timeOfBirth := Some (lit "14:30");
              BirthInfo.placeOfBirth := Some (lit "  New York, NY ");
              BirthInfo.timezone := None |};
         AstrologyRequest.readingType := Some (lit " natal_chart ");
         AstrologyRequest.partnerBirthInfo := None |} world2023
    = (answer,
       logged (Call_requestAstrologyReading
                 {| AstrologyRequest.birthInfo :=
                      {| BirthInfo.dateOfBirth := Some (lit "1990-01-15");
                         BirthInfo.timeOfBirth := Some (lit "14:30");
                         BirthInfo.placeOfBirth := Some (lit "New York, NY");
                         BirthInfo.timezone := None |};
                    AstrologyRequest.readingType := Some (lit "natal_chart");
                    AstrologyRequest.partnerBirthInfo := None |})
         (advance 1 0 world2023)).
Proof.
  destruct (@astrology_request_sent RefRuntime.runtime mockAiRepository
    {| AstrologyRequest.birthInfo :=
         {| BirthInfo.dateOfBirth := Some (lit "1990-01-15");
            BirthInfo.timeOfBirth := Some (lit "14:30");
            BirthInfo.placeOfBirth := Some (lit "  New York, NY ");
            BirthInfo.timezone := None |};
       AstrologyRequest.readingType := Some (lit " natal_chart ");
       AstrologyRequest.partnerBirthInfo := None |}
    world2023 (advance 1 0 world2023))
    as (place & readingType & Ep & Er & _ & Hrun).
  - vm_compute. reflexivity.
  - cbn [AstrologyRequest.birthInfo BirthInfo.placeOfBirth
         AstrologyRequest.readingType] in Ep, Er.
    injection Ep as <-. injection Er as <-.
    eexists. rewrite Hrun. f_equal.
Defined.

(** ** SendChatMessage: an answer that cannot be stored *)

(** The answer of the repository goes through the same constructor and
    the same [addMessage] as the user's message, and what they throw is
    reported as the error of the exchange. With a valid request and a
    clock that does not run backwards, the chat request is sent for the
    current conversation, and then: an answer whose message is blank
    fails with 'Message content cannot be empty'; one whose trimmed
    message is longer than 2000 units fails with the very error given for
    a user message that is too long; one that names a conversation (a
    non-empty [conversationId]) other than the one the request named
    fails with 'Message conversation ID does not match'. In these cases
    nothing is saved: the call to [sendChatMessage] is the only one. For
    a request without a conversation, the conversation named is the one
    just created, under the id made from the clock and a random suffix. *)
Theorem SendChatMessage_bad_answer (repo : IAiRepository)
    (req : SendChatMessageRequest.t) (w : World) :
  chat_request_valid req -> clock_monotone w ->
  conversation_of_the_past req w ->
  exists cc w1,
    Conversation_constructed cc /\
    (forall c, SendChatMessageRequest.conversation req = Some c ->
               Conversation_id cc = Conversation_id c) /\
    (SendChatMessageRequest.conversation req = None ->
     Conversation_id cc = Conversation_id (created None (advance 2 1 w))) /\
    calls w1 = calls w /\
    forall response,
      sendChatMessage repo (chatRequest_of req cc) = Normal response ->
      let fails (e : string) :=
        SendChatMessage_execute repo req w
        = (Normal (chat_failure (lit e)),
           advance 2 1
             (logged (Call_sendChatMessage (chatRequest_of req cc)) w1)) in
      (nonempty (trim (ChatResponse.message response)) = false ->
       fails "Message content cannot be empty"%string) /\
      (2000 < str_length (trim (ChatResponse.message response)) ->
       fails too_long_message) /\
      (nonempty (trim (ChatResponse.message response)) = true ->
       str_length (trim (ChatResponse.message response)) <= 2000 ->
       ChatResponse.conversationId response <> [] ->
       Some (ChatResponse.conversationId response) <> Conversation_id cc ->
       fails "Message conversation ID does not match"%string).
Proof.
  intros Hv Hm Hp.
  destruct (SendChatMessage_validate_None req Hv) as (message & Hmsg & Hne & Hl).
  destruct (SendChatMessage_prepare_steady req message w Hne Hl Hm Hp)
    as (um & cc & w1 & Hprep & _ & _ & _ & Hcc & _ & Hid & _ & Hcalls & _).
  exists cc, w1. split; [exact Hcc|]. split; [exact Hid|].
  split.
  { intros Hnone.
    pose proof (SendChatMessage_prepare_run req message w Hne Hl
                  (fun c Hc => proj1 (Hp c Hc))) as Hrun.
    cbv zeta in Hrun. rewrite Hnone, Hprep in Hrun.
    destruct (clock_precedes_creation _ (advance 4 2 w));
      [discriminate Hrun|].
    injection Hrun as _ -> _. reflexivity. }
  split; [exact Hcalls|].
  intros response Hs. cbv zeta.
  rewrite SendChatMessage_execute_caught,
    (SendChatMessage_body_phases repo req message w Hv Hmsg), Hprep,
    (SendChatMessage_exchange_run repo req cc w1 Hcc).
  cbv zeta. rewrite Hs.
  set (ws := logged (Call_sendChatMessage (chatRequest_of req cc)) w1).
  rewrite (factory_outcome (assistantMessageProps response ws)
             (ChatResponse.message response) "a" "ssistant-" _
             eq_refl eq_refl eq_refl (or_intror eq_refl) ltac:(discriminate)).
  split; [|split].
  - intros ->. reflexivity.
  - intros Hlong. destruct (nonempty (trim (ChatResponse.message response)))
      eqn:E.
    + apply Z.ltb_lt in Hlong. rewrite Hlong. reflexivity.
    + exfalso. destruct (trim (ChatResponse.message response));
        [vm_compute in Hlong; discriminate | discriminate].
  - intros Hn Hlen Hcid Hdiff. apply Z.ltb_ge in Hlen. rewrite Hn, Hlen.
    cbn [negb].
    assert (Hmm : conversationId_mismatch cc
                    {| Message_props := assistantMessageProps response ws |}
                  = true).
    { apply conversationId_mismatch_iff.
      exists (ChatResponse.conversationId response).
      split; [reflexivity|]. split; [exact Hcid|].
      intros E. apply Hdiff. symmetry. exact E. }
    rewrite Hmm. reflexivity.
Qed.

Lemma SendChatMessage_bad_answer_witness :
  let req := chatRequest "How can I find inner peace?"
               (Some (lit "beginner")) in
  exists w',
    SendChatMessage_execute backendIdRepository req (sampleWorld 1000)
    = (Normal (chat_failure (lit "Message conversation ID does not match")),
       w') /\
    exists request, calls w' = [Call_sendChatMessage request].
Proof.
  intros req.
  destruct (SendChatMessage_bad_answer backendIdRepository req
              (sampleWorld 1000))
    as (cc & w1 & Hcc & _ & Hnew & Hcalls & H).
  - vm_compute. reflexivity.
  - apply sampleWorld_monotone.
  - apply chatRequest_of_the_past.
  - destruct (H _ eq_refl) as (_ & _ & Hid).
    eexists. split.
    + apply Hid.
      * reflexivity.
      * vm_compute. discriminate.
      * discriminate.
      * rewrite (Hnew eq_refl). vm_compute. discriminate.
    + eexists. unfold advance, logged. cbn [calls]. rewrite Hcalls.
      reflexivity.
Defined.

(** ** RequestSpiritualGuidance: validation and the request sent *)

Lemma validateStringArray_None (arr : list jsstring) (name : jsstring)
    (maxLength : Z) :
  validateStringArray arr name maxLength = None
  <-> Forall (item_ok maxLength) arr.
Proof.
  induction arr as [|item arr IH]; cbn [validateStringArray].
  - split; [constructor | reflexivity].
  - unfold item_ok at 1.
    destruct (nonempty (trim item)) eqn:En; cbn [negb].
    + destruct (maxLength <? str_length item) eqn:El.
      * apply Z.ltb_lt in El. split; [discriminate|].
        intros Hf. inversion Hf as [|? ? [_ Hl] _]; subst. lia.
      * apply Z.ltb_ge in El. rewrite IH. split.
        -- intros Hf. constructor; [split; [exact En | exact El] | exact Hf].
        -- intros Hf. inversion Hf; subst. assumption.
    + split; [discriminate|].
      intros Hf. inversion Hf as [|? ? [Hn _] _]; subst. congruence.
Qed.

Lemma items_ok_iff (a : option (list jsstring)) (least most maxLength : Z)
    (name : jsstring) :
  items_ok a least most maxLength <->
  exists l, a = Some l /\ least <= array_length a <= most
            /\ validateStringArray (default [] a) name maxLength = None.
Proof.
  unfold items_ok, array_length. split.
  - intros (l & -> & Hlen & Hf). exists l. split; [reflexivity|].
    split; [exact Hlen | apply validateStringArray_None, Hf].
  - intros (l & -> & Hlen & Hv). exists l. split; [reflexivity|].
    split; [exact Hlen | apply (validateStringArray_None l name), Hv].
Qed.

Lemma missing_or_empty_false (a : option (list jsstring)) :
  missing_or_empty a = false <-> exists l, a = Some l /\ 1 <= array_length a.
Proof.
  unfold array_length. destruct a as [[|x l]|]; cbn.
  - split; [discriminate | intros (l & _ & H); lia].
  - split; [intros _; eexists; split; [reflexivity | lia] | reflexivity].
  - split; [discriminate | intros (l & [=] & _)].
Qed.

Lemma guidance_validate_iff (request : SpiritualGuidanceRequest.t) :
  RequestSpiritualGuidance_validateRequest request = None
  <-> guidance_acceptable request.
Proof.
  unfold RequestSpiritualGuidance_validateRequest, guidance_acceptable.
  destruct (SpiritualGuidanceRequest.topic request) as [topic|]; cbn [blank];
    [|split; [discriminate | intros (? & ? & ? & [=] & _)]].
  destruct (nonempty (trim topic)) eqn:Ht; cbn [negb];
    [|split; [discriminate
             | intros (? & ? & ? & [= <-] & ? & _); congruence]].
  cbn [default from_option id]. unfold id.
  destruct (200 <? str_length topic) eqn:Hl;
    [apply Z.ltb_lt in Hl; split;
       [discriminate | intros (? & ? & ? & [= <-] & _ & ? & _); lia]|].
  apply Z.ltb_ge in Hl.
  destruct (SpiritualGuidanceRequest.userContext request) as [ctx|];
    [|split; [discriminate | intros (? & ? & ? & _ & _ & _ & [=] & _)]].
  cbv zeta.
  set (goals := GuidanceContext.spiritualGoals ctx).
  set (challenges := GuidanceContext.currentChallenges ctx).
  set (practices := GuidanceContext.preferredPractices ctx).
  set (experiences := GuidanceContext.previousExperiences ctx).
  (* the plain conditions, with the lists as the function tests them *)
  assert (Hplain :
    (exists topic0 userContext level,
       Some topic = Some topic0 /\ nonempty (trim topic0) = true /\
       str_length topic0 <= 200 /\ Some ctx = Some userContext /\
       GuidanceContext.experienceLevel userContext = Some level /\
       In level experienceLevels /\
       items_ok (GuidanceContext.spiritualGoals userContext) 1 10 100 /\
       items_ok (GuidanceContext.currentChallenges userContext) 1 10 100 /\
       items_ok (GuidanceContext.preferredPractices userContext) 1 15 50 /\
       items_ok (GuidanceContext.previousExperiences userContext) 0 20 200 /\
       (forall t, GuidanceContext.timeAvailable userContext = Some t ->
                  str_length t <= 50))
    <->
    (exists level, GuidanceContext.experienceLevel ctx = Some level
                   /\ In level experienceLevels) /\
    items_ok goals 1 10 100 /\ items_ok challenges 1 10 100 /\
    items_ok practices 1 15 50 /\ items_ok experiences 0 20 200 /\
    (forall t, GuidanceContext.timeAvailable ctx = Some t ->
               str_length t <= 50)).
  { split.
    - intros (t0 & u & level & _ & _ & _ & [= <-] & H1 & H2 & H3 & H4 & H5
              & H6 & H7).
      split; [exists level; auto|]. auto.
    - intros ((level & H1 & H2) & H3 & H4 & H5 & H6 & H7).
      exists topic, ctx, level. repeat split; auto. }
  rewrite Hplain. clear Hplain.
  rewrite (items_ok_iff goals 1 10 100 (lit "spiritual goals")),
    (items_ok_iff challenges 1 10 100 (lit "challenges")),
    (items_ok_iff practices 1 15 50 (lit "practices")),
    (items_ok_iff experiences 0 20 200 (lit "experiences")).
  destruct (truthy (GuidanceContext.experienceLevel ctx)) eqn:Hlvl;
    cbn [negb orb].
  2:{ split; [discriminate|]. intros ((level & E & Hin) & _).
      rewrite E in Hlvl. destruct level; [|discriminate].
      cbn in Hin. intuition discriminate. }
  apply truthy_Some in Hlvl as (level & El & _). rewrite El.
  cbn [default from_option id]. unfold id.
  destruct (array_includes experienceLevels level) eqn:Hin; cbn [negb].
  2:{ split; [discriminate|]. intros ((level' & [= <-] & Hin') & _).
      apply array_includes_In in Hin'. congruence. }
  apply array_includes_In in Hin.
  destruct (missing_or_empty goals) eqn:Mg.
  { split; [discriminate|]. intros (_ & (l & E & Hlen & _) & _).
    assert (missing_or_empty goals = false)
      by (apply missing_or_empty_false; exists l; split; [exact E | lia]).
    congruence. }
  destruct (missing_or_empty challenges) eqn:Mc.
  { split; [discriminate|]. intros (_ & _ & (l & E & Hlen & _) & _).
    assert (missing_or_empty challenges = false)
      by (apply missing_or_empty_false; exists l; split; [exact E | lia]).
    congruence. }
  destruct (missing_or_empty practices) eqn:Mp.
  { split; [discriminate|]. intros (_ & _ & _ & (l & E & Hlen & _) & _).
    assert (missing_or_empty practices = false)
      by (apply missing_or_empty_false; exists l; split; [exact E | lia]).
    congruence. }
  apply missing_or_empty_false in Mg as (lg & Eg & Hg).
  apply missing_or_empty_false in Mc as (lc & Ec & Hc).
  apply missing_or_empty_false in Mp as (lp & Ep & Hp).
  destruct experiences as [le|] eqn:Ee.
  2:{ split; [discriminate|]. intros (_ & _ & _ & _ & (l & [=] & _) & _). }
  destruct (10 <? array_length goals) eqn:Lg.
  { apply Z.ltb_lt in Lg. split; [discriminate|].
    intros (_ & (l & _ & Hlen & _) & _). lia. }
  destruct (10 <? array_length challenges) eqn:Lc.
  { apply Z.ltb_lt in Lc. split; [discriminate|].
    intros (_ & _ & (l & _ & Hlen & _) & _). lia. }
  destruct (15 <? array_length practices) eqn:Lp.
  { apply Z.ltb_lt in Lp. split; [discriminate|].
    intros (_ & _ & _ & (l & _ & Hlen & _) & _). lia. }
  destruct (20 <? array_length (Some le)) eqn:Le.
  { apply Z.ltb_lt in Le. split; [discriminate|].
    intros (_ & _ & _ & _ & (l & _ & Hlen & _) & _). lia. }
  apply Z.ltb_ge in Lg, Lc, Lp, Le.
  destruct (validateStringArray _ (lit "spiritual goals") 100) eqn:Vg.
  { split; [discriminate|]. intros (_ & (l & _ & _ & Hv) & _). congruence. }
  destruct (validateStringArray _ (lit "challenges") 100) eqn:Vc.
  { split; [discriminate|].
    intros (_ & _ & (l & _ & _ & Hv) & _). congruence. }
  destruct (validateStringArray _ (lit "practices") 50) eqn:Vp.
  { split; [discriminate|].
    intros (_ & _ & _ & (l & _ & _ & Hv) & _). congruence. }
  destruct (validateStringArray _ (lit "experiences") 200) eqn:Ve.
  { split; [discriminate|].
    intros (_ & _ & _ & _ & (l & _ & _ & Hv) & _). congruence. }
  assert (Hrest :
    (exists level0, Some level = Some level0 /\ In level0 experienceLevels) /\
    (exists l, goals = Some l /\ 1 <= array_length goals <= 10 /\
       @None jsstring = None) /\
    (exists l, challenges = Some l /\ 1 <= array_length challenges <= 10 /\
       @None jsstring = None) /\
    (exists l, practices = Some l /\ 1 <= array_length practices <= 15 /\
       @None jsstring = None) /\
    (exists l, Some le = Some l /\ 0 <= array_length (Some le) <= 20 /\
       @None jsstring = None)).
  { split; [exists level; auto|].
    split; [exists lg; repeat split; auto; lia|].
    split; [exists lc; repeat split; auto; lia|].
    split; [exists lp; repeat split; auto; lia|].
    exists le. repeat split; auto. unfold array_length. lia. }
  destruct (GuidanceContext.timeAvailable ctx) as [t|] eqn:Et; cbn [truthy].
  - cbn [default from_option id]. unfold id.
    destruct (50 <? str_length t) eqn:Lt.
    + apply Z.ltb_lt in Lt.
      destruct (nonempty t) eqn:Nt; cbn [andb].
      * split; [discriminate|].
        intros (_ & _ & _ & _ & _ & Ht'). specialize (Ht' t eq_refl). lia.
      * exfalso. destruct t; [vm_compute in Lt; discriminate | discriminate].
    + apply Z.ltb_ge in Lt. rewrite andb_false_r.
      split; [intros _ | reflexivity].
      destruct Hrest as (R1 & R2 & R3 & R4 & R5).
      repeat (split; [assumption|]). intros t' [= <-]. exact Lt.
  - split; [intros _ | reflexivity].
    destruct Hrest as (R1 & R2 & R3 & R4 & R5).
    repeat (split; [assumption|]). intros t' [=].
Qed.

(** [validateRequest] of RequestSpiritualGuidance accepts a request
    exactly when: the topic is not blank and has at most 200 units; there
    is a user context whose experience level is beginner, intermediate or
    advanced; goals and challenges are lists of 1 to 10 items of at most
    100 units, practices a list of 1 to 15 items of at most 50 units, and
    previous experiences a list of at most 20 items (none will do) of at
    most 200 units, no item blank; and the time available, if given, has
    at most 50 units. A request turned down is answered without any
    repository call, and one accepted is sent once, with the topic
    trimmed and the user context as it came. *)
Theorem guidance_rules (repo : IAiRepository)
    (request : SpiritualGuidanceRequest.t) (w : World) :
  (RequestSpiritualGuidance_validateRequest request = None
   <-> guidance_acceptable request) /\
  (forall e,
     RequestSpiritualGuidance_validateRequest request = Some e ->
     RequestSpiritualGuidance_execute repo request w
     = (Normal (guidance_failure e), w)) /\
  (guidance_acceptable request ->
   exists topic,
     SpiritualGuidanceRequest.topic request = Some topic /\
     let sent :=
       {| SpiritualGuidanceRequest.topic := Some (trim topic);
          SpiritualGuidanceRequest.userContext :=
            SpiritualGuidanceRequest.userContext request |} in
     RequestSpiritualGuidance_execute repo request w
     = (match requestSpiritualGuidance repo sent with
        | Normal guidance =>
            Normal {| RequestSpiritualGuidanceResult.success := true;
                      RequestSpiritualGuidanceResult.guidance := Some guidance;
                      RequestSpiritualGuidanceResult.error := None |}
        | Throw e =>
            answered guidance_failure (RequestSpiritualGuidance_handleError e)
        end,
        logged (Call_requestSpiritualGuidance sent) w)).
Proof.
  split; [apply guidance_validate_iff|]. split.
  - intros e He.
    unfold RequestSpiritualGuidance_execute, RequestSpiritualGuidance_body,
      try_catch. rewrite He. reflexivity.
  - intros Ha. pose proof (proj2 (guidance_validate_iff request) Ha) as Hv.
    destruct Ha as (topic & _ & _ & Et & _).
    exists topic. split; [exact Et|]. cbv zeta.
    unfold RequestSpiritualGuidance_execute, RequestSpiritualGuidance_body,
      try_catch. rewrite Hv, Et. run_m. unfold logged.
    destruct (requestSpiritualGuidance repo _) as [guidance|e]; [reflexivity|].
    destruct (RequestSpiritualGuidance_handleError e); reflexivity.
Qed.

Lemma guidance_rules_witness :
  guidance_acceptable (sampleGuidanceRequest " Finding inner peace ") /\
  RequestSpiritualGuidance_execute mockAiRepository
    (sampleGuidanceRequest " Finding inner peace ") (sampleWorld 0)
  = (Normal (guidance_failure (lit "Not implemented in mock")),
     logged (Call_requestSpiritualGuidance
               (sampleGuidanceRequest "Finding inner peace"))
       (sampleWorld 0)) /\
  RequestSpiritualGuidance_execute mockAiRepository
    (sampleGuidanceRequest "   ") (sampleWorld 0)
  = (Normal (guidance_failure (lit "Topic cannot be empty")), sampleWorld 0).
Proof.
  assert (Ha : guidance_acceptable
                 (sampleGuidanceRequest " Finding inner peace ")).
  { apply (proj1 (guidance_rules mockAiRepository
                    (sampleGuidanceRequest " Finding inner peace ")
                    (sampleWorld 0))).
    vm_compute. reflexivity. }
  split; [exact Ha|]. split.
  - destruct (proj2 (proj2 (guidance_rules mockAiRepository
                (sampleGuidanceRequest " Finding inner peace ")
                (sampleWorld 0))) Ha) as (topic & Et & Hrun).
    injection Et as <-. exact Hrun.
  - apply (proj1 (proj2 (guidance_rules mockAiRepository
                           (sampleGuidanceRequest "   ") (sampleWorld 0)))).
    reflexivity.
Defined.

(** ** Helpers of the user interface *)

Lemma join_cons (sep x : jsstring) (l : list jsstring) :
  l <> [] -> join sep (x :: l) = x ++ sep ++ join sep l.
Proof. destruct l; [congruence | reflexivity]. Qed.

Lemma join_app (sep : jsstring) (a b : list jsstring) :
  a <> [] -> b <> [] ->
  join sep (a ++ b) = join sep a ++ sep ++ join sep b.
Proof.
  intros Ha Hb. induction a as [|x a IH]; [congruence|].
  destruct a as [|y a].
  - cbn [app]. rewrite join_cons by exact Hb. reflexivity.
  - change ((x :: y :: a) ++ b) with (x :: (y :: a) ++ b).
    rewrite join_cons by discriminate. rewrite IH by discriminate.
    rewrite (join_cons sep x (y :: a)) by discriminate.
    rewrite <- !app_assoc. reflexivity.
Qed.

Lemma join_empty_iff (sep : jsstring) (l : list jsstring) :
  Forall (fun s => s <> []) l -> (join sep l = [] <-> l = []).
Proof.
  intros Hf. split; [|intros ->; reflexivity].
  destruct Hf as [|x l Hx _]; [reflexivity|].
  intros E. exfalso. destruct l.
  - cbn in E. congruence.
  - rewrite join_cons in E by discriminate. destruct x; [congruence|].
    discriminate.
Qed.

Lemma class_names_nonempty (inputs : list ClassInput) :
  Forall (fun s => s <> [])
    (List.map ClassInput_text (List.filter ClassInput_truthy inputs)).
Proof.
  induction inputs as [|x inputs IH]; [constructor|].
  cbn [List.filter]. destruct (ClassInput_truthy x) eqn:E; [|exact IH].
  cbn [List.map]. constructor; [|exact IH].
  destruct x as [[|c s]| | |]; discriminate.
Qed.

Lemma cn_empty_iff (inputs : list ClassInput) :
  cn inputs = [] <-> List.filter ClassInput_truthy inputs = [].
Proof.
  unfold cn. rewrite (join_empty_iff _ _ (class_names_nonempty inputs)).
  destruct (List.filter ClassInput_truthy inputs); cbn; split; congruence.
Qed.

(** [cn] joins the class strings among its arguments with single spaces
    and ignores the rest ([undefined], [null], [false] and the empty
    string): dropping an ignored argument changes nothing, a single class
    comes back as it is, and nesting is flattening, so that
    [cn(cn(...a), cn(...b))] is [cn(...a, ...b)]. *)
Theorem cn_contract :
  (forall a x b,
     ClassInput_truthy x = false -> cn (a ++ x :: b) = cn (a ++ b)) /\
  (forall s, cn [ClassName s] = s) /\
  (forall s rest,
     s <> [] ->
     cn (ClassName s :: rest)
     = if nonempty (cn rest) then s ++ lit " " ++ cn rest else s) /\
  (forall a b, cn [ClassName (cn a); ClassName (cn b)] = cn (a ++ b)).
Proof.
  split; [|split; [|split]].
  - intros a x b Hx. unfold cn.
    rewrite !List.filter_app. cbn [List.filter]. rewrite Hx. reflexivity.
  - intros [|c s]; reflexivity.
  - intros s rest Hs. unfold cn at 1. cbn [List.filter ClassInput_truthy].
    destruct s as [|c s]; [congruence|]. cbn [nonempty List.map ClassInput_text].
    destruct (List.filter ClassInput_truthy rest) as [|y l] eqn:E.
    + apply cn_empty_iff in E. rewrite E. reflexivity.
    + rewrite join_cons by discriminate.
      assert (Hn : cn rest <> []) by (rewrite cn_empty_iff; congruence).
      unfold cn at 1 2. rewrite E. fold (cn rest) in *.
      destruct (join (lit " ") (List.map ClassInput_text (y :: l))) eqn:J;
        [|reflexivity].
      exfalso. apply Hn. unfold cn. rewrite E. exact J.
  - intros a b.
    assert (Hpair : forall s t,
              cn [ClassName s; ClassName t]
              = if nonempty s
                then (if nonempty t then s ++ lit " " ++ t else s)
                else t).
    { intros [|c s] [|d t]; reflexivity. }
    rewrite Hpair.
    assert (Hab : cn (a ++ b)
                  = join (lit " ")
                      (List.map ClassInput_text
                         (List.filter ClassInput_truthy a)
                       ++ List.map ClassInput_text
                            (List.filter ClassInput_truthy b))).
    { unfold cn. rewrite List.filter_app, List.map_app. reflexivity. }
    rewrite Hab. clear Hab Hpair.
    pose proof (join_empty_iff (lit " ") _ (class_names_nonempty a)) as Ja.
    pose proof (join_empty_iff (lit " ") _ (class_names_nonempty b)) as Jb.
    fold (cn a) in Ja. fold (cn b) in Jb. unfold cn at 3 5.
    destruct (List.map ClassInput_text (List.filter ClassInput_truthy a))
      as [|x la] eqn:Ea.
    + assert (Ha : cn a = []) by (apply Ja; reflexivity). rewrite Ha.
      cbn [nonempty app].
      fold (cn b). reflexivity.
    + assert (Ha : cn a <> []) by (intros E; apply Ja in E; discriminate).
      destruct (cn a) as [|c s] eqn:Eca; [congruence|]. cbn [nonempty].
      destruct (List.map ClassInput_text (List.filter ClassInput_truthy b))
        as [|y lb] eqn:Eb.
      * assert (Hb : cn b = []) by (apply Jb; reflexivity). rewrite Hb.
        cbn [nonempty]. rewrite app_nil_r. reflexivity.
      * assert (Hb : cn b <> []) by (intros E; apply Jb in E; discriminate).
        destruct (cn b) as [|d t] eqn:Ecb; [congruence|]. cbn [nonempty].
        rewrite join_app by discriminate.
        unfold cn in Ecb. rewrite Eb in Ecb. rewrite Ecb. reflexivity.
Qed.

Lemma cn_contract_witness :
  cn [ClassName (lit "p-4"); ClassUndefined] = lit "p-4" /\
  cn [ClassName (lit "rounded-lg shadow-sm")] = lit "rounded-lg shadow-sm" /\
  cn [ClassName (lit "flex-1"); ClassFalse; ClassName (lit "mt-2")]
  = lit "flex-1 mt-2".
Proof.
  destruct cn_contract as (Hdrop & Hone & Hcons & _).
  split; [|split].
  - exact (eq_trans (Hdrop [ClassName (lit "p-4")] ClassUndefined [] eq_refl)
             (Hone (lit "p-4"))).
  - apply Hone.
  - refine (eq_trans (Hdrop [ClassName (lit "flex-1")] ClassFalse
                        [ClassName (lit "mt-2")] eq_refl) _).
    refine (eq_trans (Hcons (lit "flex-1") [ClassName (lit "mt-2")] _) _);
      [discriminate|].
    rewrite (Hone (lit "mt-2")). reflexivity.
Defined.

Lemma map_at_insert (arr : list jsstring) (k : Z) (i : nat)
    (value : jsstring) :
  map_at k (k + Z.of_nat i) value arr = <[i := value]> arr.
Proof.
  revert k i. induction arr as [|item arr IH]; intros k i; [reflexivity|].
  cbn [map_at]. destruct i as [|i].
  - replace (k + Z.of_nat 0) with k by lia. rewrite Z.eqb_refl.
    cbn. f_equal.
    clear IH. assert (H : forall j, k < j -> map_at j k value arr = arr).
    { induction arr as [|y arr IH]; intros j Hj; [reflexivity|].
      cbn [map_at]. assert (E : (j =? k) = false) by (apply Z.eqb_neq; lia).
      rewrite E. f_equal. apply IH. lia. }
    apply H. lia.
  - assert (E : (k =? k + Z.of_nat (S i)) = false)
      by (apply Z.eqb_neq; lia).
    rewrite E. cbn. f_equal.
    replace (k + Z.of_nat (S i)) with (k + 1 + Z.of_nat i) by lia.
    apply IH.
Qed.

Lemma filter_at_delete (arr : list jsstring) (k : Z) (i : nat) :
  filter_at k (k + Z.of_nat i) arr = delete i arr.
Proof.
  revert k i. induction arr as [|item arr IH]; intros k i; [reflexivity|].
  cbn [filter_at]. destruct i as [|i].
  - replace (k + Z.of_nat 0) with k by lia. rewrite Z.eqb_refl. cbn.
    clear IH. assert (H : forall j, k < j -> filter_at j k arr = arr).
    { induction arr as [|y arr IH]; intros j Hj; [reflexivity|].
      cbn [filter_at]. assert (E : (j =? k) = false) by (apply Z.eqb_neq; lia).
      rewrite E. f_equal. apply IH. lia. }
    apply H. lia.
  - assert (E : (k =? k + Z.of_nat (S i)) = false)
      by (apply Z.eqb_neq; lia).
    rewrite E. cbn. f_equal.
    replace (k + Z.of_nat (S i)) with (k + 1 + Z.of_nat i) by lia.
    apply IH.
Qed.

Lemma at_out_of_range (arr : list jsstring) (k index : Z)
    (value : jsstring) :
  index < k \/ k + Z.of_nat (List.length arr) <= index ->
  map_at k index value arr = arr /\ filter_at k index arr = arr.
Proof.
  revert k. induction arr as [|item arr IH]; intros k Hr; [split; reflexivity|].
  cbn [map_at filter_at].
  assert (E : (k =? index) = false)
    by (apply Z.eqb_neq; cbn [List.length] in Hr; lia).
  rewrite E. destruct (IH (k + 1)) as [H1 H2];
    [cbn [List.length] in Hr; lia|].
  rewrite H1, H2. split; reflexivity.
Qed.

Lemma cleaned_validate (arr : list jsstring) (name : jsstring)
    (maxLength : Z) :
  validateStringArray (cleaned arr) name maxLength
  = if forallb (fun g => negb (nonempty (trim g))
                         || (str_length g <=? maxLength)) arr
    then None
    else Some (name ++ lit " items must be under " ++ of_Z maxLength
                 ++ lit " characters").
Proof.
  induction arr as [|g arr IH]; [reflexivity|].
  unfold cleaned in *. cbn [List.filter forallb].
  destruct (nonempty (trim g)) eqn:En; cbn [negb orb andb].
  - cbn [validateStringArray]. rewrite En. cbn [negb].
    rewrite Z.leb_antisym.
    destruct (maxLength <? str_length g); cbn [negb andb];
      [reflexivity | exact IH].
  - exact IH.
Qed.

(** The list fields of SpiritualGuidanceForm. [updateArrayField] replaces
    the item at the index and [removeArrayField] takes it out, and an
    index outside the list changes nothing; [addArrayField] appends an
    empty item, which [removeArrayField] at the old length takes out
    again. On submit the blank items are dropped, so the item added last
    does not count, and [validateStringArray] of the use case can object
    to the cleaned list only for an item that is too long: its
    'must be non-empty strings' error cannot occur. *)
Theorem guidance_form_lists (arr : list jsstring) :
  (forall (i : nat) value,
     updateArrayField (Z.of_nat i) value arr = <[i := value]> arr) /\
  (forall i : nat, removeArrayField (Z.of_nat i) arr = delete i arr) /\
  (forall index value,
     index < 0 \/ Z.of_nat (List.length arr) <= index ->
     updateArrayField index value arr = arr
     /\ removeArrayField index arr = arr) /\
  removeArrayField (Z.of_nat (List.length arr)) (addArrayField arr) = arr /\
  cleaned (addArrayField arr) = cleaned arr /\
  Forall (fun g => nonempty (trim g) = true) (cleaned arr) /\
  (forall name maxLength,
     (validateStringArray (cleaned arr) name maxLength = None <->
      Forall (fun g => nonempty (trim g) = true -> str_length g <= maxLength)
        arr) /\
     (forall e,
        validateStringArray (cleaned arr) name maxLength = Some e ->
        e = name ++ lit " items must be under " ++ of_Z maxLength
              ++ lit " characters")).
Proof.
  split; [|split; [|split; [|split; [|split; [|split]]]]].
  - intros i value. apply (map_at_insert arr 0 i).
  - intros i. apply (filter_at_delete arr 0 i).
  - intros index value Hr. apply (at_out_of_range arr 0 index value). lia.
  - unfold removeArrayField, addArrayField.
    rewrite (filter_at_delete _ 0 (List.length arr)).
    induction arr as [|x arr IH]; [reflexivity|].
    cbn. f_equal. exact IH.
  - unfold cleaned, addArrayField. rewrite List.filter_app. cbn.
    apply app_nil_r.
  - unfold cleaned. apply Forall_forall. intros g Hg.
    apply list_elem_of_In in Hg. apply List.filter_In in Hg as [_ Hg].
    exact Hg.
  - intros name maxLength. rewrite cleaned_validate.
    destruct (forallb _ arr) eqn:E.
    + split; [|discriminate]. split; [|reflexivity]. intros _.
      apply Forall_forall. intros g Hg Hne.
      rewrite forallb_forall in E. apply list_elem_of_In in Hg.
      specialize (E g Hg). rewrite Hne in E. cbn in E.
      apply Z.leb_le. exact E.
    + split; [|intros e [= <-]; reflexivity].
      split; [discriminate|]. intros Hf. exfalso.
      assert (forallb (fun g => negb (nonempty (trim g))
                                || (str_length g <=? maxLength)) arr = true);
        [|congruence].
      apply forallb_forall. intros g Hg.
      rewrite Forall_forall in Hf. apply list_elem_of_In in Hg.
      specialize (Hf g Hg).
      destruct (nonempty (trim g)); [|reflexivity].
      cbn. apply Z.leb_le. auto.
Qed.

Lemma guidance_form_lists_witness :
  updateArrayField 5 (lit "peace") [lit "calm"; []] = [lit "calm"; []] /\
  validateStringArray (cleaned [lit "calm"; []; lit "  "])
    (lit "spiritual goals") 100 = None.
Proof.
  split.
  - destruct (proj1 (proj2 (proj2 (guidance_form_lists [lit "calm"; []])))
                5 (lit "peace")) as [H _]; [right; cbn; lia | exact H].
  - destruct (proj2 (proj2 (proj2 (proj2 (proj2 (proj2
               (guidance_form_lists [lit "calm"; []; lit "  "]))))))
               (lit "spiritual goals") 100) as [Hiff _].
    apply Hiff.
    repeat constructor; intros H; vm_compute; discriminate.
Defined.

Lemma truncated_length (n : nat) (s : jsstring) :
  (n < List.length s)%nat ->
  str_length (substring_from_0 n s ++ lit "...") = Z.of_nat n + 3.
Proof.
  intros H. unfold str_length, substring_from_0.
  rewrite List.length_app, List.length_firstn. cbn [List.length lit].
  change (List.length (lit "...")) with 3%nat. lia.
Qed.

(** The texts of the conversation list, for a conversation whose
    messages come from the constructor: neither function throws; the
    preview is 'Empty conversation' without messages, and otherwise the
    content of the first message, cut to its first 60 units followed by
    three dots when it is longer, so never more than 63 units. The title
    is the summary when there is a non-empty one, however long; else it
    is 'New Conversation' without messages and otherwise the content of
    the first message cut to 30 units and three dots. *)
Theorem conversation_list_texts (c : Conversation) :
  Forall Message_constructed (Conversation_messages c) ->
  exists preview title,
    getConversationPreview c = Normal preview /\
    getConversationTitle c = Normal title /\
    str_length preview <= 63 /\
    (Conversation_isEmpty c = true ->
     preview = lit "Empty conversation" /\
     (truthy (Conversation_summary c) = false ->
      title = lit "New Conversation")) /\
    (forall m content,
       Conversation_getFirstMessage c = Some m ->
       Message_content m = Some content ->
       (str_length content <= 60 -> preview = content) /\
       (60 < str_length content ->
        preview = substring_from_0 60 content ++ lit "...") /\
       (truthy (Conversation_summary c) = false ->
        str_length title <= 33 /\
        (str_length content <= 30 -> title = content) /\
        (30 < str_length content ->
         title = substring_from_0 30 content ++ lit "..."))) /\
    (forall s, Conversation_summary c = Some s -> s <> [] -> title = s).
Proof.
  intros Hf. unfold getConversationPreview, getConversationTitle.
  assert (Hfirst : forall m, Conversation_getFirstMessage c = Some m ->
                             exists content, Message_content m = Some content).
  { intros m Hm. unfold Conversation_getFirstMessage in Hm.
    destruct (Conversation_isEmpty c); [discriminate|].
    unfold Conversation_messages in Hf.
    destruct (Conversation_stored c) as [|x l]; [discriminate|].
    cbn in Hm. injection Hm as ->. inversion Hf as [|? ? Hx _]; subst.
    apply Message_constructed_iff, Message_validate_valid in Hx.
    destruct Hx as (_ & Hb & _). apply blank_Some_false in Hb as (s & E & _).
    exists s. exact E. }
  assert (Hcut : forall n content,
            str_length (if Z.of_nat n <? str_length content
                        then substring_from_0 n content ++ lit "..."
                        else content) <= Z.of_nat n + 3).
  { intros n content. destruct (Z.of_nat n <? str_length content) eqn:E.
    - apply Z.ltb_lt in E. rewrite truncated_length; [lia|].
      unfold str_length in E. lia.
    - apply Z.ltb_ge in E. lia. }
  destruct (Conversation_getFirstMessage c) as [m|] eqn:Em.
  - destruct (Hfirst m eq_refl) as (content & Ec). rewrite Ec.
    assert (Hne : Conversation_isEmpty c = false).
    { unfold Conversation_getFirstMessage in Em.
      destruct (Conversation_isEmpty c); [discriminate | reflexivity]. }
    destruct (truthy (Conversation_summary c)) eqn:Et.
    + eexists _, _. split; [reflexivity|]. split; [reflexivity|].
      split; [apply (Hcut 60%nat)|].
      split; [intros He; congruence|]. split.
      * intros m' content' [= <-] Hc'. rewrite Ec in Hc'.
        injection Hc' as <-.
        split; [intros Hl; apply Z.ltb_ge in Hl; rewrite Hl; reflexivity|].
        split; [intros Hl; apply Z.ltb_lt in Hl; rewrite Hl; reflexivity|].
        discriminate.
      * intros s Es _. rewrite Es. reflexivity.
    + eexists _, _. split; [reflexivity|]. split; [reflexivity|].
      split; [apply (Hcut 60%nat)|].
      split; [intros He; congruence|]. split.
      * intros m' content' [= <-] Hc'. rewrite Ec in Hc'.
        injection Hc' as <-.
        split; [intros Hl; apply Z.ltb_ge in Hl; rewrite Hl; reflexivity|].
        split; [intros Hl; apply Z.ltb_lt in Hl; rewrite Hl; reflexivity|].
        intros _. split; [apply (Hcut 30%nat)|].
        split; [intros Hl; apply Z.ltb_ge in Hl; rewrite Hl; reflexivity|].
        intros Hl; apply Z.ltb_lt in Hl; rewrite Hl; reflexivity.
      * intros s Es Hs. rewrite Es in Et. destruct s; [congruence|].
        discriminate.
  - destruct (truthy (Conversation_summary c)) eqn:Et.
    + eexists _, _. split; [reflexivity|]. split; [reflexivity|].
      split; [vm_compute; discriminate|].
      split; [intros _; split; [reflexivity | discriminate]|].
      split; [discriminate|].
      intros s Es _. rewrite Es. reflexivity.
    + eexists _, _. split; [reflexivity|]. split; [reflexivity|].
      split; [vm_compute; discriminate|].
      split; [intros _; split; reflexivity|].
      split; [discriminate|].
      intros s Es Hs. rewrite Es in Et. destruct s; [congruence|].
      discriminate.
Qed.

Lemma conversation_list_texts_witness :
  getConversationPreview testConversation
  = Normal (lit "Hello, I need spiritual guidance") /\
  getConversationTitle testConversation
  = Normal (lit "User seeking spiritual guidance").
Proof.
  destruct (conversation_list_texts testConversation)
    as (preview & title & Hp & Ht & _ & _ & Hfirst & Hsum).
  - repeat constructor; apply Message_constructed_iff; vm_compute;
      reflexivity.
  - rewrite Hp, Ht. split; f_equal.
    + apply (Hfirst testMessage1 (lit "Hello, I need spiritual guidance")
               eq_refl eq_refl).
      vm_compute. discriminate.
    + apply (Hsum (lit "User seeking spiritual guidance") eq_refl).
      discriminate.
Defined.

(** ** User *)

Lemma trimStart_all_space (ws t : jsstring) :
  forallb is_white_space ws = true -> trimStart (ws ++ t) = trimStart t.
Proof.
  induction ws as [|c ws IH]; [reflexivity|].
  cbn [forallb app trimStart]. intros H. apply andb_true_iff in H as [Hc Hw].
  rewrite Hc. apply IH, Hw.
Qed.

Lemma trimStart_app_nonblank (s r : jsstring) :
  trimStart s <> [] -> trimStart (s ++ r) = trimStart s ++ r.
Proof.
  induction s as [|c s IH]; [cbn; congruence|].
  cbn [app trimStart]. destruct (is_white_space c); [exact IH | reflexivity].
Qed.

Lemma trimEnd_all_space (s ws : jsstring) :
  forallb is_white_space ws = true -> trimEnd (s ++ ws) = trimEnd s.
Proof.
  intros H. unfold trimEnd. rewrite rev_app_distr.
  rewrite trimStart_all_space; [reflexivity|].
  rewrite forallb_rev. exact H.
Qed.

Lemma trim_nonempty_start (s : jsstring) :
  nonempty (trim s) = true -> trimStart s <> [].
Proof.
  unfold trim. intros H E. rewrite E in H. discriminate.
Qed.

(** The constructor of [User] checks the e-mail (of the form
    local@domain.tld), then the first name (not blank), then the
    subscription tier (free, premium or elite), and throws on the first
    failure; the last name is not checked. For a user it has accepted:
    [isPremium()] is false exactly for the tier free; [fullName] has no
    white space around it, is not empty, and is the trimmed first name
    when the last name is empty or blank; and [initials] is the
    upper-cased first unit of the first name followed by that of the last
    name, whatever the engine's [toUpperCase] gives. *)
Theorem User_contract (props : UserProps.t)
    (toUpperCase : jsstring -> jsstring) :
  (~ email_shape (UserProps.email props) ->
   User_new props = throw_Error "Invalid email format") /\
  (email_shape (UserProps.email props) ->
   nonempty (trim (UserProps.firstName props)) = false ->
   User_new props = throw_Error "First name is required") /\
  (email_shape (UserProps.email props) ->
   nonempty (trim (UserProps.firstName props)) = true ->
   ~ In (UserProps.subscriptionTier props) validTiers ->
   User_new props = throw_Error "Invalid subscription tier") /\
  (email_shape (UserProps.email props) ->
   nonempty (trim (UserProps.firstName props)) = true ->
   In (UserProps.subscriptionTier props) validTiers ->
   exists u,
     User_new props = Normal u /\ User_props u = props /\
     (User_isPremium u = false <-> User_subscriptionTier u = lit "free") /\
     trim (User_fullName u) = User_fullName u /\
     User_fullName u <> [] /\
     (forallb is_white_space (User_lastName u) = true ->
      User_fullName u = trim (User_firstName u)) /\
     User_initials toUpperCase u
     = toUpperCase (charAt_0 (User_firstName u))
       ++ toUpperCase (charAt_0 (User_lastName u))).
Proof.
  unfold User_new, User_validateProps.
  split; [|split; [|split]].
  - intros He. apply (test_false_iff _ _ _ (email_test _)) in He.
    rewrite He. reflexivity.
  - intros He Hf. apply email_test in He. rewrite He, Hf. reflexivity.
  - intros He Hf Ht. apply email_test in He. rewrite He, Hf. cbn [negb].
    destruct (array_includes validTiers _) eqn:E; [|reflexivity].
    apply array_includes_In in E. contradiction.
  - intros He Hf Ht. apply email_test in He. rewrite He, Hf. cbn [negb].
    apply array_includes_In in Ht. rewrite Ht. cbn [negb].
    eexists. split; [reflexivity|]. split; [reflexivity|].
    apply array_includes_In in Ht.
    unfold User_isPremium, User_subscriptionTier, User_fullName,
      User_firstName, User_lastName, User_initials.
    cbn [User_props].
    pose proof (trim_nonempty_start _ Hf) as Hs.
    split; [|split; [|split; [|split]]].
    + cbn in Ht. destruct Ht as [<- | [<- | [<- | []]]]; vm_compute;
        split; intros H; try reflexivity; discriminate H.
    + apply trim_idem.
    + unfold trim. rewrite trimStart_app_nonblank by exact Hs.
      destruct (trimStart (UserProps.firstName props)) as [|c t] eqn:E;
        [congruence|].
      pose proof (trimStart_head _ _ _ E) as Hc.
      cbn [app]. intros Hn.
      pose proof (trimEnd_cons c (t ++ lit " " ++ UserProps.lastName props)
                    Hc) as Hne.
      rewrite Hn in Hne. discriminate Hne.
    + intros Hw. unfold trim.
      rewrite trimStart_app_nonblank by exact Hs.
      rewrite trimEnd_all_space; [reflexivity|].
      rewrite forallb_app. rewrite Hw. reflexivity.
    + unfold User_firstName, User_lastName. cbn [User_props].
      destruct (toUpperCase (charAt_0 (UserProps.lastName props))) eqn:E;
        cbn [nonempty]; [rewrite app_nil_r|]; reflexivity.
Qed.

Lemma User_contract_witness :
  exists u,
    User_new (User_props mockUser) = Normal u /\
    User_isPremium u = false /\
    User_fullName u = lit "John Doe" /\
    User_initials asciiUpperCase u = lit "JD".
Proof.
  assert (He : email_shape (UserProps.email (User_props mockUser))).
  { apply email_test. vm_compute. reflexivity. }
  assert (Hf : nonempty (trim (UserProps.firstName (User_props mockUser))) = true)
    by (vm_compute; reflexivity).
  assert (Ht : In (UserProps.subscriptionTier (User_props mockUser)) validTiers)
    by (left; reflexivity).
  destruct (proj2 (proj2 (proj2 (User_contract (User_props mockUser) asciiUpperCase)))
              He Hf Ht) as (u & Hu & Hp & Hprem & _ & _ & _ & Hi).
  exists u. split; [exact Hu|]. split.
  - apply Hprem. unfold User_subscriptionTier. rewrite Hp. reflexivity.
  - split.
    + unfold User_fullName, User_firstName, User_lastName. rewrite Hp.
      vm_compute. reflexivity.
    + rewrite Hi. unfold User_firstName, User_lastName. rewrite Hp.
      vm_compute. reflexivity.
Defined.

(** ** AuthRepository under the use cases *)

Section AuthEndToEnd.
Context `{JsRuntime}.
Variables (p : Platform) (baseURL : jsstring).

Lemma storeTokens_cases (tokens : AuthTokens.t) :
  (forall e,
     setItemAsync p TOKEN_KEY (JSON_stringify p tokens) = Throw e ->
     AuthRepository_storeTokens p tokens
     = throw_Error "Failed to store tokens") /\
  (setItemAsync p TOKEN_KEY (JSON_stringify p tokens) = Normal tt ->
   AuthRepository_storeTokens p tokens = Normal tt).
Proof.
  unfold AuthRepository_storeTokens.
  split; [intros e Hs | intros Hs]; rewrite Hs; reflexivity.
Qed.

(** The use cases over the real repository. With input that passes the
    checks, [LoginUser.execute] answers 'Invalid credentials' when the
    server rejects the login with status 401, and 'Login failed. Please
    try again.' for every other rejection, for a response whose user the
    [User] constructor turns down, and when the tokens cannot be stored;
    else it succeeds with the user built from the response and the
    response's tokens. [RegisterUser.execute] answers 'User already
    exists' for status 409, 'Too many requests. Please try again later.'
    for status 429, 'Registration failed' for every other rejection and
    for a user the constructor turns down, and 'Failed to store tokens'
    when the tokens cannot be stored. *)
Theorem auth_end_to_end (w : World) :
  let repo := AuthRepository p baseURL in
  (forall creds,
     login_input_valid creds ->
     let answer := fst (LoginUser_execute repo creds w) in
     (forall error,
        post_login p (baseURL ++ lit "/auth/login") creds = inr error ->
        answer
        = Normal (if axios_status_is error 401
                  then login_failure "Invalid credentials"
                  else login_failure "Login failed. Please try again.")) /\
     (forall response,
        post_login p (baseURL ++ lit "/auth/login") creds = inl response ->
        let tokens := LoginResponse.tokens response in
        (forall e,
           AuthRepository_user (LoginResponse.user response) = Throw e ->
           answer = Normal (login_failure "Login failed. Please try again."))
        /\
        (forall user,
           AuthRepository_user (LoginResponse.user response) = Normal user ->
           (forall e,
              setItemAsync p TOKEN_KEY (JSON_stringify p tokens) = Throw e ->
              answer
              = Normal (login_failure "Login failed. Please try again.")) /\
           (setItemAsync p TOKEN_KEY (JSON_stringify p tokens) = Normal tt ->
            answer
            = Normal {| LoginResult.isSuccess := true;
                        LoginResult.user := Some user;
                        LoginResult.tokens := Some tokens;
                        LoginResult.error := None |})))) /\
  (forall data,
     register_input_valid data ->
     let answer := fst (RegisterUser_execute repo data w) in
     (forall error,
        post_register p (baseURL ++ lit "/auth/register") data = inr error ->
        answer
        = Normal (register_failure
                    (if axios_status_is error 409
                     then lit "User already exists"
                     else if axios_status_is error 429
                     then lit "Too many requests. Please try again later."
                     else lit "Registration failed"))) /\
     (forall response,
        post_register p (baseURL ++ lit "/auth/register") data
        = inl response ->
        let tokens := LoginResponse.tokens response in
        (forall e,
           AuthRepository_user (LoginResponse.user response) = Throw e ->
           answer = Normal (register_failure (lit "Registration failed"))) /\
        (forall user,
           AuthRepository_user (LoginResponse.user response) = Normal user ->
           (forall e,
              setItemAsync p TOKEN_KEY (JSON_stringify p tokens) = Throw e ->
              answer
              = Normal (register_failure (lit "Failed to store tokens"))) /\
           (setItemAsync p TOKEN_KEY (JSON_stringify p tokens) = Normal tt ->
            answer
            = Normal {| RegisterResult.isSuccess := true;
                        RegisterResult.user := Some user;
                        RegisterResult.tokens := Some tokens;
                        RegisterResult.error := None |})))).
Proof.
  intros repo. split.
  - intros creds Hv answer. subst answer. split.
    + intros error Hp.
      assert (Ht : login repo creds
                   = if axios_status_is error 401
                     then throw_Error "Invalid credentials"
                     else throw_Error "Network error").
      { cbn [repo AuthRepository login]. unfold AuthRepository_login.
        rewrite Hp. reflexivity. }
      destruct (axios_status_is error 401);
        rewrite (LoginUser_execute_throws repo creds w _ Hv (or_introl Ht));
        reflexivity.
    + intros response Hp tokens. split.
      * intros e Hu.
        assert (Ht : login repo creds = throw_Error "Network error").
        { cbn [repo AuthRepository login].
          unfold AuthRepository_login, AuthRepository_result.
          rewrite Hp, Hu. reflexivity. }
        rewrite (LoginUser_execute_throws repo creds w _ Hv (or_introl Ht)).
        reflexivity.
      * intros user Hu.
        assert (Hl : login repo creds
                     = Normal {| AuthResult.user := user;
                                 AuthResult.tokens := tokens |}).
        { cbn [repo AuthRepository login].
          unfold AuthRepository_login, AuthRepository_result.
          rewrite Hp, Hu. reflexivity. }
        destruct (storeTokens_cases tokens) as [Hbad Hgood]. split.
        -- intros e Hs. specialize (Hbad e Hs).
           rewrite (LoginUser_execute_throws repo creds w
                      (JsError (lit "Failed to store tokens")) Hv).
           ++ reflexivity.
           ++ right. eexists. split; [exact Hl | exact Hbad].
        -- intros Hs. specialize (Hgood Hs).
           unfold LoginUser_execute, try_catch.
           rewrite (LoginUser_body_valid _ _ _ Hv), Hl. cbv zeta.
           cbn [AuthResult.tokens AuthResult.user repo AuthRepository
                storeTokens].
           rewrite Hgood. reflexivity.
  - intros data Hv answer. subst answer. split.
    + intros error Hp.
      assert (Ht : register repo data
                   = if axios_status_is error 409
                     then throw_Error "User already exists"
                     else if axios_status_is error 429
                     then throw_Error
                            "Too many requests. Please try again later."
                     else throw_Error "Registration failed").
      { cbn [repo AuthRepository register]. unfold AuthRepository_register.
        rewrite Hp. reflexivity. }
      destruct (axios_status_is error 409);
        [|destruct (axios_status_is error 429)];
        rewrite (RegisterUser_execute_throws repo data w _ Hv (or_introl Ht));
        reflexivity.
    + intros response Hp tokens. split.
      * intros e Hu.
        assert (Ht : register repo data = throw_Error "Registration failed").
        { cbn [repo AuthRepository register].
          unfold AuthRepository_register, AuthRepository_result.
          rewrite Hp, Hu. reflexivity. }
        rewrite (RegisterUser_execute_throws repo data w _ Hv (or_introl Ht)).
        reflexivity.
      * intros user Hu.
        assert (Hl : register repo data
                     = Normal {| AuthResult.user := user;
                                 AuthResult.tokens := tokens |}).
        { cbn [repo AuthRepository register].
          unfold AuthRepository_register, AuthRepository_result.
          rewrite Hp, Hu. reflexivity. }
        destruct (storeTokens_cases tokens) as [Hbad Hgood]. split.
        -- intros e Hs. specialize (Hbad e Hs).
           rewrite (RegisterUser_execute_throws repo data w
                      (JsError (lit "Failed to store tokens")) Hv).
           ++ reflexivity.
           ++ right. eexists. split; [exact Hl | exact Hbad].
        -- intros Hs. specialize (Hgood Hs).
           unfold RegisterUser_execute, try_catch.
           rewrite (RegisterUser_body_valid _ _ _ Hv), Hl. cbv zeta.
           cbn [AuthResult.tokens AuthResult.user repo AuthRepository
                storeTokens].
           rewrite Hgood. reflexivity.
Qed.

End AuthEndToEnd.

Lemma auth_end_to_end_witness :
  fst (LoginUser_execute
         (@AuthRepository RefRuntime.runtime refusingPlatform
            (lit "http://localhost:3000/api/v1"))
         (credentials "test@example.com" "Password123!") (sampleWorld 0))
  = Normal (login_failure "Invalid credentials").
Proof.
  assert (Hv : login_input_valid
                 (credentials "test@example.com" "Password123!")).
  { repeat split; vm_compute; try reflexivity; discriminate. }
  exact (proj1 (proj1 (@auth_end_to_end RefRuntime.runtime refusingPlatform
                         (lit "http://localhost:3000/api/v1") (sampleWorld 0))
                  _ Hv)
           (AxiosError (Some 401)) eq_refl).
Defined.

(** ** The errors of the backend, as the user reads them *)

Lemma or_string_nonempty (a : option jsstring) (b : jsstring) :
  b <> [] -> or_string a b <> [].
Proof.
  intros Hb. destruct a as [[|c s]|]; cbn; [exact Hb | discriminate | exact Hb].
Qed.

Lemma or_value_plain (a : BodyValue) (b : MessageValue) :
  BodyValue_plain a ->
  (exists s, b = Message_string s /\ s <> []) ->
  exists s, or_value a b = Message_string s /\ s <> [].
Proof.
  intros Ha Hb. destruct a as [|[|c s]|text]; cbn; try exact Hb.
  - eexists. split; [reflexivity | discriminate].
  - destruct Ha.
Qed.

Lemma AiRepository_errorMessage_plain {A} (response : HttpResponse.t A) :
  body_plain response ->
  exists s, AiRepository_errorMessage response = Message_string s /\ s <> [].
Proof.
  unfold body_plain, AiRepository_errorMessage.
  destruct (HttpResponse.errorData response) as [d|].
  - intros [Hm He]. apply or_value_plain; [exact Hm|].
    apply or_value_plain; [exact He|].
    eexists. split; [reflexivity | discriminate].
  - intros _. eexists. split; [reflexivity|].
    apply or_string_nonempty. discriminate.
Qed.

Lemma AiRepository_request_no_token {Request Data Answer : Type}
    (p : AiPlatform)
    (fetch : jsstring -> Request -> HttpResponse.t Data + Failure)
    (request : Request) (answer : Data -> Answer) (token : option jsstring) :
  getAuthToken p = inl token -> truthy token = false ->
  AiRepository_request p fetch request answer
  = throw_Error "Authentication required".
Proof.
  intros Hg Ht. unfold AiRepository_request. rewrite Hg, Ht. reflexivity.
Qed.

Lemma AiRepository_request_rejected {Request Data Answer : Type}
    (p : AiPlatform)
    (fetch : jsstring -> Request -> HttpResponse.t Data + Failure)
    (request : Request) (answer : Data -> Answer) (token : jsstring)
    (error : Failure) :
  getAuthToken p = inl (Some token) -> token <> [] ->
  fetch token request = inr error ->
  AiRepository_request p fetch request answer
  = Throw (AiRepository_handleNetworkError error).
Proof.
  intros Hg Ht Hf. unfold AiRepository_request. rewrite Hg.
  destruct token as [|c t]; [congruence|]. cbn [truthy nonempty negb default].
  cbn [default] in *. unfold default. cbn. rewrite Hf. reflexivity.
Qed.

Lemma AiRepository_request_not_ok {Request Data Answer : Type}
    (p : AiPlatform)
    (fetch : jsstring -> Request -> HttpResponse.t Data + Failure)
    (request : Request) (answer : Data -> Answer) (token : jsstring)
    (response : HttpResponse.t Data) :
  getAuthToken p = inl (Some token) -> token <> [] ->
  fetch token request = inl response ->
  HttpResponse.ok response = false ->
  AiRepository_request p fetch request answer
  = Throw (AiRepository_handleNetworkError
             (AiRepository_handleErrorResponse p response)).
Proof.
  intros Hg Ht Hf Hok. unfold AiRepository_request. rewrite Hg.
  destruct token as [|c t]; [congruence|]. cbn [truthy nonempty negb].
  unfold default. cbn. rewrite Hf, Hok. reflexivity.
Qed.

(** What [handleNetworkError] throws for what [handleErrorResponse] threw
    is an [Error] with a string message. *)
Lemma rethrown_has_text {A} (p : AiPlatform) (response : HttpResponse.t A) :
  exists message,
    AiRepository_handleNetworkError
      (AiRepository_handleErrorResponse p response)
    = JsError message.
Proof.
  unfold AiRepository_handleErrorResponse, throw_Error_of. cbv zeta.
  repeat match goal with
         | |- context [match ?x with _ => _ end] => destruct x
         end; cbn [AiRepository_handleNetworkError];
    try (eexists; reflexivity);
    match goal with
    | |- context [if ?b then _ else _] => destruct b
    end; eexists; reflexivity.
Qed.

(** What the user reads when the backend fails. Without a token the three
    request methods throw 'Authentication required'; when [fetch] rejects
    with a [TypeError] whose message contains 'fetch' they throw 'Network
    connection failed. Please check your internet connection.'; for a
    response that is not ok they throw what [handleNetworkError] makes of
    what [handleErrorResponse] threw, always an [Error] with a string
    message: a fixed message for the statuses 401, 403, 429 and 500
    whatever the body says; for the status 400, 'Message too long' or
    'Invalid request data' when the message of the body is a string that
    in lower case contains 'message too long' or 'invalid request', and
    the [TypeError] of calling [toLowerCase] when that message is a truthy
    value that is not a string; otherwise an [Error] with the message of
    the body: the string itself, which is not empty when the body holds
    strings only, or the string of the other value, which may be empty,
    or the [TypeError] of a value without one. The use cases then show:
    for 401, 'Authentication required. Please log in.'; for 403, 'Access
    denied' in the chat and 'Access denied. Please check your
    permissions.' elsewhere; for 500, each its own 'temporarily
    unavailable' sentence; for 'Message too long', the 2000 characters
    sentence in the chat and the bare message elsewhere. *)
Theorem ai_error_texts `{JsRuntime} (p : AiPlatform) (baseUrl : jsstring)
    (chat : ChatRequest.t) (guidance : SpiritualGuidanceRequest.t)
    (astrology : AstrologyRequest.t) :
  let sent := AiRepository_sendChatMessage p baseUrl chat in
  let guided := AiRepository_requestSpiritualGuidance p baseUrl guidance in
  let read := AiRepository_requestAstrologyReading p baseUrl astrology in
  (forall token,
     getAuthToken p = inl token -> truthy token = false ->
     let e := JsError (lit "Authentication required") in
     sent = Throw e /\ guided = Throw e /\ read = Throw e) /\
  (forall token,
     getAuthToken p = inl (Some token) -> token <> [] ->
     (forall message,
        includes message (lit "fetch") = true ->
        let e := JsError (lit "Network connection failed. Please check your internet connection.") in
        (fetch_chat p (baseUrl ++ lit "/ai/chat") token chat
         = inr (TypeError_with message) -> sent = Throw e) /\
        (fetch_guidance p (baseUrl ++ lit "/ai/spiritual-guidance") token
           guidance = inr (TypeError_with message) -> guided = Throw e) /\
        (fetch_astrology p (baseUrl ++ lit "/ai/astrology") token astrology
         = inr (TypeError_with message) -> read = Throw e) /\
        shown e
        = all_show "Network connection failed. Please check your internet connection.")
     /\
     (forall response,
        fetch_chat p (baseUrl ++ lit "/ai/chat") token chat = inl response ->
        HttpResponse.ok response = false ->
        sent = Throw (AiRepository_handleNetworkError
                        (AiRepository_handleErrorResponse p response))) /\
     (forall response,
        fetch_guidance p (baseUrl ++ lit "/ai/spiritual-guidance") token
          guidance = inl response ->
        HttpResponse.ok response = false ->
        guided = Throw (AiRepository_handleNetworkError
                          (AiRepository_handleErrorResponse p response))) /\
     (forall response,
        fetch_astrology p (baseUrl ++ lit "/ai/astrology") token astrology
        = inl response ->
        HttpResponse.ok response = false ->
        read = Throw (AiRepository_handleNetworkError
                        (AiRepository_handleErrorResponse p response)))) /\
  (forall (A : Type) (response : HttpResponse.t A),
     let e := AiRepository_handleNetworkError
                (AiRepository_handleErrorResponse p response) in
     let status := HttpResponse.status response in
     let errorMessage := AiRepository_errorMessage response in
     (exists message, e = JsError message) /\
     (status = 401 ->
      e = JsError (lit "Authentication required") /\
      shown e = all_show "Authentication required. Please log in.") /\
     (status = 403 ->
      e = JsError (lit "Access denied") /\
      shown e = (Normal (lit "Access denied"),
                 Normal (lit "Access denied. Please check your permissions."),
                 Normal (lit "Access denied. Please check your permissions.")))
     /\
     (status = 429 ->
      e = JsError (lit "Too many requests. Please try again later.") /\
      shown e = all_show "Too many requests. Please try again later.") /\
     (status = 500 ->
      e = JsError (lit "AI service is temporarily unavailable. Please try again later.") /\
      shown e
      = (Normal (lit "AI service is temporarily unavailable. Please try again later."),
         Normal (lit "Spiritual guidance service is temporarily unavailable. Please try again later."),
         Normal (lit "Astrology service is temporarily unavailable. Please try again later.")))
     /\
     (status = 400 ->
      (forall s,
         errorMessage = Message_string s ->
         (includes (toLowerCase p s) (lit "message too long") = true ->
          e = JsError (lit "Message too long") /\
          shown e
          = (Normal (lit "Message too long. Please keep messages under 2000 characters."),
             Normal (lit "Message too long"),
             Normal (lit "Message too long"))) /\
         (includes (toLowerCase p s) (lit "message too long") = false ->
          includes (toLowerCase p s) (lit "invalid request") = true ->
          e = JsError (lit "Invalid request data") /\
          shown e
          = all_show "Invalid request. Please check your input and try again.")
         /\
         (includes (toLowerCase p s) (lit "message too long") = false ->
          includes (toLowerCase p s) (lit "invalid request") = false ->
          e = JsError s)) /\
      (forall text,
         errorMessage = Message_other text ->
         e = AiRepository_handleNetworkError
               (TypeError_with (not_a_function p)))) /\
     (status <> 400 -> status <> 401 -> status <> 403 -> status <> 429 ->
      status <> 500 ->
      (forall s, errorMessage = Message_string s -> e = JsError s) /\
      (forall text,
         errorMessage = Message_other (Some text) -> e = JsError text) /\
      (errorMessage = Message_other None ->
       e = AiRepository_handleNetworkError
             (TypeError_with (not_convertible p)))) /\
     (body_plain response ->
      exists s, errorMessage = Message_string s /\ s <> [] /\
                exists message, e = JsError message /\ message <> [])).
Proof.
  intros sent guided read. split; [|split].
  - intros token Hg Ht e. subst sent guided read e.
    unfold AiRepository_sendChatMessage, AiRepository_requestSpiritualGuidance,
      AiRepository_requestAstrologyReading.
    rewrite !(AiRepository_request_no_token p _ _ _ token Hg Ht).
    repeat split.
  - intros token Hg Ht. split; [|split; [|split]].
    + intros message Hm e.
      assert (He : AiRepository_handleNetworkError (TypeError_with message)
                   = e).
      { cbn [AiRepository_handleNetworkError]. rewrite Hm. reflexivity. }
      split; [|split; [|split]].
      * intros Hf. subst sent. unfold AiRepository_sendChatMessage.
        rewrite (AiRepository_request_rejected p _ _ _ token _ Hg Ht Hf).
        rewrite He. reflexivity.
      * intros Hf. subst guided.
        unfold AiRepository_requestSpiritualGuidance.
        rewrite (AiRepository_request_rejected p _ _ _ token _ Hg Ht Hf).
        rewrite He. reflexivity.
      * intros Hf. subst read. unfold AiRepository_requestAstrologyReading.
        rewrite (AiRepository_request_rejected p _ _ _ token _ Hg Ht Hf).
        rewrite He. reflexivity.
      * vm_compute. reflexivity.
    + intros response Hf Hok. subst sent.
      apply (AiRepository_request_not_ok p _ _ _ token response Hg Ht Hf Hok).
    + intros response Hf Hok. subst guided.
      apply (AiRepository_request_not_ok p _ _ _ token response Hg Ht Hf Hok).
    + intros response Hf Hok. subst read.
      apply (AiRepository_request_not_ok p _ _ _ token response Hg Ht Hf Hok).
  - intros A response e status errorMessage.
    split; [apply rethrown_has_text|].
    subst e status errorMessage.
    unfold AiRepository_handleErrorResponse. cbv zeta.
    split; [|split; [|split; [|split; [|split; [|split]]]]].
    + intros ->. cbn [Z.eqb Pos.eqb]. split; [reflexivity|].
      vm_compute. reflexivity.
    + intros ->. cbn [Z.eqb Pos.eqb]. split; [reflexivity|].
      vm_compute. reflexivity.
    + intros ->. cbn [Z.eqb Pos.eqb]. split; [reflexivity|].
      vm_compute. reflexivity.
    + intros ->. cbn [Z.eqb Pos.eqb]. split; [reflexivity|].
      vm_compute. reflexivity.
    + intros ->. cbn [Z.eqb Pos.eqb]. split.
      * intros s ->. split; [|split].
        -- intros ->. split; [reflexivity|]. vm_compute. reflexivity.
        -- intros -> ->. split; [reflexivity|]. vm_compute. reflexivity.
        -- intros -> ->. reflexivity.
      * intros text ->. reflexivity.
    + intros H0 H1 H3 H9 H5.
      apply Z.eqb_neq in H0, H1, H3, H9, H5. rewrite H0, H1, H3, H9, H5.
      split; [|split].
      * intros s ->. reflexivity.
      * intros text ->. reflexivity.
      * intros ->. reflexivity.
    + intros Hp.
      destruct (AiRepository_errorMessage_plain response Hp) as (s & Es & Hs).
      exists s. split; [exact Es|]. split; [exact Hs|]. rewrite Es.
      repeat match goal with
             | |- context [if ?b then _ else _] => destruct b
             end; eexists; (split; [reflexivity|]);
        first [exact Hs | discriminate].
Qed.

Lemma ai_error_texts_witness :
  AiRepository_requestSpiritualGuidance (failingPlatform 403)
    (lit "http://api") (sampleGuidanceRequest "peace")
  = throw_Error "Access denied" /\
  AiRepository_handleNetworkError
    (AiRepository_handleErrorResponse (failingPlatform 404)
       (@arrayMessageResponse unit 404))
  = JsError [].
Proof.
  split.
  - pose proof (@ai_error_texts RefRuntime.runtime (failingPlatform 403)
                  (lit "http://api")
                  {| ChatRequest.message := None;
                     ChatRequest.conversationId := None;
                     ChatRequest.context :=
                       {| ChatContext.userProfile := None;
                          ChatContext.location := None;
                          ChatContext.timeOfDay := None |} |}
                  (sampleGuidanceRequest "peace")
                  {| AstrologyRequest.birthInfo := sampleBirthInfo;
                     AstrologyRequest.readingType := None;
                     AstrologyRequest.partnerBirthInfo := None |}) as T.
    destruct T as (_ & T & _).
    destruct (T (lit "token") eq_refl ltac:(discriminate))
      as (_ & _ & T' & _).
    rewrite (T' (failingResponse 403) eq_refl eq_refl).
    reflexivity.
  - pose proof (@ai_error_texts RefRuntime.runtime (failingPlatform 404)
                  (lit "http://api")
                  {| ChatRequest.message := None;
                     ChatRequest.conversationId := None;
                     ChatRequest.context :=
                       {| ChatContext.userProfile := None;
                          ChatContext.location := None;
                          ChatContext.timeOfDay := None |} |}
                  (sampleGuidanceRequest "peace")
                  {| AstrologyRequest.birthInfo := sampleBirthInfo;
                     AstrologyRequest.readingType := None;
                     AstrologyRequest.partnerBirthInfo := None |}) as T.
    destruct T as (_ & _ & T).
    destruct (T unit (arrayMessageResponse 404))
      as (_ & _ & _ & _ & _ & _ & T' & _).
    refine (proj1 (proj2 (T' _ _ _ _ _)) [] eq_refl); discriminate.
Defined.

(** ** The conversations in local storage *)







Lemma index_read_in_order (s : LocalStorage) :
  index_in_order s ->
  exists ids, AiRepository_getConversationIds (Some s) = Ids_array ids.
Proof.
  intros Hi. unfold AiRepository_getConversationIds.
  cbn [AiRepository_getStorageItem].
  destruct (getItem s ids_key) as [[ids|json| |e]|] eqn:E; eauto.
  exfalso. exact (Hi json E).
Qed.

Lemma Conversation_id_string_Some (c : Conversation) :
  Conversation_constructed c ->
  Conversation_id c = Some (Conversation_id_string c).
Proof.
  intros Hc. pose proof (constructed_id_truthy c Hc) as Ht.
  unfold Conversation_id_string.
  destruct (Conversation_id c); [reflexivity | discriminate].
Qed.

Section StoredConversations.
Context `{JsRuntime}.
Variable describe : Thrown -> jsstring.



End StoredConversations.



Section KeyCollision.
Context `{JsRuntime}.
Variable describe : Thrown -> jsstring.


End KeyCollision.

Section LoadAll.
Context `{JsRuntime}.
Variable sort : list Conversation -> list Conversation.
Variable describe : Thrown -> jsstring.

Lemma loadEach_In (ids : list jsstring) (ls : option LocalStorage)
    (c : Conversation) :
  In c (AiRepository_loadEach describe ids ls) <->
  exists id, In id ids
             /\ AiRepository_loadConversation describe id ls = Normal (Some c).
Proof.
  induction ids as [|id ids IH].
  - cbn. split; [intros [] | intros (id & [] & _)].
  - cbn [AiRepository_loadEach].
    destruct (AiRepository_loadConversation describe id ls) as [[c'|]|e] eqn:E.
    + cbn [In]. rewrite IH. split.
      * intros [<- | (id' & Hin & Hl)]; [exists id; auto|].
        exists id'. split; [right; exact Hin | exact Hl].
      * intros (id' & [<- | Hin] & Hl).
        -- left. congruence.
        -- right. exists id'. auto.
    + rewrite IH. split.
      * intros (id' & Hin & Hl). exists id'. split; [right; exact Hin | exact Hl].
      * intros (id' & [<- | Hin] & Hl); [congruence|]. exists id'. auto.
    + rewrite IH. split.
      * intros (id' & Hin & Hl). exists id'. split; [right; exact Hin | exact Hl].
      * intros (id' & [<- | Hin] & Hl); [congruence|]. exists id'. auto.
Qed.

Lemma loadEach_length (ids : list jsstring) (ls : option LocalStorage) :
  (List.length (AiRepository_loadEach describe ids ls) <= List.length ids)%nat.
Proof.
  induction ids as [|id ids IH]; [reflexivity|].
  cbn [AiRepository_loadEach].
  destruct (AiRepository_loadConversation describe id ls) as [[c'|]|e];
    cbn [List.length]; lia.
Qed.

Lemma loadConversation_constructed (id : jsstring)
    (ls : option LocalStorage) (c : Conversation) :
  AiRepository_loadConversation describe id ls = Normal (Some c) ->
  Conversation_constructed c.
Proof.
  unfold AiRepository_loadConversation.
  destruct (AiRepository_getStorageItem ls (conversation_key id))
    as [[ids|json| |e]|]; try discriminate.
  unfold Conversation_fromJSON.
  destruct (map_fromJSON _) as [ms|e]; [|discriminate].
  destruct (Conversation_new _) as [c'|e] eqn:E; [|discriminate].
  intros [= <-]. eexists. exact E.
Qed.

Lemma In_firstn {A} (x : A) (n : nat) (l : list A) :
  In x (firstn n l) -> In x l.
Proof.
  intros Hx. rewrite <- (firstn_skipn n l). apply in_or_app. left. exact Hx.
Qed.

Lemma slice_0_firstn {A} (limit : number) (l : list A) :
  exists n, slice_0 limit l = firstn n l.
Proof.
  destruct limit as [q| | |]; cbn [slice_0].
  - cbv zeta. destruct (_ <? 0); eexists; reflexivity.
  - exists 0%nat. reflexivity.
  - exists (List.length l). symmetry. apply firstn_all.
  - exists 0%nat. reflexivity.
Qed.

Lemma slice_0_count {A} (k : nat) (l : list A) :
  number_truthy (number_of_Z (Z.of_nat (S k))) = true
  /\ slice_0 (number_of_Z (Z.of_nat (S k))) l = firstn (S k) l.
Proof.
  unfold number_of_Z, inject_Z, number_truthy, slice_0.
  cbn [Qnum Qden]. rewrite Z.quot_1_r.
  split.
  - destruct (Z.of_nat (S k) =? 0) eqn:E; [|reflexivity].
    apply Z.eqb_eq in E. lia.
  - destruct (Z.of_nat (S k) <? 0) eqn:E.
    + apply Z.ltb_lt in E. lia.
    + rewrite Nat2Z.id. reflexivity.
Qed.

(** Loading all conversations. With an index in order,
    [loadConversations] never throws: it gives, in the order the engine's
    [sort] leaves them, the conversations that [loadConversation] can
    load for the ids of the index, passing over the ids with nothing or
    nothing readable stored; every one is a conversation the constructor
    has accepted. A limit of [k] (a positive integer) restricts the ids
    to the [k] added last to the index, before the unreadable ones are
    passed over, so that fewer than [k] conversations may come back
    although more could be loaded. When the index reads as an object the
    method throws, and the use case shows 'Failed to load conversations.
    Please try again.' *)
Theorem storage_load_all (limit : option number) (s : LocalStorage) :
  (forall l, Permutation (sort l) l) ->
  (index_in_order s ->
   exists ids loaded,
     AiRepository_getConversationIds (Some s) = Ids_array ids /\
     AiRepository_loadConversations sort describe limit (Some s)
     = Normal loaded /\
     (List.length loaded <= List.length ids)%nat /\
     (forall c,
        In c loaded ->
        Conversation_constructed c /\
        exists id,
          In id ids /\
          AiRepository_loadConversation describe id (Some s)
          = Normal (Some c)) /\
     (limit = None ->
      forall c,
        In c loaded <->
        exists id,
          In id ids /\
          AiRepository_loadConversation describe id (Some s)
          = Normal (Some c)) /\
     (forall k : nat,
        limit = Some (number_of_Z (Z.of_nat (S k))) ->
        (List.length loaded <= S k)%nat /\
        forall c,
          In c loaded <->
          exists id,
            In id (skipn (List.length ids - S k) ids) /\
            AiRepository_loadConversation describe id (Some s)
            = Normal (Some c))) /\
  (forall json,
     getItem s ids_key = Some (Text_conversation json) ->
     exists e,
       AiRepository_loadConversations sort describe limit (Some s) = Throw e /\
       LoadConversations_handleError e
       = Normal (lit "Failed to load conversations. Please try again.")).
Proof.
  intros Hsort. split.
  - intros Hi. destruct (index_read_in_order s Hi) as (ids & Hids).
    unfold AiRepository_loadConversations. rewrite Hids. cbv zeta.
    set (chosen := match limit with
                   | Some n => if number_truthy n then slice_0 n (rev ids)
                               else rev ids
                   | None => rev ids
                   end).
    assert (Hchosen : exists n, chosen = firstn n (rev ids)).
    { unfold chosen. destruct limit as [n|].
      - destruct (number_truthy n); [apply slice_0_firstn|].
        exists (List.length (rev ids)). symmetry. apply firstn_all.
      - exists (List.length (rev ids)). symmetry. apply firstn_all. }
    assert (Hin : forall c,
              In c (sort (AiRepository_loadEach describe chosen (Some s)))
              <-> exists id,
                    In id chosen /\
                    AiRepository_loadConversation describe id (Some s)
                    = Normal (Some c)).
    { intros c. rewrite <- loadEach_In. split.
      - apply Permutation_in, Hsort.
      - apply Permutation_in, Permutation_sym, Hsort. }
    assert (Hlen : (List.length
                      (sort (AiRepository_loadEach describe chosen (Some s)))
                    <= List.length chosen)%nat).
    { rewrite (Permutation_length (Hsort _)). apply loadEach_length. }
    exists ids, (sort (AiRepository_loadEach describe chosen (Some s))).
    split; [reflexivity|]. split; [reflexivity|]. split.
    { destruct Hchosen as (n & Hn). clearbody chosen. subst chosen.
      rewrite length_firstn, length_rev in Hlen. lia. }
    split.
    { intros c Hc. apply Hin in Hc as (id & Hid & Hl). split.
      - exact (loadConversation_constructed _ _ _ Hl).
      - exists id. split; [|exact Hl].
        destruct Hchosen as (n & Hn). rewrite Hn in Hid.
        apply (proj2 (in_rev ids id)). apply (In_firstn _ n). exact Hid. }
    split.
    { intros -> c. rewrite Hin. unfold chosen.
      split; intros (id & Hid & Hl); exists id; (split; [|exact Hl]).
      - apply (proj2 (in_rev ids id)). exact Hid.
      - apply (proj1 (in_rev ids id)). exact Hid. }
    intros k ->. unfold chosen in *.
    destruct (slice_0_count k (rev ids)) as [Ht Hs]. clear Hchosen.
    rewrite Ht, Hs, firstn_rev in Hin, Hlen. rewrite Ht, Hs, firstn_rev.
    split.
    + rewrite length_rev, length_skipn in Hlen. lia.
    + intros c. rewrite Hin.
      split; intros (id & Hid & Hl); exists id; (split; [|exact Hl]).
      * apply (proj2 (in_rev _ id)). exact Hid.
      * apply (proj1 (in_rev _ id)). exact Hid.
  - intros json Hj. unfold AiRepository_loadConversations.
    unfold AiRepository_getConversationIds.
    cbn [AiRepository_getStorageItem]. rewrite Hj.
    eexists. split; [reflexivity|].
    cbn [LoadConversations_handleError].
    change (lit "Failed to load conversations: ")
      with (lit "Failed to load conversations" ++ lit ": ").
    rewrite <- app_assoc, includes_prefix. reflexivity.
Qed.

End LoadAll.

(** [insertion_sort] keeps the order of conversations none of which comes
    before another. *)
Lemma insertion_sort_ties (l : list Conversation) :
  (forall a b, In a l -> In b l -> comes_before a b = false) ->
  insertion_sort l = l.
Proof.
  induction l as [|c l IH]; [reflexivity|].
  intros Ht. cbn [insertion_sort fold_right]. fold (insertion_sort l).
  rewrite IH by (intros a b Ha Hb; apply Ht; right; assumption).
  destruct l as [|x l']; [reflexivity|].
  cbn [insert_sorted].
  rewrite (Ht x c) by (cbn; auto). reflexivity.
Qed.

Lemma storage_load_all_witness :
  exists s',
    AiRepository_saveConversation (H := RefRuntime.runtime) (fun _ => [])
      testConversation (Some [])
    = (Normal tt, Some s') /\
    AiRepository_loadConversations (H := RefRuntime.runtime) insertion_sort
      (fun _ => []) (Some (number_of_Z 20)) (Some s')
    = Normal [testConversation].
Proof.
  eexists. split; [vm_compute; reflexivity|].
  assert (Hp : forall l, Permutation (insertion_sort l) l).
  { induction l as [|c l IH]; [constructor|].
    cbn [insertion_sort fold_right]. fold (insertion_sort l).
    transitivity (c :: insertion_sort l); [|constructor; exact IH].
    generalize (insertion_sort l). clear. intros l.
    induction l as [|x l IH]; cbn [insert_sorted]; [reflexivity|].
    destruct (comes_before x c); [|reflexivity].
    rewrite IH. apply perm_swap. }
  match goal with
  | |- AiRepository_loadConversations _ _ ?limit (Some ?s) = _ =>
      destruct (proj1 (@storage_load_all RefRuntime.runtime insertion_sort
                         (fun _ => []) limit s Hp))
        as (ids & loaded & _ & Hl & _)
  end.
  - intros json Hj. vm_compute in Hj. discriminate Hj.
  - rewrite Hl. vm_compute in Hl. injection Hl as <-. reflexivity.
Defined.

